(* ===== verification/_CoqProject ===== *)
-Q . S2P
Prelude.v
Stdio.v
CLib.v
Config.v
KvStore.v
LruOrder.v
LruCache.v
CommandType.v
RequestContext.v
RespEncode.v
RespDecode.v
VNodeStorage.v
Usearch.v
FlatIndex.v
USearchEmbedIndex.v
RespVNodeCodec.v
VNodeIndex.v
VNodeDump.v
MutationApply.v
ReplicationBacklog.v
WalManager.v
MessageBuffer.v
ProtocolExecutor.v
RdbFormat.v
FileSystem.v
MappedFile.v
SnapshotManager.v
CommandHandler.v
TcpConnection.v
ReplicationSlave.v
ReplicationSync.v
ReplicaView.v
ReplicationMaster.v
ReplicationStream.v
Serving.v
Startup.v
BlockingQueue.v
ThreadPool.v
ThreadAofWriter.v
Uring.v
IoUringAofWriter.v
RingBuffer.v
Timer.v
EventLoop.v
Sockets.v
Crash.v
Replication.v
