(* ===== verification/Prelude.v ===== *)
(** * Vemory: a verification library for the semantic cache server

    Vemory is a RESP server on one event loop with two stores, a string map and a
    semantic cache (nodes found by vector similarity), an append-only log,
    snapshots, and PSYNC replication.  This library models its own code,
    src/src/ and src/include/vemory/, as executable definitions with their
    theorems.  One file holds one class of the program; a definition has the
    name of the C++ member it models, and an object is passed in and returned.

    ** The parts and where they are

    - Foundations.  This file: bytes, pointers ([None] is [nullptr]), machine
      widths ([u16], [u32], [u64], [i32], [i64] wrap around), little-endian
      encodings, decimal printing, tactics and the hint database [vemory].
      Stdio: [FILE*] streams, the bounds-checked cursor of the mapped loaders,
      and [IterOrder], the unspecified iteration order of [unordered_map] as a
      class.  CLib: the [strtof], [strtoll] and [ctype] functions in use.
      FileSystem: paths, [rename], failing calls, and the content of a
      util/MappedFile; MappedFile: its descriptor and its mapping.  Config
      (util/Config): the INI parser.
    - Stores.  KvStore (storage/KvStore): the string map, its dump and its two
      loaders.  VNodeStorage: nodes by id and by user key.  LruOrder
      (util/LruOrder.h): the access order, a linked list with an index; LruCache
      (util/lrucache.h): the generic cache, which no part of the server uses.
      Usearch: the interface to the third-party vector index and its laws;
      FlatIndex: a brute-force instance.  USearchEmbedIndex: the wrapper around
      it.  VNodeIndex: the cache itself; VNodeDump: its snapshot segments.
      RespVNodeCodec: the record format of a node.
    - Protocol.  CommandType, RequestContext: from tokens to a typed request.
      RespEncode, RespDecode: the wire format.  MessageBuffer,
      ProtocolExecutor (with RespProtocolHandler): the parse loop of a
      connection.  CommandHandler: registration and dispatch of the commands.
      Serving (the accept callback of [main]): all connections, their executors
      and the one CommandHandler together.
    - Network.  TcpConnection: the output side of a connection and its file
      transfers.  Timer (util/Timer.h): the multimap of timers.  EventLoop
      (net/EventLoop.h): epoll, timers and the idle callback.  Sockets
      (net/TcpServer, net/TcpConnector): listening, accepting, connecting.
    - Durability.  MutationApply: the one write path, which changes a store, then
      logs and feeds the write; it sees the log and the replicas through the
      classes [Wal] and [Repl].  WalManager: the log over the interface
      [AofWriter] of its writers, and its replay; it discharges [Wal].
      BlockingQueue, ThreadAofWriter: the writer with a flush thread, as
      interleaved steps of two threads.  Uring: the interface to io_uring and
      its laws; IoUringAofWriter: the writer on it.  The thread's writer, with
      any schedule that lets its calls return, discharges [AofWriter] (Crash);
      the io_uring one cannot, for it may log a frame that it has refused.
      RdbFormat, SnapshotManager: the snapshot file and the background saves.
    - Replication.  ReplicationBacklog: the ring of the replication stream.
      ReplicationMaster: PSYNC and the feeding of replicas over TcpConnection,
      the backlog and the snapshots; it discharges [Repl].  ReplicationStream:
      the master in any run, seen from one replica.  ReplicationSlave: the state
      machine of a replica; ReplicationSync: a whole resynchronisation;
      ReplicaView: a replica whose vector index is a view of the snapshot;
      Replication: the process of a master and its replica together.
    - The process.  Startup (Vemory.cc): the command line, the configuration,
      recovery, and the objects as [main] makes them.  Crash: the server with
      its log on the writer thread, from a crash to the next start.
      RingBuffer (util/ringbuffer.h): the SPSC ring, which only its tests use;
      ThreadPool (util/ThreadPool.h): workers over a BlockingQueue, unused.

    ** How an operation corresponds to the code

    A member function becomes a Definition from the object and the arguments to
    the result, the out-parameters and the object, with the branches of the
    source in their order.  A loop that is not structural has fuel; [None] is
    exhausted fuel, and a theorem (or the lemma it rests on) shows that what
    the callers pass is enough: the number of nodes plus two for
    ApplyMutation, the length of the data plus one for the parsers and for the
    replay, the used bytes plus one for the backlog, the unread input plus one
    for a replica, the timers that wait plus one for a round of the timers.
    Where a loop may rightly go on, as with timers that come due while the
    timers are walked, the result says that it has not come to its end, and
    nothing is said of what the program does after that.  A wait for a
    completion of io_uring that blocks for ever is [None] as well, and
    uring_calls_end shows that there is none.

    Nothing in the program catches an exception.  Two are modelled, the
    [std::length_error] of [reserve] on a length that a peer has sent
    (RespDecode.cc:78, ReplicationSlave.cc:476; the limits, 2^59 - 1 elements
    and 2^62 - 1 bytes, are those of libstdc++ on x86-64).  They end the process:
    the decoder's status is [thrown], a read round of ProtocolExecutor and
    Serving is [None] ([Throws]), a replica is in [kTerminated] and a start of
    the process is [Terminated], none of which are values of the code.

    Failures of the world (full disks, refused allocations of the index, failing
    or partial socket writes, failing fsync, fork results, clock readings) are
    arguments, so the theorems quantify over them.  The kernel's sides of epoll,
    sockets, io_uring and the clock are classes with laws, and so is the vector
    index; concrete instances evaluate the witnesses.  Threads are relations or
    functions of one step; theorems quantify over the interleavings, and where
    a call has to end they ask for a schedule in which both threads go on, for
    example [alternate] with [enough_turns] (Crash).  A background save is a
    forked child that holds a copy of the stores.  Floats are bit patterns.

    ** What the theorems show

    - Stores: VNodeIndex keeps nodes, vectors and access order consistent under
      every sequence of operations (cache_invariant) and a lookup answers only
      from what is stored (Get_spec); the vector wrapper is a map
      (index_refines_map); a VSET evicts the least recently used nodes, as many
      as it must, and the capacity limit holds (vset_capacity).
    - Protocol: to all its clients at once the server is one map that is
      accessed by one request at a time, and each gets its own replies in order
      (clients_served); of its parts: a connection behaves the same however its
      bytes arrive, but for the number of error lines, which is given
      (fragmentation_irrelevant), the executor serves requests in
      order (executor_serves), every request gets one reply (dispatch_answers),
      the key-value commands are a map (kv_refines_map), a replica never writes
      (replica_never_writes); a connection delivers what it accepted, in order
      (delivery_in_order).  A configuration that is loaded is valid
      (LoadConfig_valid).
    - The loop: timers run once, in order and not early (timers_run), and the
      loop serves them (loop_serves_timers); no descriptor is lost
      (descriptors_kept), and mapped files own what they have (mapped_files_owned).
    - Durability: the frames logged and fed are exactly those that redo a write,
      with two kinds of refusal after which memory is ahead of them
      (write_journal).  Runs without those two: any first part of the log
      rebuilds the stores after the writes it holds (recovery), a restart
      (restart_recovers) and a crash at any point of the writer thread
      (crash_recovers) come back to the stores, up to the access order of the
      cache, which lookups change unlogged; flushes of the writers are durable
      (flush_durable, uring_log) and their calls return (calls_return,
      uring_calls_end); a snapshot is read back (snapshot_roundtrip), replaced
      atomically (save_atomic), and its children are supervised
      (background_saves_supervised); the ring is a queue (ring_fifo), a pool
      runs every task it accepted (pool_runs_tasks).
    - Replication: the backlog is a window on the stream (backlog_window), a
      master gives a replica in sync every frame once and in order
      (replica_stream), a replica converges (slave_converges) and is always
      connected or about to try again, but for a request that could not be sent
      (slave_supervised); both together, with the writes, the save and the
      sockets in any order: a replica that the master counts as in sync holds
      the master's data (replica_follows_master), and one that comes back after
      it lost its link applies exactly the writes fed since (replica_resumes) --
      both as far as its own index takes the vectors.
    - Behaviour at the edges, where the code loses something: a failed VSET that
      loses its key (failed_vset_unlogged); writes logged behind a torn frame
      (writes_after_torn_tail_lost; [swallowed_head] for the cuts it leaves out); io_uring writes that overtake each other
      or are written twice (overtaken_frames_swap, refused_frame_logged_twice);
      a timer that is overdue and stops the loop (overdue_timer_sleeps); a
      replica that never gets past a VSET (viewed_replica_stuck) or never hears
      of a failed request (psync_send_failure_sticks); writes made while no
      replica is connected (unreplicated_writes_lost); a replica erased while
      it is being fed (feed_uses_erased_slave).

    Other theorems of the files, on the codecs, the containers and the
    configuration, are not in this list.

    ** Not modelled

    Logging (util/Logging) and the usage text, on which nothing depends; the
    destructor of util/lrucache.h, which does not compile.  An allocation
    within the limits of its container does not fail: this is assumed also where
    the size comes from outside, in the two places named above.  The hash table
    of KvStore is taken to have no limit (KvStore.cc:81 and 132: the count in a
    damaged dump can be so large that [reserve] throws; the model reads on and
    reports what it finds missing).  The lifetime of shared objects is modelled only where a part depends
    on it (the slaves of a master, the pairs of LruCache).  Weak memory is
    modelled only as far as RingBuffer says.  The timers of SnapshotManager and
    ReplicationSlave are members of their models ([reap_timer_],
    [reconnect_timer_]) and not nodes of the one Timer of the EventLoop.  Serving
    leaves out clients that send PSYNC: what happens to those is the subject of
    ReplicationStream and Replication. *)

From Stdlib Require Export ZArith Lia Ascii String.
From stdpp Require Export base numbers countable strings gmap list.

#[global] Open Scope Z_scope.

(** ** Bytes, strings and pointers *)

(** [std::string], [std::string_view] and raw buffers are sequences of bytes. *)
Abbreviation bytes := (list ascii).

(** A nullable pointer to an object that the callee may read or overwrite:
    [None] is [nullptr], [Some x] points to an object whose value is [x]. *)
Abbreviation ptr A := (option A).

(** A string literal of the source. *)
Definition bs (s : string) : bytes := String.list_ascii_of_string s.

Definition CR : ascii := ascii_of_nat 13.
Definition LF : ascii := ascii_of_nat 10.
Definition CRLF : bytes := [CR; LF].
Definition NUL : ascii := ascii_of_nat 0.

(** [s.size()] and [s.empty()]. *)
Definition size_of {A} (l : list A) : Z := Z.of_nat (length l).
Definition is_empty {A} (l : list A) : bool :=
  match l with [] => true | _ :: _ => false end.

(** [a == b] on strings. *)
Definition beq (a b : bytes) : bool := bool_decide (a = b).

(** [l.substr(pos, n)] for [pos <= l.size()]. *)
Definition sub {A} (pos n : nat) (l : list A) : list A := take n (drop pos l).

(** ** Machine integers: a [w]-bit integer is a [Z], wrapped where the code computes *)

Definition u16 (z : Z) : Z := z mod 2 ^ 16.
Definition u32 (z : Z) : Z := z mod 2 ^ 32.
Definition u64 (z : Z) : Z := z mod 2 ^ 64.
Definition i32 (z : Z) : Z := (z + 2 ^ 31) mod 2 ^ 32 - 2 ^ 31.
Definition i64 (z : Z) : Z := (z + 2 ^ 63) mod 2 ^ 64 - 2 ^ 63.

Definition Z_of_byte (c : ascii) : Z := Z.of_N (N_of_ascii c).
Definition byte_of_Z (z : Z) : ascii := ascii_of_N (Z.to_N (z mod 256)).

(** The object representation of an unsigned integer (x86-64: little endian),
    which is what [fwrite(&x, sizeof x)] and [memcpy(&x, p, sizeof x)] copy. *)
Fixpoint le_encode (n : nat) (z : Z) : bytes :=
  match n with
  | O => []
  | S n' => byte_of_Z z :: le_encode n' (z / 256)
  end.

Fixpoint le_decode (l : bytes) : Z :=
  match l with
  | [] => 0
  | c :: l' => Z_of_byte c + 256 * le_decode l'
  end.

(** ** Decimal notation: what [snprintf] writes for ["%u"], ["%zu"], ["%llu"], ["%lld"] *)

Definition digit (d : Z) : ascii := byte_of_Z (48 + d).
Definition isdigit (c : ascii) : bool := (48 <=? Z_of_byte c) && (Z_of_byte c <=? 57).
Definition digit_value (c : ascii) : Z := Z_of_byte c - 48.

Fixpoint digits (fuel : nat) (n : Z) (acc : bytes) : bytes :=
  match fuel with
  | O => acc
  | S f =>
      let acc' := digit (n mod 10) :: acc in
      if n / 10 =? 0 then acc' else digits f (n / 10) acc'
  end.

(** [Z.log2 n + 1] bits are at least as many as the decimal digits of [n]. *)
Definition print_unsigned (n : Z) : bytes := digits (S (Z.to_nat (Z.log2 n))) n [].

Definition print_signed (n : Z) : bytes :=
  if n <? 0 then "-"%char :: print_unsigned (- n) else print_unsigned n.

(** ** Lemmas on bytes and machine integers *)

Create HintDb vemory.

Lemma Z_of_byte_range c : 0 <= Z_of_byte c < 256.
Proof. unfold Z_of_byte. pose proof (N_ascii_bounded c). lia. Qed.

Lemma Z_of_byte_of_Z z : Z_of_byte (byte_of_Z z) = z mod 256.
Proof.
  unfold Z_of_byte, byte_of_Z. pose proof (Z.mod_pos_bound z 256).
  rewrite N_ascii_embedding; lia.
Qed.

Lemma byte_of_Z_of_byte c : byte_of_Z (Z_of_byte c) = c.
Proof.
  unfold byte_of_Z. rewrite Z.mod_small by apply Z_of_byte_range.
  unfold Z_of_byte. rewrite N2Z.id. apply ascii_N_embedding.
Qed.

Lemma Z_of_byte_inj c d : Z_of_byte c = Z_of_byte d -> c = d.
Proof. intros H. by rewrite <- (byte_of_Z_of_byte c), H, byte_of_Z_of_byte. Qed.

Lemma length_le_encode n z : length (le_encode n z) = n.
Proof. revert z. induction n; simpl; intros; [done|]. by rewrite IHn. Qed.

Lemma le_decode_encode n z :
  0 <= z < 256 ^ Z.of_nat n -> le_decode (le_encode n z) = z.
Proof.
  revert z. induction n as [|n IH]; intros z Hz.
  - simpl in *. lia.
  - rewrite Nat2Z.inj_succ, Z.pow_succ_r in Hz by lia. simpl.
    rewrite Z_of_byte_of_Z, IH.
    + pose proof (Z.div_mod z 256). lia.
    + split; [apply Z.div_pos; lia|]. apply Z.div_lt_upper_bound; lia.
Qed.

Lemma le_decode_range l : 0 <= le_decode l < 256 ^ Z.of_nat (length l).
Proof.
  induction l as [|c l IH]; simpl le_decode; [simpl; lia|].
  simpl length. rewrite Nat2Z.inj_succ, Z.pow_succ_r by lia.
  pose proof (Z_of_byte_range c). lia.
Qed.

Lemma le_encode_decode l : le_encode (length l) (le_decode l) = l.
Proof.
  induction l as [|c l IH]; [done|]. simpl. pose proof (Z_of_byte_range c).
  rewrite (Z.mul_comm 256), Z.div_add, Z.div_small, Z.add_0_l, IH by lia. f_equal.
  apply Z_of_byte_inj. rewrite Z_of_byte_of_Z, Z.mod_add, Z.mod_small; lia.
Qed.

Lemma i64_small z : - 2 ^ 63 <= z < 2 ^ 63 -> i64 z = z.
Proof. intros. unfold i64. rewrite Z.mod_small; lia. Qed.

Lemma i64_congr a b : a mod 2 ^ 64 = b mod 2 ^ 64 -> i64 a = i64 b.
Proof.
  intros H. unfold i64. rewrite <- Z.add_mod_idemp_l, H, Z.add_mod_idemp_l by lia. done.
Qed.

Lemma i64_mod z : i64 z mod 2 ^ 64 = z mod 2 ^ 64.
Proof.
  unfold i64. rewrite <- Zminus_mod_idemp_l, Z.mod_mod by lia.
  rewrite Zminus_mod_idemp_l. f_equal. lia.
Qed.

Lemma u64_small z : 0 <= z < 2 ^ 64 -> u64 z = z.
Proof. intros. unfold u64. by rewrite Z.mod_small. Qed.

Lemma u32_small z : 0 <= z < 2 ^ 32 -> u32 z = z.
Proof. intros. unfold u32. by rewrite Z.mod_small. Qed.

Lemma u16_small z : 0 <= z < 2 ^ 16 -> u16 z = z.
Proof. intros. unfold u16. by rewrite Z.mod_small. Qed.

Lemma beq_true a b : beq a b = true <-> a = b.
Proof. apply bool_decide_eq_true. Qed.

Lemma beq_false a b : beq a b = false <-> a <> b.
Proof. apply bool_decide_eq_false. Qed.

Lemma is_empty_true {A} (l : list A) : is_empty l = true <-> l = [].
Proof. by destruct l. Qed.

Lemma is_empty_false {A} (l : list A) : is_empty l = false <-> l <> [].
Proof. by destruct l. Qed.

Lemma size_of_nonneg {A} (l : list A) : 0 <= size_of l.
Proof. unfold size_of. lia. Qed.

#[export] Hint Resolve Z_of_byte_range size_of_nonneg : vemory.
#[export] Hint Rewrite @length_le_encode @Z_of_byte_of_Z @byte_of_Z_of_byte : vemory.

(** ** Lemmas on decimal notation *)

Lemma digit_range d : 0 <= d < 10 -> isdigit (digit d) = true.
Proof.
  intros. unfold isdigit, digit. rewrite Z_of_byte_of_Z, Z.mod_small by lia.
  apply andb_true_iff. split; apply Z.leb_le; lia.
Qed.

Lemma digit_value_digit d : 0 <= d < 10 -> digit_value (digit d) = d.
Proof. intros. unfold digit_value, digit. rewrite Z_of_byte_of_Z, Z.mod_small; lia. Qed.

Lemma isdigit_range c : isdigit c = true -> 48 <= Z_of_byte c <= 57.
Proof. unfold isdigit. intros [?%Z.leb_le ?%Z.leb_le]%andb_true_iff. lia. Qed.

Lemma digits_app fuel n acc : digits fuel n acc = digits fuel n [] ++ acc.
Proof.
  revert n acc. induction fuel as [|f IH]; intros n acc; simpl; [done|].
  case_match; [done|]. rewrite IH, (IH _ [_]). by rewrite <- app_assoc.
Qed.

Lemma digits_isdigit fuel n acc :
  Forall (fun c => isdigit c = true) acc ->
  Forall (fun c => isdigit c = true) (digits fuel n acc).
Proof.
  revert n acc. induction fuel as [|f IH]; intros n acc Hacc; simpl; [done|].
  assert (isdigit (digit (n mod 10)) = true)
    by (apply digit_range, Z.mod_pos_bound; lia).
  case_match; [by constructor|]. apply IH. by constructor.
Qed.

Lemma digits_length_pos fuel n acc : (0 < fuel)%nat -> (0 < length (digits fuel n acc))%nat.
Proof.
  intros Hf. rewrite digits_app, length_app. destruct fuel as [|f]; [lia|].
  simpl. case_match; simpl; [lia|]. rewrite digits_app, length_app. simpl. lia.
Qed.

(** Reading a printed number back with any step function that behaves like
    [v * 10 + d] as long as the value stays below [hi]. *)
Lemma digits_fold (step : Z -> ascii -> Z) hi fuel n acc :
  (forall v d, 0 <= v -> 0 <= d < 10 -> v * 10 + d <= hi ->
     step v (digit d) = v * 10 + d) ->
  0 <= n <= hi -> n < 10 ^ Z.of_nat fuel ->
  fold_left step (digits fuel n acc) 0 = fold_left step acc n.
Proof.
  intros Hstep. revert n acc. induction fuel as [|f IH]; intros n acc Hn Hf.
  { simpl in *. by replace n with 0 by lia. }
  rewrite Nat2Z.inj_succ, Z.pow_succ_r in Hf by lia.
  pose proof (Z.div_mod n 10). pose proof (Z.mod_pos_bound n 10).
  assert (Hlast : step (n / 10) (digit (n mod 10)) = n)
    by (rewrite Hstep; try lia; apply Z.div_pos; lia).
  simpl. case_match eqn:Hz.
  - apply Z.eqb_eq in Hz. simpl. rewrite Hz in Hlast. by rewrite Hlast.
  - rewrite IH.
    + simpl. by rewrite Hlast.
    + split; [apply Z.div_pos; lia|]. apply Z.div_le_upper_bound; lia.
    + apply Z.div_lt_upper_bound; lia.
Qed.

Lemma print_unsigned_fuel n : 0 <= n -> n < 10 ^ Z.of_nat (S (Z.to_nat (Z.log2 n))).
Proof.
  intros Hn. rewrite Nat2Z.inj_succ, Z2Nat.id by apply Z.log2_nonneg.
  destruct (Z.eq_dec n 0) as [->|]; [simpl; lia|].
  pose proof (Z.log2_spec n). eapply Z.lt_le_trans; [apply H; lia|].
  apply Z.pow_le_mono_l. lia.
Qed.

Lemma print_unsigned_fold step hi n :
  (forall v d, 0 <= v -> 0 <= d < 10 -> v * 10 + d <= hi ->
     step v (digit d) = v * 10 + d) ->
  0 <= n <= hi -> fold_left step (print_unsigned n) 0 = n.
Proof.
  intros Hstep Hn. unfold print_unsigned. erewrite digits_fold; eauto.
  apply print_unsigned_fuel. lia.
Qed.

Lemma print_unsigned_isdigit n : Forall (fun c => isdigit c = true) (print_unsigned n).
Proof. apply digits_isdigit. constructor. Qed.

Lemma print_unsigned_nonempty n : print_unsigned n <> [].
Proof.
  unfold print_unsigned. intros H.
  pose proof (digits_length_pos (S (Z.to_nat (Z.log2 n))) n [] ltac:(lia)) as Hl.
  rewrite H in Hl. simpl in Hl. lia.
Qed.

(** ** Lemmas on lists *)

Lemma Forall_elem {A} (P : A -> Prop) (l : list A) : Forall P l <-> (forall x, x ∈ l -> P x).
Proof. rewrite Forall_forall. by setoid_rewrite list_elem_of_In. Qed.

Lemma NoDup_fst_filter {A B} (P : A * B -> Prop) `{forall x, Decision (P x)} (l : list (A * B)) :
  NoDup l.*1 -> NoDup (filter P l).*1.
Proof.
  induction l as [|x l IH]; intros Hnd; [done|]. rewrite fmap_cons in Hnd.
  apply NoDup_cons in Hnd as [Hx Hnd]. rewrite filter_cons. case_decide; [|by apply IH].
  rewrite fmap_cons. apply NoDup_cons. split; [|by apply IH].
  intros (y & Hy & [_ Hin]%list_elem_of_filter)%list_elem_of_fmap.
  apply Hx, list_elem_of_fmap. eauto.
Qed.

Lemma sub_app_exact {A} (a b c : list A) : sub (length a) (length b) (a ++ b ++ c) = b.
Proof. unfold sub. by rewrite drop_app_length, take_app_length. Qed.

Lemma drop_app_exact {A} (a b : list A) n : n = length a -> drop n (a ++ b) = b.
Proof. intros ->. apply drop_app_length. Qed.

Lemma take_app_exact {A} (a b : list A) n : n = length a -> take n (a ++ b) = a.
Proof. intros ->. apply take_app_length. Qed.

Lemma size_of_app {A} (a b : list A) : size_of (a ++ b) = size_of a + size_of b.
Proof. unfold size_of. rewrite length_app. lia. Qed.

Lemma size_of_cons {A} (x : A) l : size_of (x :: l) = 1 + size_of l.
Proof. unfold size_of. simpl. lia. Qed.

#[export] Hint Rewrite @size_of_app @size_of_cons : vemory.

(** ** Tactics *)

(** Split the goal or a hypothesis along the next [match] and clean up. *)
Ltac split_match := repeat (case_match; simplify_eq/=).

(** Destruct the boolean tests of a hypothesis into arithmetic facts. *)
Ltac bool_facts :=
  repeat match goal with
  | H : (_ <=? _) = true |- _ => apply Z.leb_le in H
  | H : (_ <=? _) = false |- _ => apply Z.leb_gt in H
  | H : (_ <? _) = true |- _ => apply Z.ltb_lt in H
  | H : (_ <? _) = false |- _ => apply Z.ltb_ge in H
  | H : (_ =? _) = true |- _ => apply Z.eqb_eq in H
  | H : (_ =? _) = false |- _ => apply Z.eqb_neq in H
  | H : beq _ _ = true |- _ => apply beq_true in H
  | H : beq _ _ = false |- _ => apply beq_false in H
  | H : is_empty _ = true |- _ => apply is_empty_true in H
  | H : is_empty _ = false |- _ => apply is_empty_false in H
  | H : _ && _ = true |- _ => apply andb_true_iff in H as [? ?]
  | H : _ || _ = false |- _ => apply orb_false_iff in H as [? ?]
  | H : negb _ = true |- _ => apply negb_true_iff in H
  | H : negb _ = false |- _ => apply negb_false_iff in H
  end.

#[global] Arguments le_encode : simpl never.
#[global] Arguments le_decode : simpl never.
#[global] Arguments print_unsigned : simpl never.
#[global] Arguments Z_of_byte : simpl never.
