(* ===== verification/Stdio.v ===== *)
(** * The parts of the C and C++ standard library the persistence code relies on

    [FILE*] streams as byte sequences with a position, and the iteration order
    of [std::unordered_map].  [WriteExact] and [ReadExact] are the helpers that
    KvStore.cc, VNodeIndex.cc and SnapshotManager.cc each declare. *)

From S2P Require Import Prelude.

(** ** Streams *)

(** An open [FILE*]: the file's contents, the stream position, and how many
    more bytes the device accepts ([None]: no limit), so that a short
    [fwrite] is a value of the model. *)
Record File := mkFile {
  f_data : bytes;
  f_pos : nat;
  f_room : option nat
}.

(** Overwrite [data] with [d] from position [pos], zero-filling a gap. *)
Definition pwrite (pos : nat) (d data : bytes) : bytes :=
  take pos (data ++ replicate (pos - length data) NUL) ++ d ++ drop (pos + length d) data.

(** [fwrite(d, 1, d.size(), fp)]: the number of bytes written. *)
Definition fwrite (d : bytes) (fp : File) : nat * File :=
  let n := match f_room fp with None => length d | Some r => Nat.min (length d) r end in
  (n, mkFile (pwrite (f_pos fp) (take n d) (f_data fp)) (f_pos fp + n)
             (option_map (fun r => r - n)%nat (f_room fp))).

(** [fread(buf, 1, n, fp)]: the bytes read. *)
Definition fread (n : nat) (fp : File) : bytes * File :=
  let chunk := sub (f_pos fp) n (f_data fp) in
  (chunk, mkFile (f_data fp) (f_pos fp + length chunk) (f_room fp)).

(** [fseek(fp, off, SEEK_SET)] with a [long] offset; a negative one fails. *)
Definition fseek (off : Z) (fp : File) : bool * File :=
  if off <? 0 then (false, fp)
  else (true, mkFile (f_data fp) (Z.to_nat off) (f_room fp)).

Definition ftell (fp : File) : Z := Z.of_nat (f_pos fp).

Definition WriteExact (d : bytes) (fp : File) : bool * File :=
  let '(n, fp') := fwrite d fp in (bool_decide (n = length d), fp').

(** The buffer on success; a short read leaves it unspecified. *)
Definition ReadExact (n : nat) (fp : File) : option bytes * File :=
  let '(chunk, fp') := fread n fp in
  (if bool_decide (length chunk = n) then Some chunk else None, fp').

(** Taking [n] bytes off the span between [p] and [end], with the bounds check
    the memory-mapped loaders make. *)
Definition span_take (n : nat) (p : bytes) : option (bytes * bytes) :=
  if bool_decide (n <= length p)%nat then Some (take n p, drop n p) else None.

(** ** [std::unordered_map] iteration *)

(** [for (const auto& kv : map)] visits every entry once, in an order the
    standard leaves unspecified.  What the code relies on is the law. *)
Class IterOrder (K : Type) `{Countable K} := {
  iter_order : forall {V : Type}, gmap K V -> list (K * V);
  iter_order_perm : forall {V : Type} (m : gmap K V), iter_order m ≡ₚ map_to_list m
}.

(** One admissible order, for evaluation. *)
Definition default_order K `{Countable K} : IterOrder K :=
  {| iter_order := fun V m => map_to_list m; iter_order_perm := fun V m => Permutation_refl _ |}.

(** ** Lemmas *)

(** A stream positioned at the end of its file, on a device with room. *)
Definition at_end (fp : File) : Prop := f_pos fp = length (f_data fp) /\ f_room fp = None.

(** The stream after appending [d]. *)
Definition appended (d : bytes) (fp : File) : File :=
  mkFile (f_data fp ++ d) (f_pos fp + length d) (f_room fp).

Lemma pwrite_end d data : pwrite (length data) d data = data ++ d.
Proof.
  unfold pwrite. rewrite Nat.sub_diag. simpl. rewrite app_nil_r, firstn_all.
  rewrite drop_ge by lia. by rewrite app_nil_r.
Qed.

Lemma WriteExact_append d fp :
  at_end fp -> WriteExact d fp = (true, appended d fp).
Proof.
  intros [Hpos Hroom]. unfold WriteExact, fwrite, appended. rewrite Hroom, Hpos. simpl.
  rewrite firstn_all, pwrite_end. by rewrite bool_decide_eq_true_2.
Qed.

Lemma appended_at_end d fp : at_end fp -> at_end (appended d fp).
Proof. intros [Hpos Hroom]. split; simpl; [|done]. rewrite length_app. lia. Qed.

Lemma appended_appended d1 d2 fp : appended d2 (appended d1 fp) = appended (d1 ++ d2) fp.
Proof. unfold appended. simpl. rewrite length_app, <- app_assoc. f_equal. lia. Qed.

(** What remains to be read. *)
Definition unread (fp : File) : bytes := drop (f_pos fp) (f_data fp).

Definition skipped (n : nat) (fp : File) : File :=
  mkFile (f_data fp) (f_pos fp + n) (f_room fp).

Lemma ReadExact_spec n fp :
  ReadExact n fp =
    if bool_decide (n <= length (unread fp))%nat
    then (Some (take n (unread fp)), skipped n fp)
    else (None, skipped (length (unread fp)) fp).
Proof.
  unfold ReadExact, fread, sub, skipped. fold (unread fp).
  rewrite length_take. repeat case_bool_decide; try lia.
  - by rewrite Nat.min_l by lia.
  - by rewrite Nat.min_r by lia.
Qed.

Lemma unread_skipped n fp : unread (skipped n fp) = drop n (unread fp).
Proof. unfold unread, skipped. simpl. by rewrite drop_drop. Qed.

Lemma ReadExact_app d rest fp n :
  unread fp = d ++ rest -> n = length d ->
  ReadExact n fp = (Some d, skipped n fp).
Proof.
  intros Hu ->. rewrite ReadExact_spec, Hu, bool_decide_eq_true_2.
  - by rewrite take_app_length.
  - rewrite length_app. lia.
Qed.

Lemma skipped_skipped n m fp : skipped n (skipped m fp) = skipped (m + n) fp.
Proof. unfold skipped. simpl. f_equal. lia. Qed.

Lemma iter_order_lookup {K V} `{IterOrder K} (m : gmap K V) k v :
  (k, v) ∈ iter_order m <-> m !! k = Some v.
Proof. rewrite iter_order_perm. apply elem_of_map_to_list. Qed.

Lemma iter_order_length {K V} `{IterOrder K} (m : gmap K V) :
  length (iter_order m) = size m.
Proof. rewrite iter_order_perm. apply length_map_to_list. Qed.

Lemma iter_order_NoDup_fst {K V} `{IterOrder K} (m : gmap K V) :
  NoDup (fst <$> iter_order m).
Proof. rewrite iter_order_perm. apply NoDup_fst_map_to_list. Qed.

Lemma list_to_map_iter_order {K V} `{IterOrder K} (m : gmap K V) :
  list_to_map (iter_order m) = m.
Proof.
  rewrite <- (list_to_map_to_list m) at 2.
  apply list_to_map_proper; [apply iter_order_NoDup_fst|apply iter_order_perm].
Qed.

(** ** Streams and spans *)

Lemma span_take_app d rest n :
  n = length d -> span_take n (d ++ rest) = Some (d, rest).
Proof.
  intros ->. unfold span_take. rewrite bool_decide_eq_true_2 by (rewrite length_app; lia).
  by rewrite take_app_length, drop_app_length.
Qed.

Lemma le_decode_size (l : bytes) : size_of l < 2 ^ 32 ->
  Z.to_nat (le_decode (le_encode 4 (size_of l))) = length l.
Proof.
  intros. rewrite le_decode_encode; [unfold size_of; lia|].
  pose proof (size_of_nonneg l). change (256 ^ Z.of_nat 4) with (2 ^ 32). lia.
Qed.

Lemma ReadExact_span n fp :
  ReadExact n fp =
    match span_take n (unread fp) with
    | Some (d, _) => (Some d, skipped n fp)
    | None => (None, skipped (length (unread fp)) fp)
    end.
Proof. rewrite ReadExact_spec. unfold span_take. by case_bool_decide. Qed.

Lemma span_take_skipped n fp d p :
  span_take n (unread fp) = Some (d, p) -> unread (skipped n fp) = p.
Proof. rewrite unread_skipped. unfold span_take. case_bool_decide; by intros [= _ <-]. Qed.


(** Reading leaves the file as it is. *)
Lemma ReadExact_data n fp o fp' : ReadExact n fp = (o, fp') -> f_data fp' = f_data fp.
Proof. unfold ReadExact, fread. by intros [= _ <-]. Qed.
