(* ===== verification/CLib.v ===== *)
(** * The C character and number-parsing functions the program calls

    [isspace], [tolower], [strtoll], [strtoull] and [strtof] in the "C" locale
    (glibc behaviour: saturation on overflow, round to nearest even), and the
    comparison of IEEE 754 binary32 values given by their bit patterns. *)

From S2P Require Import Prelude.

(** ** Characters *)

Definition isspace (c : ascii) : bool :=
  let z := Z_of_byte c in ((9 <=? z) && (z <=? 13)) || (z =? 32).

Definition tolower (c : ascii) : ascii :=
  let z := Z_of_byte c in
  if (65 <=? z) && (z <=? 90) then byte_of_Z (z + 32) else c.

Fixpoint take_while (p : ascii -> bool) (l : bytes) : bytes :=
  match l with
  | c :: l' => if p c then c :: take_while p l' else []
  | [] => []
  end.

Fixpoint drop_while (p : ascii -> bool) (l : bytes) : bytes :=
  match l with
  | c :: l' => if p c then drop_while p l' else l
  | [] => []
  end.

(** What [s.c_str()] is to a C function: the bytes before the first NUL. *)
Definition c_str (s : bytes) : bytes := take_while (fun c => negb (bool_decide (c = NUL))) s.

(** ** Integers *)

Definition digits_to_Z (l : bytes) : Z := fold_left (fun v c => v * 10 + digit_value c) l 0.

(** An optional sign. *)
Definition parse_sign (l : bytes) : bool * bytes :=
  match l with
  | c :: l' =>
      if bool_decide (c = "-"%char) then (true, l')
      else if bool_decide (c = "+"%char) then (false, l') else (false, l)
  | [] => (false, l)
  end.

(** The number and the bytes from [endptr] on; no digits: zero and the whole string. *)
Definition strtoll (s : bytes) : Z * bytes :=
  let '(neg, l) := parse_sign (drop_while isspace s) in
  let ds := take_while isdigit l in
  if is_empty ds then (0, s)
  else
    let v := digits_to_Z ds in
    let v := if neg : bool then - v else v in
    (Z.max (- 2 ^ 63) (Z.min (2 ^ 63 - 1) v), drop_while isdigit l).

Definition strtoull (s : bytes) : Z * bytes :=
  let '(neg, l) := parse_sign (drop_while isspace s) in
  let ds := take_while isdigit l in
  if is_empty ds then (0, s)
  else
    let v := digits_to_Z ds in
    (if 2 ^ 64 <=? v then 2 ^ 64 - 1 else u64 (if neg : bool then - v else v),
     drop_while isdigit l).

(** ** binary32 *)

Definition f32_inf : Z := 2139095040.   (* 0x7f800000 *)
Definition f32_nan : Z := 2143289344.   (* 0x7fc00000 *)
Definition f32_sign_bit : Z := 2 ^ 31.

Definition f32_is_nan (b : Z) : bool := f32_inf <? b mod f32_sign_bit.

(** Signed magnitude as an integer: its order is the order of the values. *)
Definition f32_key (b : Z) : Z :=
  if f32_sign_bit <=? b then - (b mod f32_sign_bit) else b.

(** [a > b] on floats. *)
Definition f32_gt (a b : Z) : bool :=
  negb (f32_is_nan a) && negb (f32_is_nan b) && (f32_key b <? f32_key a).

(** The binary32 nearest to [num / den], ties to even. *)
Definition f32_of_ratio (num den : Z) : Z :=
  if num =? 0 then 0 else
  let e0 := Z.log2 num - Z.log2 den in
  let e := if num * 2 ^ Z.max 0 (- e0) <? den * 2 ^ Z.max 0 e0 then e0 - 1 else e0 in
  let e := Z.max e (-126) in
  let sh := 23 - e in
  let n := num * 2 ^ Z.max 0 sh in
  let d := den * 2 ^ Z.max 0 (- sh) in
  let q := n / d in
  let r := n mod d in
  let q := if (d <? 2 * r) || ((2 * r =? d) && Z.odd q) then q + 1 else q in
  Z.min f32_inf ((e + 126) * 2 ^ 23 + q).

(** [m * 10 ^ e], [nd] decimal digits in [m]; far outside the range the result is
    infinity or zero without computing the power. *)
Definition f32_of_decimal (m e nd : Z) : Z :=
  if m =? 0 then 0
  else if 60 <? e then f32_inf
  else if nd + e <? -60 then 0
  else f32_of_ratio (m * 10 ^ Z.max 0 e) (10 ^ Z.max 0 (- e)).

(** [m * 2 ^ e], [nd] bits in [m]. *)
Definition f32_of_binary (m e nd : Z) : Z :=
  if m =? 0 then 0
  else if 200 <? e then f32_inf
  else if nd + e <? -200 then 0
  else f32_of_ratio (m * 2 ^ Z.max 0 e) (2 ^ Z.max 0 (- e)).

Definition isxdigit (c : ascii) : bool :=
  let z := Z_of_byte (tolower c) in isdigit c || ((97 <=? z) && (z <=? 102)).

Definition xdigit_value (c : ascii) : Z :=
  if isdigit c then digit_value c else Z_of_byte (tolower c) - 87.

(** An exponent part introduced by [mark]; without digits it is not consumed. *)
Definition parse_exponent (mark : ascii) (l : bytes) : Z * bytes :=
  match l with
  | c :: l1 =>
      if bool_decide (tolower c = mark) then
        let '(neg, l2) := parse_sign l1 in
        let ds := take_while isdigit l2 in
        if is_empty ds then (0, l)
        else (if neg : bool then - digits_to_Z ds else digits_to_Z ds, drop_while isdigit l2)
      else (0, l)
  | [] => (0, l)
  end.

(** Digits, an optional point and more digits: all digits, how many after the point. *)
Definition parse_mantissa (p : ascii -> bool) (l : bytes) : bytes * Z * bytes :=
  let ip := take_while p l in
  let rest := drop_while p l in
  match rest with
  | c :: rest' =>
      if bool_decide (c = "."%char) then
        let fp := take_while p rest' in
        if is_empty ip && is_empty fp then ([], 0, l)
        else (ip ++ fp, size_of fp, drop_while p rest')
      else (ip, 0, rest)
  | [] => (ip, 0, rest)
  end.

Definition starts_with_ci (w l : bytes) : bool :=
  bool_decide (map tolower (take (length w) l) = w).

(** [nan(n-char-sequence)]. *)
Definition drop_nan_payload (l : bytes) : bytes :=
  match l with
  | c :: l' =>
      if bool_decide (c = "("%char) then
        match drop_while (fun c => isdigit c || bool_decide (c = "_"%char) ||
                 ((97 <=? Z_of_byte (tolower c)) && (Z_of_byte (tolower c) <=? 122))) l' with
        | d :: l'' => if bool_decide (d = ")"%char) then l'' else l
        | [] => l
        end
      else l
  | [] => l
  end.

(** The bit pattern of the value and the bytes from [endptr] on. *)
Definition strtof (s : bytes) : Z * bytes :=
  let '(neg, l) := parse_sign (drop_while isspace s) in
  let signed b := if neg : bool then b + f32_sign_bit else b in
  if starts_with_ci (bs "infinity") l then (signed f32_inf, drop 8 l)
  else if starts_with_ci (bs "inf") l then (signed f32_inf, drop 3 l)
  else if starts_with_ci (bs "nan") l then (signed f32_nan, drop_nan_payload (drop 3 l))
  else
    let '(hds, hfrac, hrest) := parse_mantissa isxdigit (drop 2 l) in
    if starts_with_ci (bs "0x") l && negb (is_empty hds) then
      let '(e, rest) := parse_exponent "p"%char hrest in
      (signed (f32_of_binary (fold_left (fun v c => v * 16 + xdigit_value c) hds 0)
                             (e - 4 * hfrac) (4 * size_of hds)), rest)
    else
      let '(ds, frac, rest) := parse_mantissa isdigit l in
      if is_empty ds then (0, s)
      else
        let '(e, rest) := parse_exponent "e"%char rest in
        (signed (f32_of_decimal (digits_to_Z ds) (e - frac) (size_of ds)), rest).

(** ** Lemmas *)

Lemma take_while_all p l : Forall (fun c => p c = true) l -> take_while p l = l.
Proof. induction 1 as [|c l Hc Hl IH]; [done|]. simpl. by rewrite Hc, IH. Qed.

Lemma drop_while_all p l : Forall (fun c => p c = true) l -> drop_while p l = [].
Proof. induction 1 as [|c l Hc Hl IH]; [done|]. simpl. by rewrite Hc. Qed.

Lemma digits_to_Z_print n : 0 <= n -> digits_to_Z (print_unsigned n) = n.
Proof.
  intros. unfold digits_to_Z. apply (print_unsigned_fold _ n); [|lia].
  intros v d ? ? ?. by rewrite digit_value_digit.
Qed.

(** [rest] does not go on with a digit. *)
Definition stops_digits (rest : bytes) : Prop :=
  match rest with c :: _ => isdigit c = false | [] => True end.

Lemma take_while_app p a b :
  Forall (fun c => p c = true) a -> match b with c :: _ => p c = false | [] => True end ->
  take_while p (a ++ b) = a /\ drop_while p (a ++ b) = b.
Proof.
  intros Ha Hb. induction Ha as [|c a Hc Ha [IH1 IH2]]; cbn.
  - destruct b as [|c b]; [done|]. cbn. by rewrite Hb.
  - by rewrite Hc, IH1, IH2.
Qed.

(** A printed number in front of something else. *)
Lemma print_unsigned_front n rest :
  0 <= n -> stops_digits rest ->
  let '(neg, l) := parse_sign (drop_while isspace (print_unsigned n ++ rest)) in
  neg = false /\ take_while isdigit l = print_unsigned n /\ drop_while isdigit l = rest /\
  digits_to_Z (take_while isdigit l) = n /\ is_empty (take_while isdigit l) = false.
Proof.
  intros Hn Hr. pose proof (print_unsigned_isdigit n) as Hd. pose proof (digits_to_Z_print n Hn) as Hv.
  pose proof (print_unsigned_nonempty n) as Hne.
  destruct (take_while_app isdigit _ rest Hd Hr) as [Ht Hw].
  assert (drop_while isspace (print_unsigned n ++ rest) = print_unsigned n ++ rest /\
    parse_sign (print_unsigned n ++ rest) = (false, print_unsigned n ++ rest)) as [-> ->].
  { destruct (print_unsigned n) as [|c l]; [done|]. apply Forall_cons_iff in Hd as [Hc _].
    apply isdigit_range in Hc. cbn. unfold isspace. split.
    - assert ((9 <=? Z_of_byte c) && (Z_of_byte c <=? 13) || (Z_of_byte c =? 32) = false) as Hs.
      { destruct (Z.leb_spec (Z_of_byte c) 13), (Z.eqb_spec (Z_of_byte c) 32); try lia; by rewrite ?andb_false_r. }
      by rewrite Hs.
    - rewrite !bool_decide_eq_false_2; [done|by intros ->|by intros ->]. }
  rewrite Ht. split_and!; try done. by apply is_empty_false.
Qed.

Lemma strtoll_print n rest :
  0 <= n < 2 ^ 63 -> stops_digits rest -> strtoll (print_unsigned n ++ rest) = (n, rest).
Proof.
  intros Hn Hr. pose proof (print_unsigned_front n rest ltac:(lia) Hr) as H. unfold strtoll.
  destruct (parse_sign _) as [neg l]. destruct H as (-> & Ht & -> & Hv & ->). rewrite Hv. f_equal. lia.
Qed.

Lemma strtoull_print n rest :
  0 <= n < 2 ^ 64 -> stops_digits rest -> strtoull (print_unsigned n ++ rest) = (n, rest).
Proof.
  intros Hn Hr. pose proof (print_unsigned_front n rest ltac:(lia) Hr) as H. unfold strtoull.
  destruct (parse_sign _) as [neg l]. destruct H as (-> & Ht & -> & Hv & ->). rewrite Hv.
  destruct (Z.leb_spec (2 ^ 64) n); [lia|]. by rewrite u64_small.
Qed.

(** Samples: 0.2f, 1e10f, -0.0f, smallest subnormal, overflow, hexadecimal. *)
Example strtof_samples :
  map (fun s => (strtof (bs s)).1) ["0.2"; "1e10"; "-0"; "1.4e-45"; "1e39"; "0x1.8p1"; " .5"]%string
  = [1045220557; 1343554297; 2147483648; 1; f32_inf; 1077936128; 1056964608].
Proof. vm_compute. reflexivity. Qed.
