(* ===== verification/Config.v ===== *)
(** * Config: the INI configuration file

    Models include/vemory/util/Config.h and src/util/Config.cc.  An output
    parameter that may be null is a [ptr]; [error] keeps what it pointed to where
    the code does not write it. *)

From S2P Require Import Prelude.
From S2P Require Import CLib.

Inductive AofFsyncPolicy := kNo | kEverySec | kAlways.
Inductive AofIoMode := kAuto | kThread | kIoUring.

#[export] Instance AofFsyncPolicy_eq_dec : EqDecision AofFsyncPolicy.
Proof. solve_decision. Defined.
#[export] Instance AofIoMode_eq_dec : EqDecision AofIoMode.
Proof. solve_decision. Defined.

Record Config := mkConfig {
  port : Z;
  bind : bytes;
  log_level : bytes;
  kv_reserve : Z;
  default_capacity : Z;
  max_entries : Z;
  persistence_dir : bytes;
  load_on_startup : bool;
  aof : bool;
  aof_fsync : AofFsyncPolicy;
  aof_io : AofIoMode;
  aof_flush_interval_ms : Z;
  slaveof : bool;
  slaveof_host : bytes;
  slaveof_port : Z;
  warnings : list bytes
}.

(** The default member initialisers. *)
Definition default_config : Config :=
  mkConfig 8888 (bs "0.0.0.0") (bs "info") 100000 1024 0 (bs "data") false false kEverySec kAuto 1000
    false [] 0 [].

(** Assignments to members. *)
Definition set_port c x := mkConfig x (bind c) (log_level c) (kv_reserve c) (default_capacity c) (max_entries c)
  (persistence_dir c) (load_on_startup c) (aof c) (aof_fsync c) (aof_io c) (aof_flush_interval_ms c) (slaveof c)
  (slaveof_host c) (slaveof_port c) (warnings c).
Definition set_bind c x := mkConfig (port c) x (log_level c) (kv_reserve c) (default_capacity c) (max_entries c)
  (persistence_dir c) (load_on_startup c) (aof c) (aof_fsync c) (aof_io c) (aof_flush_interval_ms c) (slaveof c)
  (slaveof_host c) (slaveof_port c) (warnings c).
Definition set_log_level c x := mkConfig (port c) (bind c) x (kv_reserve c) (default_capacity c) (max_entries c)
  (persistence_dir c) (load_on_startup c) (aof c) (aof_fsync c) (aof_io c) (aof_flush_interval_ms c) (slaveof c)
  (slaveof_host c) (slaveof_port c) (warnings c).
Definition set_kv_reserve c x := mkConfig (port c) (bind c) (log_level c) x (default_capacity c) (max_entries c)
  (persistence_dir c) (load_on_startup c) (aof c) (aof_fsync c) (aof_io c) (aof_flush_interval_ms c) (slaveof c)
  (slaveof_host c) (slaveof_port c) (warnings c).
Definition set_default_capacity c x := mkConfig (port c) (bind c) (log_level c) (kv_reserve c) x (max_entries c)
  (persistence_dir c) (load_on_startup c) (aof c) (aof_fsync c) (aof_io c) (aof_flush_interval_ms c) (slaveof c)
  (slaveof_host c) (slaveof_port c) (warnings c).
Definition set_max_entries c x := mkConfig (port c) (bind c) (log_level c) (kv_reserve c) (default_capacity c) x
  (persistence_dir c) (load_on_startup c) (aof c) (aof_fsync c) (aof_io c) (aof_flush_interval_ms c) (slaveof c)
  (slaveof_host c) (slaveof_port c) (warnings c).
Definition set_dir c x := mkConfig (port c) (bind c) (log_level c) (kv_reserve c) (default_capacity c) (max_entries c)
  x (load_on_startup c) (aof c) (aof_fsync c) (aof_io c) (aof_flush_interval_ms c) (slaveof c)
  (slaveof_host c) (slaveof_port c) (warnings c).
Definition set_load c x := mkConfig (port c) (bind c) (log_level c) (kv_reserve c) (default_capacity c) (max_entries c)
  (persistence_dir c) x (aof c) (aof_fsync c) (aof_io c) (aof_flush_interval_ms c) (slaveof c)
  (slaveof_host c) (slaveof_port c) (warnings c).
Definition set_aof c x := mkConfig (port c) (bind c) (log_level c) (kv_reserve c) (default_capacity c) (max_entries c)
  (persistence_dir c) (load_on_startup c) x (aof_fsync c) (aof_io c) (aof_flush_interval_ms c) (slaveof c)
  (slaveof_host c) (slaveof_port c) (warnings c).
Definition set_aof_fsync c x := mkConfig (port c) (bind c) (log_level c) (kv_reserve c) (default_capacity c)
  (max_entries c) (persistence_dir c) (load_on_startup c) (aof c) x (aof_io c) (aof_flush_interval_ms c) (slaveof c)
  (slaveof_host c) (slaveof_port c) (warnings c).
Definition set_aof_io c x := mkConfig (port c) (bind c) (log_level c) (kv_reserve c) (default_capacity c)
  (max_entries c) (persistence_dir c) (load_on_startup c) (aof c) (aof_fsync c) x (aof_flush_interval_ms c) (slaveof c)
  (slaveof_host c) (slaveof_port c) (warnings c).
Definition set_interval c x := mkConfig (port c) (bind c) (log_level c) (kv_reserve c) (default_capacity c)
  (max_entries c) (persistence_dir c) (load_on_startup c) (aof c) (aof_fsync c) (aof_io c) x (slaveof c)
  (slaveof_host c) (slaveof_port c) (warnings c).
Definition set_slaveof c x host p := mkConfig (port c) (bind c) (log_level c) (kv_reserve c) (default_capacity c)
  (max_entries c) (persistence_dir c) (load_on_startup c) (aof c) (aof_fsync c) (aof_io c) (aof_flush_interval_ms c) x
  host p (warnings c).
Definition add_warning c w := mkConfig (port c) (bind c) (log_level c) (kv_reserve c) (default_capacity c)
  (max_entries c) (persistence_dir c) (load_on_startup c) (aof c) (aof_fsync c) (aof_io c) (aof_flush_interval_ms c)
  (slaveof c) (slaveof_host c) (slaveof_port c) (warnings c ++ [w]).

Definition Trim (s : bytes) : bytes := rev (drop_while isspace (rev (drop_while isspace s))).

Definition ToLower (s : bytes) : bytes := tolower <$> s.

(** [out] is not null. *)
Definition ParseUint (text : bytes) : option Z :=
  if is_empty text then None
  else
    let s := c_str text in
    let '(v, rest) := strtoull s in
    if beq rest s || negb (is_empty rest) then None else Some v.

Definition IsKnownSection (section : bytes) : bool :=
  beq section (bs "server") || beq section (bs "logging") || beq section (bs "storage") ||
  beq section (bs "index") || beq section (bs "persistence").

Definition ParseBool (text : bytes) : option bool :=
  let lower := ToLower text in
  if beq lower (bs "true") || beq lower (bs "1") || beq lower (bs "yes") || beq lower (bs "on") then Some true
  else if beq lower (bs "false") || beq lower (bs "0") || beq lower (bs "no") || beq lower (bs "off") then Some false
  else None.

Definition IsValidLogLevel (level : bytes) : bool :=
  beq level (bs "trace") || beq level (bs "debug") || beq level (bs "info") || beq level (bs "warn") ||
  beq level (bs "error") || beq level (bs "critical") || beq level (bs "off").

(** [if (error != nullptr) *error = msg]. *)
Definition set_error (error : ptr bytes) (msg : bytes) : ptr bytes :=
  match error with None => None | Some _ => Some msg end.

(** The configuration, or (returning false) [*error]. *)
Definition ApplyKey (cfg : Config) (section key value : bytes) (error : ptr bytes) : Config + ptr bytes :=
  let unknown := inl (add_warning cfg (bs "unknown key " ++ section ++ bs "." ++ key)) in
  if negb (IsKnownSection section) then inl cfg
  else if beq section (bs "server") then
    if beq key (bs "port") then
      match ParseUint value with
      | Some v => if (v =? 0) || (65535 <? v) then inr (set_error error (bs "invalid server.port: " ++ value))
                  else inl (set_port cfg (u16 v))
      | None => inr (set_error error (bs "invalid server.port: " ++ value))
      end
    else if beq key (bs "bind") then
      if is_empty value then inr (set_error error (bs "invalid server.bind: empty")) else inl (set_bind cfg value)
    else unknown
  else if beq section (bs "logging") then
    if beq key (bs "level") then
      let level := ToLower value in
      if negb (IsValidLogLevel level) then inr (set_error error (bs "invalid logging.level: " ++ value))
      else inl (set_log_level cfg level)
    else unknown
  else if beq section (bs "storage") then
    if beq key (bs "kv_reserve") then
      match ParseUint value with
      | Some v => inl (set_kv_reserve cfg v)
      | None => inr (set_error error (bs "invalid storage.kv_reserve: " ++ value))
      end
    else unknown
  else if beq section (bs "index") then
    if beq key (bs "default_capacity") then
      match ParseUint value with
      | Some v => if v =? 0 then inr (set_error error (bs "invalid index.default_capacity: " ++ value))
                  else inl (set_default_capacity cfg v)
      | None => inr (set_error error (bs "invalid index.default_capacity: " ++ value))
      end
    else if beq key (bs "max_entries") then
      match ParseUint value with
      | Some v => inl (set_max_entries cfg v)
      | None => inr (set_error error (bs "invalid index.max_entries: " ++ value))
      end
    else unknown
  else if beq section (bs "persistence") then
    if beq key (bs "dir") then inl (set_dir cfg value)
    else if beq key (bs "load_on_startup") then
      match ParseBool value with
      | Some v => inl (set_load cfg v)
      | None => inr (set_error error (bs "invalid persistence.load_on_startup: " ++ value))
      end
    else if beq key (bs "aof") then
      match ParseBool value with
      | Some v => inl (set_aof cfg v)
      | None => inr (set_error error (bs "invalid persistence.aof: " ++ value))
      end
    else if beq key (bs "aof_fsync") then
      let lower := ToLower value in
      if beq lower (bs "no") then inl (set_aof_fsync cfg kNo)
      else if beq lower (bs "everysec") then inl (set_aof_fsync cfg kEverySec)
      else if beq lower (bs "always") then inl (set_aof_fsync cfg kAlways)
      else inr (set_error error (bs "invalid persistence.aof_fsync: " ++ value ++
                                 bs " (expected no|everysec|always)"))
    else if beq key (bs "aof_io") then
      let lower := ToLower value in
      if beq lower (bs "auto") then inl (set_aof_io cfg kAuto)
      else if beq lower (bs "thread") then inl (set_aof_io cfg kThread)
      else if beq lower (bs "iouring") then inl (set_aof_io cfg kIoUring)
      else inr (set_error error (bs "invalid persistence.aof_io: " ++ value ++
                                 bs " (expected auto|thread|iouring)"))
    else if beq key (bs "aof_flush_interval_ms") then
      match ParseUint value with
      | Some v => if (v <? 1) || (600000 <? v)
                  then inr (set_error error (bs "invalid persistence.aof_flush_interval_ms: " ++ value))
                  else inl (set_interval cfg (i32 v))
      | None => inr (set_error error (bs "invalid persistence.aof_flush_interval_ms: " ++ value))
      end
    else unknown
  else unknown.

(** The lines [std::getline] returns one after the other. *)
Fixpoint getlines (acc l : bytes) : list bytes :=
  match l with
  | [] => if is_empty acc then [] else [rev acc]
  | c :: l => if bool_decide (c = LF) then rev acc :: getlines [] l else getlines (c :: acc) l
  end.

(** The local variables of [LoadConfig]. *)
Record Parser := mkParser { cfg : Config; section : bytes; warned_sections : gset bytes }.

Definition at_line (line_no : Z) (msg : bytes) : bytes := bs "line " ++ print_unsigned line_no ++ bs ": " ++ msg.

(** [line.find('=')]: what is before it and what is after it. *)
Fixpoint split_eq (l : bytes) : option (bytes * bytes) :=
  match l with
  | [] => None
  | c :: l => if bool_decide (c = "="%char) then Some ([], l)
              else match split_eq l with Some (a, b) => Some (c :: a, b) | None => None end
  end.

(** The body of the loop: [inr] where it returns false. *)
Definition LoadLine (line_no : Z) (line : bytes) (error : ptr bytes) (p : Parser) : Parser + ptr bytes :=
  let trimmed := Trim line in
  match trimmed with
  | [] => inl p
  | c :: rest =>
      if bool_decide (c = "#"%char) || bool_decide (c = ";"%char) then inl p
      else if bool_decide (c = "["%char) then
        if negb (bool_decide (last trimmed = Some "]"%char)) || (length trimmed <? 3)%nat
        then inr (set_error error (at_line line_no (bs "bad section header")))
        else
          let section := ToLower (Trim (sub 1 (length trimmed - 2) trimmed)) in
          if is_empty section then inr (set_error error (at_line line_no (bs "empty section name")))
          else if negb (IsKnownSection section) && negb (bool_decide (section ∈ warned_sections p))
          then inl (mkParser (add_warning (cfg p) (bs "unknown section [" ++ section ++ bs "]")) section
                      ({[section]} ∪ warned_sections p))
          else inl (mkParser (cfg p) section (warned_sections p))
      else
        match split_eq trimmed with
        | None => inr (set_error error (at_line line_no (bs "expected key = value")))
        | Some (before, after) =>
            if is_empty (section p) then inr (set_error error (at_line line_no (bs "key outside of section")))
            else
              let key := ToLower (Trim before) in
              let value := Trim after in
              if is_empty key then inr (set_error error (at_line line_no (bs "empty key")))
              else
                match ApplyKey (cfg p) (section p) key value error with
                | inl cfg => inl (mkParser cfg (section p) (warned_sections p))
                | inr error =>
                    inr (match error with
                         | Some e => if is_empty e then Some e else Some (at_line line_no e)
                         | None => None
                         end)
                end
        end
  end.

Fixpoint LoadLines (line_no : Z) (lines : list bytes) (error : ptr bytes) (p : Parser) : Parser + ptr bytes :=
  match lines with
  | [] => inl p
  | line :: lines =>
      match LoadLine (line_no + 1) line error p with
      | inl p => LoadLines (line_no + 1) lines error p
      | inr error => inr error
      end
  end.

(** [file]: the content of the file at [path], if it can be opened.  The result,
    [*out] and [*error]. *)
Definition LoadConfig (path : bytes) (file : option bytes) (out : ptr Config) (error : ptr bytes)
    : bool * ptr Config * ptr bytes :=
  match out with
  | None => (false, out, set_error error (bs "null Config"))
  | Some _ =>
      match file with
      | None => (false, out, set_error error (bs "cannot open config file: " ++ path))
      | Some text =>
          match LoadLines 0 (getlines [] text) error (mkParser default_config [] ∅) with
          | inl p => (true, Some (cfg p), error)
          | inr error => (false, out, error)
          end
      end
  end.

(** ** Lemmas: values *)

(** What every loaded configuration satisfies. *)
Record config_ok (c : Config) : Prop := {
  ok_port : 0 < port c <= 65535;
  ok_bind : bind c <> [];
  ok_level : IsValidLogLevel (log_level c) = true;
  ok_reserve : 0 <= kv_reserve c < 2 ^ 64;
  ok_capacity : 0 < default_capacity c < 2 ^ 64;
  ok_entries : 0 <= max_entries c < 2 ^ 64;
  ok_interval : 1 <= aof_flush_interval_ms c <= 600000
}.

Lemma default_ok : config_ok default_config.
Proof. by split. Qed.

Lemma strtoull_range s : 0 <= (strtoull s).1 < 2 ^ 64.
Proof.
  unfold strtoull. destruct (parse_sign _) as [neg l]. destruct (is_empty _); [done|]. cbn [fst].
  destruct (Z.leb_spec (2 ^ 64) (digits_to_Z (take_while isdigit l))); [done|]. apply Z.mod_pos_bound. lia.
Qed.

Lemma ParseUint_range text v : ParseUint text = Some v -> 0 <= v < 2 ^ 64.
Proof.
  unfold ParseUint. destruct (is_empty text); [done|]. pose proof (strtoull_range (c_str text)) as H.
  destruct (strtoull _) as [w rest]. destruct (_ || _); [done|]. by intros [= <-].
Qed.

(** An error message is set where there is a place for it. *)
Definition reported (error : ptr bytes) : Prop := match error with Some e => e <> [] | None => True end.

Lemma set_error_reported error msg : msg <> [] -> reported (set_error error msg) /\
  (is_Some (set_error error msg) <-> is_Some error).
Proof. intros H. destruct error; cbn; (split; [done|]); split; by intros []. Qed.

(** The result of a step that may fail. *)
Definition outcome {A} (P : A -> Prop) (error : ptr bytes) (r : A + ptr bytes) : Prop :=
  match r with inl a => P a | inr e => reported e /\ (is_Some e <-> is_Some error) end.

Ltac err := apply set_error_reported; done.

Lemma ApplyKey_ok c s k v error : config_ok c -> outcome config_ok error (ApplyKey c s k v error).
Proof.
  intros Hc. pose proof Hc as [H1 H2 H3 H4 H5 H6 H7].
  assert (config_ok (add_warning c (bs "unknown key " ++ s ++ bs "." ++ k))) as Hw by by split.
  unfold ApplyKey. destruct (IsKnownSection s); [|done]. cbn [negb].
  destruct (beq s _); [|destruct (beq s _); [|destruct (beq s _); [|destruct (beq s _); [|destruct (beq s _); [|done]]]]].
  - destruct (beq k _); [|destruct (beq k _); [|done]].
    + destruct (ParseUint v) as [n|] eqn:E; [|err]. apply ParseUint_range in E.
      destruct (Z.eqb_spec n 0), (Z.ltb_spec 65535 n); cbn [orb]; try err. split; try done. cbn.
      unfold u16. rewrite Z.mod_small; lia.
    + destruct (is_empty v) eqn:E; [err|]. apply is_empty_false in E. by split.
  - destruct (beq k _); [|done]. destruct (IsValidLogLevel (ToLower v)) eqn:E; [by split|err].
  - destruct (beq k _); [|done]. destruct (ParseUint v) as [n|] eqn:E; [|err]. apply ParseUint_range in E. by split.
  - destruct (beq k _); [|destruct (beq k _); [|done]];
      (destruct (ParseUint v) as [n|] eqn:E; [|err]); apply ParseUint_range in E; [|by split].
    destruct (Z.eqb_spec n 0); [err|]. split; try done. cbn. lia.
  - repeat (destruct (beq k _); [|try done]).
    + by split.
    + destruct (ParseBool v); [by split|err].
    + destruct (ParseBool v); [by split|err].
    + repeat (destruct (beq _ _); [by split|]). err.
    + repeat (destruct (beq _ _); [by split|]). err.
    + destruct (ParseUint v) as [n|] eqn:E; [|err].
      destruct (Z.ltb_spec n 1), (Z.ltb_spec 600000 n); cbn [orb]; try err. split; try done. cbn.
      unfold i32. rewrite Z.mod_small; lia.
Qed.

Lemma LoadLine_ok n line error p :
  config_ok (cfg p) -> outcome (fun p => config_ok (cfg p)) error (LoadLine n line error p).
Proof.
  intros Hc. unfold LoadLine. destruct (Trim line) as [|c rest]; [done|].
  destruct (_ || _); [done|]. case_bool_decide.
  - destruct (_ || _); [err|]. destruct (is_empty _); [err|]. destruct (_ && _); [|done]. destruct Hc. by split.
  - destruct (split_eq _) as [[before after]|]; [|err]. destruct (is_empty (section p)); [err|].
    destruct (is_empty _); [err|].
    pose proof (ApplyKey_ok (cfg p) (section p) (ToLower (Trim before)) (Trim after) error Hc) as HA.
    destruct (ApplyKey _ _ _ _ _) as [c'|e]; [done|]. cbn in HA |- *. destruct HA as [H1 H2].
    destruct e as [e|]; [|done]. apply is_empty_false in H1 as He. rewrite He. split; [done|].
    rewrite <- H2. by split; eexists.
Qed.

Lemma LoadLines_ok lines n error p :
  config_ok (cfg p) -> outcome (fun p => config_ok (cfg p)) error (LoadLines n lines error p).
Proof.
  revert n p. induction lines as [|line lines IH]; intros n p Hc; [done|]. cbn [LoadLines].
  pose proof (LoadLine_ok (n + 1) line error p Hc) as H. destruct (LoadLine _ _ _ _) as [p'|e]; [|done]. by apply IH.
Qed.

(** C35: whatever a configuration file contains, the loader either succeeds and
    hands out a usable configuration -- a port from 1 to 65535, a bind address, a
    known log level, a positive index capacity, sizes of 64 bits and a flush
    interval from 1 ms to ten minutes -- or it reports failure, leaves [*out] as
    it was, and has set a message where the caller wants one. *)
Theorem LoadConfig_valid (path : bytes) (file : option bytes) (out : ptr Config) (error : ptr bytes) :
  match LoadConfig path file out error with
  | (true, out', error') => (exists c, out' = Some c /\ config_ok c) /\ error' = error
  | (false, out', error') => out' = out /\ reported error' /\ (is_Some error' <-> is_Some error)
  end.
Proof.
  unfold LoadConfig. destruct out as [c0|]; [|split; [done|err]]. destruct file as [text|]; [|split; [done|err]].
  pose proof (LoadLines_ok (getlines [] text) 0 error (mkParser default_config [] ∅) default_ok) as H.
  destruct (LoadLines _ _ _ _) as [p|e]; [|done]. by split; [eexists|].
Qed.

(** ** Lemmas: lines *)

Definition spaces (p : bytes) : Prop := Forall (fun c => isspace c = true) p.

Lemma drop_while_spaces p x : spaces p -> drop_while isspace (p ++ x) = drop_while isspace x.
Proof. induction 1 as [|c p Hc Hp IH]; [done|]. cbn. by rewrite Hc. Qed.

Definition ltrim (s : bytes) : bytes := drop_while isspace s.
Definition rtrim (s : bytes) : bytes := rev (drop_while isspace (rev s)).

Lemma spaces_rev p : spaces p -> spaces (rev p).
Proof. apply Forall_rev. Qed.

Lemma rtrim_spaces x p : spaces p -> rtrim (x ++ p) = rtrim x.
Proof. intros H. unfold rtrim. by rewrite rev_app_distr, drop_while_spaces by by apply spaces_rev. Qed.

(** A word starts and ends with a character that is no space. *)
Definition word (x : bytes) : Prop :=
  exists c d, head x = Some c /\ last x = Some d /\ isspace c = false /\ isspace d = false.

Lemma ltrim_head c x : isspace c = false -> ltrim (c :: x) = c :: x.
Proof. intros H. unfold ltrim. cbn. by rewrite H. Qed.

Lemma rtrim_last x d : isspace d = false -> rtrim (x ++ [d]) = x ++ [d].
Proof. intros H. unfold rtrim. rewrite rev_app_distr. cbn. rewrite H. cbn. by rewrite rev_involutive. Qed.

Lemma Trim_word p x q : spaces p -> spaces q -> word x -> Trim (p ++ x ++ q) = x.
Proof.
  intros Hp Hq (c & d & Hc & Hd & Hc' & Hd'). unfold Trim. rewrite drop_while_spaces by done.
  destruct x as [|c0 x]; [done|]. injection Hc as ->. apply last_Some in Hd as [y Hy]. rewrite Hy in *.
  change (rtrim (ltrim ((y ++ [d]) ++ q)) = y ++ [d]). rewrite <- Hy, <- app_comm_cons, ltrim_head by done.
  rewrite app_comm_cons, Hy, rtrim_spaces by done. by apply rtrim_last.
Qed.

Lemma Trim_spaces p : spaces p -> Trim p = [].
Proof. intros H. unfold Trim. by rewrite (drop_while_all isspace p H). Qed.

Lemma split_eq_app a b : "="%char ∉ a -> split_eq (a ++ "="%char :: b) = Some (a, b).
Proof.
  induction a as [|c a IH]; intros H; cbn; [done|]. apply not_elem_of_cons in H as [Hc Ha].
  rewrite bool_decide_false by done. by rewrite IH.
Qed.

Lemma getlines_line acc l rest : LF ∉ l -> getlines acc (l ++ LF :: rest) = (rev acc ++ l) :: getlines [] rest.
Proof.
  revert acc. induction l as [|c l IH]; intros acc H; cbn; [by rewrite app_nil_r|].
  apply not_elem_of_cons in H as [Hc Hl]. rewrite bool_decide_false by done. rewrite IH by done. cbn.
  by rewrite <- app_assoc.
Qed.

Definition text_of (lines : list bytes) : bytes := mjoin ((fun l => l ++ [LF]) <$> lines).

Lemma getlines_text lines : Forall (fun l => LF ∉ l) lines -> getlines [] (text_of lines) = lines.
Proof.
  induction 1 as [|l lines Hl H IH]; [done|]. change (text_of (l :: lines)) with ((l ++ [LF]) ++ text_of lines).
  rewrite <- app_assoc. cbn [app]. rewrite getlines_line by done. by rewrite IH.
Qed.

Lemma LoadLines_app l1 l2 n error p :
  LoadLines n (l1 ++ l2) error p =
    match LoadLines n l1 error p with inl p => LoadLines (n + size_of l1) l2 error p | inr e => inr e end.
Proof.
  revert n p. induction l1 as [|l l1 IH]; intros n p; cbn; [by rewrite Z.add_0_r|].
  destruct (LoadLine _ _ _ _); [|done]. rewrite IH. unfold size_of. cbn [length].
  by replace (n + 1 + Z.of_nat (length l1)) with (n + Z.of_nat (S (length l1))) by lia.
Qed.

(** Lines with any white space [w] around their parts. *)
Definition header_line (w name : bytes) : bytes := w ++ bs "[" ++ w ++ name ++ w ++ bs "]" ++ w.
Definition setting_line (w key value : bytes) : bytes := w ++ key ++ w ++ bs "=" ++ w ++ value ++ w.

Lemma word_app a b : word a -> word b -> word (a ++ b).
Proof.
  intros (c & d & Hc & Hd & Hc' & Hd') (c2 & d2 & Hc2 & Hd2 & Hc2' & Hd2'). exists c, d2. split_and!; try done.
  - by destruct a.
  - by rewrite last_app, Hd2.
Qed.

Lemma word_mid a w b : word a -> word b -> word (a ++ w ++ b).
Proof.
  intros (c & d & Hc & Hd & Hc' & Hd') (c2 & d2 & Hc2 & Hd2 & Hc2' & Hd2'). exists c, d2. split_and!; try done.
  - by destruct a.
  - by rewrite !last_app, Hd2.
Qed.

Lemma header_step n w name error p :
  spaces w -> word name -> ToLower name = name -> IsKnownSection name = true ->
  LoadLine n (header_line w name) error p = inl (mkParser (cfg p) name (warned_sections p)).
Proof.
  intros Hw Hn Hl Hk. unfold LoadLine.
  assert (Trim (header_line w name) = bs "[" ++ (w ++ name ++ w) ++ bs "]") as ->.
  { unfold header_line. replace (w ++ bs "[" ++ w ++ name ++ w ++ bs "]" ++ w) with
      (w ++ (bs "[" ++ (w ++ name ++ w) ++ bs "]") ++ w) by (by rewrite <- !app_assoc).
    apply Trim_word; [done|done|]. apply word_mid; by eexists _, _. }
  set (x := w ++ name ++ w). cbn [bs String.list_ascii_of_string app]. rewrite !bool_decide_false by done. cbn [orb].
  rewrite bool_decide_true by done. change ("["%char :: x ++ ["]"%char]) with (["["%char] ++ x ++ ["]"%char]).
  rewrite !last_app. cbn [last]. rewrite bool_decide_true by done. cbn [negb orb].
  assert (0 < length x)%nat as Hx.
  { unfold x. rewrite !length_app. destruct Hn as (c & _ & Hc & _). destruct name; [done|]. cbn. lia. }
  destruct (Nat.ltb_spec (length (["["%char] ++ x ++ ["]"%char])) 3) as [Hlt|Hge];
    [rewrite !length_app in Hlt; cbn in Hlt; lia|].
  assert (sub 1 (length (["["%char] ++ x ++ ["]"%char]) - 2) (["["%char] ++ x ++ ["]"%char]) = x) as ->.
  { unfold sub. rewrite !length_app. cbn. rewrite drop_0. replace (length x + 1 - 1)%nat with (length x) by lia.
    by rewrite take_app_length. }
  unfold x. rewrite Trim_word, Hl, Hk by done. destruct name as [|c0 name]; [|done]. by destruct Hn as (? & ? & ? & _).
Qed.

Lemma spaces_no_eq w : spaces w -> "="%char ∉ w.
Proof. intros H He. unfold spaces in H. rewrite Forall_forall in H. by apply H in He. Qed.

(** What a key must be not to be taken for something else. *)
Definition key_ok (k : bytes) : Prop :=
  word k /\ ("="%char ∉ k) /\ ToLower k = k /\
  match k with c :: _ => bool_decide (c = "#"%char) || bool_decide (c = ";"%char) || bool_decide (c = "["%char) = false
             | [] => False end.

Definition value_ok (v : bytes) : Prop := (v = [] \/ word v) /\ (LF ∉ v).

Lemma setting_step n w k v error p :
  spaces w -> key_ok k -> value_ok v -> is_empty (section p) = false ->
  LoadLine n (setting_line w k v) error p =
    match ApplyKey (cfg p) (section p) k v error with
    | inl c => inl (mkParser c (section p) (warned_sections p))
    | inr e => inr (match e with Some e => if is_empty e then Some e else Some (at_line n e) | None => None end)
    end.
Proof.
  intros Hw (Hk & Heq & Hl & Hc) [Hv _] Hs. unfold LoadLine.
  assert (exists r, Trim (setting_line w k v) = (k ++ w) ++ "="%char :: r /\ Trim r = v) as (r & -> & Hr).
  { unfold setting_line. destruct Hv as [->|Hv].
    - exists []. split; [|done]. replace (w ++ k ++ w ++ bs "=" ++ w ++ [] ++ w) with
        (w ++ (k ++ w ++ bs "=") ++ (w ++ w)) by (by rewrite <- !app_assoc).
      rewrite Trim_word; [by rewrite <- app_assoc|done|by apply Forall_app|].
      apply word_mid; [done|by eexists _, _].
    - exists (w ++ v). split; [|rewrite <- (app_nil_r v) at 1; by apply Trim_word; [done|constructor|]].
      replace (w ++ k ++ w ++ bs "=" ++ w ++ v ++ w) with
        (w ++ (k ++ (w ++ bs "=" ++ w) ++ v) ++ w) by (by rewrite <- !app_assoc).
      rewrite Trim_word; [by rewrite <- !app_assoc|done|done|by apply word_mid]. }
  rewrite split_eq_app by (apply not_elem_of_app; split; [done|by apply spaces_no_eq]).
  destruct k as [|c k]; [done|]. cbn [app]. apply orb_false_iff in Hc as [-> ->]. rewrite Hs.
  change (c :: k ++ w) with ([] ++ (c :: k) ++ w). rewrite Trim_word by (done || constructor). by rewrite Hl, Hr.
Qed.

(** ** The text of a configuration *)

Definition show_bool (b : bool) : bytes := if b then bs "yes" else bs "no".

Definition show_fsync (p : AofFsyncPolicy) : bytes :=
  match p with kNo => bs "no" | kEverySec => bs "everysec" | kAlways => bs "always" end.

Definition show_io (m : AofIoMode) : bytes :=
  match m with kAuto => bs "auto" | kThread => bs "thread" | kIoUring => bs "iouring" end.

(** All the settings of [c], with white space [w] around every part of a line. *)
Definition config_lines (w : bytes) (c : Config) : list bytes :=
  [header_line w (bs "server");
   setting_line w (bs "port") (print_unsigned (port c));
   setting_line w (bs "bind") (bind c);
   header_line w (bs "logging");
   setting_line w (bs "level") (log_level c);
   header_line w (bs "storage");
   setting_line w (bs "kv_reserve") (print_unsigned (kv_reserve c));
   header_line w (bs "index");
   setting_line w (bs "default_capacity") (print_unsigned (default_capacity c));
   setting_line w (bs "max_entries") (print_unsigned (max_entries c));
   header_line w (bs "persistence");
   setting_line w (bs "dir") (persistence_dir c);
   setting_line w (bs "load_on_startup") (show_bool (load_on_startup c));
   setting_line w (bs "aof") (show_bool (aof c));
   setting_line w (bs "aof_fsync") (show_fsync (aof_fsync c));
   setting_line w (bs "aof_io") (show_io (aof_io c));
   setting_line w (bs "aof_flush_interval_ms") (print_unsigned (aof_flush_interval_ms c))].

(** What a file can express: names without a line break and without white space
    around them; nothing from the command line and no warnings. *)
Record expressible (c : Config) : Prop := {
  ex_ok : config_ok c;
  ex_bind : value_ok (bind c);
  ex_dir : value_ok (persistence_dir c);
  ex_slave : slaveof c = false /\ slaveof_host c = [] /\ slaveof_port c = 0 /\ warnings c = []
}.

Lemma c_str_digits l : Forall (fun c => isdigit c = true) l -> c_str l = l.
Proof.
  intros H. apply take_while_all. eapply Forall_impl; [exact H|]. intros c Hc. cbn.
  by rewrite bool_decide_false by (by intros ->).
Qed.

Lemma ParseUint_print n : 0 <= n < 2 ^ 64 -> ParseUint (print_unsigned n) = Some n.
Proof.
  intros Hn. unfold ParseUint. pose proof (print_unsigned_nonempty n) as Hne. apply is_empty_false in Hne as He.
  rewrite He. rewrite c_str_digits by apply print_unsigned_isdigit.
  pose proof (strtoull_print n [] Hn I) as H. rewrite app_nil_r in H. rewrite H. unfold beq.
  by rewrite bool_decide_false by done.
Qed.

Lemma number_ok n : value_ok (print_unsigned n).
Proof.
  pose proof (print_unsigned_isdigit n) as Hd. pose proof (print_unsigned_nonempty n) as Hne.
  assert (forall c, isdigit c = true -> isspace c = false) as Hs.
  { intros c Hc%isdigit_range. unfold isspace.
    destruct (Z.leb_spec (Z_of_byte c) 13), (Z.eqb_spec (Z_of_byte c) 32); lia. }
  rewrite Forall_forall in Hd. split.
  - right. destruct (print_unsigned n) as [|c l]; [done|]. destruct (last (c :: l)) as [d|] eqn:E; [|by apply last_None in E].
    exists c, d. split_and!; [done|done|apply Hs, Hd; by left|apply Hs, Hd].
    apply last_Some in E as [y ->]. set_solver.
  - by intros Hl%Hd.
Qed.

Lemma level_ok l : IsValidLogLevel l = true -> value_ok l /\ ToLower l = l.
Proof.
  unfold IsValidLogLevel, beq. rewrite !orb_true_iff, !bool_decide_eq_true.
  intros [[[[[[->| ->]| ->]| ->]| ->]| ->]| ->]; (split; [split; [right; by eexists _, _|]|done]);
    by apply (bool_decide_unpack _).
Qed.

Ltac closed_value := split; [right; by eexists _, _|by apply (bool_decide_unpack _)].

Lemma show_bool_ok b : value_ok (show_bool b) /\ ParseBool (show_bool b) = Some b.
Proof. destruct b; (split; [closed_value|done]). Qed.

Lemma show_fsync_ok p : value_ok (show_fsync p).
Proof. destruct p; closed_value. Qed.

Lemma show_io_ok m : value_ok (show_io m).
Proof. destruct m; closed_value. Qed.

(** Setting by setting, [ApplyKey] does what the line says. *)
Lemma apply_settings c d error :
  config_ok d ->
  ApplyKey c (bs "server") (bs "port") (print_unsigned (port d)) error = inl (set_port c (port d)) /\
  ApplyKey c (bs "server") (bs "bind") (bind d) error = inl (set_bind c (bind d)) /\
  ApplyKey c (bs "logging") (bs "level") (log_level d) error = inl (set_log_level c (log_level d)) /\
  ApplyKey c (bs "storage") (bs "kv_reserve") (print_unsigned (kv_reserve d)) error = inl (set_kv_reserve c (kv_reserve d)) /\
  ApplyKey c (bs "index") (bs "default_capacity") (print_unsigned (default_capacity d)) error =
    inl (set_default_capacity c (default_capacity d)) /\
  ApplyKey c (bs "index") (bs "max_entries") (print_unsigned (max_entries d)) error = inl (set_max_entries c (max_entries d)) /\
  ApplyKey c (bs "persistence") (bs "dir") (persistence_dir d) error = inl (set_dir c (persistence_dir d)) /\
  ApplyKey c (bs "persistence") (bs "load_on_startup") (show_bool (load_on_startup d)) error =
    inl (set_load c (load_on_startup d)) /\
  ApplyKey c (bs "persistence") (bs "aof") (show_bool (aof d)) error = inl (set_aof c (aof d)) /\
  ApplyKey c (bs "persistence") (bs "aof_fsync") (show_fsync (aof_fsync d)) error = inl (set_aof_fsync c (aof_fsync d)) /\
  ApplyKey c (bs "persistence") (bs "aof_io") (show_io (aof_io d)) error = inl (set_aof_io c (aof_io d)) /\
  ApplyKey c (bs "persistence") (bs "aof_flush_interval_ms") (print_unsigned (aof_flush_interval_ms d)) error =
    inl (set_interval c (aof_flush_interval_ms d)).
Proof.
  intros [H1 H2 H3 H4 H5 H6 H7]. destruct (level_ok _ H3) as [_ Hl]. apply is_empty_false in H2.
  split_and!; unfold ApplyKey; cbn -[ParseUint ParseBool print_unsigned is_empty IsValidLogLevel ToLower u16 i32].
  - rewrite ParseUint_print by lia. destruct (Z.eqb_spec (port d) 0), (Z.ltb_spec 65535 (port d)); try lia. cbn [orb].
    unfold u16. by rewrite Z.mod_small by lia.
  - by rewrite H2.
  - by rewrite Hl, H3.
  - by rewrite ParseUint_print.
  - rewrite ParseUint_print by lia. by destruct (Z.eqb_spec (default_capacity d) 0); [lia|].
  - by rewrite ParseUint_print.
  - done.
  - by rewrite (proj2 (show_bool_ok _)).
  - by rewrite (proj2 (show_bool_ok _)).
  - by destruct (aof_fsync d).
  - by destruct (aof_io d).
  - rewrite ParseUint_print by lia. unfold i32.
    destruct (Z.ltb_spec (aof_flush_interval_ms d) 1), (Z.ltb_spec 600000 (aof_flush_interval_ms d)); try lia.
    cbn [orb]. by rewrite Z.mod_small, Z.add_simpl_r by lia.
Qed.

Lemma header_line_ok w name : LF ∉ w -> LF ∉ name -> LF ∉ header_line w name.
Proof. intros H1 H2. unfold header_line. rewrite !not_elem_of_app. by split_and!; try (by apply (bool_decide_unpack _)). Qed.

Lemma setting_line_ok w k v : LF ∉ w -> LF ∉ k -> value_ok v -> LF ∉ setting_line w k v.
Proof.
  intros H1 H2 [_ H3]. unfold setting_line. rewrite !not_elem_of_app. by split_and!; try (by apply (bool_decide_unpack _)).
Qed.

Ltac key := split_and!; [by eexists _, _|by apply (bool_decide_unpack _)|done|done].

Lemma LoadLines_header n w name ls error c t :
  spaces w -> word name -> ToLower name = name -> IsKnownSection name = true ->
  LoadLines n (header_line w name :: ls) error (mkParser c t ∅) = LoadLines (n + 1) ls error (mkParser c name ∅).
Proof. intros. cbn [LoadLines]. by rewrite header_step. Qed.

Lemma LoadLines_setting n w k v ls error c c' t :
  spaces w -> key_ok k -> value_ok v -> is_empty t = false -> ApplyKey c t k v error = inl c' ->
  LoadLines n (setting_line w k v :: ls) error (mkParser c t ∅) = LoadLines (n + 1) ls error (mkParser c' t ∅).
Proof. intros Hw Hk Hv Ht HA. cbn [LoadLines]. rewrite setting_step by done. cbn [cfg section warned_sections]. by rewrite HA. Qed.

(** Every configuration can be written down and is read back.  With any
    white space (carriage returns included) around the parts of its lines, the
    file that spells out all settings of a configuration is loaded as exactly
    that configuration, whatever was in [*out]. *)
Theorem config_roundtrip (w : bytes) (c c0 : Config) (path : bytes) (error : ptr bytes) :
  spaces w -> LF ∉ w -> expressible c ->
  LoadConfig path (Some (text_of (config_lines w c))) (Some c0) error = (true, Some c, error).
Proof.
  intros Hw Hlf [Hok Hb Hd (S1 & S2 & S3 & S4)]. pose proof Hok as [_ _ Hlv _ _ _ _]. destruct (level_ok _ Hlv) as [Hv _].
  unfold LoadConfig. rewrite getlines_text.
  - unfold config_lines.
    repeat first [rewrite LoadLines_header; [|done|by eexists _, _|done|done]
                 |erewrite LoadLines_setting; [|exact Hw|key| |done|apply apply_settings; exact Hok];
                  [|first [assumption|apply number_ok|apply show_bool_ok|apply show_fsync_ok|apply show_io_ok]]].
    cbn. destruct c. cbn in *. by subst.
  - unfold config_lines. repeat constructor; first [apply header_line_ok|apply setting_line_ok]; try done;
      try (by apply (bool_decide_unpack _)); first [apply number_ok|apply show_bool_ok|apply show_fsync_ok|apply show_io_ok].
Qed.

(** A negative number is a number: the sign is [strtoull]'s to accept. *)
Example negative_reserve :
  LoadConfig (bs "v.ini") (Some (text_of [bs "[storage]"; bs "kv_reserve = -1"])) (Some default_config) (Some []) =
    (true, Some (set_kv_reserve default_config (2 ^ 64 - 1)), Some []).
Proof. vm_compute. reflexivity. Qed.

Example port_message :
  LoadConfig (bs "v.ini") (Some (text_of [bs "; server"; bs "[Server]"; bs "port=0"])) (Some default_config) (Some []) =
    (false, Some default_config, Some (bs "line 3: invalid server.port: 0")).
Proof. vm_compute. reflexivity. Qed.

(** ** Witnesses *)

Definition demo_config : Config :=
  mkConfig 6379 (bs "127.0.0.1") (bs "warn") 500 16 100 (bs "var lib") true true kAlways kThread 250 false [] 0 [].

Lemma demo_expressible : expressible demo_config.
Proof.
  split.
  - split; cbn; lia || done.
  - closed_value.
  - closed_value.
  - by split_and!.
Qed.

Lemma config_roundtrip_witness :
  LoadConfig (bs "v.ini") (Some (text_of (config_lines [" "%char; CR] demo_config))) (Some default_config) None =
    (true, Some demo_config, None).
Proof.
  apply (config_roundtrip [" "%char; CR] demo_config default_config (bs "v.ini") None).
  - repeat constructor.
  - apply (bool_decide_unpack _). vm_compute. exact I.
  - exact demo_expressible.
Defined.
