(* ===== verification/KvStore.v ===== *)
(** * KvStore: the in-memory string store and its binary dump

    Models include/vemory/storage/KvStore.h and src/storage/KvStore.cc. *)

From S2P Require Import Prelude.
From S2P Require Import Stdio.

Inductive Status := kOk | kNotFound | kBadValue | kIoError.

#[export] Instance Status_eq_dec : EqDecision Status.
Proof. solve_decision. Defined.

Record KvStore := mkKv { map_ : gmap bytes bytes }.

Definition empty : KvStore := mkKv ∅.

(** ** Operations *)

Definition Set_ (s : KvStore) (key value : bytes) : Status * KvStore :=
  if is_empty key then (kBadValue, s)
  else
    match map_ s !! key with
    | Some _ => (kOk, mkKv (<[key := value]> (map_ s)))
    | None => (kOk, mkKv (<[key := value]> (map_ s)))
    end.

(** [out] is the caller's string ([None]: a null pointer). *)
Definition Get (s : KvStore) (key : bytes) (out : ptr bytes) : Status * ptr bytes :=
  match out with
  | None => (kBadValue, out)
  | Some _ =>
      if is_empty key then (kBadValue, out)
      else
        match map_ s !! key with
        | None => (kNotFound, out)
        | Some v => (kOk, Some v)
        end
  end.

Definition Del (s : KvStore) (key : bytes) : Status * KvStore :=
  if is_empty key then (kBadValue, s)
  else
    match map_ s !! key with
    | Some _ => (kOk, mkKv (delete key (map_ s)))
    | None => (kNotFound, s)
    end.

(** Pre-sizing the table does not change the contents. *)
Definition Reserve (s : KvStore) (n : Z) : KvStore := s.

Definition size (s : KvStore) : Z := Z.of_nat (base.size (map_ s)).

Definition Clear (s : KvStore) : KvStore := mkKv ∅.

(** [map_.emplace(key, val)]: an existing entry stays. *)
Definition emplace (s : KvStore) (key val : bytes) : KvStore :=
  match map_ s !! key with
  | Some _ => s
  | None => mkKv (<[key := val]> (map_ s))
  end.

(** ** Dump and load *)

(** One round of the loop of [Dump]: four writes, stopping at the first short one. *)
Definition DumpEntry (key val : bytes) (fp : File) : bool * File :=
  let key_len := u32 (size_of key) in
  let val_len := u32 (size_of val) in
  let '(ok, fp) := WriteExact (le_encode 4 key_len) fp in
  if negb ok then (false, fp) else
  let '(ok, fp) := WriteExact (take (Z.to_nat key_len) key) fp in
  if negb ok then (false, fp) else
  let '(ok, fp) := WriteExact (le_encode 4 val_len) fp in
  if negb ok then (false, fp) else
  WriteExact (take (Z.to_nat val_len) val) fp.

Fixpoint DumpEntries (l : list (bytes * bytes)) (fp : File) : Status * File :=
  match l with
  | [] => (kOk, fp)
  | (key, val) :: l' =>
      let '(ok, fp) := DumpEntry key val fp in
      if ok then DumpEntries l' fp else (kIoError, fp)
  end.

Definition Dump `{!IterOrder bytes} (s : KvStore) (fp : ptr File) : Status * ptr File :=
  match fp with
  | None => (kBadValue, None)
  | Some fp =>
      let count := u64 (size s) in
      let '(ok, fp) := WriteExact (le_encode 8 count) fp in
      if negb ok then (kIoError, Some fp)
      else let '(st, fp) := DumpEntries (iter_order (map_ s)) fp in (st, Some fp)
  end.

(** The loop of [Load], [count] more entries to read. *)
Fixpoint LoadLoop (count : nat) (s : KvStore) (fp : File) : Status * KvStore * File :=
  match count with
  | O => (kOk, s, fp)
  | S count' =>
      match ReadExact 4 fp with
      | (None, fp) => (kIoError, s, fp)
      | (Some kl, fp) =>
        match ReadExact (Z.to_nat (le_decode kl)) fp with
        | (None, fp) => (kIoError, s, fp)
        | (Some key, fp) =>
          match ReadExact 4 fp with
          | (None, fp) => (kIoError, s, fp)
          | (Some vl, fp) =>
            match ReadExact (Z.to_nat (le_decode vl)) fp with
            | (None, fp) => (kIoError, s, fp)
            | (Some val, fp) =>
                if is_empty key then (kBadValue, s, fp)
                else LoadLoop count' (emplace s key val) fp
            end
          end
        end
      end
  end.

Definition Load (s : KvStore) (fp : ptr File) : Status * KvStore * ptr File :=
  match fp with
  | None => (kBadValue, s, None)
  | Some fp =>
      match ReadExact 8 fp with
      | (None, fp) => (kIoError, s, Some fp)
      | (Some cnt, fp) =>
          let '(st, s, fp) := LoadLoop (Z.to_nat (le_decode cnt)) (Clear s) fp in
          (st, s, Some fp)
      end
  end.

(** The loop of [LoadFrom]; [p] is the rest of the span. *)
Fixpoint LoadFromLoop (count : nat) (s : KvStore) (p : bytes) : Status * KvStore * bytes :=
  match count with
  | O => (kOk, s, p)
  | S count' =>
      match span_take 4 p with
      | None => (kIoError, s, p)
      | Some (kl, p) =>
        match span_take (Z.to_nat (le_decode kl)) p with
        | None => (kIoError, s, p)
        | Some (key, p) =>
          match span_take 4 p with
          | None => (kIoError, s, p)
          | Some (vl, p) =>
            match span_take (Z.to_nat (le_decode vl)) p with
            | None => (kIoError, s, p)
            | Some (val, p) =>
                if is_empty key then (kBadValue, s, p)
                else LoadFromLoop count' (emplace s key val) p
            end
          end
        end
      end
  end.

(** [data] points to at least [size] bytes, or is null. *)
Definition LoadFrom (s : KvStore) (data : ptr bytes) (size : nat) : Status * KvStore :=
  match data, size with
  | None, S _ => (kBadValue, s)
  | _, _ =>
      let p := match data with None => [] | Some d => take size d end in
      match span_take 8 p with
      | None => (kIoError, s)
      | Some (cnt, p) =>
          let '(st, s, p) := LoadFromLoop (Z.to_nat (le_decode cnt)) (Clear s) p in
          match st with
          | kOk => if is_empty p then (kOk, s) else (kIoError, s)
          | _ => (st, s)
          end
      end
  end.

(** ** The store as a finite map *)

(** What the store promises: no empty key, and sizes that fit the dump's
    [uint32_t] length fields. *)
Record wf (s : KvStore) : Prop := {
  wf_key : map_ s !! [] = None;
  wf_len : forall k v, map_ s !! k = Some v -> size_of k < 2 ^ 32 /\ size_of v < 2 ^ 32;
  wf_count : size s < 2 ^ 64
}.

Lemma wf_empty : wf empty.
Proof. split; simpl; [done|done|]. unfold size. simpl. rewrite map_size_empty. lia. Qed.

Lemma kv_Set_spec s key value :
  Set_ s key value =
    if is_empty key then (kBadValue, s) else (kOk, mkKv (<[key := value]> (map_ s))).
Proof. unfold Set_. by destruct (is_empty key), (map_ s !! key). Qed.

Lemma kv_Del_spec s key :
  Del s key =
    if is_empty key then (kBadValue, s)
    else (if decide (is_Some (map_ s !! key)) then kOk else kNotFound, mkKv (delete key (map_ s))).
Proof.
  unfold Del. destruct (is_empty key); [done|].
  destruct (map_ s !! key) as [v|] eqn:E; case_decide as H; simplify_eq/=; [done| |by inversion H|].
  - by destruct H.
  - rewrite delete_id by done. by destruct s.
Qed.

Lemma emplace_map s key val : map_ (emplace s key val) = {[key := val]} ∪ map_ s \/
  map_ (emplace s key val) = map_ s.
Proof. unfold emplace. destruct (map_ s !! key); [by right|left]. by rewrite <- insert_union_singleton_l. Qed.

Lemma emplace_fresh s key val :
  map_ s !! key = None -> emplace s key val = mkKv (<[key := val]> (map_ s)).
Proof. unfold emplace. by intros ->. Qed.

(** ** The dump format *)

Definition entry_bytes (e : bytes * bytes) : bytes :=
  le_encode 4 (size_of e.1) ++ e.1 ++ le_encode 4 (size_of e.2) ++ e.2.

Definition entries_bytes (l : list (bytes * bytes)) : bytes := mjoin (entry_bytes <$> l).

Definition entry_ok (e : bytes * bytes) : Prop :=
  e.1 <> [] /\ size_of e.1 < 2 ^ 32 /\ size_of e.2 < 2 ^ 32.

Definition dump_bytes `{!IterOrder bytes} (s : KvStore) : bytes :=
  le_encode 8 (size s) ++ entries_bytes (iter_order (map_ s)).

Lemma wf_entries `{!IterOrder bytes} s : wf s -> Forall entry_ok (iter_order (map_ s)).
Proof.
  intros [Hk Hl _]. apply Forall_elem. intros [k v] Hin%iter_order_lookup.
  split; simpl; [|by eapply Hl]. intros ->. congruence.
Qed.

Lemma DumpEntry_append e fp :
  entry_ok e -> at_end fp ->
  DumpEntry e.1 e.2 fp = (true, appended (entry_bytes e) fp).
Proof.
  intros (_ & Hk & Hv) Hend. unfold DumpEntry, entry_bytes.
  pose proof (size_of_nonneg e.1). pose proof (size_of_nonneg e.2).
  rewrite !u32_small by lia. unfold size_of at 2 4. rewrite !Nat2Z.id, !firstn_all.
  repeat (rewrite WriteExact_append by auto using appended_at_end; simpl negb; cbv iota beta).
  by rewrite !appended_appended.
Qed.

Lemma DumpEntries_append l fp :
  Forall entry_ok l -> at_end fp ->
  DumpEntries l fp = (kOk, appended (entries_bytes l) fp).
Proof.
  intros Hl. revert fp. induction Hl as [|[k v] l He Hl IH]; intros fp Hend; simpl.
  - unfold appended. simpl. rewrite app_nil_r, Nat.add_0_r. by destruct fp.
  - pose proof (DumpEntry_append (k, v) fp He Hend) as Hd. simpl in Hd. rewrite Hd.
    rewrite IH by auto using appended_at_end. by rewrite appended_appended.
Qed.

Lemma Dump_append `{!IterOrder bytes} s fp :
  wf s -> at_end fp -> Dump s (Some fp) = (kOk, Some (appended (dump_bytes s) fp)).
Proof.
  intros Hwf Hend. unfold Dump. pose proof (wf_count _ Hwf).
  rewrite u64_small by (unfold size in *; lia).
  rewrite WriteExact_append by done. simpl negb. cbv iota.
  rewrite DumpEntries_append by auto using wf_entries, appended_at_end.
  by rewrite appended_appended.
Qed.

(** ** Loading what was dumped *)

(** Keys of [l] are pairwise distinct and none is in [s] yet. *)
Definition fresh_in (l : list (bytes * bytes)) (s : KvStore) : Prop :=
  NoDup l.*1 /\ Forall (fun e => map_ s !! e.1 = None) l.

Lemma fresh_in_cons e l s :
  fresh_in (e :: l) s ->
  map_ s !! e.1 = None /\ fresh_in l (mkKv (<[e.1 := e.2]> (map_ s))).
Proof.
  intros [Hnd Hf]. inversion Hnd as [|? ? Hni Hnd']; simplify_eq/=.
  apply Forall_cons_iff in Hf as [He Hf]. split; [done|]. split; [done|].
  rewrite Forall_elem in Hf |- *. intros e' Hin. simpl.
  rewrite lookup_insert_ne; [by apply Hf|].
  intros Heq. apply Hni. rewrite Heq. by apply list_elem_of_fmap_2.
Qed.

Definition add_entries (l : list (bytes * bytes)) (s : KvStore) : KvStore :=
  fold_left (fun s e => mkKv (<[e.1 := e.2]> (map_ s))) l s.

Lemma LoadFromLoop_entries l s rest :
  Forall entry_ok l -> fresh_in l s ->
  LoadFromLoop (length l) s (entries_bytes l ++ rest) = (kOk, add_entries l s, rest).
Proof.
  intros Hl. revert s. induction Hl as [|e l (Hk & Hkl & Hvl) Hl IH]; intros s Hf; [done|].
  apply fresh_in_cons in Hf as [He Hf]. cbn [LoadFromLoop length].
  change (entries_bytes (e :: l)) with (entry_bytes e ++ entries_bytes l).
  unfold entry_bytes. rewrite <- !app_assoc.
  rewrite span_take_app by (by rewrite length_le_encode).
  rewrite le_decode_size by done. rewrite span_take_app by done.
  rewrite span_take_app by (by rewrite length_le_encode).
  rewrite le_decode_size by done. rewrite span_take_app by done.
  destruct (is_empty e.1) eqn:Hem; [by apply is_empty_true in Hem|].
  rewrite emplace_fresh by done. by rewrite IH.
Qed.

Lemma add_entries_lookup l s :
  fresh_in l s -> map_ (add_entries l s) = list_to_map l ∪ map_ s.
Proof.
  revert s. induction l as [|[k v] l IH]; intros s Hf; simpl.
  - by rewrite (left_id_L ∅ _).
  - pose proof Hf as [Hnd _]. apply fresh_in_cons in Hf as [He Hf]. simpl in *.
    unfold add_entries in IH |- *. simpl. rewrite IH by done. simpl.
    rewrite <- insert_union_l, insert_union_r; [done|].
    apply not_elem_of_list_to_map_1. by inversion Hnd.
Qed.

Lemma fresh_in_Clear `{!IterOrder bytes} s s' : fresh_in (iter_order (map_ s)) (Clear s').
Proof. split; [apply iter_order_NoDup_fst|]. by apply Forall_elem. Qed.

Lemma add_entries_Clear `{!IterOrder bytes} s s' :
  add_entries (iter_order (map_ s)) (Clear s') = s.
Proof.
  pose proof (add_entries_lookup _ _ (fresh_in_Clear s s')) as H.
  rewrite list_to_map_iter_order in H. simpl in H. rewrite (right_id_L ∅ _) in H.
  destruct (add_entries _ _), s; simpl in *. by f_equal.
Qed.

Lemma dump_count `{!IterOrder bytes} s : wf s ->
  Z.to_nat (le_decode (le_encode 8 (size s))) = length (iter_order (map_ s)).
Proof.
  intros Hwf. pose proof (wf_count _ Hwf). rewrite iter_order_length.
  rewrite le_decode_encode; [unfold size; lia|].
  change (256 ^ Z.of_nat 8) with (2 ^ 64). unfold size in *. lia.
Qed.

Lemma LoadFrom_dump_bytes `{!IterOrder bytes} s s' junk :
  wf s ->
  LoadFrom s' (Some (dump_bytes s ++ junk)) (length (dump_bytes s)) = (kOk, s).
Proof.
  intros Hwf. unfold LoadFrom. rewrite take_app_length.
  unfold dump_bytes. rewrite span_take_app by (by rewrite length_le_encode).
  rewrite dump_count by done. rewrite <- (app_nil_r (entries_bytes _)).
  rewrite LoadFromLoop_entries by eauto using wf_entries, fresh_in_Clear.
  simpl. by rewrite add_entries_Clear.
Qed.

(** ** The two loaders agree *)

(** [Load] on a stream and [LoadFrom] on the same bytes reach the same state;
    only the check for trailing bytes tells them apart. *)
Lemma LoadLoop_LoadFromLoop count s fp :
  let '(st, s', fp') := LoadLoop count s fp in
  let '(st2, s2, p) := LoadFromLoop count s (unread fp) in
  st = st2 /\ s' = s2 /\ (st = kOk -> unread fp' = p).
Proof.
  revert s fp. induction count as [|count IH]; intros s fp; [done|].
  cbn [LoadLoop LoadFromLoop]. rewrite ReadExact_span.
  destruct (span_take 4 (unread fp)) as [[kl p1]|] eqn:E1; [|done].
  apply span_take_skipped in E1. rewrite ReadExact_span, E1.
  destruct (span_take _ p1) as [[key p2]|] eqn:E2; [|done].
  rewrite <- E1 in E2. apply span_take_skipped in E2. rewrite ReadExact_span, E2.
  destruct (span_take 4 p2) as [[vl p3]|] eqn:E3; [|done].
  rewrite <- E2 in E3. apply span_take_skipped in E3. rewrite ReadExact_span, E3.
  destruct (span_take _ p3) as [[val p4]|] eqn:E4; [|done].
  rewrite <- E3 in E4. apply span_take_skipped in E4.
  destruct (is_empty key); [done|]. rewrite <- E4. apply IH.
Qed.

Lemma Load_unread s fp :
  Load s (Some fp) =
    match span_take 8 (unread fp) with
    | None => (kIoError, s, Some (skipped (length (unread fp)) fp))
    | Some (cnt, _) =>
        let '(st, s, fp) := LoadLoop (Z.to_nat (le_decode cnt)) (Clear s) (skipped 8 fp) in
        (st, s, Some fp)
    end.
Proof. unfold Load. rewrite ReadExact_span. by destruct (span_take 8 (unread fp)) as [[]|]. Qed.

Lemma LoadFromLoop_no_empty_key count s p :
  map_ s !! [] = None -> map_ (LoadFromLoop count s p).1.2 !! [] = None.
Proof.
  revert s p. induction count as [|count IH]; intros s p Hs; [done|].
  cbn [LoadFromLoop].
  repeat case_match; try done. apply IH. bool_facts.
  unfold emplace. case_match; [done|]. simpl. by rewrite lookup_insert_ne.
Qed.

Lemma LoadFrom_no_empty_key s data n :
  map_ s !! [] = None -> map_ (LoadFrom s data n).2 !! [] = None.
Proof.
  intros Hs. unfold LoadFrom.
  assert (forall p, map_ (match span_take 8 p with
      | None => (kIoError, s)
      | Some (cnt, p) =>
          let '(st, s, p) := LoadFromLoop (Z.to_nat (le_decode cnt)) (Clear s) p in
          match st with
          | kOk => if is_empty p then (kOk, s) else (kIoError, s)
          | _ => (st, s)
          end
      end).2 !! [] = None) as H; [|destruct data, n; done || apply H].
  intros p. destruct (span_take 8 p) as [[cnt p']|]; [|done].
  pose proof (LoadFromLoop_no_empty_key (Z.to_nat (le_decode cnt)) (Clear s) p' eq_refl) as H.
  destruct (LoadFromLoop _ _ _) as [[st s'] q]. destruct st; try done. by destruct (is_empty q).
Qed.

Lemma LoadLoop_data count s fp : f_data (LoadLoop count s fp).2 = f_data fp.
Proof.
  revert s fp. induction count as [|count IH]; intros s fp; [done|]. cbn [LoadLoop].
  destruct (ReadExact 4 fp) as [[kl|] f1] eqn:E1; apply ReadExact_data in E1; [|done].
  destruct (ReadExact _ f1) as [[key|] f2] eqn:E2; apply ReadExact_data in E2; [|by rewrite <- E1].
  destruct (ReadExact 4 f2) as [[vl|] f3] eqn:E3; apply ReadExact_data in E3; [|by rewrite <- E1, <- E2].
  destruct (ReadExact _ f3) as [[val|] f4] eqn:E4; apply ReadExact_data in E4;
    [|by rewrite <- E1, <- E2, <- E3].
  rewrite <- E1, <- E2, <- E3, <- E4. by destruct (is_empty key).
Qed.

Lemma Load_data s fp st s' fp' : Load s (Some fp) = (st, s', Some fp') -> f_data fp' = f_data fp.
Proof.
  unfold Load. destruct (ReadExact 8 fp) as [[cnt|] f1] eqn:E1; apply ReadExact_data in E1;
    [|by intros [= _ _ <-]].
  pose proof (LoadLoop_data (Z.to_nat (le_decode cnt)) (Clear s) f1).
  destruct (LoadLoop _ _ f1) as [[? ?] ?]. intros [= _ _ <-]. by rewrite <- E1.
Qed.

(** The stream loader on a dump followed by anything. *)
Lemma Load_dump_bytes `{!IterOrder bytes} s s' fp rest :
  wf s -> unread fp = dump_bytes s ++ rest ->
  exists fp', Load s' (Some fp) = (kOk, s, Some fp').
Proof.
  intros Hwf Hu. rewrite Load_unread, Hu. unfold dump_bytes. rewrite <- app_assoc.
  rewrite span_take_app by (by rewrite length_le_encode). rewrite dump_count by done.
  pose proof (LoadLoop_LoadFromLoop (length (iter_order (map_ s))) (Clear s') (skipped 8 fp)) as HL.
  rewrite unread_skipped, Hu in HL. unfold dump_bytes in HL. rewrite <- app_assoc in HL.
  rewrite (drop_app_exact (le_encode 8 (size s))) in HL by (by rewrite length_le_encode).
  rewrite LoadFromLoop_entries in HL by eauto using wf_entries, fresh_in_Clear.
  destruct (LoadLoop _ _ _) as [[st s2] fp']. destruct HL as (-> & -> & _).
  exists fp'. by rewrite add_entries_Clear.
Qed.

(** ** Properties *)

Section properties.
Context `{!IterOrder bytes}.

(** [Dump] followed by the mmap loader [LoadFrom] gives the store back,
    whatever the iteration order of the hash table and whatever state the
    loading store had: appending a dump to a file and handing [LoadFrom] the
    span of that dump (its start and its length) yields [kOk] and the
    dumped contents. *)
Theorem dump_LoadFrom_roundtrip s s' fp :
  wf s -> at_end fp ->
  exists fp',
    Dump s (Some fp) = (kOk, Some fp') /\
    LoadFrom s' (Some (drop (f_pos fp) (f_data fp')))
             (f_pos fp' - f_pos fp) = (kOk, s).
Proof.
  intros Hwf Hend. eexists. split; [by apply Dump_append|]. simpl.
  destruct Hend as [-> _]. rewrite drop_app_length, Nat.add_comm, Nat.add_sub.
  pose proof (LoadFrom_dump_bytes s s' [] Hwf) as H. by rewrite app_nil_r in H.
Qed.

(** The two loaders agree: reading the same bytes through a stream
    ([Load]) or from a mapped span ([LoadFrom]) leaves the same contents in
    the store and reports the same error, on truncated and corrupt input
    too; when the stream loader succeeds the span loader succeeds exactly
    when no byte is left over, and reports [kIoError] otherwise. *)
Theorem loaders_agree s fp :
  let '(st, s1) := LoadFrom s (Some (unread fp)) (length (unread fp)) in
  let '(st2, s2, fp2) := Load s (Some fp) in
  s1 = s2 /\
  st = match st2 with
       | kOk => if is_empty (default [] (unread <$> fp2)) then kOk else kIoError
       | e => e
       end.
Proof.
  rewrite Load_unread. unfold LoadFrom. rewrite firstn_all.
  destruct (span_take 8 (unread fp)) as [[cnt p]|] eqn:E; [|done].
  apply span_take_skipped in E. rewrite <- E.
  pose proof (LoadLoop_LoadFromLoop (Z.to_nat (le_decode cnt)) (Clear s) (skipped 8 fp)) as H.
  destruct (LoadLoop _ _ _) as [[st s'] fp'], (LoadFromLoop _ _ _) as [[st2 s2] p'].
  destruct H as (-> & -> & Hu). destruct st2; try done. rewrite <- Hu by done. simpl.
  by destruct (is_empty (unread fp')).
Qed.

(** [Set], [Get] and [Del] are a finite map with non-empty keys: a
    successful [Set] makes the key read back the value just stored and a
    [Del] makes it read [kNotFound], every other key reads as before, an
    empty key is refused by all three without effect, and [Del] answers
    [kOk] exactly for the keys [Get] finds. *)
Theorem get_after_update s key value key' old :
  Get (Set_ s key value).2 key' (Some old) =
    (if negb (is_empty key) && beq key key' then (kOk, Some value)
     else Get s key' (Some old)) /\
  (Set_ s key value).1 = (if is_empty key then kBadValue else kOk) /\
  Get (Del s key).2 key' (Some old) =
    (if negb (is_empty key) && beq key key' then (kNotFound, Some old)
     else Get s key' (Some old)) /\
  (Del s key).1 = (Get s key (Some old)).1.
Proof.
  rewrite kv_Set_spec, kv_Del_spec. unfold Get.
  destruct (is_empty key) eqn:Ek; simpl; [done|].
  destruct (beq key key') eqn:Eq; bool_facts.
  - subst key'. assert (is_empty key = false) as -> by (by apply is_empty_false).
    rewrite lookup_insert_eq, lookup_delete_eq. repeat split; try done.
    by destruct (map_ s !! key).
  - rewrite lookup_insert_ne, lookup_delete_ne by done. repeat split; try done.
    by destruct (map_ s !! key).
Qed.

(** Every operation keeps the store well formed: no empty key is ever
    stored and every key and value fits the dump's 32-bit length fields, as
    long as the arguments do; [LoadFrom] never stores an empty key, whatever
    bytes it is given. *)
Theorem store_wf_preserved s key value :
  wf s -> size_of key < 2 ^ 32 -> size_of value < 2 ^ 32 -> size s + 1 < 2 ^ 64 ->
  wf (Set_ s key value).2 /\ wf (Del s key).2 /\ wf (Clear s) /\
  (forall data n, map_ (LoadFrom s data n).2 !! [] = None).
Proof.
  intros [Hk Hl Hc] Hkl Hvl Hc'. rewrite kv_Set_spec, kv_Del_spec.
  assert (Hload : forall data n, map_ (LoadFrom s data n).2 !! [] = None)
    by (intros; by apply LoadFrom_no_empty_key).
  destruct (is_empty key) eqn:E; [split_and!; (by split) || done || apply wf_empty|].
  apply is_empty_false in E. unfold size in *. split_and!; [| |apply wf_empty|done]; split; simpl.
  - by rewrite lookup_insert_ne.
  - intros k v. rewrite lookup_insert. case_decide; [intros; by simplify_eq|apply Hl].
  - unfold size. simpl. rewrite map_size_insert.
    destruct (map_ s !! key); simpl; unfold id; lia.
  - rewrite lookup_delete_ne; done.
  - intros k v. rewrite lookup_delete. case_decide; [done|apply Hl].
  - unfold size. simpl. rewrite map_size_delete. destruct (map_ s !! key); simpl; unfold id; lia.
Qed.
End properties.

(** ** Witnesses *)

Definition demo : KvStore := (Set_ empty (bs "k") (bs "v")).2.

Lemma demo_wf : wf demo.
Proof.
  split; [by vm_compute| |by vm_compute]. intros k v.
  unfold demo, Set_, empty. simpl map_. rewrite lookup_empty. simpl.
  rewrite lookup_insert. by case_decide; intros; simplify_eq.
Qed.

Lemma dump_LoadFrom_roundtrip_witness :
  exists fp',
    @Dump (default_order bytes) demo (Some (mkFile (bs "head") 4 None)) = (kOk, Some fp') /\
    LoadFrom empty (Some (drop 4 (f_data fp'))) (f_pos fp' - 4) = (kOk, demo).
Proof.
  apply (@dump_LoadFrom_roundtrip (default_order bytes) demo empty (mkFile (bs "head") 4 None)).
  - exact demo_wf.
  - by split.
Defined.

Lemma store_wf_preserved_witness :
  wf (Set_ demo (bs "a") (bs "b")).2 /\ wf (Del demo (bs "a")).2 /\ wf (Clear demo) /\
  (forall data n, map_ (LoadFrom demo data n).2 !! [] = None).
Proof. by apply store_wf_preserved; [exact demo_wf|..]. Defined.
