(* ===== verification/LruOrder.v ===== *)
(** * LruOrder: exact access order of the semantic-cache ids

    Models include/vemory/util/LruOrder.h.  The C++ class keeps a [std::list]
    of ids and a hash table from an id to the list iterator of its node; the
    model keeps the node identities the iterators stand for, so that erasing
    through an iterator and re-inserting are the operations of the code.  The
    abstract order is the list of ids, least recently used first. *)

From S2P Require Import Prelude.

Record LruOrder := mkLru {
  order_ : list (nat * Z);   (** nodes: identity and id, front first *)
  map_ : gmap Z nat;         (** id -> iterator (the identity of its node) *)
  fresh : nat                (** the identity the next allocated node gets *)
}.

Definition empty : LruOrder := mkLru [] ∅ 0.

(** ** List primitives *)

(** [order_.erase(it)]. *)
Definition list_erase (it : nat) (l : list (nat * Z)) : list (nat * Z) :=
  filter (fun n => n.1 <> it) l.

(** [order_.insert(order_.end(), id)]: a new node; its identity is the iterator. *)
Definition list_insert_end (it : nat) (id : Z) (l : list (nat * Z)) : list (nat * Z) :=
  l ++ [(it, id)].

(** ** Operations *)

Definition Touch (s : LruOrder) (id : Z) : LruOrder :=
  match map_ s !! id with
  | None => s
  | Some it =>
      mkLru (list_insert_end (fresh s) id (list_erase it (order_ s)))
            (<[id := fresh s]> (map_ s)) (S (fresh s))
  end.

Definition Push (s : LruOrder) (id : Z) : LruOrder :=
  match map_ s !! id with
  | Some it =>
      mkLru (list_insert_end (fresh s) id (list_erase it (order_ s)))
            (<[id := fresh s]> (map_ s)) (S (fresh s))
  | None =>
      mkLru (list_insert_end (fresh s) id (order_ s))
            (<[id := fresh s]> (map_ s)) (S (fresh s))
  end.

Definition Erase (s : LruOrder) (id : Z) : bool * LruOrder :=
  match map_ s !! id with
  | None => (false, s)
  | Some it => (true, mkLru (list_erase it (order_ s)) (delete id (map_ s)) (fresh s))
  end.

(** [out] is the caller's variable; [None] is a null pointer. *)
Definition PeekLru (s : LruOrder) (out : ptr Z) : bool * ptr Z :=
  match out, order_ s with
  | Some _, (_, id) :: _ => (true, Some id)
  | _, _ => (false, out)
  end.

Definition PopLru (s : LruOrder) (out : ptr Z) : bool * ptr Z * LruOrder :=
  match out, order_ s with
  | Some _, (_, id) :: rest =>
      (true, Some id, mkLru rest (delete id (map_ s)) (fresh s))
  | _, _ => (false, out, s)
  end.

Definition Clear (s : LruOrder) : LruOrder := mkLru [] ∅ (fresh s).

Definition size (s : LruOrder) : Z := size_of (order_ s).

(** ** Abstract order *)

Definition abs (s : LruOrder) : list Z := (order_ s).*2.

Definition without (id : Z) (l : list Z) : list Z := filter (fun x => x <> id) l.

(** The table and the list describe the same nodes. *)
Record inv (s : LruOrder) : Prop := {
  inv_nodes : NoDup (order_ s).*1;
  inv_map : forall id it, map_ s !! id = Some it <-> (it, id) ∈ order_ s;
  inv_fresh : forall it id, (it, id) ∈ order_ s -> (it < fresh s)%nat
}.

(** ** Lemmas *)

Lemma inv_empty : inv empty.
Proof. split; simpl; [constructor| |]; intros; rewrite ?lookup_empty; set_solver. Qed.

Lemma list_erase_ids it id l :
  (forall n, n ∈ l -> n.1 = it <-> n.2 = id) ->
  (list_erase it l).*2 = without id l.*2.
Proof.
  unfold list_erase, without. induction l as [|n l IH]; intros Hn; [done|].
  rewrite fmap_cons, !filter_cons.
  assert (n.1 = it <-> n.2 = id) as Hhd by (apply Hn; set_solver).
  rewrite <- IH by (intros; apply Hn; set_solver).
  repeat case_decide; naive_solver.
Qed.

Lemma inv_node_id s it id n :
  inv s -> map_ s !! id = Some it -> n ∈ order_ s -> n.1 = it <-> n.2 = id.
Proof.
  intros Hinv Hid Hn. destruct n as [it' id']; simpl.
  pose proof (proj1 (inv_map _ Hinv _ _) Hid) as Hin. split; intros ->.
  - pose proof (inv_nodes _ Hinv) as Hnd.
    apply list_elem_of_lookup in Hn as [i Hi], Hin as [j Hj].
    assert (i = j) as ->; [|congruence].
    eapply NoDup_lookup; [exact Hnd| |]; rewrite list_lookup_fmap;
      [by rewrite Hi|by rewrite Hj].
  - apply (inv_map _ Hinv) in Hn. congruence.
Qed.

Lemma inv_erase_ids s it id :
  inv s -> map_ s !! id = Some it ->
  (list_erase it (order_ s)).*2 = without id (abs s).
Proof. intros. apply list_erase_ids. intros. by eapply inv_node_id. Qed.

Lemma inv_absent s id : inv s -> map_ s !! id = None <-> id ∉ abs s.
Proof.
  intros Hinv. unfold abs. rewrite eq_None_not_Some, list_elem_of_fmap. split.
  - intros Hn ([it id'] & -> & Hin). apply Hn. exists it. by apply inv_map.
  - intros Hn [it Hit]. apply Hn. exists (it, id). split; [done|]. by apply inv_map.
Qed.

Lemma without_absent id l : id ∉ l -> without id l = l.
Proof.
  induction l as [|x l IH]; [done|]. intros Hn. unfold without in *.
  rewrite filter_cons, IH by set_solver. case_decide; set_solver.
Qed.

Lemma inv_erase s it id :
  inv s -> map_ s !! id = Some it ->
  inv (mkLru (list_erase it (order_ s)) (delete id (map_ s)) (fresh s)).
Proof.
  intros Hinv Hid. split; simpl.
  - apply NoDup_fst_filter, Hinv.
  - intros id' it'. unfold list_erase. rewrite list_elem_of_filter. simpl.
    rewrite lookup_delete. case_decide as Heq.
    + subst. split; [done|]. intros [Hne Hin]. exfalso. apply Hne.
      apply (inv_map _ Hinv) in Hin. congruence.
    + rewrite (inv_map _ Hinv). split; [|by intros []]. intros Hin. split; [|done].
      intros ->. apply Heq. symmetry.
      by apply (proj1 (inv_node_id s it id (it, id') Hinv Hid Hin)).
  - intros it' id' [_ Hin]%list_elem_of_filter. by eapply inv_fresh.
Qed.

Lemma inv_insert s id :
  inv s -> map_ s !! id = None ->
  inv (mkLru (list_insert_end (fresh s) id (order_ s))
             (<[id := fresh s]> (map_ s)) (S (fresh s))).
Proof.
  intros Hinv Hid. unfold list_insert_end. split; simpl.
  - rewrite fmap_app. apply NoDup_app. split_and!; [apply Hinv| |apply NoDup_singleton].
    intros it ([it' id'] & -> & Hin)%list_elem_of_fmap Hs. simpl in Hs.
    apply list_elem_of_singleton in Hs. apply (inv_fresh _ Hinv) in Hin. simpl in *. lia.
  - intros id' it'. rewrite lookup_insert, elem_of_app, list_elem_of_singleton.
    case_decide as Heq; [subst id'|].
    + split; [intros; simplify_eq; by right|]. intros [Hin|]; [|by simplify_eq].
      apply (inv_map _ Hinv) in Hin. congruence.
    + rewrite (inv_map _ Hinv). naive_solver.
  - intros it' id' [Hin|Hin]%elem_of_app.
    + apply (inv_fresh _ Hinv) in Hin. lia.
    + apply list_elem_of_singleton in Hin. simplify_eq. lia.
Qed.

(** A fresh node for a known id: erase, then insert. *)
Lemma inv_move s it id :
  inv s -> map_ s !! id = Some it ->
  inv (mkLru (list_insert_end (fresh s) id (list_erase it (order_ s)))
             (<[id := fresh s]> (map_ s)) (S (fresh s))).
Proof.
  intros Hinv Hid.
  pose proof (inv_insert _ id (inv_erase _ _ _ Hinv Hid) (lookup_delete_eq _ _)) as H.
  simpl in H. by rewrite insert_delete_eq in H.
Qed.

Lemma inv_Clear s : inv (Clear s).
Proof. split; simpl; [constructor| |]; intros; rewrite ?lookup_empty; set_solver. Qed.

Lemma inv_Touch s id : inv s -> inv (Touch s id).
Proof. intros. unfold Touch. case_match; [by apply inv_move|done]. Qed.

Lemma inv_Push s id : inv s -> inv (Push s id).
Proof. intros. unfold Push. case_match; [by apply inv_move|by apply inv_insert]. Qed.

Lemma inv_Erase s id : inv s -> inv (Erase s id).2.
Proof. intros. unfold Erase. case_match; [by apply inv_erase|done]. Qed.

Lemma inv_NoDup_ids s : inv s -> NoDup (abs s).
Proof.
  intros Hinv. pose proof (inv_nodes _ Hinv) as Hnd. unfold abs.
  apply NoDup_alt. intros i j id Hi Hj.
  rewrite list_lookup_fmap in Hi, Hj.
  destruct (order_ s !! i) as [[it1 ?]|] eqn:E1; [|done].
  destruct (order_ s !! j) as [[it2 ?]|] eqn:E2; [|done]. simplify_eq/=.
  apply list_elem_of_lookup_2 in E1 as H1. apply list_elem_of_lookup_2 in E2 as H2.
  apply (inv_map _ Hinv) in H1, H2. simplify_eq.
  eapply NoDup_lookup; [exact Hnd| |]; rewrite list_lookup_fmap; [by rewrite E1|by rewrite E2].
Qed.

Lemma Push_abs s id : inv s -> abs (Push s id) = without id (abs s) ++ [id].
Proof.
  intros Hinv. unfold Push. case_match eqn:E; unfold abs, list_insert_end; simpl; rewrite fmap_app.
  - by erewrite inv_erase_ids.
  - rewrite without_absent; [done|]. by apply inv_absent.
Qed.

Lemma Touch_abs s id :
  inv s -> abs (Touch s id) = if decide (id ∈ abs s) then without id (abs s) ++ [id] else abs s.
Proof.
  intros Hinv. pose proof (inv_absent _ id Hinv) as Ha. unfold Touch.
  destruct (map_ s !! id) eqn:E; case_decide as Hin; try naive_solver.
  - unfold abs, list_insert_end. simpl. rewrite fmap_app. by erewrite inv_erase_ids.
Qed.

Lemma Erase_abs s id :
  inv s ->
  (Erase s id).1 = bool_decide (id ∈ abs s) /\ abs (Erase s id).2 = without id (abs s).
Proof.
  intros Hinv. pose proof (inv_absent _ id Hinv) as Ha. unfold Erase.
  destruct (map_ s !! id) eqn:E; simpl.
  - split; [|by apply inv_erase_ids]. symmetry. apply bool_decide_eq_true_2.
    destruct (decide (id ∈ abs s)); naive_solver.
  - split; [symmetry; apply bool_decide_eq_false_2; naive_solver|].
    symmetry. apply without_absent. naive_solver.
Qed.

Lemma inv_PopLru s out : inv s -> inv (PopLru s out).2.
Proof.
  intros Hinv. unfold PopLru. destruct out as [o|], (order_ s) as [|[it id] rest] eqn:E; try done.
  assert (map_ s !! id = Some it) as Hid by (apply (inv_map _ Hinv); rewrite E; set_solver).
  pose proof (inv_erase _ _ _ Hinv Hid) as H. simpl.
  assert (list_erase it (order_ s) = rest) as <-; [|done].
  pose proof (inv_nodes _ Hinv) as Hnd. rewrite E in Hnd |- *. unfold list_erase.
  rewrite filter_cons_False by (simpl; tauto). rewrite fmap_cons in Hnd. simpl in Hnd.
  apply NoDup_cons in Hnd as [Hni _].
  clear E H. induction rest as [|[it' id'] rest IH]; [done|]. simpl in Hni.
  rewrite filter_cons_True by (simpl; set_solver). f_equal. apply IH. set_solver.
Qed.

Lemma PopLru_abs s o id rest :
  abs s = id :: rest -> abs (PopLru s (Some o)).2 = rest /\ (PopLru s (Some o)).1 = (true, Some id).
Proof.
  unfold PopLru, abs. destruct (order_ s) as [|[it id'] r]; [done|].
  rewrite fmap_cons. by intros [= -> <-].
Qed.

Lemma PeekLru_abs s o :
  PeekLru s (Some o) = match abs s with [] => (false, Some o) | id :: _ => (true, Some id) end.
Proof. unfold PeekLru, abs. by destruct (order_ s) as [|[]]. Qed.

#[export] Hint Resolve inv_empty inv_Clear inv_Touch inv_Push inv_Erase inv_PopLru : vemory.

(** ** Refinement *)

(** The contract: operations on a duplicate-free list of ids, front = least
    recently used. *)
Inductive op := OTouch (id : Z) | OPush (id : Z) | OErase (id : Z) | OPop | OClear.

Definition run (s : LruOrder) (o : op) : LruOrder :=
  match o with
  | OTouch id => Touch s id
  | OPush id => Push s id
  | OErase id => (Erase s id).2
  | OPop => (PopLru s (Some 0)).2
  | OClear => Clear s
  end.

Definition spec (l : list Z) (o : op) : list Z :=
  match o with
  | OTouch id => if decide (id ∈ l) then without id l ++ [id] else l
  | OPush id => without id l ++ [id]
  | OErase id => without id l
  | OPop => tail l
  | OClear => []
  end.

Lemma run_inv s o : inv s -> inv (run s o).
Proof. destruct o; cbn [run]; auto with vemory. Qed.

Lemma run_abs s o : inv s -> abs (run s o) = spec (abs s) o.
Proof.
  intros Hinv. destruct o as [id|id|id| |]; cbn [run spec].
  - by apply Touch_abs.
  - by apply Push_abs.
  - by apply Erase_abs.
  - destruct (abs s) as [|id rest] eqn:E.
    + unfold PopLru, abs in *. apply fmap_nil_inv in E. rewrite E. simpl. by rewrite E.
    + by apply (PopLru_abs s 0 id rest).
  - done.
Qed.

(** The iterator-based list with its hash table refines the plain recency
    list: after any sequence of operations the ids in the C++ list, front to
    back, are those of the abstract list, which never holds an id twice;
    [PeekLru] returns the least recently used id, and the hash table knows
    exactly the ids in the list, so no operation ever follows a stale
    iterator. *)
Theorem lru_refines_list (ops : list op) :
  let s := fold_left run ops empty in
  abs s = fold_left spec ops [] /\
  NoDup (abs s) /\
  (forall o, PeekLru s (Some o) =
     match abs s with [] => (false, Some o) | id :: _ => (true, Some id) end) /\
  (forall id, is_Some (map_ s !! id) <-> id ∈ abs s) /\
  size s = size_of (abs s).
Proof.
  assert (forall s, inv s -> abs (fold_left run ops s) = fold_left spec ops (abs s) /\
                    inv (fold_left run ops s)) as H.
  { induction ops as [|o ops IH]; intros s Hs; [done|]. simpl.
    rewrite <- run_abs by done. apply IH. by apply run_inv. }
  destruct (H empty inv_empty) as [Ha Hi]. cbv zeta. split_and!; [exact Ha|..].
  - by apply inv_NoDup_ids.
  - apply PeekLru_abs.
  - intros id. pose proof (inv_absent _ id Hi) as Hab. rewrite <- not_eq_None_Some.
    rewrite Hab. destruct (decide (id ∈ abs (fold_left run ops empty))); tauto.
  - unfold size, abs, size_of. by rewrite length_fmap.
Qed.
