(* ===== verification/LruCache.v ===== *)
(** * LruCache: a key-value cache that evicts the least recently used entry

    Models include/vemory/util/lrucache.h.  The class keeps a [std::list] of
    pointers to pairs it allocates and a hash table from a key to the list iterator
    of its node.  The model keeps the identities the iterators and the pointers
    stand for, the pairs that are allocated, and every value that was given back,
    to the callback or to [delete]: that the entries are the cache of the usual
    specification, that no pair leaks and that each value is given back once are
    then theorems.  [None] is behaviour that C++ leaves undefined.  The destructor
    has no definition: it reads the members [first] and [second] of a pointer and
    does not compile when it is instantiated. *)

From S2P Require Import Prelude.

Section LRUCache.
Context {Key Val : Type} `{Countable Key}.

Record LRUCache := mkCache {
  hasht_ : gmap Key nat;          (** key -> iterator *)
  cache_list_ : list (nat * nat); (** nodes: iterator and pointer to the pair *)
  capacity_ : Z;
  pairs : gmap nat (Key * Val);   (** the pairs allocated, by address *)
  released : list (Key * Val);    (** what [value_deinit_func_] or [delete] got *)
  fresh : nat
}.

Definition construct (capacity : Z) : LRUCache := mkCache ∅ [] capacity ∅ [] 0.

(** [*it] *)
Definition node_at (it : nat) (l : list (nat * nat)) : option nat :=
  snd <$> List.find (fun n => bool_decide (n.1 = it)) l.

(** [cache_list_.erase(it)] *)
Definition list_erase (it : nat) (l : list (nat * nat)) : list (nat * nat) :=
  filter (fun n => n.1 <> it) l.

(** [list_iter = cache_list_.insert(cache_list_.end(), p)] after the erase, where
    [list_iter] is the slot of the table. *)
Definition to_back (key : Key) (it p : nat) (s : LRUCache) : LRUCache :=
  mkCache (<[key := fresh s]> (hasht_ s)) (list_erase it (cache_list_ s) ++ [(fresh s, p)])
    (capacity_ s) (pairs s) (released s) (S (fresh s)).

Definition Get (key : Key) (s : LRUCache) : option (option Val * LRUCache) :=
  match hasht_ s !! key with
  | None => Some (None, s)
  | Some it =>
      p ← node_at it (cache_list_ s); kv ← pairs s !! p;
      Some (Some kv.2, to_back key it p s)
  end.

(** The value of a pair goes to [value_deinit_func_], or is deleted. *)
Definition deinit (kv : Key * Val) (s : LRUCache) : LRUCache :=
  mkCache (hasht_ s) (cache_list_ s) (capacity_ s) (pairs s) (released s ++ [kv]) (fresh s).

Definition set_second (p : nat) (k : Key) (val : Val) (s : LRUCache) : LRUCache :=
  mkCache (hasht_ s) (cache_list_ s) (capacity_ s) (<[p := (k, val)]> (pairs s)) (released s) (fresh s).

(** The eviction in [Put]; [front()] of an empty list is undefined. *)
Definition evict (s : LRUCache) : option LRUCache :=
  match cache_list_ s with
  | [] => None
  | (_, p) :: rest =>
      kv ← pairs s !! p;
      Some (mkCache (delete kv.1 (hasht_ s)) rest (capacity_ s) (delete p (pairs s))
                    (released s ++ [kv]) (fresh s))
  end.

(** [hasht_.emplace] keeps an entry that is there. *)
Definition insert_new (key : Key) (val : Val) (s : LRUCache) : LRUCache :=
  let p := fresh s in
  let it := S p in
  mkCache (match hasht_ s !! key with Some _ => hasht_ s | None => <[key := it]> (hasht_ s) end)
    (cache_list_ s ++ [(it, p)]) (capacity_ s) (<[p := (key, val)]> (pairs s)) (released s) (S it).

(** [val] is null for [None]. *)
Definition Put (key : Key) (val : option Val) (s : LRUCache) : option LRUCache :=
  match val with
  | None => Some s
  | Some val =>
      match hasht_ s !! key with
      | Some it =>
          p ← node_at it (cache_list_ s); kv ← pairs s !! p;
          Some (to_back key it p (set_second p kv.1 val (deinit kv s)))
      | None =>
          s ← (if u64 (capacity_ s) <=? size_of (cache_list_ s) then evict s else Some s);
          Some (insert_new key val s)
      end
  end.

Definition Size (s : LRUCache) : Z := size_of (cache_list_ s).

Definition Clear (s : LRUCache) : option LRUCache :=
  kvs ← mapM (fun n => pairs s !! n.2) (cache_list_ s);
  Some (mkCache ∅ [] (capacity_ s) (foldr (fun n => delete n.2) (pairs s) (cache_list_ s))
                (released s ++ kvs) (fresh s)).

(** ** Sequences of calls *)

Inductive op := oGet (key : Key) | oPut (key : Key) (val : option Val) | oClear.

(** A call: what it returns (the value, for [Get]) and the cache. *)
Definition call (o : op) (s : LRUCache) : option (option Val * LRUCache) :=
  match o with
  | oGet key => Get key s
  | oPut key val => s' ← Put key val s; Some (None, s')
  | oClear => s' ← Clear s; Some (None, s')
  end.

Fixpoint calls (os : list op) (s : LRUCache) : option (list (option Val) * LRUCache) :=
  match os with
  | [] => Some ([], s)
  | o :: os =>
      '(v, s) ← call o s; '(vs, s) ← calls os s; Some (v :: vs, s)
  end.

(** ** The specification: entries, least recently used first *)

Definition without (k : Key) (l : list (Key * Val)) : list (Key * Val) := filter (fun kv => kv.1 <> k) l.

Definition entry (k : Key) (l : list (Key * Val)) : option Val := (list_to_map l : gmap Key Val) !! k.

(** The value returned, the entries, and the values given back. *)
Definition spec (cap : Z) (o : op) (l : list (Key * Val)) : option Val * list (Key * Val) * list (Key * Val) :=
  match o with
  | oGet k =>
      match entry k l with
      | Some v => (Some v, without k l ++ [(k, v)], [])
      | None => (None, l, [])
      end
  | oPut k None => (None, l, [])
  | oPut k (Some v) =>
      match entry k l with
      | Some old => (None, without k l ++ [(k, v)], [(k, old)])
      | None => if cap <=? size_of l then (None, drop 1 l ++ [(k, v)], take 1 l) else (None, l ++ [(k, v)], [])
      end
  | oClear => (None, [], l)
  end.

Fixpoint specs (cap : Z) (os : list op) (l : list (Key * Val)) : list (option Val) * list (Key * Val) * list (Key * Val) :=
  match os with
  | [] => ([], l, [])
  | o :: os =>
      let '(v, l, rel) := spec cap o l in
      let '(vs, l, rel') := specs cap os l in (v :: vs, l, rel ++ rel')
  end.

(** The values a sequence of calls hands to the cache. *)
Definition handed (o : op) : list Val := match o with oPut _ (Some v) => [v] | _ => [] end.

(** ** The invariant *)

(** A row of the cache: the node, the pair it points to, and what the pair holds. *)
Definition row : Type := nat * nat * (Key * Val).

Definition it_of (r : row) : nat := r.1.1.
Definition ptr_of (r : row) : nat := r.1.2.
Definition key_of (r : row) : Key := r.2.1.

(** The list, the table and the heap show the same rows; nothing else is allocated. *)
Record shows (rows : list row) (s : LRUCache) : Prop := {
  sh_list : cache_list_ s = rows.*1;
  sh_table : hasht_ s = list_to_map ((fun r => (key_of r, it_of r)) <$> rows);
  sh_pairs : pairs s = list_to_map ((fun r => (ptr_of r, r.2)) <$> rows);
  sh_its : NoDup (it_of <$> rows);
  sh_ptrs : NoDup (ptr_of <$> rows);
  sh_keys : NoDup (key_of <$> rows);
  sh_fresh : Forall (fun r => it_of r < fresh s /\ ptr_of r < fresh s)%nat rows
}.

(** ** Lemmas *)

Lemma fmap_pair {A B C} (f : A -> B) (g : A -> C) (l : list A) : ((fun r => (f r, g r)) <$> l).*1 = f <$> l.
Proof. rewrite <- list_fmap_compose. by apply list_fmap_ext. Qed.

Lemma shows_nil cap rel n : shows [] (mkCache ∅ [] cap ∅ rel n).
Proof. split; cbn; try done; constructor. Qed.

(** One row out of the middle. *)
Lemma shows_drop a r b s rel n cap :
  shows (a ++ r :: b) s -> (fresh s <= n)%nat ->
  shows (a ++ b) (mkCache (delete (key_of r) (hasht_ s)) (a ++ b).*1 cap (delete (ptr_of r) (pairs s)) rel n).
Proof.
  intros [H1 H2 H3 H4 H5 H6 H7] Hn.
  assert (forall (B : Type) (f : row -> B), NoDup (f <$> a ++ r :: b) -> NoDup (f <$> a ++ b) /\ f r ∉ (f <$> a ++ b)) as Hmid.
  { intros B f. rewrite !fmap_app, fmap_cons. intros Hd. rewrite <- Permutation_middle in Hd.
    by apply NoDup_cons in Hd as [? ?]. }
  destruct (Hmid _ _ H4) as [I1 _], (Hmid _ _ H5) as [P1 P2], (Hmid _ _ H6) as [K1 K2]. split; cbn; try done.
  - rewrite H2. rewrite (list_to_map_proper _ ((fun r => (key_of r, it_of r)) <$> r :: a ++ b)).
    + cbn. apply delete_insert_id. apply not_elem_of_list_to_map_1. by rewrite fmap_pair.
    + by rewrite fmap_pair.
    + by rewrite <- Permutation_middle.
  - rewrite H3. rewrite (list_to_map_proper _ ((fun r => (ptr_of r, r.2)) <$> r :: a ++ b)).
    + cbn. apply delete_insert_id. apply not_elem_of_list_to_map_1. by rewrite fmap_pair.
    + by rewrite fmap_pair.
    + by rewrite <- Permutation_middle.
  - apply Forall_app in H7 as [F1 F2]. inversion F2; subst. apply Forall_app. 
    split; eapply Forall_impl; eauto; cbn; intros; lia.
Qed.

(** A new row at the end. *)
Lemma shows_snoc rows r s n cap rel :
  shows rows s -> it_of r ∉ (it_of <$> rows) -> ptr_of r ∉ (ptr_of <$> rows) -> key_of r ∉ (key_of <$> rows) ->
  (it_of r < n)%nat -> (ptr_of r < n)%nat -> (fresh s <= n)%nat ->
  shows (rows ++ [r]) (mkCache (<[key_of r := it_of r]> (hasht_ s)) (cache_list_ s ++ [r.1]) cap
                               (<[ptr_of r := r.2]> (pairs s)) rel n).
Proof.
  intros [H1 H2 H3 H4 H5 H6 H7] Hi Hp Hk Hin Hpn Hn. 
  assert (forall (B : Type) (f : row -> B), NoDup (f <$> rows) -> f r ∉ (f <$> rows) -> NoDup (f <$> rows ++ [r])) as Hend.
  { intros B f ? ?. rewrite fmap_app. apply NoDup_app. split_and!; [done| |apply NoDup_singleton]. set_solver. }
  split; cbn; try by apply Hend.
  - by rewrite fmap_app, H1.
  - rewrite fmap_app. cbn. rewrite list_to_map_snoc, H2; [done|]. by rewrite fmap_pair.
  - rewrite fmap_app. cbn. rewrite list_to_map_snoc, H3; [done|]. by rewrite fmap_pair.
  - apply Forall_app. split; [|by repeat constructor]. eapply Forall_impl; [exact H7|]. cbn. lia.
Qed.

Lemma key_fst (rows : list row) : (rows.*2).*1 = key_of <$> rows.
Proof. rewrite <- list_fmap_compose. by apply list_fmap_ext. Qed.

Lemma filter_id {A} (P : A -> Prop) `{forall x, Decision (P x)} (l : list A) : (forall x, x ∈ l -> P x) -> filter P l = l.
Proof.
  induction l as [|x l IH]; intros Hl; [done|].
  rewrite filter_cons_True, IH; [done| |]; intros; apply Hl; [by right|by left].
Qed.

Lemma filter_middle {A B} `{EqDecision B} (f : A -> B) (a b : list A) (r : A) :
  NoDup (f <$> a ++ r :: b) -> filter (fun x => f x <> f r) (a ++ r :: b) = a ++ b.
Proof.
  rewrite fmap_app, fmap_cons, NoDup_app, NoDup_cons. intros (_ & Ha & Hb & _).
  rewrite filter_app, filter_cons_False by tauto. f_equal; apply filter_id; intros x Hx Hf.
  - apply (Ha (f x)); [by apply list_elem_of_fmap_2|]. rewrite Hf. by left.
  - apply Hb. rewrite <- Hf. by apply list_elem_of_fmap_2.
Qed.

(** What a key in the table stands for. *)
Lemma shows_find rows s k it :
  shows rows s -> hasht_ s !! k = Some it ->
  exists a r b, rows = a ++ r :: b /\ key_of r = k /\ it_of r = it.
Proof.
  intros Hs Hk. rewrite (sh_table _ _ Hs) in Hk. apply elem_of_list_to_map_2, list_elem_of_fmap in Hk as (r & [= -> ->] & Hr).
  apply list_elem_of_split in Hr as (a & b & ->). by exists a, r, b.
Qed.

Lemma shows_absent rows s k : shows rows s -> hasht_ s !! k = None -> k ∉ (key_of <$> rows).
Proof.
  intros Hs Hk. rewrite (sh_table _ _ Hs) in Hk. apply not_elem_of_list_to_map in Hk. by rewrite fmap_pair in Hk.
Qed.

(** A key in the middle: its node, its pair, and the rest. *)
Lemma shows_middle a r b s :
  shows (a ++ r :: b) s ->
  hasht_ s !! key_of r = Some (it_of r) /\ node_at (it_of r) (cache_list_ s) = Some (ptr_of r) /\
  list_erase (it_of r) (cache_list_ s) = (a ++ b).*1 /\ pairs s !! ptr_of r = Some r.2.
Proof.
  intros [H1 H2 H3 H4 H5 H6 H7].
  assert (it_of <$> a ++ r :: b = (a ++ r :: b).*1.*1) as Hit.
  { rewrite <- list_fmap_compose. by apply list_fmap_ext. }
  split_and!.
  - rewrite H2. apply elem_of_list_to_map_1; [by rewrite fmap_pair|]. rewrite fmap_app, fmap_cons. set_solver.
  - rewrite H1, fmap_app, fmap_cons. unfold node_at. rewrite Hit, fmap_app, fmap_app, fmap_cons, fmap_cons in H4.
    apply NoDup_app in H4 as (_ & Ha & _). induction (a.*1) as [|x l IH]; cbn.
    + by rewrite bool_decide_true.
    + rewrite bool_decide_false; [apply IH; intros; apply Ha; by right|].
      intros Hx. apply (Ha (it_of r)); [rewrite <- Hx; by left|by left].
  - rewrite H1, fmap_app, fmap_cons, fmap_app. unfold list_erase. apply (filter_middle fst).
    by rewrite Hit, fmap_app, fmap_cons in H4.
  - rewrite H3. apply elem_of_list_to_map_1; [by rewrite fmap_pair|]. rewrite fmap_app, fmap_cons. set_solver.
Qed.

Lemma shows_other rows h l cap cap' p rel rel' n :
  shows rows (mkCache h l cap p rel n) -> shows rows (mkCache h l cap' p rel' n).
Proof. by intros []. Qed.

(** A known key: its row moves to the end with the value [v]. *)
Lemma shows_move a r b s cap rel v :
  shows (a ++ r :: b) s ->
  shows ((a ++ b) ++ [((fresh s, ptr_of r), (key_of r, v))])
    (mkCache (<[key_of r := fresh s]> (hasht_ s)) ((a ++ b).*1 ++ [(fresh s, ptr_of r)]) cap
             (<[ptr_of r := (key_of r, v)]> (pairs s)) rel (S (fresh s))).
Proof.
  intros Hs. pose proof (sh_fresh _ _ Hs) as Hf. pose proof (sh_ptrs _ _ Hs) as Hp. pose proof (sh_keys _ _ Hs) as Hk.
  pose proof (shows_drop a r b s rel (fresh s) cap Hs (le_n _)) as Hd.
  pose proof (shows_snoc _ ((fresh s, ptr_of r), (key_of r, v)) _ (S (fresh s)) cap rel Hd) as HS. cbn in HS.
  change (key_of _) with (key_of r) in HS. change (ptr_of (_, _)) with (ptr_of r) in HS.
  rewrite !insert_delete_eq in HS.
  rewrite <- Permutation_middle, fmap_cons, NoDup_cons in Hp. rewrite <- Permutation_middle, fmap_cons, NoDup_cons in Hk.
  rewrite <- Permutation_middle, Forall_cons in Hf. destruct Hf as [[_ Hfp] Hf].
  apply HS; try tauto; [|lia..]. intros (x & Hx & Hin)%list_elem_of_fmap.
  rewrite Forall_forall in Hf. apply Hf in Hin. lia.
Qed.

(** ** Lemmas: calls against the specification *)

Lemma entry_middle a r b :
  NoDup (key_of <$> a ++ r :: b) ->
  entry (key_of r) (a ++ r :: b).*2 = Some r.2.2 /\ without (key_of r) (a ++ r :: b).*2 = (a ++ b).*2.
Proof.
  intros Hk. split.
  - unfold entry. apply elem_of_list_to_map_1; [by rewrite key_fst|].
    rewrite fmap_app, fmap_cons. apply elem_of_app. right. destruct r as [? []]. cbn. by left.
  - rewrite <- key_fst, fmap_app, fmap_cons in Hk. rewrite fmap_app, fmap_cons, fmap_app. by apply (filter_middle fst).
Qed.

Lemma entry_absent k (rows : list row) : k ∉ (key_of <$> rows) -> entry k rows.*2 = None.
Proof. intros Hk. unfold entry. apply not_elem_of_list_to_map_1. by rewrite key_fst. Qed.

Lemma shows_size rows s : shows rows s -> Size s = size_of rows.*2.
Proof. intros Hs. unfold Size, size_of. by rewrite (sh_list _ _ Hs), !length_fmap. Qed.

(** What a call has to do. *)
Definition meets (cap : Z) (o : op) (rows : list row) (s : LRUCache) : Prop :=
  exists rows' s', call o s = Some ((spec cap o rows.*2).1.1, s') /\ shows rows' s' /\
    rows'.*2 = (spec cap o rows.*2).1.2 /\ released s' = released s ++ (spec cap o rows.*2).2 /\
    capacity_ s' = capacity_ s.

Lemma shows_new rows s k v :
  shows rows s -> k ∉ (key_of <$> rows) -> shows (rows ++ [((S (fresh s), fresh s), (k, v))]) (insert_new k v s).
Proof.
  intros Hs Hk. pose proof (sh_fresh _ _ Hs) as Hf. rewrite Forall_forall in Hf.
  assert (hasht_ s !! k = None) as HN.
  { rewrite (sh_table _ _ Hs). apply not_elem_of_list_to_map_1. by rewrite fmap_pair. }
  unfold insert_new. rewrite HN. apply (shows_snoc rows ((S (fresh s), fresh s), (k, v))); try done; try (unfold it_of, ptr_of; cbn; lia).
  - intros (x & Hx & Hin)%list_elem_of_fmap. apply Hf in Hin. unfold it_of in *. cbn in *. lia.
  - intros (x & Hx & Hin)%list_elem_of_fmap. apply Hf in Hin. unfold ptr_of in *. cbn in *. lia.
Qed.

Lemma Get_meets cap k rows s : shows rows s -> meets cap (oGet k) rows s.
Proof.
  intros Hs. unfold meets. cbn [call spec]. unfold Get. destruct (hasht_ s !! k) as [it|] eqn:Hk.
  - destruct (shows_find _ _ _ _ Hs Hk) as (a & r & b & -> & <- & <-).
    destruct (shows_middle _ _ _ _ Hs) as (_ & H2 & H3 & H4). destruct (entry_middle a r b (sh_keys _ _ Hs)) as [E1 E2].
    rewrite H2, E1, E2. cbn. rewrite H4. cbn. pose proof (shows_move a r b s (capacity_ s) (released s) r.2.2 Hs) as HM.
    rewrite (insert_id (pairs s)) in HM by (rewrite H4; by destruct r as [? []]). rewrite <- H3 in HM.
    eexists _, _. split; [reflexivity|]. split_and!; [exact HM|by rewrite fmap_app|by rewrite app_nil_r|done].
  - rewrite (entry_absent k rows (shows_absent _ _ _ Hs Hk)). exists rows, s. cbn. by rewrite app_nil_r.
Qed.

Lemma Put_meets cap k v rows s :
  shows rows s -> u64 (capacity_ s) = cap -> 0 < cap -> meets cap (oPut k v) rows s.
Proof.
  intros Hs Hcap Hpos. unfold meets. destruct v as [v|]; [|exists rows, s; cbn; by rewrite app_nil_r].
  cbn [call spec]. unfold Put. destruct (hasht_ s !! k) as [it|] eqn:Hk.
  - destruct (shows_find _ _ _ _ Hs Hk) as (a & r & b & -> & <- & <-).
    destruct (shows_middle _ _ _ _ Hs) as (_ & H2 & H3 & H4). destruct (entry_middle a r b (sh_keys _ _ Hs)) as [E1 E2].
    rewrite H2, E1, E2. cbn. rewrite H4. cbn.
    pose proof (shows_move a r b s (capacity_ s) (released s ++ [(key_of r, r.2.2)]) v Hs) as HM.
    replace (key_of r, r.2.2) with r.2 in * by (by destruct r as [? []]). rewrite <- H3 in HM.
    eexists _, _. split; [reflexivity|]. split_and!; [exact HM|by rewrite fmap_app|done..].
  - pose proof (shows_absent _ _ _ Hs Hk) as Hka. rewrite (entry_absent k rows Hka), Hcap.
    pose proof (shows_size _ _ Hs) as Hsz. unfold Size in Hsz. rewrite Hsz.
    destruct (cap <=? size_of rows.*2) eqn:Hfull; cbn.
    + destruct rows as [|r rows]; [apply Z.leb_le in Hfull; unfold size_of in Hfull; cbn in Hfull; lia|].
      pose proof (shows_middle [] r rows s Hs) as (H1 & H2 & H3 & H4). unfold evict.
      rewrite (sh_list _ _ Hs). cbn. destruct r as [[it p] [k' v']]. cbn in *. rewrite H4. cbn.
      pose proof (shows_drop [] _ rows s (released s ++ [(k', v')]) (fresh s) (capacity_ s) Hs (le_n _)) as HD.
      pose proof (shows_new rows _ k v HD ltac:(unfold key_of in *; set_solver)) as HN.
      eexists _, _. split; [reflexivity|]. split_and!; [exact HN|by rewrite fmap_app|done..].
    + pose proof (shows_new rows s k v Hs Hka) as HN.
      eexists _, _. split; [reflexivity|]. split_and!; [exact HN|by rewrite fmap_app|by rewrite app_nil_r|done].
Qed.

Lemma lookup_freed (l : list (nat * nat)) (m : gmap nat (Key * Val)) p :
  foldr (fun n => delete n.2) m l !! p = if decide (p ∈ l.*2) then None else m !! p.
Proof.
  induction l as [|n l IH]; [done|]. cbn [foldr]. rewrite fmap_cons, lookup_delete, IH.
  destruct (decide (n.2 = p)) as [->|Hne]; [by rewrite decide_True by by left|].
  apply decide_ext. rewrite elem_of_cons. naive_solver.
Qed.

Lemma Clear_meets cap rows s : shows rows s -> meets cap oClear rows s.
Proof.
  intros Hs. unfold meets. cbn [call spec]. unfold Clear.
  assert (mapM (fun n => pairs s !! n.2) (cache_list_ s) = Some rows.*2) as ->.
  { rewrite (sh_list _ _ Hs). apply mapM_Some_2. rewrite Forall2_fmap. apply Forall_Forall2_diag, Forall_forall.
    intros r Hr. apply list_elem_of_split in Hr as (a & b & ->). apply (shows_middle _ _ _ _ Hs). }
  cbn. exists []. eexists. split; [reflexivity|]. split_and!; [|done..].
  assert (foldr (fun n => delete n.2) (pairs s) (cache_list_ s) = ∅) as ->; [|by apply shows_nil].
  apply map_empty. intros p. rewrite lookup_freed, (sh_list _ _ Hs), (sh_pairs _ _ Hs). case_decide as Hp; [done|].
  apply not_elem_of_list_to_map_1. rewrite fmap_pair. intros Hin. apply Hp.
  apply list_elem_of_fmap in Hin as (r & -> & Hr). apply (list_elem_of_fmap_2 snd rows.*1 r.1), (list_elem_of_fmap_2 fst), Hr.
Qed.

Lemma call_meets cap o rows s :
  shows rows s -> u64 (capacity_ s) = cap -> 0 < cap -> meets cap o rows s.
Proof. destruct o; intros; [by apply Get_meets|by apply Put_meets|by apply Clear_meets]. Qed.

(** ** Lemmas: the specification *)

Lemma without_perm k v (l : list (Key * Val)) :
  NoDup l.*1 -> entry k l = Some v -> l ≡ₚ (k, v) :: without k l.
Proof.
  unfold entry, without. induction l as [|[k' v'] l IH]; intros Hd He; [done|].
  cbn in Hd, He. apply NoDup_cons in Hd as [Hn Hd]. destruct (decide (k' = k)) as [->|Hne].
  - rewrite lookup_insert_eq in He. injection He as ->. rewrite filter_cons_False by (cbn; tauto).
    rewrite filter_id; [done|]. intros x Hx <-. apply Hn. by apply list_elem_of_fmap_2.
  - rewrite lookup_insert_ne in He by done. rewrite filter_cons_True by done. rewrite (IH Hd He) at 1. apply Permutation_swap.
Qed.

(** No value is lost, and none is given back twice. *)
Lemma spec_conserves cap o l :
  NoDup l.*1 -> (spec cap o l).1.2.*2 ++ (spec cap o l).2.*2 ≡ₚ l.*2 ++ handed o.
Proof.
  intros Hd. destruct o as [k|k [v|]|]; cbn; rewrite ?app_nil_r; try done.
  - destruct (entry k l) as [v|] eqn:He; cbn; rewrite ?app_nil_r; [|done].
    rewrite (without_perm k v l Hd He) at 2. rewrite fmap_app. cbn. by rewrite <- Permutation_cons_append.
  - destruct (entry k l) as [old|] eqn:He; [|destruct (cap <=? size_of l)]; cbn; rewrite ?fmap_app, ?app_nil_r; cbn; try done.
    + rewrite (without_perm k old l Hd He) at 2. cbn. by rewrite <- !Permutation_cons_append.
    + rewrite (Permutation_app_comm _ [v]), (Permutation_app_comm (l.*2)). cbn. constructor.
      by rewrite Permutation_app_comm, <- fmap_app, take_drop.
Qed.

Lemma spec_bound cap o l :
  0 < cap -> NoDup l.*1 -> size_of l <= cap -> size_of (spec cap o l).1.2 <= cap.
Proof.
  intros Hc Hd Hl. assert (forall k v v', entry k l = Some v -> size_of (without k l ++ [(k, v')]) = size_of l) as Hmove.
  { intros k v v' He. unfold size_of. rewrite (without_perm k v l Hd He) at 2. rewrite length_app. cbn. lia. }
  destruct o as [k|k [v|]|]; cbn; [|destruct (entry k l) as [old|] eqn:He|done|unfold size_of; cbn; lia].
  - destruct (entry k l) as [v|] eqn:He; cbn; [by rewrite (Hmove k v v He)|done].
  - cbn. by rewrite (Hmove k old v He).
  - destruct (Z.leb_spec cap (size_of l)); cbn; unfold size_of in *; rewrite length_app; cbn; [|lia].
    rewrite length_drop. lia.
Qed.

Lemma calls_meet cap os : forall rows s,
  shows rows s -> u64 (capacity_ s) = cap -> 0 < cap -> size_of rows.*2 <= cap ->
  let '(vs, l, rel) := specs cap os rows.*2 in
  exists rows' s', calls os s = Some (vs, s') /\ shows rows' s' /\ rows'.*2 = l /\ size_of l <= cap /\
    released s' = released s ++ rel /\ l.*2 ++ rel.*2 ≡ₚ rows.*2.*2 ++ mjoin (handed <$> os).
Proof.
  induction os as [|o os IH]; intros rows s Hs Hcap Hpos Hle; cbn.
  { exists rows, s. by rewrite !app_nil_r. }
  destruct (call_meets cap o rows s Hs Hcap Hpos) as (rows1 & s1 & H1 & H2 & H3 & H4 & H5).
  assert (NoDup rows.*2.*1) as Hd by (rewrite key_fst; apply Hs).
  pose proof (spec_conserves cap o _ Hd) as Hv. pose proof (spec_bound cap o _ Hpos Hd Hle) as Hb.
  destruct (spec cap o rows.*2) as [[v l1] rel1]. cbn in *. subst l1.
  specialize (IH rows1 s1 H2 ltac:(by rewrite H5) Hpos Hb). destruct (specs cap os rows1.*2) as [[vs l] rel].
  destruct IH as (rows' & s' & I1 & I2 & I3 & I4 & I5 & I6). exists rows', s'. rewrite H1. cbn. rewrite I1. cbn.
  split_and!; try done; [by rewrite I5, H4, app_assoc|].
  rewrite fmap_app, (app_assoc (rows.*2.*2)), <- Hv, (Permutation_app_comm _ (rel.*2)), app_assoc, I6.
  rewrite <- !app_assoc. f_equiv. apply Permutation_app_comm.
Qed.

Lemma shows_allocated rows s : shows rows s -> base.size (pairs s) = length rows.
Proof.
  intros Hs. rewrite (sh_pairs _ _ Hs), map_size_list_to_map by (rewrite fmap_pair; apply Hs). by rewrite length_fmap.
Qed.

(** ** Properties *)

(** The cache is a cache.  Whatever sequence of lookups, insertions and clears
    is made on a new cache whose capacity is not zero, no call is undefined, each
    returns what the specification says -- the entries in the order of their last
    use, the oldest given up when a new key finds the cache full -- and the cache
    never holds more entries than its capacity.  Every value it was handed is either
    still held or was given back, once for each time it was handed in; and the
    pairs that are allocated are those of the entries, so none leaks. *)
Theorem lru_cache_refines (capacity : Z) (os : list op) :
  0 < u64 capacity ->
  let '(vs, l, rel) := specs (u64 capacity) os [] in
  exists s, calls os (construct capacity) = Some (vs, s) /\
    Size s = size_of l /\ size_of l <= u64 capacity /\ Z.of_nat (base.size (pairs s)) = size_of l /\
    released s = rel /\ l.*2 ++ rel.*2 ≡ₚ mjoin (handed <$> os).
Proof.
  intros Hpos. pose proof (calls_meet (u64 capacity) os [] (construct capacity) (shows_nil _ _ _) eq_refl Hpos) as H1.
  cbn [fmap list_fmap] in H1. specialize (H1 ltac:(change (size_of _) with 0; lia)).
  destruct (specs _ _ _) as [[vs l] rel]. destruct H1 as (rows & s & A1 & A2 & A3 & A4 & A5 & A6). exists s.
  split_and!; [done|by rewrite (shows_size _ _ A2), A3|done| |done|done].
  rewrite (shows_allocated _ _ A2), <- A3. unfold size_of. by rewrite length_fmap.
Qed.

End LRUCache.

Arguments LRUCache : clear implicits.
Arguments LRUCache Key Val {_ _}.
Arguments op : clear implicits.

(** ** Witnesses *)

Definition demo_ops : list (op Z Z) :=
  [oPut 1 (Some 10); oPut 2 (Some 20); oGet 1; oPut 3 (Some 30); oGet 2; oPut 1 (Some 11); oPut 4 None].

(** Two is the oldest when three comes: it is given up; one is updated. *)
Lemma lru_cache_refines_witness :
  0 < u64 2 /\ specs (u64 2) demo_ops [] = ([None; None; Some 10; None; None; None; None], [(3, 30); (1, 11)], [(2, 20); (1, 10)]) /\
  exists s, calls demo_ops (construct 2) = Some ([None; None; Some 10; None; None; None; None], s) /\
    Size s = 2 /\ released s = [(2, 20); (1, 10)].
Proof.
  assert (0 < u64 2) as Hpos by (vm_compute; reflexivity). pose proof (lru_cache_refines 2 demo_ops Hpos) as HT.
  assert (specs (u64 2) demo_ops [] = ([None; None; Some 10; None; None; None; None], [(3, 30); (1, 11)], [(2, 20); (1, 10)])) as HS
    by (vm_compute; reflexivity).
  rewrite HS in HT. destruct HT as (s & H1 & H2 & _ & _ & H3 & _). split_and!; [done|done|]. by exists s.
Defined.

(** With capacity zero the first insertion looks at the front of an empty list. *)
Example put_capacity_zero : Put 1 (Some 10) (construct 0) = None.
Proof. vm_compute. reflexivity. Qed.

(** Storing the value a key already has gives it back and keeps it. *)
Example put_same_value :
  (s ← Put 1 (Some 10) (construct 2); s ← Put 1 (Some 10) s; '(v, s) ← Get 1 s; Some (v, released s)) = Some (Some 10, [(1, 10)]).
Proof. vm_compute. reflexivity. Qed.
