(* ===== verification/CommandType.v ===== *)
(** * Command names

    Models include/vemory/protocol/CommandType.h and src/protocol/CommandType.cc. *)

From S2P Require Import Prelude.
From S2P Require Import CLib.

Inductive CommandType :=
  | kVset | kVget | kVdel | kSet | kDel | kGet | kPing | kEcho | kSave | kPsync | kUnknown.

#[export] Instance CommandType_eq_dec : EqDecision CommandType.
Proof. solve_decision. Defined.

(** [static_cast<std::size_t>(cmd)]: the enumerators count from zero. *)
Definition index (c : CommandType) : nat :=
  match c with
  | kVset => 0 | kVget => 1 | kVdel => 2 | kSet => 3 | kDel => 4 | kGet => 5
  | kPing => 6 | kEcho => 7 | kSave => 8 | kPsync => 9 | kUnknown => 10
  end.

Definition kCommandTypeCount : nat := index kUnknown.

(** The loop of [EqualsIgnoreCase] over two strings of the same size. *)
Fixpoint EqualsIgnoreCase_loop (a b : bytes) : bool :=
  match a, b with
  | ca :: a', cb :: b' =>
      if negb (bool_decide (tolower ca = tolower cb)) then false
      else EqualsIgnoreCase_loop a' b'
  | _, _ => true
  end.

Definition EqualsIgnoreCase (a b : bytes) : bool :=
  if negb (size_of a =? size_of b) then false else EqualsIgnoreCase_loop a b.

Definition ParseCommandType (name : bytes) : CommandType :=
  if EqualsIgnoreCase name (bs "VSET") then kVset else
  if EqualsIgnoreCase name (bs "VGET") then kVget else
  if EqualsIgnoreCase name (bs "VDEL") then kVdel else
  if EqualsIgnoreCase name (bs "SET") then kSet else
  if EqualsIgnoreCase name (bs "DEL") then kDel else
  if EqualsIgnoreCase name (bs "GET") then kGet else
  if EqualsIgnoreCase name (bs "PING") then kPing else
  if EqualsIgnoreCase name (bs "ECHO") then kEcho else
  if EqualsIgnoreCase name (bs "SAVE") then kSave else
  if EqualsIgnoreCase name (bs "PSYNC") then kPsync else
  kUnknown.

(** The wire name of a command. *)
Definition name (c : CommandType) : bytes :=
  match c with
  | kVset => bs "VSET" | kVget => bs "VGET" | kVdel => bs "VDEL" | kSet => bs "SET"
  | kDel => bs "DEL" | kGet => bs "GET" | kPing => bs "PING" | kEcho => bs "ECHO"
  | kSave => bs "SAVE" | kPsync => bs "PSYNC" | kUnknown => []
  end.

(** ** Lemmas *)

Lemma EqualsIgnoreCase_spec a b :
  EqualsIgnoreCase a b = true <-> map tolower a = map tolower b.
Proof.
  unfold EqualsIgnoreCase. destruct (size_of a =? size_of b) eqn:E; bool_facts; simpl.
  - revert b E. induction a as [|ca a IH]; intros [|cb b] E; simpl; rewrite ?size_of_cons in E;
      unfold size_of in *; simpl in E; try lia; [done|].
    case_bool_decide as Hc; simpl; [|split; [done|congruence]].
    rewrite IH by lia. split; [intros ->; congruence|congruence].
  - split; [done|]. intros H. apply (f_equal length) in H. rewrite !length_map in H.
    unfold size_of in E. lia.
Qed.

Lemma ParseCommandType_name c : ParseCommandType (name c) = c.
Proof. by destruct c; vm_compute. Qed.

Lemma EqualsIgnoreCase_congr a b x :
  map tolower a = map tolower b -> EqualsIgnoreCase a x = EqualsIgnoreCase b x.
Proof. intros H. apply eq_true_iff_eq. by rewrite !EqualsIgnoreCase_spec, H. Qed.

Lemma ParseCommandType_congr a b :
  map tolower a = map tolower b -> ParseCommandType a = ParseCommandType b.
Proof. intros H. unfold ParseCommandType. by rewrite !(EqualsIgnoreCase_congr _ _ _ H). Qed.

Lemma ParseCommandType_sound tok c :
  ParseCommandType tok = c -> c <> kUnknown -> map tolower tok = map tolower (name c).
Proof.
  unfold ParseCommandType. intros <-.
  repeat match goal with
  | |- context [if EqualsIgnoreCase tok ?w then _ else _] =>
      destruct (EqualsIgnoreCase tok w) eqn:E;
        [intros _; apply EqualsIgnoreCase_spec; exact E|clear E]
  end. done.
Qed.

(** A command token is recognised exactly when it equals, up to ASCII case,
    the wire name of one of the ten commands; every other token, the empty one
    included, is [kUnknown]. *)
Theorem ParseCommandType_spec (tok : bytes) :
  (forall c, c <> kUnknown ->
     ParseCommandType tok = c <-> map tolower tok = map tolower (name c)) /\
  (ParseCommandType tok = kUnknown <->
     Forall (fun c => map tolower tok <> map tolower (name c))
       [kVset; kVget; kVdel; kSet; kDel; kGet; kPing; kEcho; kSave; kPsync]).
Proof.
  assert (forall c, c <> kUnknown ->
     ParseCommandType tok = c <-> map tolower tok = map tolower (name c)) as H.
  { intros c Hc. split; [intros; by apply ParseCommandType_sound|].
    intros Ht. by rewrite (ParseCommandType_congr _ _ Ht), ParseCommandType_name. }
  split; [exact H|]. split.
  - intros Hu. repeat (constructor; [rewrite <- H by done; congruence|]). constructor.
  - intros Hall. destruct (decide (ParseCommandType tok = kUnknown)) as [|Hne]; [done|].
    pose proof (proj1 (H _ Hne) eq_refl) as E. exfalso. rewrite Forall_elem in Hall.
    destruct (ParseCommandType tok); [..|done]; (eapply Hall; [|exact E]; set_solver).
Qed.
