(* ===== verification/RequestContext.v ===== *)
(** * RequestContext: one request after the RESP tokens are mapped to a command

    Models include/vemory/protocol/RequestContext.h and
    src/protocol/RequestContext.cc. *)

From S2P Require Import Prelude.
From S2P Require Import CLib.
From S2P Require Import CommandType.

Record RequestContext := mkCtx {
  client_fd : Z;
  cmd : CommandType;
  vector_blob : bytes;
  user_key : bytes;
  question : bytes;
  answer : bytes;
  threshold : Z;        (** a [float], by its bit pattern *)
  key : bytes;
  element : bytes;
  psync_replid : bytes;
  psync_offset : Z;
  recv_time : Z         (** ticks of the steady clock *)
}.

(** The default member initialisers. *)
Definition default_ctx : RequestContext :=
  mkCtx (-1) kUnknown [] [] [] [] 0 [] [] [] (-1) 0.

Inductive Status := kOk | kEmpty | kUnknownCommand | kWrongArity | kBadValue.

#[export] Instance Status_eq_dec : EqDecision Status.
Proof. solve_decision. Defined.

(** [ParseFloat]: [None] is [false]. *)
Definition ParseFloat (s : bytes) : option Z :=
  if is_empty s then None else
  let tmp := drop_while isspace s in
  if is_empty tmp then None else
  let c := c_str tmp in
  let '(v, rest) := strtof c in
  if bool_decide (rest = c) then None else
  if negb (is_empty (drop_while isspace rest)) then None else Some v.

(** [ClearOut(out, client_fd, cmd)]: every field of [out] is overwritten. *)
Definition ClearOut (client_fd : Z) (cmd : CommandType) : RequestContext :=
  mkCtx client_fd cmd [] [] [] [] 0 [] [] [] (-1) 0.

(** The result of [strtoll(off_tmp.c_str(), &end, 10)] followed by the test on [end]. *)
Definition ParseOffset (tok : bytes) : option Z :=
  let c := c_str tok in
  let '(v, rest) := strtoll c in
  if bool_decide (rest = c) || negb (is_empty rest) then None else Some (i64 v).

(** [tokens[i]]; only used below the size that the arity test fixed. *)
Definition tok (tokens : list bytes) (i : nat) : bytes := nth i tokens [].

(** The [switch] of [FromTokens]: the request with its command's fields, or the
    status to fail with. *)
Definition FromTokens_switch (fd now : Z) (tokens : list bytes) (c : CommandType)
    : Status * RequestContext :=
  let n := size_of tokens in
  let fail st := (st, ClearOut fd c) in
  let cleared := ClearOut fd c in
  let done out := (kOk, mkCtx (client_fd out) (cmd out) (vector_blob out) (user_key out)
    (question out) (answer out) (threshold out) (key out) (element out)
    (psync_replid out) (psync_offset out) now) in
  match c with
  | kVset =>
      if negb (n =? 5) then fail kWrongArity
      else if is_empty (tok tokens 2) then fail kBadValue
      else done (mkCtx fd c (tok tokens 1) (tok tokens 2) (tok tokens 3) (tok tokens 4)
                   0 [] [] [] (-1) 0)
  | kVget =>
      if negb (n =? 3) then fail kWrongArity
      else
        match ParseFloat (tok tokens 2) with
        | None => fail kBadValue
        | Some thr => done (mkCtx fd c (tok tokens 1) [] [] [] thr [] [] [] (-1) 0)
        end
  | kVdel =>
      if negb (n =? 2) then fail kWrongArity
      else if is_empty (tok tokens 1) then fail kBadValue
      else done (mkCtx fd c [] (tok tokens 1) [] [] 0 [] [] [] (-1) 0)
  | kSet =>
      if negb (n =? 3) then fail kWrongArity
      else
        let out := mkCtx fd c [] [] [] [] 0 (tok tokens 1) (tok tokens 2) [] (-1) 0 in
        if is_empty (key out) then fail kBadValue else done out
  | kGet | kDel =>
      if negb (n =? 2) then fail kWrongArity
      else
        let out := mkCtx fd c [] [] [] [] 0 (tok tokens 1) [] [] (-1) 0 in
        if is_empty (key out) then fail kBadValue else done out
  | kPing =>
      if 2 <? n then fail kWrongArity
      else if n =? 2 then done (mkCtx fd c [] [] [] [] 0 [] (tok tokens 1) [] (-1) 0)
      else done cleared
  | kEcho =>
      if negb (n =? 2) then fail kWrongArity
      else done (mkCtx fd c [] [] [] [] 0 [] (tok tokens 1) [] (-1) 0)
  | kSave =>
      if negb (n =? 1) then fail kWrongArity else done cleared
  | kPsync =>
      if negb (n =? 1) && negb (n =? 3) then fail kWrongArity
      else if n =? 3 then
        if is_empty (tok tokens 1) || is_empty (tok tokens 2) then fail kBadValue
        else
          match ParseOffset (tok tokens 2) with
          | None => fail kBadValue
          | Some off => done (mkCtx fd c [] [] [] [] 0 [] [] (tok tokens 1) off 0)
          end
      else done cleared
  | kUnknown => fail kUnknownCommand
  end.

Definition FromTokens (fd now : Z) (tokens : list bytes) (out : ptr RequestContext)
    : Status * ptr RequestContext :=
  match out with
  | None => (kEmpty, None)
  | Some _ =>
      match tokens with
      | [] => (kEmpty, out)
      | name :: _ =>
          let c := ParseCommandType name in
          if bool_decide (c = kUnknown) then (kUnknownCommand, Some (ClearOut fd kUnknown))
          else let '(st, ctx) := FromTokens_switch fd now tokens c in (st, Some ctx)
      end
  end.

(** ** The token list of a request *)

(** The tokens a client sends for a write request, as [RespEncode] orders them. *)
Definition write_tokens (ctx : RequestContext) : option (list bytes) :=
  match cmd ctx with
  | kSet => Some [name kSet; key ctx; element ctx]
  | kDel => Some [name kDel; key ctx]
  | kVset => Some [name kVset; vector_blob ctx; user_key ctx; question ctx; answer ctx]
  | kVdel => Some [name kVdel; user_key ctx]
  | _ => None
  end.

(** The fields a write request carries and nothing else: what [FromTokens]
    produces for a write, as seen by the mutation layer. *)
Definition write_view (fd now : Z) (ctx : RequestContext) : RequestContext :=
  match cmd ctx with
  | kSet => mkCtx fd kSet [] [] [] [] 0 (key ctx) (element ctx) [] (-1) now
  | kDel => mkCtx fd kDel [] [] [] [] 0 (key ctx) [] [] (-1) now
  | kVset => mkCtx fd kVset (vector_blob ctx) (user_key ctx) (question ctx) (answer ctx)
               0 [] [] [] (-1) now
  | kVdel => mkCtx fd kVdel [] (user_key ctx) [] [] 0 [] [] [] (-1) now
  | _ => default_ctx
  end.

(** A write whose key is not empty, the only kind the mutation layer performs. *)
Definition write_ok (ctx : RequestContext) : Prop :=
  match cmd ctx with
  | kSet | kDel => key ctx <> []
  | kVset | kVdel => user_key ctx <> []
  | _ => False
  end.

Lemma FromTokens_write fd now ctx toks o :
  write_ok ctx -> write_tokens ctx = Some toks ->
  FromTokens fd now toks (Some o) = (kOk, Some (write_view fd now ctx)).
Proof.
  intros Hk Ht. unfold write_ok, write_tokens, write_view in *.
  destruct (cmd ctx) eqn:Hc; try done; apply Some_inj in Ht; subst toks; unfold FromTokens;
    [pose proof (ParseCommandType_name kVset) as Hp|pose proof (ParseCommandType_name kVdel) as Hp
    |pose proof (ParseCommandType_name kSet) as Hp|pose proof (ParseCommandType_name kDel) as Hp];
    cbv zeta; rewrite Hp, bool_decide_eq_false_2 by done;
    unfold FromTokens_switch; simpl; (by destruct (user_key ctx)) || by destruct (key ctx).
Qed.

(** Whatever the client sends, [FromTokens] hands the dispatcher a request
    that is safe to act on: on [kOk] the command is known, the arity is the
    documented one and the key the command works on is not empty; on every
    failure with a non-empty token list the request keeps the command (so the
    error reply names it), the client's descriptor, and carries no argument at
    all.  The only request left unset is the one of an empty token list. *)
Theorem FromTokens_safe fd now tokens o :
  let '(st, out) := FromTokens fd now tokens (Some o) in
  match tokens, out with
  | [], _ => st = kEmpty /\ out = Some o
  | t :: args, Some ctx =>
      client_fd ctx = fd /\ cmd ctx = ParseCommandType t /\
      (if bool_decide (st = kOk) then
         cmd ctx <> kUnknown /\ recv_time ctx = now /\
         match cmd ctx with
         | kSet => key ctx <> [] /\ args = [key ctx; element ctx]
         | kGet | kDel => key ctx <> [] /\ args = [key ctx]
         | kVset => user_key ctx <> [] /\
             args = [vector_blob ctx; user_key ctx; question ctx; answer ctx]
         | kVget => exists thr, args = [vector_blob ctx; thr] /\
             ParseFloat thr = Some (threshold ctx)
         | kVdel => user_key ctx <> [] /\ args = [user_key ctx]
         | kPing => args = [] \/ args = [element ctx]
         | kEcho => args = [element ctx]
         | kSave => args = []
         | kPsync => args = [] /\ psync_replid ctx = [] /\ psync_offset ctx = -1 \/
             exists off, args = [psync_replid ctx; off] /\
               ParseOffset off = Some (psync_offset ctx)
         | kUnknown => False
         end
       else ctx = ClearOut fd (ParseCommandType t))
  | _, None => False
  end.
Proof.
  unfold FromTokens. destruct tokens as [|t args]; [done|].
  case_bool_decide as Hu; [rewrite Hu; done|].
  destruct (ParseCommandType t) eqn:Ht; try done; unfold FromTokens_switch, tok;
    rewrite size_of_cons;
    destruct args as [|a1 [|a2 [|a3 [|a4 [|a5 args]]]]];
    rewrite ?size_of_cons; unfold size_of; simpl;
    repeat case_match; simplify_eq/=; bool_facts; try lia;
    rewrite ?bool_decide_eq_true_2, ?bool_decide_eq_false_2 by done;
    naive_solver lia.
Qed.
