(* ===== verification/RespEncode.v ===== *)
(** * RespEncode: RESP frames appended to an output buffer

    Models include/vemory/protocol/resp/RespEncode.h and
    src/protocol/resp/RespEncode.cc.  Each [AppendX out s] is the contents of
    [*out] after the call. *)

From S2P Require Import Prelude.
From S2P Require Import CommandType.
From S2P Require Import RequestContext.

Definition AppendCRLF (out : bytes) : bytes := out ++ CRLF.

Definition AppendSimpleString (out s : bytes) : bytes :=
  AppendCRLF ((out ++ ["+"%char]) ++ s).

Definition AppendError (out s : bytes) : bytes :=
  AppendCRLF ((out ++ ["-"%char]) ++ s).

(** [":%lld\r\n"]: at most 23 characters, so the 32-byte buffer never truncates. *)
Definition AppendInteger (out : bytes) (v : Z) : bytes :=
  out ++ (":"%char :: print_signed v ++ CRLF).

(** ["$%zu\r\n"], the bytes, CRLF. *)
Definition AppendBulkString (out s : bytes) : bytes :=
  AppendCRLF ((out ++ ("$"%char :: print_unsigned (size_of s) ++ CRLF)) ++ s).

Definition AppendNullBulk (out : bytes) : bytes := out ++ (bs "$-1" ++ CRLF).

Definition AppendArrayHeader (out : bytes) (n : Z) : bytes :=
  out ++ ("*"%char :: print_signed n ++ CRLF).

Definition AppendOk (out : bytes) : bytes := out ++ (bs "+OK" ++ CRLF).

Definition EncodeWriteCommand (ctx : RequestContext) (out : ptr bytes) : bool * ptr bytes :=
  match out with
  | None => (false, None)
  | Some _ =>
      match cmd ctx with
      | kSet =>
          let out := AppendArrayHeader [] 3 in
          let out := AppendBulkString out (bs "SET") in
          let out := AppendBulkString out (key ctx) in
          let out := AppendBulkString out (element ctx) in
          (true, Some out)
      | kDel =>
          let out := AppendArrayHeader [] 2 in
          let out := AppendBulkString out (bs "DEL") in
          let out := AppendBulkString out (key ctx) in
          (true, Some out)
      | kVset =>
          let out := AppendArrayHeader [] 5 in
          let out := AppendBulkString out (bs "VSET") in
          let out := AppendBulkString out (vector_blob ctx) in
          let out := AppendBulkString out (user_key ctx) in
          let out := AppendBulkString out (question ctx) in
          let out := AppendBulkString out (answer ctx) in
          (true, Some out)
      | kVdel =>
          let out := AppendArrayHeader [] 2 in
          let out := AppendBulkString out (bs "VDEL") in
          let out := AppendBulkString out (user_key ctx) in
          (true, Some out)
      | _ => (false, Some [])
      end
  end.

(** ** Frames *)

(** A bulk string and an array of bulk strings, as byte sequences. *)
Definition bulk_bytes (s : bytes) : bytes :=
  "$"%char :: print_unsigned (size_of s) ++ CRLF ++ s ++ CRLF.

Definition array_bytes (toks : list bytes) : bytes :=
  "*"%char :: print_unsigned (size_of toks) ++ CRLF ++ mjoin (bulk_bytes <$> toks).

Lemma AppendBulkString_app out s : AppendBulkString out s = out ++ bulk_bytes s.
Proof.
  unfold AppendBulkString, AppendCRLF, bulk_bytes. rewrite <- !app_assoc. simpl.
  f_equal. f_equal. by rewrite <- !app_assoc.
Qed.

Lemma AppendArrayHeader_nat out (n : nat) :
  AppendArrayHeader out (Z.of_nat n) =
  out ++ "*"%char :: print_unsigned (Z.of_nat n) ++ CRLF.
Proof. unfold AppendArrayHeader, print_signed. by destruct (Z.ltb_spec (Z.of_nat n) 0); [lia|]. Qed.

(** Appending the bulks of [toks] one after the other. *)
Definition append_bulks (out : bytes) (toks : list bytes) : bytes :=
  fold_left AppendBulkString toks out.

Lemma append_bulks_app out toks : append_bulks out toks = out ++ mjoin (bulk_bytes <$> toks).
Proof.
  revert out. induction toks as [|t toks IH]; intros out.
  - unfold append_bulks. simpl. by rewrite app_nil_r.
  - change (append_bulks out (t :: toks)) with (append_bulks (AppendBulkString out t) toks).
    rewrite IH, AppendBulkString_app, fmap_cons. simpl. by rewrite <- app_assoc.
Qed.

Lemma append_array toks :
  append_bulks (AppendArrayHeader [] (size_of toks)) toks = array_bytes toks.
Proof.
  rewrite append_bulks_app. unfold size_of at 1. rewrite AppendArrayHeader_nat.
  unfold array_bytes, size_of. simpl. by rewrite <- !app_assoc.
Qed.

Lemma EncodeWriteCommand_spec ctx o :
  EncodeWriteCommand ctx (Some o) =
    match write_tokens ctx with
    | Some toks => (true, Some (array_bytes toks))
    | None => (false, Some [])
    end.
Proof.
  unfold EncodeWriteCommand, write_tokens.
  destruct (cmd ctx); try done; rewrite <- append_array; reflexivity.
Qed.

Lemma bulk_bytes_length s : (5 <= length (bulk_bytes s))%nat.
Proof.
  unfold bulk_bytes. rewrite length_cons, !length_app.
  change (length CRLF) with 2%nat. lia.
Qed.

Lemma array_bytes_nonempty toks : array_bytes toks <> [].
Proof. done. Qed.
