(* ===== verification/RespDecode.v ===== *)
(** * RespDecode: one RESP array of bulk strings from a byte buffer

    Models include/vemory/protocol/resp/RespDecode.h and
    src/protocol/resp/RespDecode.cc.  Positions are indices into [data].
    [int64_t] arithmetic wraps in two's complement at 64 bits (C++ leaves the
    overflow undefined; this is what the compiled code computes).  The position
    sum [pos + body_len + 2] is computed without a wrap: [body_len] is at most
    [2^63 - 1] and [pos] at most the size of an object.

    [tokens->reserve(count)] throws [std::length_error] when [count] exceeds the
    [max_size] of the vector.  Nothing in the program catches an exception, so it
    leaves every caller up to [main] and ends the process: the outcome [thrown]. *)

From S2P Require Import Prelude.
From S2P Require Import RespEncode.

(** [thrown] is not a status of the code: the call ends in a
    [std::length_error] instead of returning. *)
Inductive Status := kOk | kNeedMore | kError | thrown.

#[export] Instance Status_eq_dec : EqDecision Status.
Proof. solve_decision. Defined.

(** [data[i]]; only used for [i < size]. *)
Definition at_ (data : bytes) (i : nat) : ascii := nth i data NUL.

(** The loop of [FindCRLF] at index [i], [l] being the bytes from [i] on. *)
Fixpoint FindCRLF_loop (i : nat) (l : bytes) : option nat :=
  match l with
  | a :: ((b :: _) as l') =>
      if bool_decide (a = CR) && bool_decide (b = LF) then Some i
      else FindCRLF_loop (S i) l'
  | _ => None
  end.

Definition FindCRLF (data : bytes) (pos : nat) : option nat :=
  FindCRLF_loop pos (drop pos data).

(** The digit loop of [ParseIntegerLine]: [None] on a byte that is no digit. *)
Fixpoint ParseDigits (l : bytes) (value : Z) : option Z :=
  match l with
  | [] => Some value
  | c :: l' =>
      if negb (isdigit c) then None
      else ParseDigits l' (i64 (i64 (value * 10) + digit_value c))
  end.

(** The value and the position after the line's CRLF; [None] is [false]. *)
Definition ParseIntegerLine (data : bytes) (pos : nat) : option (Z * nat) :=
  match FindCRLF data pos with
  | None => None
  | Some crlf =>
      if bool_decide (crlf = pos) then None
      else
        let neg := bool_decide (at_ data pos = "-"%char) in
        let i := if neg then S pos else pos in
        if neg && bool_decide (i = crlf) then None
        else
          match ParseDigits (sub i (crlf - i) data) 0 with
          | None => None
          | Some value => Some (if neg then i64 (- value) else value, (crlf + 2)%nat)
          end
  end.

(** One element of the array, from [pos]: its bytes and the position after it. *)
Definition DecodeBulk (data : bytes) (pos : nat) : Status * bytes * nat :=
  let size := length data in
  if (size <=? pos)%nat then (kNeedMore, [], pos)
  else if negb (bool_decide (at_ data pos = "$"%char)) then (kError, [], pos)
  else
    let header_pos := S pos in
    match ParseIntegerLine data header_pos with
    | None =>
        match FindCRLF data header_pos with
        | None => (kNeedMore, [], pos)
        | Some _ => (kError, [], pos)
        end
    | Some (bulk_len, pos) =>
        if bulk_len <? 0 then (kError, [], pos)
        else if size_of data <? Z.of_nat pos + bulk_len + 2 then (kNeedMore, [], pos)
        else
          let body_len := Z.to_nat bulk_len in
          if negb (bool_decide (at_ data (pos + body_len) = CR)) ||
             negb (bool_decide (at_ data (pos + body_len + 1) = LF))
          then (kError, [], pos)
          else (kOk, sub pos body_len data, (pos + body_len + 2)%nat)
    end.

(** The [for] loop: [count] more elements; [tokens] is the vector so far. *)
Fixpoint DecodeLoop (count : nat) (data : bytes) (pos : nat) (tokens : list bytes)
    : Status * list bytes * nat :=
  match count with
  | O => (kOk, tokens, pos)
  | S count' =>
      match DecodeBulk data pos with
      | (kOk, body, pos) => DecodeLoop count' data pos (tokens ++ [body])
      | (st, _, pos) => (st, tokens, pos)
      end
  end.

(** [std::vector<std::string_view>::max_size()]: elements of 16 bytes within
    [PTRDIFF_MAX] bytes. *)
Definition kMaxTokens : Z := 2 ^ 59 - 1.

(** Status, [*tokens] and [*consumed]. *)
Definition DecodeArrayOfBulk (data : ptr bytes) (tokens : ptr (list bytes)) (consumed : ptr nat)
    : Status * ptr (list bytes) * ptr nat :=
  match tokens, consumed with
  | Some _, Some _ =>
      match data with
      | None | Some [] => (kNeedMore, Some [], Some 0%nat)
      | Some ((c :: _) as data) =>
          if negb (bool_decide (c = "*"%char)) then (kError, Some [], Some 0%nat)
          else
            match ParseIntegerLine data 1 with
            | None =>
                match FindCRLF data 1 with
                | None => (kNeedMore, Some [], Some 0%nat)
                | Some _ => (kError, Some [], Some 0%nat)
                end
            | Some (count, pos) =>
                if count <? 0 then (kError, Some [], Some 0%nat)
                else if kMaxTokens <? count then (thrown, Some [], Some 0%nat)
                else
                  match DecodeLoop (Z.to_nat count) data pos [] with
                  | (kOk, toks, pos) => (kOk, Some toks, Some pos)
                  | (st, toks, _) => (st, Some toks, Some 0%nat)
                  end
            end
      end
  | _, _ => (kError, tokens, consumed)
  end.

(** The call with valid out-pointers, as every caller makes it. *)
Definition decode (data : bytes) : Status * list bytes * nat :=
  let '(st, t, c) := DecodeArrayOfBulk (Some data) (Some []) (Some 0%nat) in
  (st, default [] t, default 0%nat c).

Example decode_ping : decode (bs "*1" ++ CRLF ++ bs "$4" ++ CRLF ++ bs "PING" ++ CRLF ++ bs "x")
  = (kOk, [bs "PING"], 14%nat).
Proof. vm_compute. reflexivity. Qed.

(** ** Lines *)

Lemma at_app_l data ext i : (i < length data)%nat -> at_ (data ++ ext) i = at_ data i.
Proof. intros. unfold at_. by rewrite app_nth1. Qed.

Lemma at_app_r pre c rest i : i = length pre -> at_ (pre ++ c :: rest) i = c.
Proof. intros ->. unfold at_. by rewrite nth_middle. Qed.

Lemma sub_app_l (data ext : bytes) i n :
  (i + n <= length data)%nat -> sub i n (data ++ ext) = sub i n data.
Proof.
  intros. unfold sub. rewrite drop_app_le by lia. rewrite take_app_le; [done|].
  rewrite length_drop. lia.
Qed.

Lemma FindCRLF_loop_app i l ext k :
  FindCRLF_loop i l = Some k -> FindCRLF_loop i (l ++ ext) = Some k.
Proof.
  revert i. induction l as [|a l IH]; intros i; [done|].
  destruct l as [|b l]; [done|]. simpl in *.
  destruct (bool_decide (a = CR) && bool_decide (b = LF)); [done|]. apply IH.
Qed.

Lemma FindCRLF_loop_bounds i l k :
  FindCRLF_loop i l = Some k -> (i <= k /\ k + 2 <= i + length l)%nat.
Proof.
  revert i. induction l as [|a l IH]; intros i; [done|].
  destruct l as [|b l]; [done|]. simpl in *.
  destruct (bool_decide (a = CR) && bool_decide (b = LF)); [intros [= <-]; lia|].
  intros H. apply IH in H. lia.
Qed.

Lemma FindCRLF_app data ext pos k :
  FindCRLF data pos = Some k -> FindCRLF (data ++ ext) pos = Some k.
Proof.
  unfold FindCRLF. destruct (Nat.le_gt_cases pos (length data)).
  - rewrite drop_app_le by lia. apply FindCRLF_loop_app.
  - by rewrite drop_ge by lia.
Qed.

Lemma FindCRLF_bounds data pos k :
  FindCRLF data pos = Some k -> (pos <= k /\ k + 2 <= length data)%nat.
Proof.
  unfold FindCRLF. intros H. pose proof (FindCRLF_loop_bounds _ _ _ H) as [? Hb].
  rewrite length_drop in Hb. lia.
Qed.

Lemma FindCRLF_loop_skip i c l : c <> CR -> FindCRLF_loop i (c :: l) = FindCRLF_loop (S i) l.
Proof. intros Hc. destruct l; [done|]. simpl. by rewrite bool_decide_eq_false_2. Qed.

Lemma FindCRLF_loop_line i l rest :
  Forall (fun c => c <> CR) l ->
  FindCRLF_loop i (l ++ CRLF ++ rest) = Some (i + length l)%nat.
Proof.
  intros Hl. revert i. induction Hl as [|c l Hc Hl IH]; intros i.
  - simpl. by rewrite Nat.add_0_r.
  - cbn [app]. rewrite FindCRLF_loop_skip by done. rewrite IH. simpl. f_equal. lia.
Qed.

Lemma digit_not_CR c : isdigit c = true -> c <> CR.
Proof. intros H ->. by vm_compute in H. Qed.

Lemma digit_not_minus c : isdigit c = true -> c <> "-"%char.
Proof. intros H ->. by vm_compute in H. Qed.

Lemma ParseDigits_fold l v :
  Forall (fun c => isdigit c = true) l ->
  ParseDigits l v = Some (fold_left (fun v c => i64 (i64 (v * 10) + digit_value c)) l v).
Proof.
  intros Hl. revert v. induction Hl as [|c l Hc Hl IH]; intros v; [done|].
  simpl. rewrite Hc. simpl. by rewrite IH.
Qed.

Lemma ParseDigits_print n : 0 <= n < 2 ^ 63 -> ParseDigits (print_unsigned n) 0 = Some n.
Proof.
  intros Hn. rewrite ParseDigits_fold by apply print_unsigned_isdigit.
  f_equal. apply (print_unsigned_fold _ (2 ^ 63 - 1)); [|lia].
  intros v d Hv Hd Hb. rewrite digit_value_digit by done.
  rewrite (i64_small (v * 10)) by lia. apply i64_small. lia.
Qed.

Lemma ParseIntegerLine_print pre n rest pos :
  0 <= n < 2 ^ 63 -> pos = length pre ->
  ParseIntegerLine (pre ++ print_unsigned n ++ CRLF ++ rest) pos =
    Some (n, (pos + length (print_unsigned n) + 2)%nat).
Proof.
  intros Hn ->. unfold ParseIntegerLine, FindCRLF.
  pose proof (print_unsigned_isdigit n) as Hd.
  rewrite drop_app_length, FindCRLF_loop_line by (eapply Forall_impl; [exact Hd|apply digit_not_CR]).
  pose proof (print_unsigned_nonempty n) as Hne.
  destruct (print_unsigned n) as [|c ds] eqn:E; [done|]. rewrite <- E in *.
  rewrite bool_decide_eq_false_2 by (rewrite E; simpl; lia).
  assert (at_ (pre ++ print_unsigned n ++ CRLF ++ rest) (length pre) = c) as ->
    by (rewrite E; by apply at_app_r).
  rewrite E in Hd. inversion Hd as [|? ? Hc _]; simplify_eq.
  rewrite (bool_decide_eq_false_2 (c = _)) by (by apply digit_not_minus). simpl.
  replace (length pre + length (print_unsigned n) - length pre)%nat
    with (length (print_unsigned n)) by lia.
  rewrite sub_app_exact, ParseDigits_print by done. done.
Qed.

Lemma ParseIntegerLine_bounds data pos v p :
  ParseIntegerLine data pos = Some (v, p) -> (pos + 3 <= p <= length data)%nat.
Proof.
  unfold ParseIntegerLine. destruct (FindCRLF data pos) as [k|] eqn:E; [|done].
  apply FindCRLF_bounds in E. case_bool_decide; [done|].
  repeat case_match; intros; simplify_eq; lia.
Qed.

(** Once the line is complete, more input does not change how it reads. *)
Lemma ParseIntegerLine_app data ext pos k :
  FindCRLF data pos = Some k ->
  ParseIntegerLine (data ++ ext) pos = ParseIntegerLine data pos.
Proof.
  intros E. unfold ParseIntegerLine. rewrite (FindCRLF_app _ _ _ _ E), E.
  apply FindCRLF_bounds in E. rewrite at_app_l by lia.
  case_bool_decide as Hk; [done|].
  destruct (bool_decide (at_ data pos = "-"%char)); simpl.
  - case_bool_decide; [done|]. rewrite sub_app_l by lia. done.
  - rewrite sub_app_l by lia. done.
Qed.

Lemma ParseIntegerLine_complete data pos r :
  ParseIntegerLine data pos = Some r -> exists k, FindCRLF data pos = Some k.
Proof. unfold ParseIntegerLine. destruct (FindCRLF data pos); [eauto|done]. Qed.

(** ** Elements and arrays under more input *)

(** A verdict other than [kNeedMore] about a prefix is the verdict about the
    whole buffer. *)
Lemma DecodeBulk_app data ext pos :
  (DecodeBulk data pos).1.1 <> kNeedMore ->
  DecodeBulk (data ++ ext) pos = DecodeBulk data pos.
Proof.
  unfold DecodeBulk. destruct (Nat.leb_spec (length data) pos) as [|Hpos]; [done|].
  assert ((length (data ++ ext) <=? pos)%nat = false) as ->
    by (apply Nat.leb_gt; rewrite length_app; lia).
  rewrite at_app_l by done. case_bool_decide; simpl; [|done].
  destruct (ParseIntegerLine data (S pos)) as [[len p]|] eqn:E.
  - destruct (ParseIntegerLine_complete _ _ _ E) as [k Hk].
    rewrite (ParseIntegerLine_app _ _ _ _ Hk), E.
    destruct (Z.ltb_spec len 0); [done|]. rewrite size_of_app.
    destruct (Z.ltb_spec (size_of data) (Z.of_nat p + len + 2)) as [|Hs]; [done|].
    pose proof (size_of_nonneg ext).
    destruct (Z.ltb_spec (size_of data + size_of ext) (Z.of_nat p + len + 2)); [lia|].
    unfold size_of in Hs. rewrite !at_app_l, sub_app_l by lia. done.
  - destruct (FindCRLF data (S pos)) as [k|] eqn:Ek; [|done].
    by rewrite (ParseIntegerLine_app _ _ _ _ Ek), E, (FindCRLF_app _ _ _ _ Ek).
Qed.

Lemma DecodeBulk_bounds data pos body p :
  DecodeBulk data pos = (kOk, body, p) ->
  (pos + 5 <= p <= length data)%nat /\ (length body < length data)%nat.
Proof.
  unfold DecodeBulk. destruct (Nat.leb_spec (length data) pos) as [|Hpos]; [done|].
  case_bool_decide; simpl; [|done].
  destruct (ParseIntegerLine data (S pos)) as [[len q]|] eqn:E; [|by case_match].
  apply ParseIntegerLine_bounds in E.
  destruct (Z.ltb_spec len 0); [done|].
  destruct (Z.ltb_spec (size_of data) (Z.of_nat q + len + 2)) as [|Hs]; [done|].
  destruct (_ || _); [done|]. intros [= <- <-]. unfold size_of in Hs.
  unfold sub. rewrite length_take, length_drop. lia.
Qed.

Lemma DecodeLoop_app count data ext pos toks :
  (DecodeLoop count data pos toks).1.1 <> kNeedMore ->
  DecodeLoop count (data ++ ext) pos toks = DecodeLoop count data pos toks.
Proof.
  revert pos toks. induction count as [|count IH]; intros pos toks H; [done|].
  simpl in *. destruct (DecodeBulk data pos) as [[st body] p] eqn:E.
  assert (st <> kNeedMore) as Hst by (by destruct st).
  rewrite (DecodeBulk_app data ext pos) by (by rewrite E). rewrite E.
  destruct st; [by apply IH|done|done|done].
Qed.

Lemma DecodeLoop_bounds count data pos toks toks' p :
  DecodeLoop count data pos toks = (kOk, toks', p) -> (pos <= length data)%nat ->
  (pos <= p <= length data)%nat /\ length toks' = (length toks + count)%nat /\
  exists new, toks' = toks ++ new.
Proof.
  revert pos toks. induction count as [|count IH]; intros pos toks H Hp; simpl in H.
  - simplify_eq. split_and!; [lia|lia|lia|]. exists []. by rewrite app_nil_r.
  - destruct (DecodeBulk data pos) as [[st body] q] eqn:E. destruct st; try done.
    apply DecodeBulk_bounds in E as [? _]. apply IH in H as (? & Hl & new & ->); [|lia].
    split_and!; [lia|lia| |].
    + rewrite Hl, length_app. simpl. lia.
    + exists (body :: new). by rewrite <- app_assoc.
Qed.

Lemma decode_unfold data :
  decode data =
    match data with
    | [] => (kNeedMore, [], 0%nat)
    | c :: _ =>
        if negb (bool_decide (c = "*"%char)) then (kError, [], 0%nat)
        else
          match ParseIntegerLine data 1 with
          | None => (match FindCRLF data 1 with None => kNeedMore | Some _ => kError end, [], 0%nat)
          | Some (count, pos) =>
              if count <? 0 then (kError, [], 0%nat)
              else if kMaxTokens <? count then (thrown, [], 0%nat)
              else
                match DecodeLoop (Z.to_nat count) data pos [] with
                | (kOk, toks, pos) => (kOk, toks, pos)
                | (st, toks, _) => (st, toks, 0%nat)
                end
          end
    end.
Proof. unfold decode, DecodeArrayOfBulk. repeat case_match; by simplify_eq. Qed.

Lemma decode_app data ext :
  (decode data).1.1 <> kNeedMore -> decode (data ++ ext) = decode data.
Proof.
  rewrite !decode_unfold. destruct data as [|c data]; [done|]. cbn [app].
  case_bool_decide; simpl negb; cbv iota; [|done].
  change (c :: data ++ ext) with ((c :: data) ++ ext).
  destruct (ParseIntegerLine (c :: data) 1) as [[count p]|] eqn:E.
  - destruct (ParseIntegerLine_complete _ _ _ E) as [k Hk].
    rewrite (ParseIntegerLine_app _ _ _ _ Hk), E.
    destruct (count <? 0); [done|]. destruct (kMaxTokens <? count); [done|]. intros Hn.
    rewrite DecodeLoop_app; [done|].
    destruct (DecodeLoop _ _ _ _) as [[st t] q]. by destruct st.
  - destruct (FindCRLF (c :: data) 1) as [k|] eqn:Ek; [|done].
    by rewrite (ParseIntegerLine_app _ _ _ _ Ek), E, (FindCRLF_app _ _ _ _ Ek).
Qed.

Lemma decode_consumed data toks n :
  decode data = (kOk, toks, n) -> (4 <= n <= length data)%nat.
Proof.
  rewrite decode_unfold. destruct data as [|c data]; [done|].
  destruct (negb _); [done|].
  destruct (ParseIntegerLine _ _) as [[count p]|] eqn:E; [|by destruct (FindCRLF _ _)].
  apply ParseIntegerLine_bounds in E. destruct (count <? 0); [done|]. destruct (kMaxTokens <? count); [done|].
  destruct (DecodeLoop _ _ _ _) as [[st t] q] eqn:El. destruct st; try done.
  apply DecodeLoop_bounds in El as (? & _); [|lia]. intros. simplify_eq. lia.
Qed.

(** The header of an array that no vector can hold ends the call in the
    exception, whatever follows it. *)
Lemma decode_thrown n rest :
  kMaxTokens < n < 2 ^ 63 ->
  decode ("*"%char :: print_unsigned n ++ CRLF ++ rest) = (thrown, [], 0%nat).
Proof.
  intros Hn. rewrite decode_unfold, bool_decide_eq_true_2 by done. cbn [negb].
  change ("*"%char :: print_unsigned n ++ CRLF ++ rest) with (["*"%char] ++ print_unsigned n ++ CRLF ++ rest).
  unfold kMaxTokens in Hn. rewrite ParseIntegerLine_print by (done || lia).
  destruct (Z.ltb_spec n 0); [lia|]. unfold kMaxTokens. by destruct (Z.ltb_spec (2 ^ 59 - 1) n); [|lia].
Qed.

(** ** Round trip *)

Lemma DecodeBulk_body data pos p (pre s rest : bytes) :
  (pos < length data)%nat -> at_ data pos = "$"%char ->
  ParseIntegerLine data (S pos) = Some (size_of s, p) ->
  data = pre ++ s ++ CR :: LF :: rest -> p = length pre ->
  DecodeBulk data pos = (kOk, s, (p + length s + 2)%nat).
Proof.
  intros Hpos Hd Hl -> ->. unfold DecodeBulk.
  rewrite (proj2 (Nat.leb_gt _ _) Hpos), Hd, bool_decide_eq_true_2, Hl by done. simpl negb. cbv iota.
  pose proof (size_of_nonneg s).
  destruct (Z.ltb_spec (size_of s) 0); [lia|].
  destruct (Z.ltb_spec (size_of (pre ++ s ++ CR :: LF :: rest))
              (Z.of_nat (length pre) + size_of s + 2)) as [Hc|_].
  { rewrite !size_of_app, !size_of_cons in Hc. pose proof (size_of_nonneg rest).
    unfold size_of in *. lia. }
  unfold size_of. rewrite !Nat2Z.id.
  assert (at_ (pre ++ s ++ CR :: LF :: rest) (length pre + length s) = CR) as ->.
  { rewrite app_assoc. apply at_app_r. by rewrite length_app. }
  assert (at_ (pre ++ s ++ CR :: LF :: rest) (length pre + length s + 1) = LF) as ->.
  { change (CR :: LF :: rest) with ([CR] ++ LF :: rest). rewrite !app_assoc.
    apply at_app_r. rewrite !length_app. simpl. lia. }
  rewrite !bool_decide_eq_true_2 by done. simpl.
  by rewrite sub_app_exact.
Qed.

Lemma DecodeBulk_bulk pre s rest :
  size_of s < 2 ^ 63 ->
  DecodeBulk (pre ++ bulk_bytes s ++ rest) (length pre) =
    (kOk, s, length (pre ++ bulk_bytes s)).
Proof.
  intros Hs. pose proof (size_of_nonneg s). pose proof (bulk_bytes_length s) as Hb.
  set (ds := print_unsigned (size_of s)).
  rewrite (DecodeBulk_body _ _ (length (pre ++ "$"%char :: ds ++ CRLF))
             (pre ++ "$"%char :: ds ++ CRLF) s rest).
  - f_equal. unfold bulk_bytes. fold ds.
    rewrite !length_app, !length_cons, !length_app. change (length CRLF) with 2%nat. lia.
  - rewrite !length_app. lia.
  - unfold bulk_bytes. cbn [app]. by apply at_app_r.
  - assert (pre ++ bulk_bytes s ++ rest =
            (pre ++ ["$"%char]) ++ ds ++ CRLF ++ s ++ CRLF ++ rest) as ->.
    { unfold bulk_bytes. fold ds. rewrite <- !app_assoc. cbn [app]. by rewrite <- !app_assoc. }
    unfold ds. rewrite ParseIntegerLine_print by (done || lia || (rewrite length_app; simpl; lia)).
    fold ds. do 2 f_equal. rewrite !length_app, length_cons, length_app.
    change (length CRLF) with 2%nat. lia.
  - unfold bulk_bytes. fold ds. rewrite <- !app_assoc. cbn [app]. by rewrite <- !app_assoc.
  - done.
Qed.

Lemma DecodeLoop_bulks pre toks acc rest :
  Forall (fun s => size_of s < 2 ^ 63) toks ->
  DecodeLoop (length toks) (pre ++ mjoin (bulk_bytes <$> toks) ++ rest) (length pre) acc =
    (kOk, acc ++ toks, length (pre ++ mjoin (bulk_bytes <$> toks))).
Proof.
  intros Ht. revert pre acc. induction Ht as [|s toks Hs Ht IH]; intros pre acc.
  - simpl. by rewrite !app_nil_r.
  - rewrite fmap_cons. cbn [length DecodeLoop mjoin list_join]. rewrite <- app_assoc.
    rewrite DecodeBulk_bulk by done. rewrite app_assoc.
    change (mjoin (bulk_bytes s :: (bulk_bytes <$> toks)))
      with (bulk_bytes s ++ mjoin (bulk_bytes <$> toks)).
    rewrite IH. by rewrite <- !app_assoc.
Qed.

(** Tokens a frame can carry: the vector holds them and every length fits [int64_t]. *)
Definition tokens_ok (toks : list bytes) : Prop :=
  size_of toks <= kMaxTokens /\ Forall (fun s => size_of s < 2 ^ 63) toks.

Lemma decode_array toks rest :
  tokens_ok toks -> decode (array_bytes toks ++ rest) = (kOk, toks, length (array_bytes toks)).
Proof.
  intros [Hn Ht]. rewrite decode_unfold. pose proof (size_of_nonneg toks).
  set (ds := print_unsigned (size_of toks)).
  assert (array_bytes toks ++ rest =
          ["*"%char] ++ ds ++ CRLF ++ mjoin (bulk_bytes <$> toks) ++ rest) as Hsplit.
  { unfold array_bytes. cbn [app]. by rewrite <- !app_assoc. }
  unfold array_bytes at 1. cbn [app]. rewrite bool_decide_eq_true_2 by done. simpl negb. cbv iota.
  rewrite Hsplit. unfold ds at 1. rewrite ParseIntegerLine_print by (done || (unfold kMaxTokens in Hn; lia)).
  destruct (Z.ltb_spec (size_of toks) 0); [lia|]. destruct (Z.ltb_spec kMaxTokens (size_of toks)); [lia|].
  unfold size_of at 1. rewrite Nat2Z.id.
  assert (["*"%char] ++ ds ++ CRLF ++ mjoin (bulk_bytes <$> toks) ++ rest =
          ("*"%char :: ds ++ CRLF) ++ mjoin (bulk_bytes <$> toks) ++ rest) as ->
    by (cbn [app]; by rewrite <- !app_assoc).
  replace (1 + length (print_unsigned (size_of toks)) + 2)%nat
    with (length ("*"%char :: ds ++ CRLF)).
  - rewrite DecodeLoop_bulks by done. cbn [app]. unfold array_bytes. fold ds.
    do 2 f_equal. by rewrite <- !app_assoc.
  - fold ds. rewrite length_cons, length_app. simpl. lia.
Qed.

(** ** Properties *)

Lemma i64_step v d : i64 (i64 (i64 v * 10) + d) = i64 (v * 10 + d).
Proof.
  apply i64_congr. rewrite <- Z.add_mod_idemp_l, i64_mod by lia.
  rewrite <- Z.mul_mod_idemp_l, i64_mod, Z.mul_mod_idemp_l, Z.add_mod_idemp_l by lia. done.
Qed.

Lemma digits_fold_i64 fuel n acc :
  0 <= n -> n < 10 ^ Z.of_nat fuel ->
  fold_left (fun v c => i64 (i64 (v * 10) + digit_value c)) (digits fuel n acc) 0 =
  fold_left (fun v c => i64 (i64 (v * 10) + digit_value c)) acc (i64 n).
Proof.
  revert n acc. induction fuel as [|f IH]; intros n acc Hn Hf.
  { simpl in *. by replace n with 0 by lia. }
  rewrite Nat2Z.inj_succ, Z.pow_succ_r in Hf by lia.
  pose proof (Z.div_mod n 10). pose proof (Z.mod_pos_bound n 10).
  assert (Hlast : i64 (i64 (i64 (n / 10) * 10) + digit_value (digit (n mod 10))) = i64 n)
    by (rewrite digit_value_digit, i64_step by lia; f_equal; lia).
  simpl. destruct (Z.eqb_spec (n / 10) 0) as [Hz|Hz].
  - rewrite Hz in Hlast. exact (f_equal (fold_left _ acc) Hlast).
  - rewrite IH; [|apply Z.div_pos; lia|apply Z.div_lt_upper_bound; lia].
    simpl. by rewrite Hlast.
Qed.

(** What the two parties write, the decoder reads back: the frame of any
    token list, followed by any further bytes, decodes to exactly those tokens
    and consumes exactly the frame. *)
Theorem decode_encode_roundtrip toks rest :
  tokens_ok toks ->
  decode (append_bulks (AppendArrayHeader [] (size_of toks)) toks ++ rest) =
    (kOk, toks, length (append_bulks (AppendArrayHeader [] (size_of toks)) toks)).
Proof. rewrite append_array. apply decode_array. Qed.

(** Decoding is stable under arrival of more bytes: a verdict [kOk] (with
    its tokens and consumed count) or [kError] about what has been received so
    far is the verdict about the longer buffer; and a complete frame is never
    reported before its last byte has arrived: every proper prefix of a frame
    is [kNeedMore]. *)
Theorem decode_fragmentation data ext toks n :
  tokens_ok toks ->
  ((decode data).1.1 <> kNeedMore -> decode (data ++ ext) = decode data) /\
  ((n < length (array_bytes toks))%nat ->
     (decode (take n (array_bytes toks))).1.1 = kNeedMore).
Proof.
  intros Ht. split; [apply decode_app|]. intros Hn.
  destruct (decode (take n (array_bytes toks))) as [[st t] c] eqn:E. simpl.
  destruct (decide (st = kNeedMore)) as [|Hst]; [done|exfalso].
  pose proof (decode_app (take n (array_bytes toks)) (drop n (array_bytes toks))) as Ha.
  rewrite take_drop, E in Ha. specialize (Ha Hst).
  pose proof (decode_array toks [] Ht) as Hf. rewrite app_nil_r, Ha in Hf. simplify_eq.
  apply decode_consumed in E. rewrite length_take in E. lia.
Qed.

(** Header integers at their width: a decimal header line with value [n],
    however long, is accepted and read as the 64-bit wrap of [n]; it is exact
    for every [n < 2^63], and beyond that the C++ [int64_t] accumulation
    overflows and the line reads as another number. *)
Theorem ParseIntegerLine_width pre n rest :
  0 <= n ->
  ParseIntegerLine (pre ++ print_unsigned n ++ CRLF ++ rest) (length pre) =
    Some (i64 n, (length pre + length (print_unsigned n) + 2)%nat) /\
  (n < 2 ^ 63 -> i64 n = n).
Proof.
  intros Hn. split; [|intros; apply i64_small; lia].
  unfold ParseIntegerLine, FindCRLF. pose proof (print_unsigned_isdigit n) as Hd.
  rewrite drop_app_length, FindCRLF_loop_line by (eapply Forall_impl; [exact Hd|apply digit_not_CR]).
  pose proof (print_unsigned_nonempty n) as Hne.
  destruct (print_unsigned n) as [|c ds] eqn:E; [done|]. rewrite <- E in *.
  rewrite bool_decide_eq_false_2 by (rewrite E; simpl; lia).
  assert (at_ (pre ++ print_unsigned n ++ CRLF ++ rest) (length pre) = c) as ->
    by (rewrite E; by apply at_app_r).
  assert (isdigit c = true) as Hc by (rewrite E in Hd; by inversion Hd).
  rewrite (bool_decide_eq_false_2 (c = _)) by (by apply digit_not_minus). simpl.
  replace (length pre + length (print_unsigned n) - length pre)%nat
    with (length (print_unsigned n)) by lia.
  rewrite sub_app_exact, ParseDigits_fold by done.
  unfold print_unsigned. rewrite digits_fold_i64 by auto using print_unsigned_fuel. done.
Qed.

(** ** Witnesses *)

Lemma demo_tokens_ok : tokens_ok [bs "SET"; bs "k"; bs "v"].
Proof. split; [vm_compute; discriminate|]. repeat constructor; by vm_compute. Qed.

Lemma decode_encode_roundtrip_witness :
  decode (append_bulks (AppendArrayHeader [] 3) [bs "SET"; bs "k"; bs "v"] ++ bs "*1") =
    (kOk, [bs "SET"; bs "k"; bs "v"], 27%nat).
Proof. exact (decode_encode_roundtrip [bs "SET"; bs "k"; bs "v"] (bs "*1") demo_tokens_ok). Defined.

Lemma decode_fragmentation_witness :
  decode (bs "+" ++ bs "x") = decode (bs "+") /\
  (decode (take 5 (array_bytes [bs "SET"; bs "k"; bs "v"]))).1.1 = kNeedMore.
Proof.
  destruct (decode_fragmentation (bs "+") (bs "x") _ 5 demo_tokens_ok) as [H1 H2].
  split; [apply H1; vm_compute; discriminate|apply H2; vm_compute; lia].
Defined.

(** [2^64 + 1] reads as 1. *)
Lemma ParseIntegerLine_width_witness :
  ParseIntegerLine (bs "*" ++ print_unsigned (2 ^ 64 + 1) ++ CRLF ++ []) 1 = Some (1, 23%nat) /\
  (2 ^ 64 + 1 < 2 ^ 63 -> i64 (2 ^ 64 + 1) = 2 ^ 64 + 1).
Proof. exact (ParseIntegerLine_width (bs "*") (2 ^ 64 + 1) [] ltac:(lia)). Defined.
