(* ===== verification/VNodeStorage.v ===== *)
(** * VNodeStorage: semantic-cache nodes by id, with an index by user key

    Models include/vemory/storage/VNode.h, VNodeStorage.h and
    src/storage/VNodeStorage.cc.  Ids are [uint16_t]: [next_id_] wraps to zero
    after 65535 and zero means that no id is left. *)

From S2P Require Import Prelude.
From S2P Require Import Stdio.

Record VNode := mkNode {
  id : Z;
  user_key : bytes;
  question : bytes;
  answer : bytes
}.

(** [VNode node;] *)
Definition default_node : VNode := mkNode 0 [] [] [].

Definition with_id (n : VNode) (i : Z) : VNode :=
  mkNode i (user_key n) (question n) (answer n).

Inductive Status := kOk | kNotFound | kFull | kBadValue.

#[export] Instance Status_eq_dec : EqDecision Status.
Proof. solve_decision. Defined.

Record VNodeStorage := mkStorage {
  next_id_ : Z;
  by_id_ : gmap Z VNode;
  by_user_key_ : gmap bytes Z
}.

Definition empty : VNodeStorage := mkStorage 1 ∅ ∅.

(** ** Operations *)

(** The status, [*out_id] and the storage. *)
Definition Put (s : VNodeStorage) (node : VNode) (out_id : ptr Z)
    : Status * ptr Z * VNodeStorage :=
  match out_id with
  | None => (kBadValue, out_id, s)
  | Some _ =>
      if is_empty (user_key node) then (kBadValue, out_id, s)
      else
        match by_user_key_ s !! user_key node with
        | Some i =>
            (kOk, Some i,
             mkStorage (next_id_ s) (<[i := with_id node i]> (by_id_ s)) (by_user_key_ s))
        | None =>
            if next_id_ s =? 0 then (kFull, out_id, s)
            else
              let i := next_id_ s in
              (kOk, Some i,
               mkStorage (u16 (next_id_ s + 1)) (<[i := with_id node i]> (by_id_ s))
                         (<[user_key node := i]> (by_user_key_ s)))
        end
  end.

Definition Restore (s : VNodeStorage) (node : VNode) : Status * VNodeStorage :=
  if is_empty (user_key node) || (id node =? 0) then (kBadValue, s)
  else if bool_decide (is_Some (by_id_ s !! id node)) ||
          bool_decide (is_Some (by_user_key_ s !! user_key node)) then (kBadValue, s)
  else
    (kOk, mkStorage (next_id_ s) (<[id node := node]> (by_id_ s))
            (<[user_key node := id node]> (by_user_key_ s))).

Definition GetById (s : VNodeStorage) (i : Z) (out : ptr VNode) : Status * ptr VNode :=
  match out with
  | None => (kBadValue, out)
  | Some _ =>
      match by_id_ s !! i with
      | None => (kNotFound, out)
      | Some n => (kOk, Some n)
      end
  end.

Definition GetByUserKey (s : VNodeStorage) (key : bytes) (out : ptr VNode) : Status * ptr VNode :=
  match out with
  | None => (kBadValue, out)
  | Some _ =>
      match by_user_key_ s !! key with
      | None => (kNotFound, out)
      | Some i => GetById s i out
      end
  end.

Definition DelByUserKey (s : VNodeStorage) (key : bytes) : Status * VNodeStorage :=
  match by_user_key_ s !! key with
  | None => (kNotFound, s)
  | Some i =>
      (kOk, mkStorage (next_id_ s) (delete i (by_id_ s)) (delete key (by_user_key_ s)))
  end.

Definition Clear (s : VNodeStorage) : VNodeStorage := mkStorage 1 ∅ ∅.

Definition SetNextId (s : VNodeStorage) (i : Z) : VNodeStorage :=
  mkStorage i (by_id_ s) (by_user_key_ s).

Definition size (s : VNodeStorage) : Z := Z.of_nat (base.size (by_id_ s)).

(** [ForEach(fn)]: [fn] threads the caller's captured state and returns whether
    to go on. *)
Fixpoint ForEach_loop {A} (fn : A -> Z -> VNode -> bool * A) (l : list (Z * VNode)) (a : A) : A :=
  match l with
  | [] => a
  | (i, n) :: l' =>
      let '(continue, a) := fn a i n in
      if continue then ForEach_loop fn l' a else a
  end.

Definition ForEach {A} `{!IterOrder Z} (s : VNodeStorage) (fn : A -> Z -> VNode -> bool * A) (a : A) : A :=
  ForEach_loop fn (iter_order (by_id_ s)) a.

(** ** Invariant *)

(** The two tables describe the same set of nodes. *)
Record maps_ok (s : VNodeStorage) : Prop := {
  ok_node : forall i n, by_id_ s !! i = Some n ->
    id n = i /\ user_key n <> [] /\ 0 < i < 2 ^ 16 /\ by_user_key_ s !! user_key n = Some i;
  ok_key : forall k i, by_user_key_ s !! k = Some i ->
    exists n, by_id_ s !! i = Some n /\ user_key n = k
}.

(** The next id is free: zero (exhausted) or above every id in use. *)
Record wf (s : VNodeStorage) : Prop := {
  wf_maps : maps_ok s;
  wf_next : 0 <= next_id_ s < 2 ^ 16;
  wf_free : next_id_ s <> 0 -> forall i n, by_id_ s !! i = Some n -> i < next_id_ s
}.

(** The node of a user key: the abstract state of the storage. *)
Definition lookup_key (s : VNodeStorage) (key : bytes) : option VNode :=
  match by_user_key_ s !! key with Some i => by_id_ s !! i | None => None end.

Lemma storage_wf_empty : wf empty.
Proof.
  split; [split|vm_compute; split; [discriminate|reflexivity]|];
    intros; simplify_map_eq.
Qed.

Lemma maps_ok_SetNextId s i : maps_ok s -> maps_ok (SetNextId s i).
Proof. intros [H1 H2]. by split. Qed.

Lemma GetByUserKey_lookup s key o :
  GetByUserKey s key (Some o) =
    match lookup_key s key with Some n => (kOk, Some n) | None => (kNotFound, Some o) end.
Proof. unfold GetByUserKey, lookup_key, GetById. by destruct (by_user_key_ s !! key). Qed.

Lemma lookup_key_absent s key :
  maps_ok s -> by_user_key_ s !! key = None <-> lookup_key s key = None.
Proof.
  intros Hok. unfold lookup_key. destruct (by_user_key_ s !! key) as [i|] eqn:E; [|done].
  destruct (ok_key _ Hok _ _ E) as (n & -> & _). done.
Qed.

Lemma lookup_key_node s key n :
  maps_ok s -> lookup_key s key = Some n ->
  user_key n = key /\ by_id_ s !! id n = Some n /\ by_user_key_ s !! key = Some (id n).
Proof.
  intros Hok. unfold lookup_key. destruct (by_user_key_ s !! key) as [i|] eqn:E; [|done].
  intros Hn. destruct (ok_key _ Hok _ _ E) as (n' & Hn' & Hk). simplify_eq.
  destruct (ok_node _ Hok _ _ Hn) as (-> & _). done.
Qed.

(** Replacing the node of a known key, or adding one under a free id and key. *)
Lemma maps_ok_insert s node i nx :
  maps_ok s -> user_key node <> [] -> id node = i -> 0 < i < 2 ^ 16 ->
  by_user_key_ s !! user_key node = Some i \/
    (by_user_key_ s !! user_key node = None /\ by_id_ s !! i = None) ->
  maps_ok (mkStorage nx (<[i := node]> (by_id_ s)) (<[user_key node := i]> (by_user_key_ s))).
Proof.
  intros Hok Hk Hid Hi Hcase. split; simpl.
  - intros j n. rewrite lookup_insert. case_decide as Hj.
    + intros [= <-]. subst j. by rewrite lookup_insert_eq.
    + intros Hn. destruct (ok_node _ Hok _ _ Hn) as (? & ? & ? & Hu). split_and!; try done; try lia.
      rewrite lookup_insert_ne; [done|]. intros Heq. rewrite Heq in Hcase.
      destruct Hcase as [|[]]; congruence.
  - intros k j. rewrite lookup_insert. case_decide as Hj.
    + intros [= <-]. subst k. exists node. by rewrite lookup_insert_eq.
    + intros Hu. destruct (ok_key _ Hok _ _ Hu) as (n & Hn & Hkn).
      exists n. rewrite lookup_insert_ne; [done|]. intros ->.
      destruct (ok_node _ Hok _ _ Hn) as (_ & _ & _ & Hu').
      destruct Hcase as [Hc|[_ Hc]]; [|congruence].
      destruct (ok_key _ Hok _ _ Hc) as (n' & Hn' & Hk'). congruence.
Qed.

Lemma Put_replace s node i o :
  user_key node <> [] -> by_user_key_ s !! user_key node = Some i ->
  Put s node (Some o) =
    (kOk, Some i, mkStorage (next_id_ s) (<[i := with_id node i]> (by_id_ s)) (by_user_key_ s)).
Proof.
  intros Hk Hu. unfold Put. rewrite (proj2 (is_empty_false _) Hk). by rewrite Hu.
Qed.

Lemma Put_insert s node o :
  user_key node <> [] -> by_user_key_ s !! user_key node = None ->
  Put s node (Some o) =
    if next_id_ s =? 0 then (kFull, Some o, s)
    else (kOk, Some (next_id_ s),
      mkStorage (u16 (next_id_ s + 1)) (<[next_id_ s := with_id node (next_id_ s)]> (by_id_ s))
                (<[user_key node := next_id_ s]> (by_user_key_ s))).
Proof.
  intros Hk Hu. unfold Put. rewrite (proj2 (is_empty_false _) Hk). by rewrite Hu.
Qed.

Lemma wf_free_None s : wf s -> next_id_ s <> 0 -> by_id_ s !! next_id_ s = None.
Proof.
  intros Hwf Hn. destruct (by_id_ s !! next_id_ s) as [n|] eqn:E; [|done].
  pose proof (wf_free _ Hwf Hn _ _ E). lia.
Qed.

Lemma wf_Put s node o : wf s -> wf (Put s node o).2.
Proof.
  intros Hwf. destruct o as [o|]; [|done]. pose proof Hwf as [Hok Hnext Hfree].
  destruct (is_empty (user_key node)) eqn:Hk; [unfold Put; by rewrite Hk|].
  apply is_empty_false in Hk.
  destruct (by_user_key_ s !! user_key node) as [i|] eqn:Hu.
  - rewrite (Put_replace _ _ i) by done. destruct (ok_key _ Hok _ _ Hu) as (n & Hn & _).
    destruct (ok_node _ Hok _ _ Hn) as (_ & _ & Hi & _). split; simpl.
    + rewrite <- (insert_id (by_user_key_ s) (user_key (with_id node i)) i) by done.
      apply maps_ok_insert; try done. by left.
    + done.
    + intros Hne j m. rewrite lookup_insert. case_decide; [|by eauto].
      subst. intros _. by eapply Hfree.
  - rewrite Put_insert by done. destruct (Z.eqb_spec (next_id_ s) 0) as [|Hne]; [done|].
    split; simpl.
    + apply (maps_ok_insert s (with_id node (next_id_ s))); try done; [lia|].
      right. split; [done|]. by apply wf_free_None.
    + apply Z.mod_pos_bound. lia.
    + intros Hne' j m. rewrite lookup_insert.
      assert (u16 (next_id_ s + 1) = next_id_ s + 1) as ->.
      { unfold u16 in *. destruct (Z.eq_dec (next_id_ s + 1) (2 ^ 16)) as [Heq|].
        - rewrite Heq in Hne'. by vm_compute in Hne'.
        - rewrite Z.mod_small; lia. }
      case_decide; [subst; intros; lia|]. intros Hm. specialize (Hfree Hne _ _ Hm). lia.
Qed.

Lemma lookup_key_insert s node i nx key :
  maps_ok s -> user_key node <> [] ->
  by_user_key_ s !! user_key node = Some i \/
    (by_user_key_ s !! user_key node = None /\ by_id_ s !! i = None) ->
  lookup_key (mkStorage nx (<[i := node]> (by_id_ s)) (<[user_key node := i]> (by_user_key_ s))) key
  = if decide (key = user_key node) then Some node else lookup_key s key.
Proof.
  intros Hok Hk Hcase. unfold lookup_key. simpl. rewrite lookup_insert.
  destruct (decide (key = user_key node)) as [->|Hne].
  { rewrite decide_True by done. by rewrite lookup_insert_eq. }
  rewrite decide_False by congruence.
  destruct (by_user_key_ s !! key) as [j|] eqn:E; [|done].
  rewrite lookup_insert_ne; [done|]. intros ->.
  destruct (ok_key _ Hok _ _ E) as (n & Hn & Hkn).
  destruct Hcase as [Hc|[_ Hc]]; [|congruence].
  destruct (ok_key _ Hok _ _ Hc) as (n' & Hn' & Hk'). congruence.
Qed.

(** [Put] succeeds unless the key is empty or new with no id left. *)
Lemma Put_ok s node o :
  wf s -> user_key node <> [] ->
  (next_id_ s <> 0 \/ is_Some (by_user_key_ s !! user_key node)) ->
  exists i s', Put s node (Some o) = (kOk, Some i, s') /\ 0 < i < 2 ^ 16 /\
    by_user_key_ s' = <[user_key node := i]> (by_user_key_ s) /\
    by_id_ s' = <[i := with_id node i]> (by_id_ s) /\
    (by_user_key_ s !! user_key node = Some i \/
      (by_user_key_ s !! user_key node = None /\ by_id_ s !! i = None /\ i = next_id_ s)).
Proof.
  intros Hwf Hk Hroom. destruct (by_user_key_ s !! user_key node) as [i|] eqn:Hu.
  - rewrite (Put_replace _ _ i) by done. eexists _, _. split; [done|]. simpl.
    destruct (ok_key _ (wf_maps _ Hwf) _ _ Hu) as (n & Hn & _).
    destruct (ok_node _ (wf_maps _ Hwf) _ _ Hn) as (_ & _ & Hi & _).
    split_and!; try done; try lia; [|by left]. by rewrite insert_id.
  - destruct Hroom as [Hne|[? ?]]; [|done].
    rewrite Put_insert by done. destruct (Z.eqb_spec (next_id_ s) 0) as [|_]; [done|].
    pose proof (wf_next _ Hwf). eexists _, _. split; [done|]. simpl.
    split_and!; try done; try lia. right. split_and!; try done. by apply wf_free_None.
Qed.

Lemma lookup_key_Put s node o i s' key :
  wf s -> Put s node (Some o) = (kOk, i, s') ->
  lookup_key s' key =
    if decide (key = user_key node) then Some (with_id node (default 0 i)) else lookup_key s key.
Proof.
  intros Hwf HP.
  destruct (is_empty (user_key node)) eqn:Hk; [unfold Put in HP; by rewrite Hk in HP|].
  apply is_empty_false in Hk.
  destruct (decide (next_id_ s = 0 /\ by_user_key_ s !! user_key node = None)) as [[Hz Hn]|Hroom].
  { rewrite Put_insert, Hz in HP by done. done. }
  destruct (Put_ok s node o Hwf Hk) as (j & t & Hj & _ & Hu & Hb & Hcase).
  { destruct (by_user_key_ s !! user_key node); [right; eauto|left; naive_solver]. }
  rewrite HP in Hj. simplify_eq. simpl.
  etrans; [|apply (lookup_key_insert s (with_id node j) j 0 key); [apply Hwf|done|naive_solver]].
  unfold lookup_key. simpl. by rewrite Hu, Hb.
Qed.

Lemma maps_ok_Del s key : maps_ok s -> maps_ok (DelByUserKey s key).2.
Proof.
  intros Hok. unfold DelByUserKey. destruct (by_user_key_ s !! key) as [i|] eqn:E; [|done].
  destruct (ok_key _ Hok _ _ E) as (n0 & Hn0 & Hk0). split; simpl.
  - intros j n. rewrite lookup_delete_Some. intros [Hj Hn].
    destruct (ok_node _ Hok _ _ Hn) as (? & ? & ? & Hu). split_and!; try done; try lia.
    rewrite lookup_delete_ne; [done|]. intros ->. congruence.
  - intros k j. rewrite lookup_delete_Some. intros [Hj Hu].
    destruct (ok_key _ Hok _ _ Hu) as (n & Hn & Hkn). exists n. split; [|done].
    rewrite lookup_delete_ne; [done|]. intros ->. congruence.
Qed.

Lemma wf_Del s key : wf s -> wf (DelByUserKey s key).2.
Proof.
  intros Hwf. split.
  - apply maps_ok_Del, Hwf.
  - unfold DelByUserKey. case_match; apply Hwf.
  - unfold DelByUserKey. case_match; simpl; [|apply Hwf].
    intros Hne j n [_ Hn]%lookup_delete_Some. by eapply wf_free.
Qed.

Lemma lookup_key_Del s key key' :
  maps_ok s ->
  lookup_key (DelByUserKey s key).2 key' =
    if decide (key' = key) then None else lookup_key s key'.
Proof.
  intros Hok. unfold lookup_key, DelByUserKey.
  destruct (by_user_key_ s !! key) as [i|] eqn:E; simpl.
  - rewrite lookup_delete. destruct (decide (key' = key)) as [->|Hne].
    { by rewrite decide_True. }
    rewrite decide_False by congruence. destruct (by_user_key_ s !! key') as [j|] eqn:E'; [|done].
    rewrite lookup_delete_ne; [done|]. intros ->.
    destruct (ok_key _ Hok _ _ E) as (n & Hn & ?), (ok_key _ Hok _ _ E') as (n' & Hn' & ?).
    congruence.
  - case_decide; [subst; by rewrite E|done].
Qed.

Lemma Put_size s node o :
  wf s ->
  size (Put s node (Some o)).2 <= size s \/
  (size (Put s node (Some o)).2 = size s + 1 /\ lookup_key s (user_key node) = None).
Proof.
  intros Hwf. unfold Put. destruct (is_empty (user_key node)); [by left|].
  pose proof (lookup_key_absent s (user_key node) (wf_maps _ Hwf)) as Ha.
  destruct (by_user_key_ s !! user_key node) as [i|] eqn:Hu; unfold size.
  - left. destruct (ok_key _ (wf_maps _ Hwf) _ _ Hu) as (n & Hn & _). cbn.
    by rewrite map_size_insert_Some by eauto.
  - destruct (Z.eqb_spec (next_id_ s) 0); cbn; [by left|]. right. split; [|by apply Ha].
    rewrite map_size_insert_None by (by apply wf_free_None). lia.
Qed.

Lemma Del_size s key : size (DelByUserKey s key).2 <= size s.
Proof.
  unfold DelByUserKey, size. case_match; cbn; [|done].
  destruct (by_id_ s !! z) eqn:E; [rewrite map_size_delete_Some by eauto; lia|].
  by rewrite delete_id.
Qed.

Lemma Del_status s key :
  maps_ok s ->
  (DelByUserKey s key).1 =
    match lookup_key s key with Some _ => kOk | None => kNotFound end.
Proof.
  intros Hok. unfold DelByUserKey, lookup_key.
  destruct (by_user_key_ s !! key) as [i|] eqn:E; [|done].
  by destruct (ok_key _ Hok _ _ E) as (n & -> & _).
Qed.

(** [Restore] under an id and a key not in use. *)
Lemma Restore_fresh s node :
  user_key node <> [] -> id node <> 0 ->
  by_id_ s !! id node = None -> by_user_key_ s !! user_key node = None ->
  Restore s node =
    (kOk, mkStorage (next_id_ s) (<[id node := node]> (by_id_ s))
            (<[user_key node := id node]> (by_user_key_ s))).
Proof.
  intros Hk Hi Hb Hu. unfold Restore. rewrite Hb, Hu, (proj2 (is_empty_false _) Hk).
  by rewrite (proj2 (Z.eqb_neq _ _) Hi).
Qed.

Lemma maps_ok_Restore s node :
  maps_ok s -> 0 <= id node < 2 ^ 16 -> maps_ok (Restore s node).2.
Proof.
  intros Hok Hid. unfold Restore.
  destruct (is_empty (user_key node) || (id node =? 0)) eqn:E1; [done|].
  destruct (bool_decide (is_Some (by_id_ s !! id node)) || _) eqn:E2; [done|].
  apply orb_false_iff in E2 as [Hi%bool_decide_eq_false%eq_None_not_Some
                                Hu%bool_decide_eq_false%eq_None_not_Some].
  bool_facts. simpl.
  apply maps_ok_insert; try done; [lia|by right].
Qed.

Lemma ForEach_all {A} `{!IterOrder Z} s (fn : A -> Z -> VNode -> A) (a : A) :
  ForEach s (fun a i n => (true, fn a i n)) a =
    fold_left (fun a e => fn a e.1 e.2) (iter_order (by_id_ s)) a.
Proof.
  unfold ForEach. generalize (iter_order (by_id_ s)) as l. intros l. revert a.
  induction l as [|[i n] l IH]; intros a; simpl; [done|]. by rewrite IH.
Qed.

(** ** Properties *)

(** [Put] is a map update.  In a well-formed storage it fails only on a
    null out-pointer, an empty key, or a new key when no id is left; otherwise
    the key maps to the node under the id it reports, every other key maps to
    what it mapped to before, a known key keeps its id, and a new one gets an
    id no stored node has. *)
Theorem Put_spec (s : VNodeStorage) (node : VNode) (o : Z) :
  wf s ->
  match Put s node (Some o) with
  | (kOk, Some i, s') =>
      wf s' /\ user_key node <> [] /\ 0 < i < 2 ^ 16 /\
      (forall key, lookup_key s' key =
         if decide (key = user_key node) then Some (with_id node i) else lookup_key s key) /\
      match lookup_key s (user_key node) with
      | Some old => i = id old /\ size s' = size s
      | None => by_id_ s !! i = None /\ size s' = size s + 1
      end
  | (st, o', s') =>
      o' = Some o /\ s' = s /\
      ((st = kBadValue /\ user_key node = []) \/
       (st = kFull /\ next_id_ s = 0 /\ lookup_key s (user_key node) = None))
  end.
Proof.
  intros Hwf. pose proof (wf_Put s node (Some o) Hwf) as Hwf'.
  destruct (is_empty (user_key node)) eqn:Hk.
  { unfold Put. rewrite Hk. apply is_empty_true in Hk. auto. }
  apply is_empty_false in Hk.
  destruct (decide (next_id_ s = 0 /\ by_user_key_ s !! user_key node = None)) as [[Hz Hn]|Hroom].
  { rewrite Put_insert, Hz by done. simpl. split_and!; try done.
    right. by rewrite <- lookup_key_absent by apply Hwf. }
  destruct (Put_ok s node o Hwf Hk) as (i & s' & HP & Hi & Hu & Hb & Hcase).
  { destruct (by_user_key_ s !! user_key node); [right; eauto|left; naive_solver]. }
  rewrite HP in Hwf' |- *. split_and!; try done; try lia.
  { intros key. by rewrite (lookup_key_Put _ _ _ _ _ key Hwf HP). }
  unfold size. rewrite Hb. destruct Hcase as [Hold|(Hnew & Hfree & _)].
  - destruct (ok_key _ (wf_maps _ Hwf) _ _ Hold) as (n & Hn & _).
    destruct (ok_node _ (wf_maps _ Hwf) _ _ Hn) as (Hid & _).
    unfold lookup_key. rewrite Hold, Hn, map_size_insert_Some by eauto. done.
  - rewrite (proj1 (lookup_key_absent _ _ (wf_maps _ Hwf)) Hnew), map_size_insert_None by done.
    split; [done|lia].
Qed.

(** Ids are never handed out twice: [Put] takes ids in increasing order, so
    deleting nodes frees no id; once [next_id_] has wrapped to zero every new
    key is refused with [kFull], even when the storage holds nothing at all. *)
Theorem ids_not_reused (s : VNodeStorage) (node : VNode) (key : bytes) (o : Z) :
  wf s -> user_key node <> [] -> lookup_key s (user_key node) = None ->
  next_id_ (DelByUserKey s key).2 = next_id_ s /\
  match Put s node (Some o) with
  | (kOk, Some i, s') =>
      i = next_id_ s /\ (next_id_ s' = i + 1 \/ (i = 65535 /\ next_id_ s' = 0))
  | (st, _, s') => st = kFull /\ next_id_ s = 0 /\ s' = s
  end.
Proof.
  intros Hwf Hk Hu. split. { unfold DelByUserKey. by case_match. }
  apply lookup_key_absent in Hu; [|apply Hwf]. rewrite Put_insert by done.
  destruct (Z.eqb_spec (next_id_ s) 0); [done|]. simpl. split; [done|].
  pose proof (wf_next _ Hwf). destruct (Z.eq_dec (next_id_ s) 65535) as [->|]; [by right|].
  left. apply u16_small. lia.
Qed.

(** ** Witnesses *)

Definition demo_node : VNode := mkNode 0 (bs "k") (bs "q") (bs "a").

Definition demo : VNodeStorage := (Put empty demo_node (Some 0)).2.

Lemma demo_storage_wf : wf demo.
Proof. apply wf_Put, storage_wf_empty. Qed.

Lemma Put_spec_witness :
  let r := Put demo demo_node (Some 7) in r.1 = (kOk, Some 1) /\ size r.2 = size demo.
Proof.
  cbv zeta. assert ((Put demo demo_node (Some 7)).1 = (kOk, Some 1)) as Hr by (vm_compute; reflexivity).
  split; [exact Hr|]. pose proof (Put_spec demo demo_node 7 demo_storage_wf) as Hp.
  destruct (Put demo demo_node (Some 7)) as [[st i] s']. cbn [fst] in Hr. injection Hr as -> ->.
  destruct Hp as (_ & _ & _ & _ & Hp). destruct (lookup_key demo (user_key demo_node)) eqn:E.
  - apply Hp.
  - exfalso. vm_compute in E. discriminate.
Defined.

Lemma ids_not_reused_witness :
  next_id_ (DelByUserKey demo (bs "k")).2 = 2.
Proof.
  pose proof (ids_not_reused demo (mkNode 0 (bs "z") [] []) (bs "k") 0 demo_storage_wf
                ltac:(discriminate) ltac:(vm_compute; reflexivity)) as [H _].
  rewrite H. vm_compute. reflexivity.
Defined.
