(* ===== verification/Usearch.v ===== *)
(** * Usearch: the interface of the vector-index backend

    usearch's [index_dense_t] is third-party code.  The class [Usearch] lists
    the members that src/index/USearchEmbedIndex.cc calls, [UsearchLaws] what
    the code relies on.  A vector is the list of the bit patterns of its
    binary32 components. *)

From S2P Require Import Prelude.
From S2P Require Import Stdio.

(** [index_dense_t].  A failed result object is [false] or [None]; [remove]
    returns the number of completed removals, [search] the members' keys and
    distances, best first.  The stream members call back for every piece. *)
Class Usearch := {
  index_dense : Type;
  make : Z -> option index_dense;
  try_reserve : index_dense -> Z -> bool * index_dense;
  contains : index_dense -> Z -> bool;
  remove : index_dense -> Z -> option Z * index_dense;
  index_size : index_dense -> Z;
  capacity : index_dense -> Z;
  index_dimensions : index_dense -> Z;
  add : index_dense -> Z -> list Z -> bool * index_dense;
  search : index_dense -> list Z -> Z -> option (list (Z * Z));
  save_to_stream : forall {S}, index_dense -> (bytes -> S -> bool * S) -> S -> bool * S;
  load_from_stream : forall {S}, index_dense -> (nat -> S -> option bytes * S) -> S ->
    bool * index_dense * S;
  load : index_dense -> option bytes -> Z -> bool * index_dense;
  view : index_dense -> option bytes -> Z -> bool * index_dense
}.

(** What the code relies on.  [vectors] is the content of an index and [image]
    its serialized form. *)
Class UsearchLaws `(U : !Usearch) := {
  vectors : index_dense -> gmap Z (list Z);
  image : index_dense -> bytes;
  contains_vectors ix i : contains ix i = bool_decide (is_Some (vectors ix !! i));
  make_vectors d ix : make d = Some ix -> vectors ix = ∅ /\ index_dimensions ix = d;
  try_reserve_vectors ix n :
    vectors (try_reserve ix n).2 = vectors ix /\
    index_dimensions (try_reserve ix n).2 = index_dimensions ix;
  remove_vectors ix i n ix' : remove ix i = (Some n, ix') ->
    vectors ix' = delete i (vectors ix) /\ index_dimensions ix' = index_dimensions ix;
  remove_completed ix i n ix' : remove ix i = (Some n, ix') -> contains ix i = true -> n <> 0;
  remove_failed ix i ix' : remove ix i = (None, ix') -> ix' = ix;
  add_vectors ix i v ix' : contains ix i = false -> add ix i v = (true, ix') ->
    vectors ix' = <[i := v]> (vectors ix) /\ index_dimensions ix' = index_dimensions ix;
  add_failed ix i v ix' : add ix i v = (false, ix') -> vectors ix' = vectors ix /\
    index_dimensions ix' = index_dimensions ix;
  search_members ix q k hits : 0 <= k -> search ix q k = Some hits ->
    (forall h, h ∈ hits -> is_Some (vectors ix !! h.1)) /\ size_of hits <= k;
  save_image ix fp : at_end fp ->
    save_to_stream ix (fun d fp => WriteExact d fp) fp = (true, appended (image ix) fp);
  load_image ix ix0 fp rest :
    size_of (image ix) < 2 ^ 63 -> unread fp = image ix ++ rest ->
    exists ix',
      load_from_stream ix0 (fun n fp => ReadExact n fp) fp
        = (true, ix', skipped (length (image ix)) fp) /\
      vectors ix' = vectors ix /\ index_dimensions ix' = index_dimensions ix;
  load_mapped ix ix0 pre rest :
    size_of (image ix) < 2 ^ 63 ->
    exists ix',
      load ix0 (Some (pre ++ image ix ++ rest)) (size_of pre) = (true, ix') /\
      vectors ix' = vectors ix /\ index_dimensions ix' = index_dimensions ix;
  view_mapped ix ix0 pre rest :
    size_of (image ix) < 2 ^ 63 ->
    exists ix',
      view ix0 (Some (pre ++ image ix ++ rest)) (size_of pre) = (true, ix') /\
      vectors ix' = vectors ix /\ index_dimensions ix' = index_dimensions ix;
  image_nonempty ix : image ix <> []
}.
