(* ===== verification/FlatIndex.v ===== *)
(** * A brute-force backend: a concrete instance of the index interface

    Nothing under src/: an index that compares the query with every vector.  It
    satisfies [UsearchLaws], so the theorems proved against the interface hold
    of at least one backend, and their witnesses evaluate on it. *)

From S2P Require Import Prelude.
From S2P Require Import Stdio.
From S2P Require Import Usearch.

(** [flat_ro]: a view of a mapped file, which can be searched but not changed. *)
Record Flat := mkFlat { flat_dim : Z; flat_cap : Z; flat_vec : gmap Z (list Z); flat_ro : bool }.

Definition f32_one : Z := 1065353216.

(** Equal vectors are at distance [0.0f], all others at [1.0f]. *)
Definition flat_search (ix : Flat) (q : list Z) (k : Z) : option (list (Z * Z)) :=
  let all := map_to_list (flat_vec ix) in
  let near := filter (fun e => e.2 = q) all in
  let far := filter (fun e => e.2 <> q) all in
  Some (take (Z.to_nat k) (((fun e => (e.1, 0)) <$> near) ++ ((fun e => (e.1, f32_one)) <$> far))).

Definition flat_code (ix : Flat) : Z := Zpos (encode (flat_dim ix, flat_cap ix, flat_vec ix)).

Definition flat_bytes (ix : Flat) : nat := Z.to_nat (Z.log2 (flat_code ix) / 8 + 1).

Definition flat_header (ix : Flat) : bytes := le_encode 8 (Z.of_nat (flat_bytes ix)).
Definition flat_body (ix : Flat) : bytes := le_encode (flat_bytes ix) (flat_code ix).

Definition flat_save {S} (ix : Flat) (cb : bytes -> S -> bool * S) (s : S) : bool * S :=
  let '(ok, s) := cb (flat_header ix) s in
  if ok then cb (flat_body ix) s else (false, s).

Definition flat_load {S} (ix : Flat) (cb : nat -> S -> option bytes * S) (s : S)
    : bool * Flat * S :=
  match cb 8%nat s with
  | (None, s) => (false, ix, s)
  | (Some h, s) =>
      match cb (Z.to_nat (le_decode h)) s with
      | (None, s) => (false, ix, s)
      | (Some b, s) =>
          match decode (Z.to_pos (le_decode b)) with
          | Some (d, c, v) => (true, mkFlat d c v false, s)
          | None => (false, ix, s)
          end
      end
  end.

Definition take_reader (n : nat) (s : bytes) : option bytes * bytes :=
  if bool_decide (n <= length s)%nat then (Some (take n s), drop n s) else (None, s).

Definition flat_map (ix : Flat) (file : option bytes) (off : Z) : bool * Flat :=
  match file with
  | None => (false, ix)
  | Some data => let '(ok, ix, _) := flat_load ix take_reader (drop (Z.to_nat off) data) in (ok, ix)
  end.

Definition flat_view (ix : Flat) (file : option bytes) (off : Z) : bool * Flat :=
  let '(ok, ix) := flat_map ix file off in
  (ok, mkFlat (flat_dim ix) (flat_cap ix) (flat_vec ix) ok).

#[local] Instance flat_usearch : Usearch := {|
  index_dense := Flat;
  make d := Some (mkFlat d 0 ∅ false);
  try_reserve ix n := (true, mkFlat (flat_dim ix) n (flat_vec ix) (flat_ro ix));
  contains ix i := bool_decide (is_Some (flat_vec ix !! i));
  remove ix i := if flat_ro ix then (None, ix)
    else (Some 1, mkFlat (flat_dim ix) (flat_cap ix) (delete i (flat_vec ix)) false);
  index_size ix := Z.of_nat (base.size (flat_vec ix));
  capacity ix := flat_cap ix;
  index_dimensions ix := flat_dim ix;
  add ix i v := if flat_ro ix then (false, ix)
    else (true, mkFlat (flat_dim ix) (flat_cap ix) (<[i := v]> (flat_vec ix)) false);
  search := flat_search;
  save_to_stream S := flat_save;
  load_from_stream S := flat_load;
  load := flat_map;
  view := flat_view
|}.

Lemma flat_search_members ix q k hits :
  flat_search ix q k = Some hits ->
  (forall h, h ∈ hits -> is_Some (flat_vec ix !! h.1)) /\ size_of hits <= Z.max 0 k.
Proof.
  intros [= <-]. split.
  - intros h Hh. apply (subseteq_take (Z.to_nat k)) in Hh. apply elem_of_app in Hh.
    destruct Hh as [(e & -> & He)%list_elem_of_fmap|(e & -> & He)%list_elem_of_fmap];
      apply list_elem_of_filter in He as [_ He]; destruct e as [i v];
      apply elem_of_map_to_list in He; simpl; eauto.
  - unfold size_of. rewrite length_take. lia.
Qed.

Lemma flat_body_code ix : le_decode (flat_body ix) = flat_code ix.
Proof.
  apply le_decode_encode. unfold flat_bytes.
  assert (0 < flat_code ix) as Hpos by (unfold flat_code; lia).
  generalize dependent (flat_code ix). intros z Hz. pose proof (Z.log2_nonneg z) as Hl.
  pose proof (Z.log2_spec z Hz) as [_ Hlt]. pose proof (Z.div_pos (Z.log2 z) 8 Hl ltac:(lia)).
  rewrite Z2Nat.id by lia. split; [lia|]. eapply Z.lt_le_trans; [exact Hlt|].
  change 256 with (2 ^ 8). rewrite <- Z.pow_mul_r by lia. apply Z.pow_le_mono_r; [lia|].
  pose proof (Z.div_mod (Z.log2 z) 8). pose proof (Z.mod_pos_bound (Z.log2 z) 8). lia.
Qed.

Lemma flat_load_image ix ix0 fp rest :
  size_of (flat_header ix ++ flat_body ix) < 2 ^ 63 ->
  unread fp = (flat_header ix ++ flat_body ix) ++ rest ->
  flat_load ix0 (fun n fp => ReadExact n fp) fp
    = (true, mkFlat (flat_dim ix) (flat_cap ix) (flat_vec ix) false,
       skipped (length (flat_header ix ++ flat_body ix)) fp).
Proof.
  intros Hsize Hu. rewrite <- app_assoc in Hu. unfold flat_load.
  assert (length (flat_header ix) = 8%nat) as Hl by apply length_le_encode.
  assert (length (flat_body ix) = flat_bytes ix) as Hb by apply length_le_encode.
  rewrite (ReadExact_app (flat_header ix) (flat_body ix ++ rest)) by done.
  unfold size_of in Hsize. rewrite length_app, Hl, Hb in Hsize.
  unfold flat_header at 1. rewrite le_decode_encode, Nat2Z.id
    by (change (256 ^ Z.of_nat 8) with (2 ^ 64); lia).
  rewrite (ReadExact_app (flat_body ix) rest).
  - rewrite flat_body_code. unfold flat_code. cbn [Z.to_pos]. rewrite decode_encode.
    rewrite skipped_skipped, length_app, Hl, Hb. done.
  - rewrite unread_skipped, Hu. by apply drop_app_exact.
  - done.
Qed.

Lemma flat_save_image ix fp :
  at_end fp ->
  flat_save ix (fun d fp => WriteExact d fp) fp = (true, appended (flat_header ix ++ flat_body ix) fp).
Proof.
  intros Hend. unfold flat_save. rewrite (WriteExact_append _ _ Hend).
  rewrite (WriteExact_append _ _ (appended_at_end _ _ Hend)). by rewrite appended_appended.
Qed.

Lemma take_reader_app d rest n : n = length d -> take_reader n (d ++ rest) = (Some d, rest).
Proof.
  intros ->. unfold take_reader. rewrite bool_decide_eq_true_2 by (rewrite length_app; lia).
  by rewrite take_app_length, drop_app_length.
Qed.

Lemma flat_map_image ix ix0 pre rest :
  size_of (flat_header ix ++ flat_body ix) < 2 ^ 63 ->
  flat_map ix0 (Some (pre ++ (flat_header ix ++ flat_body ix) ++ rest)) (size_of pre)
    = (true, mkFlat (flat_dim ix) (flat_cap ix) (flat_vec ix) false).
Proof.
  intros Hsize. unfold flat_map, size_of. rewrite Nat2Z.id, drop_app_length. unfold flat_load.
  assert (length (flat_header ix) = 8%nat) as Hl by apply length_le_encode.
  assert (length (flat_body ix) = flat_bytes ix) as Hb by apply length_le_encode.
  rewrite <- app_assoc, (take_reader_app (flat_header ix)) by done.
  unfold size_of in Hsize. rewrite length_app, Hl, Hb in Hsize.
  unfold flat_header at 1. rewrite le_decode_encode, Nat2Z.id
    by (change (256 ^ Z.of_nat 8) with (2 ^ 64); lia).
  rewrite (take_reader_app (flat_body ix)) by done.
  rewrite flat_body_code. unfold flat_code. cbn [Z.to_pos]. by rewrite decode_encode.
Qed.

#[local] Instance flat_laws : UsearchLaws flat_usearch.
Proof.
  refine {| vectors := (flat_vec : @index_dense flat_usearch -> _);
            image := (fun ix : @index_dense flat_usearch => flat_header ix ++ flat_body ix) |}.
  all: try (intros; simplify_eq/=; repeat case_match; simplify_eq/=; done).
  - intros ix q k hits Hk Hs. pose proof (flat_search_members _ _ _ _ Hs) as [? ?].
    split; [done|]. lia.
  - apply flat_save_image.
  - intros ix ix0 fp rest Hs Hu. eexists. split; [exact (flat_load_image ix ix0 fp rest Hs Hu)|done].
  - intros ix ix0 pre rest Hs. eexists. split; [exact (flat_map_image ix ix0 pre rest Hs)|done].
  - intros ix ix0 pre rest Hs. exists (mkFlat (flat_dim ix) (flat_cap ix) (flat_vec ix) true).
    split; [|done]. cbn [view flat_usearch]. unfold flat_view. by rewrite (flat_map_image ix ix0 pre rest Hs).
Defined.
