(* ===== verification/USearchEmbedIndex.v ===== *)
(** * USearchEmbedIndex: the vector index over the usearch backend

    Models include/vemory/index/USearchEmbedIndex.h and
    src/index/USearchEmbedIndex.cc, over the interface of Usearch.v. *)

From S2P Require Import Prelude.
From S2P Require Import Stdio.
From S2P Require Import Usearch.
From S2P Require Import FlatIndex.

Inductive Status := kOk | kNotFound | kBadValue | kError.

#[export] Instance Status_eq_dec : EqDecision Status.
Proof. solve_decision. Defined.

Record Hit := mkHit { hit_id : Z; hit_score : Z }.

Section USearchEmbedIndex.
Context `{!Usearch}.

(** [std::unique_ptr<Impl>]: [None] is the empty pointer. *)
Record USearchEmbedIndex := mkIndex {
  impl_ : option index_dense;
  dimensions_ : Z;
  capacity_ : Z;
  viewed_ : bool
}.

(** The constructor. *)
Definition construct (dimensions cap : Z) : USearchEmbedIndex :=
  let cap := if cap =? 0 then 1 else cap in
  if dimensions =? 0 then mkIndex None dimensions cap false
  else
    match make dimensions with
    | None => mkIndex None dimensions cap false
    | Some ix =>
        let '(ok, ix) := try_reserve ix cap in
        mkIndex (if ok then Some ix else None) dimensions cap false
    end.

Definition with_impl (s : USearchEmbedIndex) (ix : index_dense) : USearchEmbedIndex :=
  mkIndex (Some ix) (dimensions_ s) (capacity_ s) (viewed_ s).

(** The three private members run on [impl_ = Some ix]. *)
Definition usearchAdd (s : USearchEmbedIndex) (ix : index_dense) (i : Z) (data : list Z)
    : Status * USearchEmbedIndex :=
  let '(ok, ix) :=
    if contains ix i then
      let '(removed, ix) := remove ix i in (bool_decide (is_Some removed), ix)
    else (true, ix) in
  if negb ok then (kError, with_impl s ix)
  else
    let '(ok, ix) :=
      if capacity ix <=? index_size ix then
        try_reserve ix (if capacity ix =? 0 then capacity_ s else u64 (capacity ix * 2))
      else (true, ix) in
    if negb ok then (kError, with_impl s ix)
    else
      let '(added, ix) := add ix i data in
      (if added then kOk else kError, with_impl s ix).

Definition Add (s : USearchEmbedIndex) (i : Z) (data : ptr (list Z)) (dim : Z)
    : Status * USearchEmbedIndex :=
  match impl_ s with
  | None => (kError, s)
  | Some ix =>
      if dimensions_ s =? 0 then (kError, s)
      else
        match data with
        | None => (kBadValue, s)
        | Some data =>
            if negb (dim =? dimensions_ s) then (kBadValue, s)
            else usearchAdd s ix i data
        end
  end.

Definition usearchSearch (ix : index_dense) (query : list Z) (k : Z) (out : list Hit)
    : Status * list Hit :=
  match search ix query k with
  | None => (kError, out)
  | Some results => (kOk, out ++ ((fun r => mkHit (u16 r.1) r.2) <$> results))
  end.

Definition Search (s : USearchEmbedIndex) (query : ptr (list Z)) (dim k : Z)
    (out : ptr (list Hit)) : Status * ptr (list Hit) :=
  match out with
  | None => (kBadValue, out)
  | Some _ =>
      match impl_ s with
      | None => (kError, Some [])
      | Some ix =>
          if dimensions_ s =? 0 then (kError, Some [])
          else
            match query with
            | None => (kBadValue, Some [])
            | Some query =>
                if negb (dim =? dimensions_ s) || (k =? 0) then (kBadValue, Some [])
                else let '(st, hits) := usearchSearch ix query k [] in (st, Some hits)
            end
      end
  end.

Definition usearchDel (s : USearchEmbedIndex) (ix : index_dense) (i : Z)
    : Status * USearchEmbedIndex :=
  if negb (contains ix i) then (kNotFound, s)
  else
    let '(removed, ix) := remove ix i in
    match removed with
    | None => (kError, with_impl s ix)
    | Some completed => (if completed =? 0 then kNotFound else kOk, with_impl s ix)
    end.

Definition Del (s : USearchEmbedIndex) (i : Z) : Status * USearchEmbedIndex :=
  match impl_ s with
  | None => (kError, s)
  | Some ix => if dimensions_ s =? 0 then (kError, s) else usearchDel s ix i
  end.

Definition Save (s : USearchEmbedIndex) (fp : ptr File) : Status * ptr File :=
  match fp, impl_ s with
  | Some fp, Some ix =>
      let '(ok, fp) := save_to_stream ix (fun d fp => WriteExact d fp) fp in
      (if ok then kOk else kError, Some fp)
  | _, _ => (kBadValue, fp)
  end.

(** The index the three loaders start from: the current one, or a new one. *)
Definition ensure_impl (s : USearchEmbedIndex) : option index_dense :=
  match impl_ s with Some ix => Some ix | None => make (dimensions_ s) end.

Definition after_load (ix : index_dense) (viewed : bool) : USearchEmbedIndex :=
  mkIndex (Some ix) (index_dimensions ix) (if capacity ix =? 0 then 1 else capacity ix) viewed.

Definition Load (s : USearchEmbedIndex) (fp : ptr File)
    : Status * USearchEmbedIndex * ptr File :=
  match fp with
  | None => (kBadValue, s, fp)
  | Some f =>
      if dimensions_ s =? 0 then (kBadValue, s, fp)
      else
        match ensure_impl s with
        | None => (kError, s, fp)
        | Some ix =>
            let '(ok, ix, f) := load_from_stream ix (fun n fp => ReadExact n fp) f in
            if negb ok then (kError, with_impl s ix, Some f)
            else (kOk, after_load ix false, Some f)
        end
  end.

(** [fs path] is the content of the file at [path], if it can be mapped. *)
Definition LoadMapped (fs : bytes -> option bytes) (s : USearchEmbedIndex) (path : bytes)
    (offset : Z) : Status * USearchEmbedIndex :=
  if is_empty path || (dimensions_ s =? 0) then (kBadValue, s)
  else
    match ensure_impl s with
    | None => (kError, s)
    | Some ix =>
        let '(ok, ix) := load ix (fs path) offset in
        if negb ok then (kError, with_impl s ix) else (kOk, after_load ix false)
    end.

Definition ViewMapped (fs : bytes -> option bytes) (s : USearchEmbedIndex) (path : bytes)
    (offset : Z) : Status * USearchEmbedIndex :=
  if is_empty path || (dimensions_ s =? 0) then (kBadValue, s)
  else
    match ensure_impl s with
    | None => (kError, s)
    | Some ix =>
        let '(ok, ix) := view ix (fs path) offset in
        if negb ok then (kError, with_impl s ix) else (kOk, after_load ix true)
    end.

(** ** Lemmas *)

Context `{!UsearchLaws _}.

(** The vectors an index holds. *)
Definition content (s : USearchEmbedIndex) : gmap Z (list Z) :=
  match impl_ s with Some ix => vectors ix | None => ∅ end.

(** The cached dimension is the backend's. *)
Definition dims_ok (s : USearchEmbedIndex) : Prop :=
  match impl_ s with Some ix => index_dimensions ix = dimensions_ s | None => True end.

Lemma construct_content d c :
  content (construct d c) = ∅ /\ dims_ok (construct d c) /\ dimensions_ (construct d c) = d.
Proof.
  unfold construct, content, dims_ok. destruct (d =? 0); [done|].
  destruct (make d) as [ix|] eqn:E; [|done].
  destruct (make_vectors _ _ E) as [Hv Hd].
  pose proof (try_reserve_vectors ix (if c =? 0 then 1 else c)) as [Hv' Hd'].
  destruct (try_reserve _ _) as [[] ix']; simpl in *; [|done]. by rewrite Hv', Hd', Hv, Hd.
Qed.

(** [usearchAdd] after the removal step. *)
Lemma usearchAdd_remove ix i :
  let r := if contains ix i then
             let '(removed, ix) := remove ix i in (bool_decide (is_Some removed), ix)
           else (true, ix) in
  index_dimensions r.2 = index_dimensions ix /\
  if r.1 then vectors r.2 = delete i (vectors ix) else vectors r.2 = vectors ix.
Proof.
  simpl. destruct (contains ix i) eqn:E; simpl.
  - destruct (remove ix i) as [[n|] ix'] eqn:R; simpl.
    + destruct (remove_vectors _ _ _ _ R). done.
    + by rewrite (remove_failed _ _ _ R).
  - rewrite contains_vectors in E. apply bool_decide_eq_false, eq_None_not_Some in E.
    by rewrite delete_id.
Qed.

Lemma usearchAdd_reserve s ix :
  let r := if capacity ix <=? index_size ix then
             try_reserve ix (if capacity ix =? 0 then capacity_ s else u64 (capacity ix * 2))
           else (true, ix) in
  index_dimensions r.2 = index_dimensions ix /\ vectors r.2 = vectors ix.
Proof. simpl. case_match; [|done]. split; apply try_reserve_vectors. Qed.

(** [Add] inserts or replaces; a failed [Add] may have dropped the old vector
    of the id, and touches no other. *)
Lemma Add_content s i data dim st s' :
  dims_ok s -> Add s i (Some data) dim = (st, s') ->
  dims_ok s' /\ dimensions_ s' = dimensions_ s /\ viewed_ s' = viewed_ s /\
  if decide (st = kOk) then dim = dimensions_ s /\ content s' = <[i := data]> (content s)
  else content s' = content s \/ content s' = delete i (content s).
Proof.
  unfold Add, dims_ok, content. intros Hd.
  destruct (impl_ s) as [ix|] eqn:E; [|intros; simplify_eq/=; rewrite E; auto].
  destruct (dimensions_ s =? 0); [intros; simplify_eq/=; rewrite E; auto|].
  destruct (dim =? dimensions_ s) eqn:Edim; [|intros; simplify_eq/=; rewrite E; auto].
  apply Z.eqb_eq in Edim. unfold usearchAdd. simpl.
  pose proof (usearchAdd_remove ix i) as [Hd1 Hv1].
  destruct (if contains ix i then _ else _) as [ok1 ix1]. simpl in *.
  destruct ok1; simpl; [|intros; simplify_eq/=; by rewrite Hd1, Hv1; auto].
  pose proof (usearchAdd_reserve s ix1) as [Hd2 Hv2].
  destruct (if capacity ix1 <=? index_size ix1 then _ else _) as [ok2 ix2]. simpl in *.
  destruct ok2; simpl; [|intros; simplify_eq/=; rewrite Hd2, Hv2, Hd1, Hv1; auto].
  assert (contains ix2 i = false) as Hc.
  { rewrite contains_vectors, Hv2, Hv1, lookup_delete_eq. by apply bool_decide_eq_false. }
  destruct (add ix2 i data) as [[] ix3] eqn:Ha; intros; simplify_eq/=.
  - destruct (add_vectors _ _ _ _ Hc Ha) as [Hv3 Hd3].
    rewrite Hd3, Hv3, Hd2, Hv2, Hd1, Hv1, insert_delete_eq. auto.
  - destruct (add_failed _ _ _ _ Ha) as [Hv3 Hd3].
    rewrite Hd3, Hv3, Hd2, Hv2, Hd1, Hv1. auto.
Qed.

Lemma Del_content s i st s' :
  dims_ok s -> Del s i = (st, s') ->
  dims_ok s' /\ dimensions_ s' = dimensions_ s /\
  match st with
  | kOk => is_Some (content s !! i) /\ content s' = delete i (content s)
  | kNotFound => content s !! i = None /\ s' = s
  | _ => content s' = content s
  end.
Proof.
  unfold Del, usearchDel, dims_ok, content. intros Hd.
  destruct (impl_ s) as [ix|] eqn:E; [|intros; simplify_eq/=; by rewrite E].
  destruct (dimensions_ s =? 0); [intros; simplify_eq/=; by rewrite E|].
  destruct (contains ix i) eqn:Hc; simpl; pose proof Hc as Hc'; rewrite contains_vectors in Hc'.
  - apply bool_decide_eq_true in Hc'.
    destruct (remove ix i) as [[n|] ix'] eqn:R; intros; simplify_eq/=.
    + destruct (remove_vectors _ _ _ _ R) as [Hv Hd'].
      rewrite (proj2 (Z.eqb_neq n 0)) by (by eapply remove_completed). by rewrite Hd'.
    + by rewrite (remove_failed _ _ _ R).
  - apply bool_decide_eq_false, eq_None_not_Some in Hc'. intros; simplify_eq/=. by rewrite E.
Qed.

(** A search never changes the index; its hits are members, at most [k]. *)
Lemma Search_hits s q dim k o hits :
  0 <= k -> Search s (Some q) dim k (Some o) = (kOk, Some hits) ->
  dim = dimensions_ s /\ size_of hits <= k /\
  forall h, h ∈ hits -> exists key, is_Some (content s !! key) /\ hit_id h = u16 key.
Proof.
  intros Hk. unfold Search, usearchSearch, content. destruct (impl_ s) as [ix|]; [|done].
  destruct (dimensions_ s =? 0); [done|].
  destruct (negb (dim =? dimensions_ s) || (k =? 0)) eqn:E; [done|].
  destruct (search ix q k) as [rs|] eqn:R; [|done]. intros; simplify_eq/=.
  destruct (search_members _ _ _ _ Hk R) as [Hm Hl]. bool_facts. split_and!; [done| |].
  - unfold size_of in *. by rewrite length_fmap.
  - intros h (r & -> & Hr)%list_elem_of_fmap. exists r.1. split; [by apply Hm|done].
Qed.

(** ** Properties *)

(** C31: the index is a map from ids to vectors.  [Add] that reports success has
    inserted or replaced exactly the vector of its id and required the index's
    dimension; one that fails may have lost the old vector of that id but never
    touches another.  [Del] removes exactly the vector of its id, and reports
    [kNotFound] only when there is none. *)
Theorem index_refines_map (s : USearchEmbedIndex) (i : Z) (data : list Z) (dim : Z) :
  dims_ok s ->
  (let '(st, s') := Add s i (Some data) dim in
   dims_ok s' /\ dimensions_ s' = dimensions_ s /\
   (st = kOk -> dim = dimensions_ s /\ content s' = <[i := data]> (content s)) /\
   forall j, j <> i -> content s' !! j = content s !! j) /\
  (let '(st, s') := Del s i in
   dims_ok s' /\ dimensions_ s' = dimensions_ s /\
   (st = kOk -> is_Some (content s !! i) /\ content s' = delete i (content s)) /\
   (st = kNotFound -> content s !! i = None /\ s' = s) /\
   forall j, j <> i -> content s' !! j = content s !! j).
Proof.
  intros Hd. split.
  - destruct (Add s i (Some data) dim) as [st s'] eqn:E.
    destruct (Add_content _ _ _ _ _ _ Hd E) as (Hd' & Hdim & _ & HA).
    case_decide; split_and!; try done; intros j Hj.
    + destruct HA as [_ ->]. by rewrite lookup_insert_ne.
    + destruct HA as [->| ->]; [done|]. by rewrite lookup_delete_ne.
  - destruct (Del s i) as [st s'] eqn:E.
    destruct (Del_content _ _ _ _ Hd E) as (Hd' & Hdim & HA).
    split_and!; try done; [by intros ->|by intros ->|]. intros j Hj.
    destruct st; [destruct HA as [_ HA]|destruct HA as [_ ->]; done|by rewrite HA..].
    by rewrite HA, lookup_delete_ne.
Qed.

(** What [Save] appends to a file, [Load] restores, into any index object:
    the same vectors under the same ids, with the saved dimension. *)
Theorem Save_Load_roundtrip (s s0 : USearchEmbedIndex) (fp : File) :
  dims_ok s -> is_Some (impl_ s) -> dimensions_ s0 <> 0 -> is_Some (ensure_impl s0) ->
  at_end fp ->
  exists d, Save s (Some fp) = (kOk, Some (appended d fp)) /\
    forall (g : File) rest, size_of d < 2 ^ 63 -> unread g = d ++ rest ->
      exists s', Load s0 (Some g) = (kOk, s', Some (skipped (length d) g)) /\
        content s' = content s /\ dimensions_ s' = dimensions_ s /\ dims_ok s' /\
        viewed_ s' = false.
Proof.
  intros Hd [ix E] Hne [ix0 E0] Hend. exists (image ix). unfold Save. rewrite E.
  rewrite save_image by done. split; [done|]. intros g rest Hsize Hu.
  unfold Load. rewrite (proj2 (Z.eqb_neq _ _) Hne), E0.
  destruct (load_image ix ix0 g rest Hsize Hu) as (ix' & -> & Hv & Hdim).
  eexists. split; [done|]. unfold dims_ok, content in *. rewrite E in Hd |- *. simpl.
  by rewrite Hv, Hdim.
Qed.

End USearchEmbedIndex.

(** ** Witnesses *)

#[local] Existing Instances flat_usearch flat_laws.

Definition demo : USearchEmbedIndex := (Add (construct 2 8) 1 (Some [0; f32_one]) 2).2.

Lemma demo_dims_ok : dims_ok demo.
Proof. vm_compute. reflexivity. Qed.

Lemma index_refines_map_witness :
  content (Add demo 2 (Some [f32_one; 0]) 2).2 !! 1 = Some [0; f32_one].
Proof.
  pose proof (index_refines_map demo 2 [f32_one; 0] 2 demo_dims_ok) as [H _].
  destruct (Add demo 2 _ 2) as [st s'] eqn:E. destruct H as (_ & _ & _ & Hj).
  simpl. rewrite Hj; [vm_compute; reflexivity|discriminate].
Defined.

Lemma Save_Load_roundtrip_witness :
  exists d, Save demo (Some (mkFile [] 0 None)) = (kOk, Some (appended d (mkFile [] 0 None))) /\
    forall rest, size_of d < 2 ^ 63 -> exists s',
      Load (construct 2 1) (Some (mkFile (d ++ rest) 0 None)) =
        (kOk, s', Some (skipped (length d) (mkFile (d ++ rest) 0 None))) /\
      content s' = content demo.
Proof.
  destruct (Save_Load_roundtrip demo (construct 2 1) (mkFile [] 0 None) demo_dims_ok) as (d & Hs & Hl).
  - vm_compute. eauto.
  - discriminate.
  - vm_compute. eauto.
  - split; reflexivity.
  - exists d. split; [exact Hs|]. intros rest Hsize.
    destruct (Hl (mkFile (d ++ rest) 0 None) rest Hsize eq_refl) as (s' & ? & ? & _). eauto.
Defined.
