(* ===== verification/RespVNodeCodec.v ===== *)
(** * RespVNodeCodec: semantic-cache nodes as RESP arrays

    Models include/vemory/storage/RespVNodeCodec.h and
    src/storage/RespVNodeCodec.cc: the record format of the NODES segment of a
    snapshot. *)

From S2P Require Import Prelude.
From S2P Require Import RespEncode.
From S2P Require Import RespDecode.
From S2P Require Import Stdio.
From S2P Require Import VNodeStorage.

(** [thrown] is not a status of the code: see [RespDecode.Status]. *)
Inductive Status := kOk | kError | thrown.

#[export] Instance Status_eq_dec : EqDecision Status.
Proof. solve_decision. Defined.

Definition Encode (node : VNode) (out : ptr bytes) : Status * ptr bytes :=
  match out with
  | None => (kError, out)
  | Some _ =>
      let id_buf := print_unsigned (id node) in
      if is_empty id_buf then (kError, Some [])
      else
        let out := AppendArrayHeader [] 4 in
        let out := AppendBulkString out id_buf in
        let out := AppendBulkString out (user_key node) in
        let out := AppendBulkString out (question node) in
        let out := AppendBulkString out (answer node) in
        (kOk, Some out)
  end.

(** The digit loop on [tokens[0]]. *)
Fixpoint DecodeId (l : bytes) (i : Z) : option Z :=
  match l with
  | [] => Some i
  | c :: l' =>
      if negb (isdigit c) then None
      else
        let i := u64 (i * 10 + digit_value c) in
        if 65535 <? i then None else DecodeId l' i
  end.

Definition Decode (data : bytes) (out : ptr VNode) : Status * ptr VNode :=
  match out with
  | None => (kError, out)
  | Some _ =>
      let '(st, tokens, consumed) := decode data in
      if bool_decide (st = RespDecode.thrown) then (thrown, out)
      else if negb (bool_decide (st = RespDecode.kOk)) || negb (consumed =? length data)%nat
         || negb (length tokens =? 4)%nat
      then (kError, out)
      else
        match DecodeId (nth 0 tokens []) 0 with
        | None => (kError, out)
        | Some i => (kOk, Some (mkNode i (nth 1 tokens []) (nth 2 tokens []) (nth 3 tokens [])))
        end
  end.

(** ** Lemmas *)

(** The record of a node. *)
Definition node_tokens (n : VNode) : list bytes :=
  [print_unsigned (id n); user_key n; question n; answer n].

Definition node_bytes (n : VNode) : bytes := array_bytes (node_tokens n).

(** Field lengths a record can carry. *)
Definition node_ok (n : VNode) : Prop :=
  0 <= id n < 2 ^ 16 /\ size_of (user_key n) < 2 ^ 63 /\ size_of (question n) < 2 ^ 63 /\
  size_of (answer n) < 2 ^ 63.

Lemma Encode_bytes n o : Encode n (Some o) = (kOk, Some (node_bytes n)).
Proof.
  unfold Encode. rewrite (proj2 (is_empty_false _) (print_unsigned_nonempty _)).
  unfold node_bytes. by rewrite <- append_array.
Qed.

Lemma DecodeId_range l i r : 0 <= i < 2 ^ 16 -> DecodeId l i = Some r -> 0 <= r < 2 ^ 16.
Proof.
  revert i. induction l as [|c l IH]; intros i Hi; cbn [DecodeId]; [by intros [= <-]|].
  destruct (isdigit c); [|done]. cbn [negb].
  destruct (65535 <? u64 (i * 10 + digit_value c)) eqn:E; [done|]. apply IH. bool_facts.
  unfold u64 in *. pose proof (Z.mod_pos_bound (i * 10 + digit_value c) (2 ^ 64)). lia.
Qed.

Lemma DecodeId_fold l i :
  Forall (fun c => isdigit c = true) l -> 0 <= i ->
  let r := fold_left (fun v c => v * 10 + digit_value c) l i in
  r < 2 ^ 16 -> DecodeId l i = Some r.
Proof.
  revert i. induction l as [|c l IH]; intros i Hd Hi r Hr; [done|].
  apply Forall_cons_iff in Hd as [Hc Hd]. cbn [fold_left DecodeId] in r |- *.
  rewrite Hc. cbn [negb]. pose proof (isdigit_range _ Hc).
  assert (0 <= i * 10 + digit_value c) as Hpos by (unfold digit_value; lia).
  assert (i * 10 + digit_value c <= r) as Hle.
  { unfold r. generalize dependent (i * 10 + digit_value c). clear -Hd. intros v _ _ Hv.
    revert v Hv. induction l as [|d l IH]; intros v Hv; cbn [fold_left]; [lia|].
    apply Forall_cons_iff in Hd as [Hc Hd]. pose proof (isdigit_range _ Hc).
    transitivity (v * 10 + digit_value d); [unfold digit_value; lia|].
    apply IH; [done|]. unfold digit_value; lia. }
  rewrite u64_small by lia. destruct (Z.ltb_spec 65535 (i * 10 + digit_value c)); [lia|].
  by apply IH.
Qed.

Lemma DecodeId_print i : 0 <= i < 2 ^ 16 -> DecodeId (print_unsigned i) 0 = Some i.
Proof.
  intros Hi.
  assert (fold_left (fun v c => v * 10 + digit_value c) (print_unsigned i) 0 = i) as Hf.
  { apply (print_unsigned_fold _ (2 ^ 16)); [|lia]. intros v d _ Hd _.
    by rewrite digit_value_digit. }
  rewrite (DecodeId_fold _ 0) by (try apply print_unsigned_isdigit; rewrite ?Hf; lia). by rewrite Hf.
Qed.

Lemma print_unsigned_small i : 0 <= i < 2 ^ 16 -> size_of (print_unsigned i) <= 16.
Proof.
  intros Hi. unfold print_unsigned, size_of.
  assert (forall f n acc, (length (digits f n acc) <= f + length acc)%nat) as H.
  { induction f as [|f IH]; intros n acc; simpl; [lia|].
    case_match; simpl; [lia|]. specialize (IH (n / 10) (digit (n mod 10) :: acc)). simpl in IH. lia. }
  specialize (H (S (Z.to_nat (Z.log2 i))) i []). change (length []) with 0%nat in H.
  assert (Z.log2 i < 16); [|lia].
  destruct (Z.eq_dec i 0) as [->|]; [simpl; lia|]. apply Z.log2_lt_pow2; lia.
Qed.

Lemma node_tokens_ok n : node_ok n -> tokens_ok (node_tokens n).
Proof.
  intros (Hi & Hu & Hq & Ha). split; [vm_compute; discriminate|]. unfold node_tokens.
  pose proof (print_unsigned_small _ Hi).
  repeat (apply Forall_cons_iff; split; [cbv beta; lia|]). constructor.
Qed.

Lemma Decode_bytes n o : node_ok n -> Decode (node_bytes n) (Some o) = (kOk, Some n).
Proof.
  intros Hn. unfold Decode, node_bytes. rewrite <- (app_nil_r (array_bytes _)) at 1.
  rewrite decode_array by (by apply node_tokens_ok). rewrite Nat.eqb_refl. cbn.
  rewrite DecodeId_print by apply Hn. by destruct n.
Qed.

Lemma Decode_id_range data o n : Decode data (Some o) = (kOk, Some n) -> 0 <= id n < 2 ^ 16.
Proof.
  unfold Decode. destruct (decode data) as [[st toks] k].
  destruct (bool_decide _); [done|]. destruct (_ || _); [done|]. destruct (DecodeId _ 0) as [i|] eqn:E; [|done].
  intros [= <-]. simpl. by apply DecodeId_range in E.
Qed.

(** ** Properties *)

(** The node codec is a round trip on every node with a 16-bit id and
    lengths below 2^63, whatever the bytes of its fields (CR, LF and NUL
    included), and a record followed by anything else does not decode. *)
Theorem codec_roundtrip (n : VNode) (o : bytes) (o' : VNode) :
  node_ok n ->
  exists data, Encode n (Some o) = (kOk, Some data) /\
    Decode data (Some o') = (kOk, Some n) /\
    forall ext, ext <> [] -> Decode (data ++ ext) (Some o') = (kError, Some o').
Proof.
  intros Hn. exists (node_bytes n). split; [apply Encode_bytes|].
  split; [by apply Decode_bytes|]. intros ext Hext. unfold Decode, node_bytes.
  rewrite decode_array by (by apply node_tokens_ok).
  rewrite length_app. destruct ext as [|c ext]; [done|].
  destruct (Nat.eqb_spec (length (array_bytes (node_tokens n)))
              (length (array_bytes (node_tokens n)) + length (c :: ext))); [simpl in *; lia|done].
Qed.

Lemma codec_roundtrip_witness :
  exists data, Encode (mkNode 7 (bs "k") CRLF [NUL]) (Some []) = (kOk, Some data) /\
    Decode data (Some default_node) = (kOk, Some (mkNode 7 (bs "k") CRLF [NUL])).
Proof.
  destruct (codec_roundtrip (mkNode 7 (bs "k") CRLF [NUL]) [] default_node) as (d & H1 & H2 & _).
  - split_and!; vm_compute; (reflexivity || discriminate).
  - eauto.
Defined.
