(* ===== verification/VNodeIndex.v ===== *)
(** * VNodeIndex: the semantic cache

    Models include/vemory/storage/VNodeIndex.h and src/storage/VNodeIndex.cc:
    nodes (VNodeStorage), their vectors (USearchEmbedIndex) and their access
    order (LruOrder) under one set of ids. *)

From S2P Require Import Prelude.
From S2P Require Import Stdio.
From S2P Require Import CLib.
From S2P Require LruOrder.
From S2P Require Import VNodeStorage.
From S2P Require Import RespVNodeCodec.
From S2P Require Import Usearch.
From S2P Require Import FlatIndex.
From S2P Require USearchEmbedIndex.

(** [thrown] is not a status of the code: the call ends in the exception of
    [RespDecode.Status] instead of returning. *)
Inductive Status :=
  kOk | kNotFound | kBadValue | kBadVectorSize | kDimMismatch | kIndexInitFailed
| kIoError | kError | thrown.

#[export] Instance Status_eq_dec : EqDecision Status.
Proof. solve_decision. Defined.

(** [*out_data] views the blob; the result is the [bool] and both out-values. *)
Definition ParseFloatBlob (blob : bytes) (out_data : ptr bytes) (out_dim : ptr Z)
    : bool * ptr bytes * ptr Z :=
  match out_data, out_dim with
  | Some _, Some _ =>
      if is_empty blob || negb (size_of blob mod 4 =? 0) then (false, out_data, out_dim)
      else
        let dim := size_of blob / 4 in
        if dim =? 0 then (false, out_data, Some dim) else (true, Some blob, Some dim)
  | _, _ => (false, out_data, out_dim)
  end.

(** [memcpy] into a vector of [dim] floats. *)
Fixpoint CopyFloats (blob : bytes) (dim : nat) : list Z :=
  match dim with
  | O => []
  | S dim' => le_decode (take 4 blob) :: CopyFloats (drop 4 blob) dim'
  end.

Definition kMaxStale : nat := Z.to_nat 65535.

Section VNodeIndex.
Context `{U : !Usearch}.

Record VNodeIndex := mkVIndex {
  default_capacity_ : Z;
  max_entries_ : Z;
  dim_ : Z;
  storage_ : VNodeStorage;
  lru_ : LruOrder.LruOrder;
  index_ : option USearchEmbedIndex.USearchEmbedIndex
}.

Definition construct (default_capacity max_entries : Z) : VNodeIndex :=
  mkVIndex (if default_capacity =? 0 then 1024 else default_capacity) max_entries 0
           VNodeStorage.empty LruOrder.empty None.

Definition with_storage (s : VNodeIndex) (st : VNodeStorage) : VNodeIndex :=
  mkVIndex (default_capacity_ s) (max_entries_ s) (dim_ s) st (lru_ s) (index_ s).
Definition with_lru (s : VNodeIndex) (l : LruOrder.LruOrder) : VNodeIndex :=
  mkVIndex (default_capacity_ s) (max_entries_ s) (dim_ s) (storage_ s) l (index_ s).
Definition with_index (s : VNodeIndex) (d : Z) (ix : option USearchEmbedIndex.USearchEmbedIndex)
    : VNodeIndex :=
  mkVIndex (default_capacity_ s) (max_entries_ s) d (storage_ s) (lru_ s) ix.

(** ** Operations *)

Definition RebuildLruFromStorage `{!IterOrder Z} (s : VNodeIndex) : VNodeIndex :=
  with_lru s (ForEach (storage_ s) (fun l i _ => (true, LruOrder.Push l i)) (LruOrder.Clear (lru_ s))).

Definition EnsureIndex (s : VNodeIndex) (dim : Z) : Status * VNodeIndex :=
  match index_ s with
  | Some _ => (if negb (dim =? dim_ s) then kDimMismatch else kOk, s)
  | None =>
      let idx := USearchEmbedIndex.construct dim (default_capacity_ s) in
      let probe := replicate (Z.to_nat dim) 0 in
      match USearchEmbedIndex.Search idx (Some probe) dim 1 (Some []) with
      | (USearchEmbedIndex.kError, _) => (kIndexInitFailed, s)
      | _ => (kOk, with_index s dim (Some idx))
      end
  end.

Definition NeedsRoomFor (s : VNodeIndex) (key : bytes) : bool :=
  if (max_entries_ s =? 0) || is_empty key then false
  else
    match GetByUserKey (storage_ s) key (Some default_node) with
    | (VNodeStorage.kOk, _) => false
    | _ => max_entries_ s <=? VNodeStorage.size (storage_ s)
    end.

Fixpoint PeekLruUserKey_loop (fuel : nat) (s : VNodeIndex) (out : bytes)
    : Status * bytes * VNodeIndex :=
  match fuel with
  | O => (kNotFound, out, s)
  | S fuel =>
      match LruOrder.PeekLru (lru_ s) (Some 0) with
      | (true, Some i) =>
          match GetById (storage_ s) i (Some default_node) with
          | (VNodeStorage.kOk, Some node) => (kOk, user_key node, s)
          | _ =>
              match LruOrder.PopLru (lru_ s) (Some 0) with
              | (true, Some dropped, l) =>
                  if negb (dropped =? i) then (kError, out, with_lru s l)
                  else PeekLruUserKey_loop fuel (with_lru s l) out
              | (_, _, l) => (kError, out, with_lru s l)
              end
          end
      | _ => (kNotFound, out, s)
      end
  end.

Definition PeekLruUserKey (s : VNodeIndex) (out : ptr bytes) : Status * ptr bytes * VNodeIndex :=
  match out with
  | None => (kBadValue, out, s)
  | Some _ =>
      let '(st, key, s) := PeekLruUserKey_loop kMaxStale s [] in (st, Some key, s)
  end.

Definition Set_ (s : VNodeIndex) (vector_blob key quest ans : bytes) : Status * VNodeIndex :=
  if is_empty key then (kBadValue, s)
  else
    match ParseFloatBlob vector_blob (Some []) (Some 0) with
    | (true, _, Some dim) =>
        match EnsureIndex s dim with
        | (kOk, s) =>
            let node := mkNode 0 key quest ans in
            match Put (storage_ s) node (Some 0) with
            | (VNodeStorage.kFull, _, st) => (kError, with_storage s st)
            | (VNodeStorage.kOk, Some i, st) =>
                let s := with_storage s st in
                let floats := CopyFloats vector_blob (Z.to_nat dim) in
                match index_ s with
                | None => (kError, s) (* unreachable: EnsureIndex succeeded *)
                | Some ix =>
                    let '(ist, ix) := USearchEmbedIndex.Add ix i (Some floats) dim in
                    let s := with_index s (dim_ s) (Some ix) in
                    match ist with
                    | USearchEmbedIndex.kOk => (kOk, with_lru s (LruOrder.Push (lru_ s) i))
                    | _ =>
                        let s := with_storage s (DelByUserKey (storage_ s) key).2 in
                        let s := with_lru s (LruOrder.Erase (lru_ s) i).2 in
                        (kError, s)
                    end
                end
            | (_, _, st) => (kBadValue, with_storage s st)
            end
        | (est, s) => (est, s)
        end
    | _ => (kBadVectorSize, s)
    end.

Definition Get (s : VNodeIndex) (query_blob : bytes) (threshold : Z) (out_answer : ptr bytes)
    : Status * ptr bytes * VNodeIndex :=
  match out_answer with
  | None => (kBadValue, out_answer, s)
  | Some _ =>
      match index_ s with
      | None => (kNotFound, Some [], s)
      | Some ix =>
          if dim_ s =? 0 then (kNotFound, Some [], s)
          else
            match ParseFloatBlob query_blob (Some []) (Some 0) with
            | (true, _, Some dim) =>
                if negb (dim =? dim_ s) then (kDimMismatch, Some [], s)
                else
                  let floats := CopyFloats query_blob (Z.to_nat dim) in
                  match USearchEmbedIndex.Search ix (Some floats) dim 1 (Some []) with
                  | (USearchEmbedIndex.kOk, Some (hit :: _)) =>
                      if f32_gt (USearchEmbedIndex.hit_score hit) threshold
                      then (kNotFound, Some [], s)
                      else
                        match GetById (storage_ s) (USearchEmbedIndex.hit_id hit)
                                (Some default_node) with
                        | (VNodeStorage.kOk, Some node) =>
                            let s := with_lru s
                              (LruOrder.Touch (lru_ s) (USearchEmbedIndex.hit_id hit)) in
                            (kOk, Some (answer node), s)
                        | _ => (kNotFound, Some [], s)
                        end
                  | _ => (kNotFound, Some [], s)
                  end
            | _ => (kBadVectorSize, Some [], s)
            end
      end
  end.

Definition Del (s : VNodeIndex) (key : bytes) : Status * VNodeIndex :=
  if is_empty key then (kBadValue, s)
  else
    match GetByUserKey (storage_ s) key (Some default_node) with
    | (VNodeStorage.kOk, Some node) =>
        let s := with_lru s (LruOrder.Erase (lru_ s) (id node)).2 in
        let s := match index_ s with
                 | None => s
                 | Some ix => with_index s (dim_ s) (Some (USearchEmbedIndex.Del ix (id node)).2)
                 end in
        match DelByUserKey (storage_ s) key with
        | (VNodeStorage.kOk, st) => (kOk, with_storage s st)
        | (_, st) => (kNotFound, with_storage s st)
        end
    | _ => (kNotFound, s)
    end.

Definition Clear (s : VNodeIndex) : VNodeIndex :=
  mkVIndex (default_capacity_ s) (max_entries_ s) 0 (VNodeStorage.Clear (storage_ s))
           (LruOrder.Clear (lru_ s)) None.

(** ** Snapshot helpers *)

(** The lambda of [DumpNodes]; its captures are [st] and [fp]. *)
Definition DumpNode (a : Status * File) (_ : Z) (node : VNode) : bool * (Status * File) :=
  let '(st, fp) := a in
  match Encode node (Some []) with
  | (RespVNodeCodec.kOk, Some data) =>
      let len := u32 (size_of data) in
      let '(ok, fp) := WriteExact (le_encode 4 len) fp in
      if negb ok then (false, (kIoError, fp))
      else
        let '(ok, fp) := WriteExact (take (Z.to_nat len) data) fp in
        if negb ok then (false, (kIoError, fp)) else (true, (st, fp))
  | _ => (false, (kError, fp))
  end.

Definition DumpNodes `{!IterOrder Z} (s : VNodeIndex) (fp : ptr File) : Status * ptr File :=
  match fp with
  | None => (kBadValue, fp)
  | Some f => let '(st, f) := ForEach (storage_ s) DumpNode (kOk, f) in (st, Some f)
  end.

Fixpoint LoadNodes_loop (count : nat) (st : VNodeStorage) (fp : File)
    : Status * VNodeStorage * File :=
  match count with
  | O => (kOk, st, fp)
  | S count =>
      match ReadExact 4 fp with
      | (None, fp) => (kIoError, st, fp)
      | (Some len, fp) =>
          let len := Z.to_nat (le_decode len) in
          match (if (0 <? len)%nat then ReadExact len fp else (Some [], fp)) with
          | (None, fp) => (kIoError, st, fp)
          | (Some data, fp) =>
              match Decode data (Some default_node) with
              | (RespVNodeCodec.kOk, Some node) =>
                  match Restore st node with
                  | (VNodeStorage.kOk, st) => LoadNodes_loop count st fp
                  | (_, st) => (kError, st, fp)
                  end
              | (RespVNodeCodec.thrown, _) => (thrown, st, fp)
              | _ => (kError, st, fp)
              end
          end
      end
  end.

(** What both loaders do after the last node. *)
Definition LoadNodes_finish `{!IterOrder Z} (s : VNodeIndex) (next_id : Z) : VNodeIndex :=
  RebuildLruFromStorage
    (with_storage s (SetNextId (storage_ s) (if next_id =? 0 then 1 else next_id))).

Definition LoadNodes `{!IterOrder Z} (s : VNodeIndex) (fp : ptr File) (node_count next_id : Z)
    : Status * VNodeIndex * ptr File :=
  match fp with
  | None => (kBadValue, s, fp)
  | Some f =>
      let s := with_lru (with_storage s (VNodeStorage.Clear (storage_ s)))
                 (LruOrder.Clear (lru_ s)) in
      match LoadNodes_loop (Z.to_nat node_count) (storage_ s) f with
      | (kOk, st, f) => (kOk, LoadNodes_finish (with_storage s st) next_id, Some f)
      | (err, st, f) => (err, with_storage s st, Some f)
      end
  end.

(** The loop of [LoadNodesFrom]; [p] is the span between [p] and [end]. *)
Fixpoint LoadNodesFrom_loop (count : nat) (st : VNodeStorage) (p : bytes)
    : Status * VNodeStorage * bytes :=
  match count with
  | O => (kOk, st, p)
  | S count =>
      match span_take 4 p with
      | None => (kIoError, st, p)
      | Some (len, p) =>
          match span_take (Z.to_nat (le_decode len)) p with
          | None => (kIoError, st, p)
          | Some (data, p) =>
              match Decode data (Some default_node) with
              | (RespVNodeCodec.kOk, Some node) =>
                  match Restore st node with
                  | (VNodeStorage.kOk, st) => LoadNodesFrom_loop count st p
                  | (_, st) => (kError, st, p)
                  end
              | (RespVNodeCodec.thrown, _) => (thrown, st, p)
              | _ => (kError, st, p)
              end
          end
      end
  end.

(** [data] points to at least [n] bytes, or is null. *)
Definition LoadNodesFrom `{!IterOrder Z} (s : VNodeIndex) (data : ptr bytes) (n : nat)
    (node_count next_id : Z) : Status * VNodeIndex :=
  match data, n with
  | None, S _ => (kBadValue, s)
  | _, _ =>
      let p := take n (default [] data) in
      let s := with_lru (with_storage s (VNodeStorage.Clear (storage_ s)))
                 (LruOrder.Clear (lru_ s)) in
      match LoadNodesFrom_loop (Z.to_nat node_count) (storage_ s) p with
      | (kOk, st, p) =>
          if is_empty p then (kOk, LoadNodes_finish (with_storage s st) next_id)
          else (kIoError, with_storage s st)
      | (err, st, p) => (err, with_storage s st)
      end
  end.

Definition SaveIndex (s : VNodeIndex) (fp : ptr File) : Status * ptr File :=
  match fp, index_ s with
  | None, _ => (kBadValue, fp)
  | Some _, None => (kOk, fp)
  | Some _, Some ix =>
      if dim_ s =? 0 then (kOk, fp)
      else
        let '(st, fp) := USearchEmbedIndex.Save ix fp in
        (match st with USearchEmbedIndex.kOk => kOk | _ => kIoError end, fp)
  end.

Definition LoadIndex (s : VNodeIndex) (fp : ptr File) (dim : Z) : Status * VNodeIndex * ptr File :=
  match fp with
  | None => (kBadValue, s, fp)
  | Some _ =>
      if dim =? 0 then (kBadValue, s, fp)
      else
        let '(st, idx, fp) :=
          USearchEmbedIndex.Load (USearchEmbedIndex.construct dim (default_capacity_ s)) fp in
        match st with
        | USearchEmbedIndex.kOk =>
            if negb (USearchEmbedIndex.dimensions_ idx =? dim) then (kDimMismatch, s, fp)
            else (kOk, with_index s dim (Some idx), fp)
        | _ => (kIoError, s, fp)
        end
  end.

Definition LoadIndexMapped (fs : bytes -> option bytes) (s : VNodeIndex) (path : bytes)
    (offset dim : Z) (view : bool) : Status * VNodeIndex :=
  if is_empty path || (dim =? 0) then (kBadValue, s)
  else
    let idx := USearchEmbedIndex.construct dim (default_capacity_ s) in
    let '(st, idx) :=
      if view then USearchEmbedIndex.ViewMapped fs idx path offset
      else USearchEmbedIndex.LoadMapped fs idx path offset in
    match st with
    | USearchEmbedIndex.kOk =>
        if negb (USearchEmbedIndex.dimensions_ idx =? dim) then (kDimMismatch, s)
        else (kOk, with_index s dim (Some idx))
    | _ => (kIoError, s)
    end.

(** ** Invariant *)

(** Storage and access order are well formed and know the same ids. *)
Definition ids_match (l : LruOrder.LruOrder) (m : gmap Z VNode) : Prop :=
  forall i, i ∈ LruOrder.abs l <-> is_Some (m !! i).

Record wf (s : VNodeIndex) : Prop := {
  wf_storage : VNodeStorage.wf (storage_ s);
  wf_lru : LruOrder.inv (lru_ s);
  wf_ids : ids_match (lru_ s) (by_id_ (storage_ s))
}.

Context `{L : !UsearchLaws U}.

(** Every stored node has a vector, and the cached dimension is the index's. *)
Definition indexed (s : VNodeIndex) : Prop :=
  match index_ s with
  | None => by_id_ (storage_ s) = ∅
  | Some ix =>
      dim_ s <> 0 /\ USearchEmbedIndex.dims_ok ix /\ USearchEmbedIndex.dimensions_ ix = dim_ s /\
      forall i, is_Some (by_id_ (storage_ s) !! i) -> is_Some (USearchEmbedIndex.content ix !! i)
  end.

(** The node of a user key. *)
Definition node_of (s : VNodeIndex) (key : bytes) : option VNode := lookup_key (storage_ s) key.

(** ** Lemmas *)

Lemma elem_without i j l : j ∈ LruOrder.without i l <-> j <> i /\ j ∈ l.
Proof. unfold LruOrder.without. by rewrite list_elem_of_filter. Qed.

Lemma ids_push l m i n :
  LruOrder.inv l -> ids_match l m -> ids_match (LruOrder.Push l i) (<[i := n]> m).
Proof.
  intros Hl Hm j. rewrite LruOrder.Push_abs by done.
  rewrite elem_of_app, elem_without, list_elem_of_singleton, lookup_insert_is_Some, <- (Hm j).
  destruct (decide (i = j)); naive_solver.
Qed.

Lemma ids_erase l m i :
  LruOrder.inv l -> ids_match l m -> ids_match (LruOrder.Erase l i).2 (delete i m).
Proof.
  intros Hl Hm j. rewrite (proj2 (LruOrder.Erase_abs _ i Hl)), elem_without.
  rewrite lookup_delete_is_Some, <- (Hm j). naive_solver.
Qed.

Lemma ids_touch l m i :
  LruOrder.inv l -> ids_match l m -> ids_match (LruOrder.Touch l i) m.
Proof.
  intros Hl Hm j. rewrite LruOrder.Touch_abs by done. case_decide as Hi; [|apply Hm].
  rewrite elem_of_app, elem_without, list_elem_of_singleton, <- (Hm j).
  destruct (decide (j = i)) as [->|]; naive_solver.
Qed.

Definition valid_blob (blob : bytes) : bool := negb (is_empty blob) && (size_of blob mod 4 =? 0).

Lemma ParseFloatBlob_spec blob :
  ParseFloatBlob blob (Some []) (Some 0) =
    if valid_blob blob then (true, Some blob, Some (size_of blob / 4)) else (false, Some [], Some 0).
Proof.
  unfold ParseFloatBlob, valid_blob. destruct (is_empty blob) eqn:Hb; [done|]. cbn [negb orb andb].
  destruct (size_of blob mod 4 =? 0) eqn:Hm; [|done]. cbn [negb]. bool_facts.
  destruct (Z.eqb_spec (size_of blob / 4) 0) as [Hz|]; [|done].
  exfalso. apply Hb. destruct blob; [done|]. unfold size_of in *. simpl length in *.
  pose proof (Z.div_mod (Z.of_nat (S (length blob))) 4). lia.
Qed.

Lemma valid_blob_dim blob : valid_blob blob = true -> 0 < size_of blob / 4.
Proof.
  unfold valid_blob. intros H. bool_facts. destruct blob; [done|].
  unfold size_of in *. simpl length in *.
  pose proof (Z.div_mod (Z.of_nat (S (length blob))) 4). lia.
Qed.

(** The dimension check: an existing index keeps its dimension; a new one is
    empty and gets the blob's. *)
Lemma EnsureIndex_spec s dim :
  indexed s -> dim <> 0 ->
  let '(st, s') := EnsureIndex s dim in
  storage_ s' = storage_ s /\ lru_ s' = lru_ s /\ max_entries_ s' = max_entries_ s /\
  default_capacity_ s' = default_capacity_ s /\ indexed s' /\
  (if decide (st = kOk)
   then dim_ s' = dim /\ (dim_ s = dim \/ index_ s = None) /\ is_Some (index_ s') /\
        (is_Some (index_ s) -> s' = s)
   else s' = s /\ (st = kDimMismatch \/ st = kIndexInitFailed)).
Proof.
  intros Hix Hdim. unfold EnsureIndex, indexed in *. destruct (index_ s) as [ix|] eqn:E.
  - destruct Hix as (? & ? & ? & ?).
    destruct (Z.eqb_spec dim (dim_ s)) as [->|]; simpl; rewrite E; split_and!; eauto.
  - pose proof (USearchEmbedIndex.construct_content dim (default_capacity_ s)) as (Hc & Hd & Hn).
    set (ix := USearchEmbedIndex.construct _ _) in *.
    assert (forall i, is_Some (by_id_ (storage_ s) !! i) ->
              is_Some (USearchEmbedIndex.content ix !! i)) as Hall.
    { intros i [n Hi]. by rewrite Hix, lookup_empty in Hi. }
    destruct (USearchEmbedIndex.Search ix _ dim 1 _) as [[]?]; simpl; rewrite ?E;
      split_and!; eauto; intros [? ?]; done.
Qed.

Lemma node_of_absent s key :
  wf s -> by_user_key_ (storage_ s) !! key = None <-> node_of s key = None.
Proof. intros Hwf. apply lookup_key_absent, Hwf. Qed.

Lemma GetById_spec st i o :
  GetById st i (Some o) =
    match by_id_ st !! i with Some n => (VNodeStorage.kOk, Some n) | None => (VNodeStorage.kNotFound, Some o) end.
Proof. reflexivity. Qed.

(** The second half of [Set_]: the node is stored, its vector is added. *)
Lemma Set_index s s0 key node i st ix v dim :
  wf s -> indexed s -> index_ s = Some ix -> key = user_key node ->
  Put (storage_ s) node (Some 0) = (VNodeStorage.kOk, Some i, st) ->
  USearchEmbedIndex.Add ix i (Some v) dim = (s0.1, s0.2) ->
  let r := match s0.1 with
           | USearchEmbedIndex.kOk =>
               mkVIndex (default_capacity_ s) (max_entries_ s) (dim_ s) st
                 (LruOrder.Push (lru_ s) i) (Some s0.2)
           | _ => mkVIndex (default_capacity_ s) (max_entries_ s) (dim_ s)
                    (DelByUserKey st key).2 (LruOrder.Erase (lru_ s) i).2 (Some s0.2)
           end in
  wf r /\ indexed r /\
  (forall k, k <> key -> node_of r k = node_of s k) /\
  (s0.1 = USearchEmbedIndex.kOk ->
     node_of r key = Some (with_id node i) /\ USearchEmbedIndex.content s0.2 !! i = Some v) /\
  (s0.1 <> USearchEmbedIndex.kOk -> node_of r key = None).
Proof.
  intros Hwf Hix E -> HP Ha. destruct s0 as [ist ix']. cbn [fst snd] in *.
  pose proof (wf_Put (storage_ s) node (Some 0) (wf_storage _ Hwf)) as HwP.
  pose proof (fun k => lookup_key_Put _ _ _ _ _ k (wf_storage _ Hwf) HP) as Hlook.
  assert (by_id_ st = <[i := with_id node i]> (by_id_ (storage_ s)) /\
          by_user_key_ st !! user_key node = Some i) as [Hb Hu].
  { specialize (Hlook (user_key node)). rewrite decide_True in Hlook by done.
    rewrite HP in HwP. destruct (lookup_key_node _ _ _ (VNodeStorage.wf_maps _ HwP) Hlook) as (_ & _ & Hu).
    split; [|done]. revert HP. unfold Put. destruct (is_empty _); [done|].
    destruct (by_user_key_ (storage_ s) !! user_key node); [by intros; simplify_eq/=|].
    destruct (_ =? 0); [done|]. by intros; simplify_eq/=. }
  rewrite HP in HwP. simpl in HwP.
  unfold indexed in Hix |- *. rewrite E in Hix. destruct Hix as (Hd0 & Hdok & Hdim & Hall).
  destruct (USearchEmbedIndex.Add_content _ _ _ _ _ _ Hdok Ha) as (Hdok' & Hdim' & _ & Hc).
  destruct (decide (ist = USearchEmbedIndex.kOk)) as [->|Hne].
  - destruct Hc as [_ Hc]. simpl. split_and!; try done.
    + split; simpl; [done|apply LruOrder.inv_Push, Hwf|]. rewrite Hb. by apply ids_push; apply Hwf.
    + congruence.
    + intros j. rewrite Hb, Hc, !lookup_insert_is_Some'. naive_solver.
    + intros k Hk. unfold node_of. simpl. by rewrite Hlook, decide_False.
    + intros _. unfold node_of. simpl. rewrite Hlook, decide_True by done. by rewrite Hc, lookup_insert_eq.
  - assert (by_id_ (DelByUserKey st (user_key node)).2 = delete i (by_id_ (storage_ s))) as Hb'.
    { unfold DelByUserKey. rewrite Hu. simpl. by rewrite Hb, delete_insert_eq. }
    set (r := mkVIndex _ _ _ (DelByUserKey st (user_key node)).2 _ _).
    assert (wf r /\ (forall k, k <> user_key node -> node_of r k = node_of s k) /\
            node_of r (user_key node) = None) as (Hw & Hk1 & Hk2).
    { split; [split; simpl|split].
      - by apply wf_Del.
      - apply LruOrder.inv_Erase, Hwf.
      - rewrite Hb'. by apply ids_erase; apply Hwf.
      - intros k Hk. unfold node_of. simpl. rewrite lookup_key_Del by apply HwP.
        by rewrite decide_False, Hlook, decide_False.
      - unfold node_of. simpl. rewrite lookup_key_Del by apply HwP. by rewrite decide_True. }
    assert (forall j, is_Some (by_id_ (storage_ r) !! j) ->
              is_Some (USearchEmbedIndex.content ix' !! j)) as Hall'.
    { simpl. rewrite Hb'. intros j [Hj Hs]%lookup_delete_is_Some. specialize (Hall _ Hs).
      destruct Hc as [->| ->]; [done|]. by apply lookup_delete_is_Some. }
    assert (indexed r) as Hi by (unfold indexed; simpl; split_and!; try done; congruence).
    destruct ist; [done|..]; cbn zeta;
      (split_and!; [exact Hw|exact Hi|exact Hk1|done|intros _; exact Hk2]).
Qed.
(** What [Set_] does, on every branch. *)
Lemma Set_effect s blob key quest ans :
  wf s -> indexed s ->
  let '(st, s') := Set_ s blob key quest ans in
  wf s' /\ indexed s' /\ max_entries_ s' = max_entries_ s /\
  (forall k, k <> key -> node_of s' k = node_of s k) /\
  match st with
  | kOk =>
      valid_blob blob = true /\ key <> [] /\ (index_ s = None \/ dim_ s = size_of blob / 4) /\
      dim_ s' = size_of blob / 4 /\
      exists i ix, node_of s' key = Some (mkNode i key quest ans) /\
        LruOrder.abs (lru_ s') = LruOrder.without i (LruOrder.abs (lru_ s)) ++ [i] /\
        index_ s' = Some ix /\
        USearchEmbedIndex.content ix !! i = Some (CopyFloats blob (Z.to_nat (size_of blob / 4)))
  | kError => node_of s' key = None
  | _ => storage_ s' = storage_ s /\ lru_ s' = lru_ s
  end.
Proof.
  intros Hwf Hix. unfold Set_. destruct (is_empty key) eqn:Hk; [done|]. apply is_empty_false in Hk.
  rewrite ParseFloatBlob_spec. destruct (valid_blob blob) eqn:Hb; [|done].
  pose proof (valid_blob_dim _ Hb) as Hdim. set (dim := size_of blob / 4) in *.
  pose proof (EnsureIndex_spec s dim Hix ltac:(lia)) as HE.
  destruct (EnsureIndex s dim) as [est s1]. destruct HE as (Hst & Hl & Hm & _ & Hix1 & HE).
  assert (wf s1) as Hwf1 by (split; rewrite ?Hst, ?Hl; apply Hwf).
  assert (forall k, node_of s1 k = node_of s k) as Hn by (intros k; unfold node_of; by rewrite Hst).
  destruct est; simpl in HE; [|destruct HE as [-> [?|?]]; done..]. destruct HE as (Hd1 & Hd & [ix E] & _).
  set (node := mkNode 0 key quest ans).
  destruct (decide (next_id_ (storage_ s1) = 0 /\ by_user_key_ (storage_ s1) !! key = None))
    as [[Hz Hnone]|Hroom].
  { rewrite (Put_insert (storage_ s1) node), Hz by done. cbn.
    destruct s1; simpl in *. split_and!; try done. rewrite Hn. apply node_of_absent; [done|].
    by rewrite <- Hst. }
  destruct (Put_ok (storage_ s1) node 0 (wf_storage _ Hwf1) Hk) as (i & st & HP & _).
  { destruct (by_user_key_ (storage_ s1) !! user_key node) eqn:Hu; [right; eauto|left; naive_solver]. }
  rewrite HP. cbn [index_ with_storage]. rewrite E.
  destruct (USearchEmbedIndex.Add ix i _ dim) as [ist ix'] eqn:Ha.
  pose proof (Set_index s1 (ist, ix') key node i st ix _ dim Hwf1 Hix1 E eq_refl HP Ha)
    as (Hw & Hi & Hother & Hok & Hno). cbn [fst snd] in *.
  destruct ist; (split; [exact Hw|]); (split; [exact Hi|]); cbn in Hok, Hno |- *; split_and!; try done;
    try (intros; etrans; [by apply Hother|apply Hn]); try (by apply Hno).
  - tauto.
  - destruct (Hok eq_refl) as [Hnode Hc]. exists i, ix'. split_and!; try done.
    rewrite <- Hl. apply LruOrder.Push_abs, Hwf1.
Qed.

(** A [Set_] refused before the node is stored changes nothing. *)
Lemma Set_rejected s blob key quest ans :
  indexed s ->
  let '(st, s') := Set_ s blob key quest ans in st <> kOk -> st <> kError -> s' = s.
Proof.
  intros Hix. unfold Set_. destruct (is_empty key) eqn:Hk; [done|]. apply is_empty_false in Hk.
  rewrite ParseFloatBlob_spec. destruct (valid_blob blob) eqn:Hb; [|done].
  pose proof (valid_blob_dim _ Hb) as Hdim. set (dim := size_of blob / 4) in *.
  pose proof (EnsureIndex_spec s dim Hix ltac:(lia)) as HE.
  destruct (EnsureIndex s dim) as [est s1]. destruct HE as (_ & _ & _ & _ & _ & HE).
  destruct est; simpl in HE; try (by destruct HE as [-> [?|?]]).
  unfold Put. cbn [user_key]. rewrite (proj2 (is_empty_false _) Hk).
  destruct (by_user_key_ (storage_ s1) !! key); cbn; [|destruct (_ =? 0); [done|cbn]].
  all: destruct (index_ s1); [|done]; by destruct (USearchEmbedIndex.Add _ _ _ _) as [[] ?].
Qed.

(** The statuses [Set_] reports. *)
Lemma Set_codes s blob key quest ans :
  match (Set_ s blob key quest ans).1 with
  | kNotFound | kIoError | thrown => False
  | _ => True
  end.
Proof.
  unfold Set_, EnsureIndex. repeat (case_match; simplify_eq/=; try done).
Qed.

(** [Set_] adds at most one node, and only for a new key. *)
Lemma Set_count s blob key quest ans :
  wf s -> indexed s ->
  let s' := (Set_ s blob key quest ans).2 in
  VNodeStorage.size (storage_ s') <= VNodeStorage.size (storage_ s) \/
  (VNodeStorage.size (storage_ s') = VNodeStorage.size (storage_ s) + 1 /\ key <> [] /\
   node_of s key = None).
Proof.
  intros Hwf Hix. unfold Set_. destruct (is_empty key) eqn:Hk; [by left|].
  rewrite ParseFloatBlob_spec. destruct (valid_blob blob) eqn:Hb; [|by left].
  pose proof (valid_blob_dim _ Hb) as Hdim. set (dim := size_of blob / 4) in *.
  pose proof (EnsureIndex_spec s dim Hix ltac:(lia)) as HE.
  destruct (EnsureIndex s dim) as [est s1]. destruct HE as (Hst & _).
  apply is_empty_false in Hk.
  destruct est; try (left; cbn; rewrite Hst; lia).
  pose proof (Put_size (storage_ s1) (mkNode 0 key quest ans) 0) as HP. rewrite Hst in *.
  specialize (HP (wf_storage _ Hwf)). cbn [user_key] in HP.
  destruct (Put (storage_ s) _ _) as [[pst o] st]. cbn [snd] in HP.
  destruct pst, o; try (cbn; naive_solver lia).
  cbn [index_ with_storage]. destruct (index_ s1); [|cbn; naive_solver lia].
  destruct (USearchEmbedIndex.Add _ _ _ _) as [[] ix]; cbn; [naive_solver lia|..].
  all: pose proof (Del_size st key) as HD; destruct HP as [HP|(HP & Hn)]; [left; lia|];
    destruct (decide (VNodeStorage.size (DelByUserKey st key).2 = VNodeStorage.size (storage_ s) + 1));
    [right; naive_solver|left; lia].
Qed.

(** The victim is the oldest id's key; a well-formed index has no stale ids. *)
Lemma PeekLruUserKey_spec s o :
  wf s ->
  PeekLruUserKey s (Some o) =
    match LruOrder.abs (lru_ s) with
    | [] => (kNotFound, Some [], s)
    | i :: _ =>
        match by_id_ (storage_ s) !! i with
        | Some n => (kOk, Some (user_key n), s)
        | None => (kError, Some [], s)
        end
    end /\
  (forall i, LruOrder.abs (lru_ s) !! 0%nat = Some i -> is_Some (by_id_ (storage_ s) !! i)).
Proof.
  intros Hwf.
  assert (forall i, LruOrder.abs (lru_ s) !! 0%nat = Some i -> is_Some (by_id_ (storage_ s) !! i)) as H0.
  { intros i Hi. apply (wf_ids _ Hwf). by apply list_elem_of_lookup_2 in Hi. }
  split; [|done]. unfold PeekLruUserKey.
  change kMaxStale with (S (pred kMaxStale)). cbn [PeekLruUserKey_loop].
  unfold LruOrder.PeekLru, LruOrder.abs in *.
  destruct (LruOrder.order_ (lru_ s)) as [|[it i] rest]; [done|]. cbn [fmap list_fmap snd].
  destruct (H0 i eq_refl) as [n Hn]. rewrite GetById_spec, Hn. done.
Qed.

Lemma Del_effect s key :
  wf s -> indexed s ->
  let '(st, s') := Del s key in
  wf s' /\ indexed s' /\ max_entries_ s' = max_entries_ s /\
  match st with
  | kOk =>
      exists n, node_of s key = Some n /\ VNodeStorage.size (storage_ s') = VNodeStorage.size (storage_ s) - 1 /\
        LruOrder.abs (lru_ s') = LruOrder.without (id n) (LruOrder.abs (lru_ s)) /\
        forall k, node_of s' k = if decide (k = key) then None else node_of s k
  | kNotFound => node_of s key = None /\ s' = s
  | kBadValue => key = [] /\ s' = s
  | _ => False
  end.
Proof.
  intros Hwf Hix. pose proof (VNodeStorage.wf_maps _ (wf_storage _ Hwf)) as Hok. unfold Del.
  destruct (is_empty key) eqn:Hk; [by apply is_empty_true in Hk|].
  rewrite GetByUserKey_lookup. unfold node_of. destruct (lookup_key (storage_ s) key) as [n|] eqn:Hn; [|done].
  destruct (lookup_key_node _ _ _ Hok Hn) as (Hkey & Hb & Hu).
  assert (forall s1, storage_ s1 = storage_ s ->
    DelByUserKey (storage_ s1) key =
      (VNodeStorage.kOk, mkStorage (next_id_ (storage_ s)) (delete (id n) (by_id_ (storage_ s)))
                     (delete key (by_user_key_ (storage_ s))))) as HD.
  { intros s1 ->. unfold DelByUserKey. by rewrite Hu. }
  rewrite HD by (by destruct (index_ _)).
  pose proof (wf_Del _ key (wf_storage _ Hwf)) as HwD.
  pose proof (fun k => lookup_key_Del _ key k Hok) as Hlook.
  rewrite (HD s) in HwD, Hlook by done. cbn [snd] in HwD, Hlook.
  set (st' := mkStorage _ _ _) in *.
  set (s1 := match index_ (with_lru s _) with None => _ | Some _ => _ end).
  assert (storage_ (with_storage s1 st') = st' /\ max_entries_ s1 = max_entries_ s /\
          lru_ s1 = (LruOrder.Erase (lru_ s) (id n)).2) as (Hs & Hm & Hl)
    by (unfold s1; by destruct (index_ _)).
  split_and!; [|..|exists n; split_and!].
  - split; [by rewrite Hs|simpl; rewrite Hl; apply LruOrder.inv_Erase, Hwf|].
    simpl. rewrite Hl. apply ids_erase; apply Hwf.
  - unfold indexed, s1, with_lru in *. cbn in *. destruct (index_ s) as [ix|] eqn:E; cbn.
    + destruct Hix as (Hd0 & Hdok & Hdim & Hall).
      destruct (USearchEmbedIndex.Del ix (id n)) as [dst ix'] eqn:Hd.
      destruct (USearchEmbedIndex.Del_content _ _ _ _ Hdok Hd) as (Hdok' & Hdim' & Hc). cbn.
      split_and!; [done|done|congruence|]. intros j [Hj Hsome]%lookup_delete_is_Some.
      specialize (Hall _ Hsome). destruct dst; [destruct Hc as [_ ->]|destruct Hc as [_ ->]|by rewrite Hc..]; [|done].
      by apply lookup_delete_is_Some.
    + rewrite ?E. cbn. rewrite ?E. rewrite Hix. apply delete_empty.
  - done.
  - done.
  - unfold VNodeStorage.size. simpl. rewrite map_size_delete_Some by eauto.
    pose proof (map_size_ne_0_lookup_2 (by_id_ (storage_ s)) (id n) ltac:(eauto)). lia.
  - simpl. rewrite Hl. apply LruOrder.Erase_abs, Hwf.
  - exact Hlook.
Qed.

(** A lookup changes at most the access order. *)
Lemma Get_effect s q thr o :
  wf s -> indexed s ->
  let '(st, out, s') := Get s q thr (Some o) in
  wf s' /\ indexed s' /\ storage_ s' = storage_ s /\ index_ s' = index_ s /\ dim_ s' = dim_ s /\
  max_entries_ s' = max_entries_ s /\
  match st with
  | kOk =>
      exists ix key score n, index_ s = Some ix /\
        USearchEmbedIndex.Search ix (Some (CopyFloats q (Z.to_nat (dim_ s)))) (dim_ s) 1 (Some [])
          = (USearchEmbedIndex.kOk, Some [USearchEmbedIndex.mkHit (u16 key) score]) /\
        is_Some (USearchEmbedIndex.content ix !! key) /\ f32_gt score thr = false /\
        by_id_ (storage_ s) !! u16 key = Some n /\ out = Some (answer n) /\
        LruOrder.abs (lru_ s') = LruOrder.without (u16 key) (LruOrder.abs (lru_ s)) ++ [u16 key]
  | _ => s' = s /\ out = Some []
  end.
Proof.
  intros Hwf Hix. unfold Get. destruct (index_ s) as [ix|] eqn:E; [|done].
  destruct (Z.eqb_spec (dim_ s) 0) as [|Hd0]; [done|].
  rewrite ParseFloatBlob_spec. destruct (valid_blob q); [|done].
  destruct (Z.eqb_spec (size_of q / 4) (dim_ s)) as [->|]; [|done]. cbn [negb].
  set (v := CopyFloats q _).
  destruct (USearchEmbedIndex.Search ix (Some v) (dim_ s) 1 (Some [])) as [st hits] eqn:HS.
  destruct st; [|done..]. destruct hits as [[|hit hits]|]; [done| |done].
  destruct (f32_gt _ thr) eqn:Hthr; [done|]. rewrite GetById_spec.
  destruct (by_id_ (storage_ s) !! _) as [n|] eqn:Hn; [|done].
  destruct (USearchEmbedIndex.Search_hits _ _ _ 1 _ _ ltac:(lia) HS) as (_ & Hlen & Hm).
  destruct hits as [|h2 hits]; [|unfold size_of in Hlen; simpl in Hlen; lia].
  destruct (Hm hit ltac:(left)) as (key & Hkey & Hid).
  destruct hit as [hid score]. simpl in *. subst hid.
  pose proof (wf_lru _ Hwf) as Hlru. split_and!; try done.
  - split; simpl; [apply Hwf|by apply LruOrder.inv_Touch|]. apply ids_touch; [done|apply Hwf].
  - exists ix, key, score, n. split_and!; try done. simpl. rewrite LruOrder.Touch_abs by done.
    rewrite decide_True; [done|]. apply (wf_ids _ Hwf). eauto.
Qed.

Lemma wf_Clear s : wf (Clear s) /\ indexed (Clear s).
Proof.
  split; [|done]. split; simpl; [apply storage_wf_empty|apply LruOrder.inv_Clear|].
  intros i. simpl. rewrite lookup_empty, is_Some_alt. split; [|done]. intros H. inversion H.
Qed.

(** Loading an index leaves the nodes alone. *)
Lemma wf_LoadIndexMapped fs s path off dim view :
  wf s -> wf (LoadIndexMapped fs s path off dim view).2.
Proof.
  intros [Hs Hl Hi]. unfold LoadIndexMapped. destruct (_ || _); [by split|].
  destruct (if view then _ else _) as [[] idx]; cbn; try (by split).
  destruct (_ =? _); by split.
Qed.

Lemma wf_construct c m : wf (construct c m) /\ indexed (construct c m).
Proof.
  split; [|done]. split; simpl; [apply storage_wf_empty|apply LruOrder.inv_empty|].
  intros i. simpl. rewrite lookup_empty, is_Some_alt. split; [|done]. intros H. inversion H.
Qed.

(** ** Properties *)

(** The operations of the cache, for statements about any sequence of them. *)
Inductive op :=
| OSet (blob key quest ans : bytes)
| OGet (query : bytes) (threshold : Z)
| ODel (key : bytes)
| OPeek
| OClear.

Definition run (s : VNodeIndex) (o : op) : VNodeIndex :=
  match o with
  | OSet blob key quest ans => (Set_ s blob key quest ans).2
  | OGet q thr => (Get s q thr (Some [])).2
  | ODel key => (Del s key).2
  | OPeek => (PeekLruUserKey s (Some [])).2
  | OClear => Clear s
  end.

Lemma run_cache_inv s o : wf s /\ indexed s -> wf (run s o) /\ indexed (run s o).
Proof.
  intros [Hwf Hix]. destruct o; cbn [run].
  - pose proof (Set_effect s blob key quest ans Hwf Hix) as H.
    destruct (Set_ _ _ _ _ _). by destruct_and! H.
  - pose proof (Get_effect s query threshold [] Hwf Hix) as H.
    destruct (Get _ _ _ _) as [[]]. by destruct_and! H.
  - pose proof (Del_effect s key Hwf Hix) as H. destruct (Del _ _). by destruct_and! H.
  - pose proof (PeekLruUserKey_spec s [] Hwf) as [-> H].
    destruct (LruOrder.abs (lru_ s)) as [|i l]; [done|]. by destruct (H i eq_refl) as [n ->].
  - apply wf_Clear.
Qed.

(** The oldest node can be peeked and deleted. *)
Lemma evict_step s o i rest :
  wf s -> indexed s -> LruOrder.abs (lru_ s) = i :: rest ->
  exists n s2, PeekLruUserKey s (Some o) = (kOk, Some (user_key n), s) /\
    by_id_ (storage_ s) !! i = Some n /\ user_key n <> [] /\
    Del s (user_key n) = (kOk, s2) /\ wf s2 /\ indexed s2 /\ max_entries_ s2 = max_entries_ s /\
    LruOrder.abs (lru_ s2) = rest /\
    VNodeStorage.size (storage_ s2) = VNodeStorage.size (storage_ s) - 1 /\
    forall k, node_of s2 k = if decide (k = user_key n) then None else node_of s k.
Proof.
  intros Hwf Hix El. destruct (PeekLruUserKey_spec s o Hwf) as [HP H0]. rewrite El in HP, H0.
  destruct (H0 i eq_refl) as [n Hn]. rewrite Hn in HP.
  destruct (ok_node _ (VNodeStorage.wf_maps _ (wf_storage _ Hwf)) _ _ Hn) as (Hid & Hk & _ & Hu).
  assert (node_of s (user_key n) = Some n) as Hnode by (unfold node_of, lookup_key; by rewrite Hu).
  pose proof (Del_effect s (user_key n) Hwf Hix) as HD. destruct (Del s (user_key n)) as [st s2] eqn:HDel.
  destruct HD as (Hw & Hi & Hm & HD). destruct st; try done; try (destruct HD; congruence).
  destruct HD as (m & Hm' & Hsz & Hl & Hlook). rewrite Hnode in Hm'. injection Hm' as <-.
  exists n, s2. split_and!; try done. rewrite Hl, El, Hid.
  pose proof (LruOrder.inv_NoDup_ids _ (wf_lru _ Hwf)) as Hnd. rewrite El in Hnd.
  apply NoDup_cons in Hnd as [Hni _]. unfold LruOrder.without. rewrite filter_cons.
  rewrite decide_False by auto. by apply LruOrder.without_absent.
Qed.

Lemma lru_nil_size s :
  wf s -> LruOrder.abs (lru_ s) = [] -> VNodeStorage.size (storage_ s) = 0.
Proof.
  intros Hwf El. unfold VNodeStorage.size.
  enough (by_id_ (storage_ s) = ∅) as -> by (by rewrite map_size_empty).
  apply map_empty. intros j. destruct (by_id_ (storage_ s) !! j) eqn:Ej; [|done].
  assert (j ∈ LruOrder.abs (lru_ s)) as Hj by (apply (wf_ids _ Hwf); eauto).
  rewrite El in Hj. inversion Hj.
Qed.

Lemma NeedsRoomFor_spec s key :
  NeedsRoomFor s key = true <->
  max_entries_ s <> 0 /\ key <> [] /\ node_of s key = None /\
  max_entries_ s <= VNodeStorage.size (storage_ s).
Proof.
  unfold NeedsRoomFor. rewrite GetByUserKey_lookup. unfold node_of.
  destruct (Z.eqb_spec (max_entries_ s) 0); cbn [orb]; [naive_solver|].
  destruct (is_empty key) eqn:Hk; bool_facts; [naive_solver|].
  destruct (lookup_key _ _); [naive_solver|]. rewrite Z.leb_le. naive_solver.
Qed.

(** C11: whatever sequence of sets, lookups, deletions, victim peeks and clears
    a cache has been through, its two node tables agree, the access order
    holds exactly the stored ids, and every stored node has a vector of the
    locked dimension in the index (whatever calls of the backend failed). *)
Theorem cache_invariant (c m : Z) (ops : list op) :
  let s := fold_left run ops (construct c m) in wf s /\ indexed s.
Proof.
  cbn zeta. pose proof (wf_construct c m) as H. generalize dependent (construct c m).
  induction ops as [|o ops IH]; intros s H; [done|]. by apply IH, run_cache_inv.
Qed.

(** A [Set] that reports [kOk] had a non-empty key and a non-empty blob of
    whole floats of the locked dimension; afterwards the key has exactly the
    given question and answer under some id whose vector is the decoded blob,
    that id is the most recently used one, and every other key keeps its node.
    When it reports [kError] the key has no node afterwards (an existing one
    is lost) and every other key keeps its node; any other status leaves
    nodes and access order as they were. *)
Theorem Set_spec (s : VNodeIndex) (blob key quest ans : bytes) :
  wf s -> indexed s ->
  let '(st, s') := Set_ s blob key quest ans in
  (forall k, k <> key -> node_of s' k = node_of s k) /\
  match st with
  | kOk =>
      valid_blob blob = true /\ key <> [] /\ (index_ s = None \/ dim_ s = size_of blob / 4) /\
      dim_ s' = size_of blob / 4 /\
      exists i ix, node_of s' key = Some (mkNode i key quest ans) /\
        LruOrder.abs (lru_ s') = LruOrder.without i (LruOrder.abs (lru_ s)) ++ [i] /\
        index_ s' = Some ix /\
        USearchEmbedIndex.content ix !! i = Some (CopyFloats blob (Z.to_nat (size_of blob / 4)))
  | kError => node_of s' key = None
  | _ => storage_ s' = storage_ s /\ lru_ s' = lru_ s
  end.
Proof.
  intros Hwf Hix. pose proof (Set_effect s blob key quest ans Hwf Hix) as H.
  destruct (Set_ _ _ _ _ _) as [st s']. by destruct H as (_ & _ & _ & H).
Qed.


(** Eviction picks the least recently used node and makes room: the peeked
    key is the key of the oldest id (and peeking changes nothing; there is a
    victim exactly when there is a node), and deleting it removes that node,
    only that node, and that id from the access order. *)
Theorem evict_oldest (s : VNodeIndex) (o : bytes) :
  wf s -> indexed s ->
  match PeekLruUserKey s (Some o) with
  | (kOk, Some victim, s1) =>
      s1 = s /\
      exists i rest n, LruOrder.abs (lru_ s) = i :: rest /\
        by_id_ (storage_ s) !! i = Some n /\ user_key n = victim /\
        let '(st, s2) := Del s victim in
        st = kOk /\ LruOrder.abs (lru_ s2) = rest /\
        VNodeStorage.size (storage_ s2) = VNodeStorage.size (storage_ s) - 1 /\
        forall k, node_of s2 k = if decide (k = victim) then None else node_of s k
  | (st, _, s1) => st = kNotFound /\ s1 = s /\ VNodeStorage.size (storage_ s) = 0
  end.
Proof.
  intros Hwf Hix. destruct (LruOrder.abs (lru_ s)) as [|i rest] eqn:El.
  - pose proof (PeekLruUserKey_spec s o Hwf) as [-> _]. rewrite El. split_and!; try done.
    by apply lru_nil_size.
  - destruct (evict_step s o i rest Hwf Hix El)
      as (n & s2 & -> & Hn & Hk & HD & _ & _ & _ & Hl & Hsz & Hlook).
    split; [done|]. exists i, rest, n. rewrite HD. split_and!; done.
Qed.

End VNodeIndex.

(** ** Witnesses *)

#[local] Existing Instances flat_usearch flat_laws.

(** Two nodes with one-dimensional vectors. *)
Definition demo : VNodeIndex :=
  fold_left run [OSet (bs "AAAA") (bs "k1") (bs "q1") (bs "a1");
                 OSet (bs "BBBB") (bs "k2") (bs "q2") (bs "a2")] (construct 8 0).

Lemma demo_ok : wf demo /\ indexed demo.
Proof. do 2 apply run_cache_inv. apply wf_construct. Qed.

Lemma Set_spec_witness :
  (Set_ demo (bs "CCCC") (bs "k1") (bs "q") (bs "new")).1 = kOk /\
  node_of (Set_ demo (bs "CCCC") (bs "k1") (bs "q") (bs "new")).2 (bs "k2") = node_of demo (bs "k2").
Proof.
  pose proof (Set_spec demo (bs "CCCC") (bs "k1") (bs "q") (bs "new") (proj1 demo_ok) (proj2 demo_ok)) as Hs.
  split; [vm_compute; reflexivity|].
  destruct (Set_ demo (bs "CCCC") (bs "k1") (bs "q") (bs "new")) as [st s'].
  destruct Hs as [Hs _]. apply Hs. discriminate.
Defined.


Lemma evict_oldest_witness :
  let r := PeekLruUserKey demo (Some []) in r.1 = (kOk, Some (bs "k1")) /\ r.2 = demo.
Proof.
  cbv zeta. assert ((PeekLruUserKey demo (Some [])).1 = (kOk, Some (bs "k1"))) as Hr
    by (vm_compute; reflexivity).
  split; [exact Hr|]. pose proof (evict_oldest demo [] (proj1 demo_ok) (proj2 demo_ok)) as Hp.
  destruct (PeekLruUserKey demo (Some [])) as [[st out] s1]. cbn [fst] in Hr.
  injection Hr as -> ->. apply Hp.
Defined.
