(* ===== verification/VNodeDump.v ===== *)
(** * VNodeDump: the NODES segment of a snapshot

    The lemmas and theorems about DumpNodes, LoadNodes and LoadNodesFrom of
    src/storage/VNodeIndex.cc; the definitions are in VNodeIndex.v. *)

From S2P Require Import Prelude.
From S2P Require Import Stdio.
From S2P Require LruOrder.
From S2P Require Import VNodeStorage.
From S2P Require Import RespVNodeCodec.
From S2P Require Import Usearch.
From S2P Require Import FlatIndex.
From S2P Require Import VNodeIndex.

Section VNodeDump.
Context `{U : !Usearch} `{O : !IterOrder Z}.

(** ** The NODES segment *)

(** One record of the segment. *)
Definition record_bytes (n : VNode) : bytes :=
  le_encode 4 (size_of (node_bytes n)) ++ node_bytes n.

Definition records_bytes (l : list VNode) : bytes := mjoin (record_bytes <$> l).

(** Nodes whose record length fits [uint32_t]. *)
Definition node_fits (n : VNode) : Prop := node_ok n /\ size_of (node_bytes n) < 2 ^ 32.

Definition nodes_of (s : VNodeIndex) : list VNode := (iter_order (by_id_ (storage_ s))).*2.

Definition fits (s : VNodeIndex) : Prop := map_Forall (fun _ n => node_fits n) (by_id_ (storage_ s)).

Lemma fits_nodes s : fits s -> Forall node_fits (nodes_of s).
Proof.
  intros Hf. apply Forall_elem. intros n ([i m] & -> & Hin)%list_elem_of_fmap.
  apply iter_order_lookup in Hin. by apply Hf in Hin.
Qed.

Lemma node_len n : node_fits n -> Z.to_nat (u32 (size_of (node_bytes n))) = length (node_bytes n).
Proof. intros [_ Hs]. rewrite u32_small by auto with vemory lia. unfold size_of. lia. Qed.

Lemma DumpNode_append n i fp :
  node_fits n -> at_end fp -> DumpNode (kOk, fp) i n = (true, (kOk, appended (record_bytes n) fp)).
Proof.
  intros Hn Hend. unfold DumpNode. rewrite Encode_bytes, (WriteExact_append _ _ Hend). cbn [negb].
  rewrite (node_len _ Hn), firstn_all.
  rewrite (WriteExact_append _ _ (appended_at_end _ _ Hend)). cbn [negb].
  rewrite appended_appended. do 3 f_equal. unfold record_bytes. f_equal.
  rewrite u32_small; [done|]. split; [apply size_of_nonneg|apply Hn].
Qed.

Lemma DumpNode_loop (l : list (Z * VNode)) fp :
  Forall node_fits l.*2 -> at_end fp ->
  ForEach_loop DumpNode l (kOk, fp) = (kOk, appended (records_bytes l.*2) fp).
Proof.
  revert fp. induction l as [|[i n] l IH]; intros fp Hl Hend.
  - cbn. unfold appended. rewrite app_nil_r, Nat.add_0_r. by destruct fp.
  - rewrite fmap_cons in Hl |- *. apply Forall_cons_iff in Hl as [Hn Hl]. cbn [ForEach_loop].
    rewrite (DumpNode_append _ _ _ Hn Hend), (IH _ Hl (appended_at_end _ _ Hend)).
    by rewrite appended_appended.
Qed.

Lemma DumpNodes_append s fp :
  fits s -> at_end fp ->
  DumpNodes s (Some fp) = (kOk, Some (appended (records_bytes (nodes_of s)) fp)).
Proof.
  intros Hf Hend. unfold DumpNodes, ForEach.
  by rewrite (DumpNode_loop _ _ (fits_nodes _ Hf) Hend).
Qed.

(** Restoring nodes with distinct ids and keys, none of them in use. *)
Definition add_nodes (l : list VNode) (st : VNodeStorage) : VNodeStorage :=
  fold_left (fun st n => (Restore st n).2) l st.

Record addable (l : list VNode) (st : VNodeStorage) : Prop := {
  add_ids : NoDup (id <$> l);
  add_keys : NoDup (user_key <$> l);
  add_each : forall n, n ∈ l -> user_key n <> [] /\ id n <> 0 /\
    by_id_ st !! id n = None /\ by_user_key_ st !! user_key n = None
}.

Lemma addable_cons n l st :
  addable (n :: l) st ->
  Restore st n = (VNodeStorage.kOk, (Restore st n).2) /\ addable l (Restore st n).2 /\
  by_id_ (Restore st n).2 = <[id n := n]> (by_id_ st) /\
  by_user_key_ (Restore st n).2 = <[user_key n := id n]> (by_user_key_ st) /\
  next_id_ (Restore st n).2 = next_id_ st.
Proof.
  intros [Hi Hk He]. csimpl in Hi. csimpl in Hk.
  apply NoDup_cons in Hi as [Hi Hi'], Hk as [Hk Hk'].
  destruct (He n ltac:(left)) as (H1 & H2 & H3 & H4).
  rewrite (Restore_fresh _ _ H1 H2 H3 H4). cbn. split_and!; try done.
  split; [done|done|]. intros m Hm. destruct (He m ltac:(by right)) as (? & ? & ? & ?).
  split_and!; try done; cbn; rewrite lookup_insert_ne; try done; intros Heq.
  - apply Hi. rewrite Heq. apply list_elem_of_fmap. eauto.
  - apply Hk. rewrite Heq. apply list_elem_of_fmap. eauto.
Qed.

Lemma add_nodes_lookup l st :
  addable l st ->
  (forall i n, by_id_ (add_nodes l st) !! i = Some n <->
     (n ∈ l /\ id n = i) \/ by_id_ st !! i = Some n) /\
  (forall k i, by_user_key_ (add_nodes l st) !! k = Some i <->
     (exists n, n ∈ l /\ id n = i /\ user_key n = k) \/ by_user_key_ st !! k = Some i) /\
  next_id_ (add_nodes l st) = next_id_ st.
Proof.
  revert st. induction l as [|m l IH]; intros st Ha.
  { cbn. split_and!; [set_solver..|done]. }
  destruct (addable_cons _ _ _ Ha) as (_ & Ha' & Hb & Hu & Hnx).
  destruct (IH _ Ha') as (IHb & IHu & IHn).
  destruct (add_each _ _ Ha m ltac:(left)) as (_ & _ & Hb0 & Hu0).
  unfold add_nodes in *. cbn [fold_left]. split_and!; [| |by rewrite IHn].
  - intros i n. rewrite IHb, Hb, lookup_insert. setoid_rewrite elem_of_cons.
    case_decide; naive_solver congruence.
  - intros k i. rewrite IHu, Hu, lookup_insert. setoid_rewrite elem_of_cons.
    case_decide; naive_solver congruence.
Qed.

Lemma LoadNodesFrom_records l st rest :
  Forall node_fits l -> addable l st ->
  LoadNodesFrom_loop (length l) st (records_bytes l ++ rest) = (kOk, add_nodes l st, rest).
Proof.
  revert st. induction l as [|n l IH]; intros st Hf Ha; [done|].
  apply Forall_cons_iff in Hf as [Hn Hf].
  destruct (addable_cons _ _ _ Ha) as (HR & Ha' & _).
  change (records_bytes (n :: l)) with (record_bytes n ++ records_bytes l).
  unfold record_bytes. rewrite <- !app_assoc. cbn [length LoadNodesFrom_loop].
  rewrite span_take_app by (by rewrite length_le_encode).
  rewrite le_decode_size by apply Hn. rewrite span_take_app by done.
  rewrite Decode_bytes by apply Hn. rewrite HR. by rewrite IH.
Qed.

(** The stream loader reads what the span loader reads. *)
Lemma LoadNodes_loop_agree count st fp :
  let '(r, st', fp') := LoadNodes_loop count st fp in
  let '(r2, st2, p) := LoadNodesFrom_loop count st (unread fp) in
  r = r2 /\ st' = st2 /\ (r = kOk -> unread fp' = p).
Proof.
  revert st fp. induction count as [|count IH]; intros st fp; [done|].
  cbn [LoadNodes_loop LoadNodesFrom_loop]. rewrite ReadExact_span.
  destruct (span_take 4 (unread fp)) as [[len p1]|] eqn:E1; [|done].
  apply span_take_skipped in E1. rewrite <- E1.
  assert (forall n g, (if (0 <? n)%nat then ReadExact n g else (Some [], g)) = ReadExact n g) as ->.
  { intros [|n] g; [|done]. cbn. unfold ReadExact, fread, sub. cbn.
    destruct g as [? ? ?]. cbn. by rewrite Nat.add_0_r. }
  rewrite ReadExact_span. destruct (span_take _ (unread (skipped 4 fp))) as [[d p2]|] eqn:E2; [|done].
  apply span_take_skipped in E2. rewrite <- E2.
  destruct (Decode d _) as [[] [n|]]; try done.
  destruct (Restore st n) as [[] st']; try done. apply IH.
Qed.

Lemma addable_nodes s st :
  wf s -> by_id_ st = ∅ -> by_user_key_ st = ∅ -> addable (nodes_of s) st.
Proof.
  intros Hwf Hb Hu. pose proof (VNodeStorage.wf_maps _ (wf_storage _ Hwf)) as Hok.
  assert (forall i n, (i, n) ∈ iter_order (by_id_ (storage_ s)) -> id n = i) as Hid.
  { intros i n Hin%iter_order_lookup. by destruct (ok_node _ Hok _ _ Hin). }
  assert ((id <$> nodes_of s) = (iter_order (by_id_ (storage_ s))).*1) as Hids.
  { unfold nodes_of. rewrite <- list_fmap_compose. apply list_fmap_ext.
    intros j [i n] Hj. simpl. apply Hid. by apply list_elem_of_lookup_2 in Hj. }
  assert (NoDup (id <$> nodes_of s)) as Hnd by (rewrite Hids; apply iter_order_NoDup_fst).
  assert (forall n, n ∈ nodes_of s -> by_id_ (storage_ s) !! id n = Some n) as Hin.
  { intros n ([i m] & -> & Hin)%list_elem_of_fmap. simpl. rewrite (Hid _ _ Hin).
    by apply iter_order_lookup. }
  split; [done| |].
  - apply NoDup_fmap_2_strong; [|by eapply NoDup_fmap_1].
    intros a b Ha Hb' Heq. apply Hin in Ha, Hb'.
    destruct (ok_node _ Hok _ _ Ha) as (_ & _ & _ & H1), (ok_node _ Hok _ _ Hb') as (_ & _ & _ & H2).
    rewrite Heq in H1. congruence.
  - intros n Hn%Hin. destruct (ok_node _ Hok _ _ Hn) as (_ & Hk & Hr & _).
    rewrite Hb, Hu, !lookup_empty. split_and!; try done. lia.
Qed.

(** Restoring every node of a storage into an empty one rebuilds its tables. *)
Lemma add_nodes_of s st :
  wf s -> by_id_ st = ∅ -> by_user_key_ st = ∅ ->
  add_nodes (nodes_of s) st =
    mkStorage (next_id_ st) (by_id_ (storage_ s)) (by_user_key_ (storage_ s)).
Proof.
  intros Hwf Hb Hu. pose proof (VNodeStorage.wf_maps _ (wf_storage _ Hwf)) as Hok.
  destruct (add_nodes_lookup _ _ (addable_nodes _ _ Hwf Hb Hu)) as (H1 & H2 & H3).
  assert (forall i n, n ∈ nodes_of s /\ id n = i <-> by_id_ (storage_ s) !! i = Some n) as Hin.
  { intros i n. unfold nodes_of. rewrite list_elem_of_fmap. split.
    - intros [([j m] & -> & Hj%iter_order_lookup) Hi]. simpl in *.
      destruct (ok_node _ Hok _ _ Hj) as (Hj' & _). congruence.
    - intros Hi. split; [|by destruct (ok_node _ Hok _ _ Hi)].
      exists (i, n). split; [done|]. by apply iter_order_lookup. }
  destruct (add_nodes (nodes_of s) st) as [nx b u] eqn:E. cbn in *. f_equal; [done| |].
  - apply map_eq. intros i. apply option_eq. intros n. rewrite H1, Hb, lookup_empty.
    rewrite Hin. naive_solver.
  - apply map_eq. intros k. apply option_eq. intros i. rewrite H2, Hu, lookup_empty. split.
    + intros [(n & Hn & Hi & <-)|]; [|done].
      pose proof (proj1 (Hin i n) (conj Hn Hi)) as Hn'. by destruct (ok_node _ Hok _ _ Hn') as (_ & _ & _ & ?).
    + intros Hk. destruct (ok_key _ Hok _ _ Hk) as (n & Hn & Hkn). left. exists n.
      destruct (proj2 (Hin i n) Hn). done.
Qed.

(** Pushing distinct new ids keeps their order. *)
Lemma fold_push (l : list (Z * VNode)) lru :
  LruOrder.inv lru -> NoDup l.*1 -> (forall i, i ∈ l.*1 -> i ∉ LruOrder.abs lru) ->
  let lru' := fold_left (fun a e => LruOrder.Push a e.1) l lru in
  LruOrder.inv lru' /\ LruOrder.abs lru' = LruOrder.abs lru ++ l.*1.
Proof.
  revert lru. induction l as [|[i n] l IH]; intros lru Hinv Hnd Hfresh; cbn.
  { by rewrite app_nil_r. }
  rewrite fmap_cons in Hnd. setoid_rewrite fmap_cons in Hfresh. apply NoDup_cons in Hnd as [Hi Hnd]. cbn in *.
  assert (LruOrder.abs (LruOrder.Push lru i) = LruOrder.abs lru ++ [i]) as Hp.
  { rewrite LruOrder.Push_abs by done. rewrite LruOrder.without_absent; [done|]. apply Hfresh. left. }
  destruct (IH (LruOrder.Push lru i)) as [H1 H2]; [by apply LruOrder.inv_Push|done| |].
  - intros j Hj. rewrite Hp, elem_of_app, list_elem_of_singleton. intros [|Heq]; [|congruence].
    apply (Hfresh j); [by right|done].
  - split; [done|]. rewrite H2, Hp. by rewrite <- app_assoc.
Qed.

Lemma RebuildLru_spec s :
  let s' := RebuildLruFromStorage s in
  LruOrder.inv (lru_ s') /\ LruOrder.abs (lru_ s') = (iter_order (by_id_ (storage_ s))).*1 /\
  storage_ s' = storage_ s /\ index_ s' = index_ s /\ dim_ s' = dim_ s /\
  max_entries_ s' = max_entries_ s.
Proof.
  unfold RebuildLruFromStorage. cbn.
  rewrite (ForEach_all (storage_ s) (fun l i _ => LruOrder.Push l i)).
  destruct (fold_push (iter_order (by_id_ (storage_ s))) (LruOrder.Clear (lru_ s))) as [H1 H2].
  - apply LruOrder.inv_Clear.
  - apply iter_order_NoDup_fst.
  - intros i _ Hin. inversion Hin.
  - done.
Qed.

(** The loaded tables are well formed when the saved id counter was not zero. *)
Lemma LoadNodes_finish_spec s nx :
  let s' := LoadNodes_finish s nx in
  LruOrder.inv (lru_ s') /\ ids_match (lru_ s') (by_id_ (storage_ s')) /\
  storage_ s' = SetNextId (storage_ s) (if nx =? 0 then 1 else nx) /\ index_ s' = index_ s /\
  dim_ s' = dim_ s /\ max_entries_ s' = max_entries_ s.
Proof.
  unfold LoadNodes_finish. pose proof (RebuildLru_spec (with_storage s
    (SetNextId (storage_ s) (if nx =? 0 then 1 else nx)))) as (H1 & H2 & H3 & H4 & H5 & H6).
  cbn zeta. rewrite H3. split_and!; try done. intros i. rewrite H2, list_elem_of_fmap. split.
  - intros ([j n] & -> & Hj%iter_order_lookup). simpl in *. eauto.
  - intros [n Hn]. exists (i, n). split; [done|]. by apply iter_order_lookup.
Qed.

Lemma LoadNodesFrom_dump s s0 junk :
  wf s -> fits s ->
  let d := records_bytes (nodes_of s) in
  let s1 := with_lru (with_storage s0 (VNodeStorage.Clear (storage_ s0))) (LruOrder.Clear (lru_ s0)) in
  LoadNodesFrom s0 (Some (d ++ junk)) (length d) (VNodeStorage.size (storage_ s)) (next_id_ (storage_ s))
    = (kOk, LoadNodes_finish
              (with_storage s1 (mkStorage 1 (by_id_ (storage_ s)) (by_user_key_ (storage_ s))))
              (next_id_ (storage_ s))).
Proof.
  intros Hwf Hf d s1. unfold LoadNodesFrom. fold s1.
  change (default [] (Some (d ++ junk))) with (d ++ junk). unfold d.
  rewrite take_app_length.
  assert (Z.to_nat (VNodeStorage.size (storage_ s)) = length (nodes_of s)) as ->.
  { unfold VNodeStorage.size, nodes_of. by rewrite length_fmap, iter_order_length, Nat2Z.id. }
  rewrite <- (app_nil_r (records_bytes _)).
  rewrite LoadNodesFrom_records by (try apply fits_nodes; try apply addable_nodes; done).
  by rewrite (add_nodes_of s).
Qed.

(** Both loaders on a dump, into any cache. *)
Lemma load_dumped_nodes s s0 junk :
  wf s -> fits s -> next_id_ (storage_ s) <> 0 ->
  let n := VNodeStorage.size (storage_ s) in
  let nx := next_id_ (storage_ s) in
  let d := records_bytes (nodes_of s) in
  exists s', LoadNodesFrom s0 (Some (d ++ junk)) (length d) n nx = (kOk, s') /\
    (forall g, unread g = d ++ junk -> exists g',
       LoadNodes s0 (Some g) n nx = (kOk, s', Some g') /\ unread g' = junk) /\
    storage_ s' = storage_ s /\ wf s' /\ index_ s' = index_ s0 /\ dim_ s' = dim_ s0 /\
    max_entries_ s' = max_entries_ s0 /\ default_capacity_ s' = default_capacity_ s0.
Proof.
  intros Hwf Hf Hnx n nx d.
  pose proof (LoadNodesFrom_dump s s0 junk Hwf Hf) as Hload. cbn zeta in Hload.
  set (s1 := with_lru _ _) in Hload. set (s2 := with_storage s1 _) in Hload.
  exists (LoadNodes_finish s2 nx). split; [done|].
  destruct (LoadNodes_finish_spec s2 nx) as (Hl & Hids & Hst & Hi & Hd & Hm).
  assert (storage_ (LoadNodes_finish s2 nx) = storage_ s) as Heq.
  { rewrite Hst. subst nx. rewrite (proj2 (Z.eqb_neq _ _) Hnx). cbn. by destruct (storage_ s). }
  split_and!; try done; [|split; [rewrite Heq; apply Hwf|done|done]].
  intros g Hg. unfold LoadNodes. fold s1.
  pose proof (LoadNodes_loop_agree (Z.to_nat n) (storage_ s1) g) as Ha. rewrite Hg in Ha.
  assert (Z.to_nat n = length (nodes_of s)) as Hn.
  { subst n. unfold VNodeStorage.size, nodes_of. by rewrite length_fmap, iter_order_length, Nat2Z.id. }
  unfold d in Ha. rewrite Hn, LoadNodesFrom_records in Ha
    by (try apply fits_nodes; try apply addable_nodes; done).
  rewrite <- Hn in Ha. destruct (LoadNodes_loop _ _ g) as [[r st] g'].
  destruct Ha as (-> & -> & Hg'). exists g'. split; [|by apply Hg'].
  by rewrite (add_nodes_of s).
Qed.

Lemma LoadNodes_loop_data count st fp : f_data (LoadNodes_loop count st fp).2 = f_data fp.
Proof.
  revert st fp. induction count as [|count IH]; intros st fp; [done|]. cbn [LoadNodes_loop].
  destruct (ReadExact 4 fp) as [[len|] f1] eqn:E1; apply ReadExact_data in E1; [|done].
  rewrite <- E1. destruct (if (0 <? _)%nat then _ else _) as [[data|] f2] eqn:E2.
  - assert (f_data f2 = f_data f1) as E3.
    { destruct (0 <? _)%nat; [by apply ReadExact_data in E2|by injection E2 as _ <-]. }
    rewrite <- E3. destruct (Decode _ _) as [[] [node|]]; try done. destruct (Restore st node) as [[] st']; done.
  - destruct (0 <? _)%nat; [by apply ReadExact_data in E2|done].
Qed.

Lemma LoadNodes_data s fp n nx st s' fp' :
  LoadNodes s (Some fp) n nx = (st, s', Some fp') -> f_data fp' = f_data fp.
Proof.
  unfold LoadNodes. set (s1 := with_lru _ _).
  pose proof (LoadNodes_loop_data (Z.to_nat n) (storage_ s1) fp).
  destruct (LoadNodes_loop _ _ _) as [[[] st1] f1]; by intros [= _ _ <-].
Qed.

(** ** Properties *)

(** The NODES segment is a round trip: dumping the nodes of a cache and
    loading them into any other cache, from the mapped bytes or from the
    stream, gives [kOk], the same id and key tables, the same id counter
    (provided it was not exhausted), a well-formed cache, and the nodes in
    the access order in which the dump listed them. *)
Theorem nodes_roundtrip (s s0 : VNodeIndex) (fp : File) (junk : bytes) :
  wf s -> fits s -> next_id_ (storage_ s) <> 0 -> at_end fp ->
  let n := VNodeStorage.size (storage_ s) in
  let nx := next_id_ (storage_ s) in
  exists d s', DumpNodes s (Some fp) = (kOk, Some (appended d fp)) /\
    LoadNodesFrom s0 (Some (d ++ junk)) (length d) n nx = (kOk, s') /\
    (forall g, unread g = d ++ junk -> exists g',
       LoadNodes s0 (Some g) n nx = (kOk, s', Some g') /\ unread g' = junk) /\
    storage_ s' = storage_ s /\ wf s'.
Proof.
  intros Hwf Hf Hnx Hend n nx.
  destruct (load_dumped_nodes s s0 junk Hwf Hf Hnx) as (s' & HF & HS & Hst & Hw & _).
  exists (records_bytes (nodes_of s)), s'. split_and!; try done. by apply DumpNodes_append.
Qed.

(** The loaders restart an exhausted id counter at one.  After loading the
    nodes of a cache whose counter had reached zero, the next insertion of a
    new key takes id one even when a node owns it: the insertion reports
    [kOk], and the old owner's key now finds the new node. *)
Theorem exhausted_counter_aliases (s s0 : VNodeIndex) (fp : File) (old node : VNode) (o : Z) :
  wf s -> fits s -> next_id_ (storage_ s) = 0 -> at_end fp ->
  by_id_ (storage_ s) !! 1 = Some old ->
  user_key node <> [] -> node_of s (user_key node) = None ->
  exists d s', DumpNodes s (Some fp) = (kOk, Some (appended d fp)) /\
    LoadNodesFrom s0 (Some d) (length d) (VNodeStorage.size (storage_ s)) 0 = (kOk, s') /\
    exists st, Put (storage_ s') node (Some o) = (VNodeStorage.kOk, Some 1, st) /\
      lookup_key st (user_key node) = Some (with_id node 1) /\
      lookup_key st (user_key old) = Some (with_id node 1) /\ user_key old <> user_key node.
Proof.
  intros Hwf Hf Hnx Hend Hold Hk Hnew. exists (records_bytes (nodes_of s)).
  pose proof (LoadNodesFrom_dump s s0 [] Hwf Hf) as Hload. cbn zeta in Hload.
  rewrite app_nil_r, Hnx in Hload. eexists. split; [by apply DumpNodes_append|].
  split; [exact Hload|]. set (s2 := with_storage _ _).
  destruct (LoadNodes_finish_spec s2 0) as (_ & _ & -> & _).
  apply node_of_absent in Hnew; [|done].
  destruct (ok_node _ (VNodeStorage.wf_maps _ (wf_storage _ Hwf)) _ _ Hold) as (_ & _ & _ & Hu).
  assert (user_key old <> user_key node) as Hne by congruence.
  eexists. split; [by rewrite Put_insert|]. unfold lookup_key. cbn.
  rewrite !lookup_insert_eq, lookup_insert_ne by congruence. rewrite Hu.
  by rewrite !lookup_insert_eq.
Qed.

End VNodeDump.

(** ** Witnesses *)

#[local] Existing Instances flat_usearch.
#[local] Instance demo_order : IterOrder Z := default_order Z.

Lemma demo_fits : fits demo.
Proof. apply (bool_decide_unpack _). vm_compute. exact I. Qed.

Definition empty_file : File := mkFile [] 0 None.

Lemma nodes_roundtrip_witness :
  exists d s', DumpNodes demo (Some empty_file) = (kOk, Some (appended d empty_file)) /\
    LoadNodesFrom (construct 8 0) (Some (d ++ [NUL])) (length d) 2 3 = (kOk, s') /\
    storage_ s' = storage_ demo.
Proof.
  destruct (nodes_roundtrip demo (construct 8 0) empty_file [NUL] (proj1 demo_ok) demo_fits)
    as (d & s' & Hd & Hl & _ & Hs & _).
  - vm_compute. discriminate.
  - split; reflexivity.
  - exists d, s'. split; [exact Hd|]. split; [exact Hl|exact Hs].
Defined.

(** The demo cache as if 65535 keys had been inserted and all but two deleted. *)
Definition exhausted : VNodeIndex := with_storage demo (SetNextId (storage_ demo) 0).

Lemma exhausted_wf : wf exhausted.
Proof.
  destruct (proj1 demo_ok) as [Hs Hl Hi]. split; [|exact Hl|exact Hi].
  split; [apply maps_ok_SetNextId, Hs|vm_compute; split; [discriminate|reflexivity]|intros H; by destruct H].
Qed.

Lemma exhausted_counter_aliases_witness :
  exists d s' st, LoadNodesFrom (construct 8 0) (Some d) (length d) 2 0 = (kOk, s') /\
    Put (storage_ s') (mkNode 0 (bs "k3") [] []) (Some 0) = (VNodeStorage.kOk, Some 1, st) /\
    lookup_key st (bs "k1") = Some (mkNode 1 (bs "k3") [] []).
Proof.
  destruct (exhausted_counter_aliases exhausted (construct 8 0) empty_file
              (mkNode 1 (bs "k1") (bs "q1") (bs "a1")) (mkNode 0 (bs "k3") [] []) 0
              exhausted_wf demo_fits) as (d & s' & _ & Hl & st & Hp & _ & Ho & _).
  - reflexivity.
  - split; reflexivity.
  - vm_compute. reflexivity.
  - discriminate.
  - vm_compute. reflexivity.
  - exists d, s', st. split; [exact Hl|]. split; [exact Hp|exact Ho].
Defined.
