(* ===== verification/MutationApply.v ===== *)
(** * MutationApply: the one entry point of every write

    Models include/vemory/mutate/MutationApply.h and src/mutate/MutationApply.cc.
    Writes of clients are appended to the log and fed to the replicas; writes
    replayed from the log are only applied.  The log and the replication master
    are interfaces here; WalManager.v and ReplicationMaster.v implement them. *)

From S2P Require Import Prelude.
From S2P Require Import CommandType.
From S2P Require Import RequestContext.
From S2P Require Import RespEncode.
From S2P Require KvStore.
From S2P Require Import Stdio.
From S2P Require Import Usearch.
From S2P Require Import FlatIndex.
From S2P Require VNodeStorage.
From S2P Require VNodeIndex.

Inductive MutateSource := kClient | kAofReplay.

Record ApplyResult := mkResult { ok : bool; err : bytes; integer_reply : Z }.

(** [ApplyResult out;] *)
Definition default_result : ApplyResult := mkResult false [] 0.

(** ** Interfaces *)

(** What the mutation layer uses of [WalManager]; [AppendFrame] returns whether
    its status is [kOk]. *)
Class Wal := {
  wal_state : Type;
  wal_enabled : wal_state -> bool;
  wal_append : wal_state -> bytes -> bool * wal_state
}.

(** What it uses of [ReplicationMaster]. *)
Class Repl := {
  repl_state : Type;
  has_slaves : repl_state -> bool;
  feed_frame : repl_state -> bytes -> repl_state
}.

(** The promise of a log: the frames it has accepted, in order. *)
Class WalLaws `(W : !Wal) := {
  wal_log : wal_state -> list bytes;
  wal_append_log w f : let '(r, w') := wal_append w f in
    wal_log w' = (if r then wal_log w ++ [f] else wal_log w) /\ wal_enabled w' = wal_enabled w
}.

Section MutationApply.
Context `{U : !Usearch} `{W : !Wal} `{R : !Repl}.

(** The objects behind the four pointer parameters. *)
Record Targets := mkTargets {
  t_index : ptr VNodeIndex.VNodeIndex;
  t_kv : ptr KvStore.KvStore;
  t_wal : ptr wal_state;
  t_repl : ptr repl_state
}.

Definition with_index (t : Targets) (i : VNodeIndex.VNodeIndex) : Targets :=
  mkTargets (Some i) (t_kv t) (t_wal t) (t_repl t).
Definition with_kv (t : Targets) (k : KvStore.KvStore) : Targets :=
  mkTargets (t_index t) (Some k) (t_wal t) (t_repl t).
Definition with_wal (t : Targets) (w : wal_state) : Targets :=
  mkTargets (t_index t) (t_kv t) (Some w) (t_repl t).
Definition with_repl (t : Targets) (r : repl_state) : Targets :=
  mkTargets (t_index t) (t_kv t) (t_wal t) (Some r).

Definition fail (msg : string) : ApplyResult := mkResult false (bs msg) 0.

(** ** Operations *)

(** After the [switch]: log and feed a client's write, then report success.
    [n] is [out.integer_reply]. *)
Definition publish (ctx : RequestContext) (src : MutateSource) (t : Targets) (n : Z)
    : ApplyResult * Targets :=
  match src with
  | kClient =>
      let wal_on := match t_wal t with Some w => wal_enabled w | None => false end in
      let repl_on := match t_repl t with Some r => has_slaves r | None => false end in
      if wal_on || repl_on then
        match EncodeWriteCommand ctx (Some []) with
        | (true, Some frame) =>
            let '(appended, t) :=
              match t_wal t with
              | Some w =>
                  if wal_on then let '(st, w) := wal_append w frame in (st, with_wal t w)
                  else (true, t)
              | None => (true, t)
              end in
            if negb appended then (mkResult false (bs "aof append failed") n, t)
            else
              let t := match t_repl t with
                       | Some r => if repl_on then with_repl t (feed_frame r frame) else t
                       | None => t
                       end in
              (mkResult true [] n, t)
        | _ => (mkResult false (bs "encode write command failed") n, t)
        end
      else (mkResult true [] n, t)
  | kAofReplay => (mkResult true [] n, t)
  end.

Definition apply_set (ctx : RequestContext) (src : MutateSource) (t : Targets)
    : ApplyResult * Targets :=
  match t_kv t with
  | None => (fail "kv not available", t)
  | Some kv =>
      if is_empty (key ctx) then (fail "empty key", t)
      else
        match KvStore.Set_ kv (key ctx) (element ctx) with
        | (KvStore.kOk, kv) => publish ctx src (with_kv t kv) 0
        | (_, kv) => (fail "set failed", with_kv t kv)
        end
  end.

Definition apply_del (ctx : RequestContext) (src : MutateSource) (t : Targets)
    : ApplyResult * Targets :=
  match t_kv t with
  | None => (fail "kv not available", t)
  | Some kv =>
      if is_empty (key ctx) then (fail "empty key", t)
      else
        match KvStore.Del kv (key ctx) with
        | (KvStore.kNotFound, kv) => (mkResult true [] 0, with_kv t kv)
        | (KvStore.kOk, kv) => publish ctx src (with_kv t kv) 1
        | (_, kv) => (fail "del failed", with_kv t kv)
        end
  end.

Definition apply_vdel (ctx : RequestContext) (src : MutateSource) (t : Targets)
    : ApplyResult * Targets :=
  match t_index t with
  | None => (fail "index not available", t)
  | Some vi =>
      match VNodeIndex.Del vi (user_key ctx) with
      | (VNodeIndex.kNotFound, vi) => (mkResult true [] 0, with_index t vi)
      | (VNodeIndex.kOk, vi) => publish ctx src (with_index t vi) 1
      | (_, vi) => (fail "vdel failed", with_index t vi)
      end
  end.

Definition vdel_ctx (victim : bytes) : RequestContext :=
  mkCtx (-1) kVdel [] victim [] [] 0 [] [] [] (-1) 0.

(** The [while] loop: [apply] is the recursive call.  The result is the early
    return, if there is one, and [None] when [n] iterations are not enough. *)
Fixpoint EvictLoop (apply : RequestContext -> Targets -> option (ApplyResult * Targets))
    (n : nat) (ukey : bytes) (t : Targets) (vi : VNodeIndex.VNodeIndex)
    : option (option ApplyResult * Targets) :=
  match n with
  | O => None
  | S n =>
      if VNodeIndex.NeedsRoomFor vi ukey then
        match VNodeIndex.PeekLruUserKey vi (Some []) with
        | (VNodeIndex.kOk, Some victim, vi) =>
            let t := with_index t vi in
            if is_empty victim then Some (Some (fail "eviction failed"), t)
            else
              match apply (vdel_ctx victim) t with
              | None => None
              | Some (del_ar, t) =>
                  if negb (ok del_ar) then Some (Some del_ar, t)
                  else match t_index t with
                       | Some vi => EvictLoop apply n ukey t vi
                       | None => None
                       end
              end
        | (_, _, vi) => Some (Some (fail "eviction failed"), with_index t vi)
        end
      else Some (None, t)
  end.

(** [VNodeIndex::Set] and the [switch] on its status. *)
Definition apply_vset_set (ctx : RequestContext) (src : MutateSource) (t : Targets)
    (vi : VNodeIndex.VNodeIndex) : ApplyResult * Targets :=
  let '(st, vi) :=
    VNodeIndex.Set_ vi (vector_blob ctx) (user_key ctx) (question ctx) (answer ctx) in
  let t := with_index t vi in
  match st with
  | VNodeIndex.kOk => publish ctx src t 0
  | VNodeIndex.kBadValue => (fail "invalid VSET arguments", t)
  | VNodeIndex.kBadVectorSize => (fail "invalid vector byte size", t)
  | VNodeIndex.kDimMismatch => (fail "vector dimension mismatch", t)
  | VNodeIndex.kIndexInitFailed => (fail "usearch init failed", t)
  | _ => (fail "vset failed", t)
  end.

Definition apply_vset (apply : RequestContext -> Targets -> option (ApplyResult * Targets))
    (n : nat) (ctx : RequestContext) (src : MutateSource) (t : Targets)
    : option (ApplyResult * Targets) :=
  match t_index t with
  | None => Some (fail "index not available", t)
  | Some vi =>
      match (match src with
             | kClient => EvictLoop apply n (user_key ctx) t vi
             | kAofReplay => Some (None, t)
             end) with
      | None => None
      | Some (Some early, t) => Some (early, t)
      | Some (None, t) =>
          match t_index t with
          | Some vi => Some (apply_vset_set ctx src t vi)
          | None => None
          end
      end
  end.

(** [fuel] bounds the depth of the recursion and the number of evictions;
    [ApplyMutation_effect] shows that the number of nodes plus two is enough. *)
Fixpoint ApplyMutation (fuel : nat) (ctx : RequestContext) (src : MutateSource) (t : Targets)
    : option (ApplyResult * Targets) :=
  match fuel with
  | O => None
  | S n =>
      match cmd ctx with
      | kSet => Some (apply_set ctx src t)
      | kDel => Some (apply_del ctx src t)
      | kVset => apply_vset (fun c t => ApplyMutation n c src t) n ctx src t
      | kVdel => Some (apply_vdel ctx src t)
      | _ => Some (fail "unknown write command", t)
      end
  end.

(** ** Equal up to the access order *)

(** Lookups change the access order and are not logged; nothing else of the
    state depends on it except the choice of victims. *)
Record eqv (a b : VNodeIndex.VNodeIndex) : Prop := {
  eqv_storage : VNodeIndex.storage_ a = VNodeIndex.storage_ b;
  eqv_index : VNodeIndex.index_ a = VNodeIndex.index_ b;
  eqv_dim : VNodeIndex.dim_ a = VNodeIndex.dim_ b;
  eqv_capacity : VNodeIndex.default_capacity_ a = VNodeIndex.default_capacity_ b
}.

#[export] Instance eqv_equivalence : Equivalence eqv.
Proof.
  split; [by split|intros a b []; split; congruence|].
  intros a b c [] []; split; congruence.
Qed.

Definition eqv_targets (t u : Targets) : Prop :=
  option_Forall2 eqv (t_index t) (t_index u) /\ t_kv t = t_kv u.

#[export] Instance eqv_targets_equivalence : Equivalence eqv_targets.
Proof.
  split; [intros a; by split|intros a b []; split; [by symmetry|congruence]|].
  intros a b c [] []; split; [etrans; eauto|congruence].
Qed.

Lemma EnsureIndex_eqv a b dim :
  eqv a b ->
  (VNodeIndex.EnsureIndex a dim).1 = (VNodeIndex.EnsureIndex b dim).1 /\
  eqv (VNodeIndex.EnsureIndex a dim).2 (VNodeIndex.EnsureIndex b dim).2.
Proof.
  intros Hab. pose proof Hab as [Hs Hi Hd Hc]. unfold VNodeIndex.EnsureIndex. rewrite Hi, Hd, Hc.
  destruct (VNodeIndex.index_ b) eqn:E; [done|].
  destruct (USearchEmbedIndex.Search _ _ _ _ _) as [[] ?]; (split; [done|]); split; cbn; congruence.
Qed.

Lemma Set_eqv a b blob k q ans :
  eqv a b ->
  (VNodeIndex.Set_ a blob k q ans).1 = (VNodeIndex.Set_ b blob k q ans).1 /\
  eqv (VNodeIndex.Set_ a blob k q ans).2 (VNodeIndex.Set_ b blob k q ans).2.
Proof.
  intros Hab. unfold VNodeIndex.Set_. destruct (is_empty k); [done|].
  destruct (VNodeIndex.ParseFloatBlob _ _ _) as [[[] ?] [dim|]]; [|done..].
  pose proof (EnsureIndex_eqv a b dim Hab) as [Hst [Hs Hi Hd Hc]].
  destruct (VNodeIndex.EnsureIndex a dim) as [st a'], (VNodeIndex.EnsureIndex b dim) as [st' b'].
  cbn [fst snd] in *. subst st'. destruct st; try (by split; [done|split; cbn; congruence]).
  rewrite Hs. destruct (VNodeStorage.Put _ _ _) as [[[] [i|]] sto]; try (by split; [done|split; cbn; congruence]).
  cbn [VNodeIndex.index_ VNodeIndex.with_storage]. rewrite Hi.
  destruct (VNodeIndex.index_ b') as [ix|] eqn:E; [|by split; [done|split; cbn; congruence]].
  destruct (USearchEmbedIndex.Add _ _ _ _) as [[] ix']; (split; [done|]); split; cbn; congruence.
Qed.

Lemma Del_eqv a b k :
  eqv a b ->
  (VNodeIndex.Del a k).1 = (VNodeIndex.Del b k).1 /\
  eqv (VNodeIndex.Del a k).2 (VNodeIndex.Del b k).2.
Proof.
  intros Hab. pose proof Hab as [Hs Hi Hd Hc]. unfold VNodeIndex.Del. destruct (is_empty k); [done|]. rewrite Hs.
  destruct (VNodeStorage.GetByUserKey _ _ _) as [[] [n|]]; try done.
  cbn [VNodeIndex.index_ VNodeIndex.with_lru]. rewrite Hi.
  destruct (VNodeIndex.index_ b) eqn:E; cbn; rewrite Hs;
    destruct (VNodeStorage.DelByUserKey _ _) as [[] ?]; cbn; (split; [done|]); split; cbn; congruence.
Qed.

Lemma Get_eqv_self a q thr o : eqv a (VNodeIndex.Get a q thr o).2.
Proof. unfold VNodeIndex.Get. repeat case_match; by split. Qed.

(** ** Replaying *)

(** One replayed write and a sequence of them; [None] if one does not succeed. *)
Definition redo1 (t : Targets) (c : RequestContext) : option Targets :=
  match ApplyMutation 1 c kAofReplay t with
  | Some (r, t') => if ok r then Some t' else None
  | None => None
  end.

Fixpoint redo (cs : list RequestContext) (t : Targets) : option Targets :=
  match cs with
  | [] => Some t
  | c :: cs => match redo1 t c with Some t' => redo cs t' | None => None end
  end.

Lemma redo_app cs1 cs2 t :
  redo (cs1 ++ cs2) t = match redo cs1 t with Some t' => redo cs2 t' | None => None end.
Proof.
  revert t. induction cs1 as [|c cs1 IH]; intros t; [done|]. cbn. by destruct (redo1 t c).
Qed.

Lemma redo1_eqv t u c t' :
  eqv_targets t u -> redo1 t c = Some t' ->
  exists u', redo1 u c = Some u' /\ eqv_targets t' u'.
Proof.
  intros [Hi Hk] H. unfold redo1 in *. cbn [ApplyMutation] in *. destruct (cmd c); try done.
  - unfold apply_vset in *. destruct Hi as [vi ui Hv|]; [|done].
    unfold apply_vset_set in *.
    pose proof (Set_eqv vi ui (vector_blob c) (user_key c) (question c) (answer c) Hv) as [Hst He].
    destruct (VNodeIndex.Set_ vi _ _ _ _) as [st vi'], (VNodeIndex.Set_ ui _ _ _ _) as [st' ui'].
    cbn [fst snd] in *. subst st'. destruct st; cbn in *; simplify_eq; eauto.
    eexists. split; [done|]. split; [by constructor|done].
  - unfold apply_vdel in *. destruct Hi as [vi ui Hv|]; [|done].
    pose proof (Del_eqv vi ui (user_key c) Hv) as [Hst He].
    destruct (VNodeIndex.Del vi _) as [st vi'], (VNodeIndex.Del ui _) as [st' ui'].
    cbn [fst snd] in *. subst st'.
    destruct st; cbn in *; simplify_eq; eexists; (split; [done|]); (split; [by constructor|done]).
  - unfold apply_set in *. rewrite <- Hk. destruct (t_kv t); [|done].
    destruct (is_empty (key c)); [done|]. destruct (KvStore.Set_ _ _ _) as [[] kv']; cbn in *; simplify_eq.
    eexists. split; [done|]. by split.
  - unfold apply_del in *. rewrite <- Hk. destruct (t_kv t); [|done].
    destruct (is_empty (key c)); [done|].
    destruct (KvStore.Del _ _) as [[] kv']; cbn in *; simplify_eq;
    eexists; (split; [done|]); by split.
Qed.

Lemma redo_eqv cs t u t' :
  eqv_targets t u -> redo cs t = Some t' ->
  exists u', redo cs u = Some u' /\ eqv_targets t' u'.
Proof.
  revert t u. induction cs as [|c cs IH]; intros t u Htu H; cbn in *; [simplify_eq; eauto|].
  destruct (redo1 t c) as [t1|] eqn:E; [|done].
  destruct (redo1_eqv _ _ _ _ Htu E) as (u1 & -> & H1). eauto.
Qed.

(** ** The journal of a client's write *)

(** Two answers tell a client that its write failed where memory may have changed
    and the log does not know: every other answer leaves them in step. *)
Definition in_step (r : ApplyResult) : bool :=
  ok r || negb (beq (err r) (bs "aof append failed") || beq (err r) (bs "vset failed")).

Context `{L : !UsearchLaws U} `{WL : !WalLaws W}.

(** The stores alone, without log and replicas. *)
Definition strip (t : Targets) : Targets := mkTargets (t_index t) (t_kv t) None None.

Definition frame_of (ctx : RequestContext) : bytes :=
  match write_tokens ctx with Some toks => array_bytes toks | None => [] end.

(** The log, if it is enabled, has accepted exactly the frames [fs]. *)
Definition logged (t t' : Targets) (fs : list bytes) : Prop :=
  match t_wal t with
  | None => t_wal t' = None
  | Some w => exists w', t_wal t' = Some w' /\ wal_enabled w' = wal_enabled w /\
      wal_log w' = (if wal_enabled w then wal_log w ++ fs else wal_log w)
  end.

Definition feed1 (r : repl_state) (f : bytes) : repl_state :=
  if has_slaves r then feed_frame r f else r.

(** The replicas, as long as there are any, have been fed the frames [fs]. *)
Definition fed (t t' : Targets) (fs : list bytes) : Prop :=
  t_repl t' = (fun r => fold_left feed1 fs r) <$> t_repl t.

Definition targets_wf (t : Targets) : Prop :=
  match t_index t with
  | Some vi => VNodeIndex.wf vi /\ VNodeIndex.indexed vi /\ 0 <= VNodeIndex.max_entries_ vi
  | None => True
  end.

Record journal (t t' : Targets) (cs : list RequestContext) : Prop := {
  journal_ok : Forall write_ok cs;
  journal_redo : redo cs (strip t) = Some (strip t');
  journal_log : logged t t' (frame_of <$> cs);
  journal_fed : fed t t' (frame_of <$> cs)
}.

(** Memory has executed [c]; neither the log nor the replicas have its frame. *)
Record unlogged (t t' : Targets) (c : RequestContext) : Prop := {
  unlogged_ok : write_ok c;
  unlogged_redo : redo1 (strip t) c = Some (strip t');
  unlogged_log : logged t t' [];
  unlogged_fed : fed t t' []
}.

Lemma journal_nil t t' : strip t' = strip t -> t_wal t' = t_wal t -> t_repl t' = t_repl t -> journal t t' [].
Proof.
  intros Hs Hw Hr. split; [constructor|by rewrite Hs| |].
  - unfold logged. rewrite Hw. destruct (t_wal t) as [w|]; [|done]. exists w.
    by rewrite app_nil_r; destruct (wal_enabled w).
  - unfold fed. rewrite Hr. by destruct (t_repl t).
Qed.

Lemma logged_trans t1 t2 t3 fs1 fs2 :
  logged t1 t2 fs1 -> logged t2 t3 fs2 -> logged t1 t3 (fs1 ++ fs2).
Proof.
  unfold logged. intros H1 H2. destruct (t_wal t1) as [w1|].
  - destruct H1 as (w2 & E2 & He2 & Hg2). rewrite E2 in H2.
    destruct H2 as (w3 & E3 & He3 & Hg3). exists w3. rewrite E3, He3, Hg3, He2, Hg2.
    destruct (wal_enabled w1); split_and!; try done. by rewrite app_assoc.
  - by rewrite H1 in H2.
Qed.

Lemma journal_app t1 t2 t3 cs1 cs2 :
  journal t1 t2 cs1 -> journal t2 t3 cs2 -> journal t1 t3 (cs1 ++ cs2).
Proof.
  intros [Ho1 Hr1 Hl1 Hf1] [Ho2 Hr2 Hl2 Hf2]. split.
  - by apply Forall_app.
  - by rewrite redo_app, Hr1.
  - rewrite fmap_app. by eapply logged_trans.
  - rewrite fmap_app. unfold fed in *. rewrite Hf2, Hf1. destruct (t_repl t1); [|done]. cbn.
    by rewrite fold_left_app.
Qed.

Lemma Encode_frame ctx :
  write_ok ctx -> EncodeWriteCommand ctx (Some []) = (true, Some (frame_of ctx)).
Proof.
  intros Hok. rewrite EncodeWriteCommand_spec. unfold frame_of, write_ok, write_tokens in *.
  by destruct (cmd ctx).
Qed.

(** What [publish] leaves behind, whatever it reports. *)
Lemma publish_strip ctx src t n : strip (publish ctx src t n).2 = strip t.
Proof.
  unfold publish. destruct src; [|done]. destruct (_ || _); [|done].
  destruct (EncodeWriteCommand _ _) as [[] [f|]]; try done.
  destruct (t_wal t) as [w|]; destruct (t_repl t) as [r|] eqn:Er;
    repeat (case_match; simplify_eq/=); try done; unfold strip; by rewrite ?Er.
Qed.

Lemma publish_index ctx src t n :
  t_index (publish ctx src t n).2 = t_index t /\ t_kv (publish ctx src t n).2 = t_kv t.
Proof. pose proof (publish_strip ctx src t n) as H. by injection H as -> ->. Qed.

Lemma publish_refused ctx t n :
  write_ok ctx -> ok (publish ctx kClient t n).1 = false ->
  err (publish ctx kClient t n).1 = bs "aof append failed" /\
  logged t (publish ctx kClient t n).2 [] /\ fed t (publish ctx kClient t n).2 [].
Proof.
  intros Hw. unfold publish, logged, fed. rewrite (Encode_frame _ Hw).
  destruct t as [vi kv [w|] r]; cbn [t_wal t_repl].
  - destruct (wal_enabled w) eqn:Ew; cbn.
    + pose proof (wal_append_log w (frame_of ctx)) as HA.
      destruct (wal_append w (frame_of ctx)) as [[] w']; cbn; [by destruct (match r with Some _ => _ | None => _ end)|].
      destruct HA as [HA1 HA2]. intros _. split_and!; [done| |by destruct r].
      exists w'. by rewrite app_nil_r, HA2.
    + by destruct (match r with Some r => has_slaves r | None => false end).
  - cbn. by destruct (match r with Some r => has_slaves r | None => false end).
Qed.

Lemma publish_journal ctx t n :
  write_ok ctx -> ok (publish ctx kClient t n).1 = true ->
  logged t (publish ctx kClient t n).2 [frame_of ctx] /\
  fed t (publish ctx kClient t n).2 [frame_of ctx].
Proof.
  intros Hw. unfold publish, logged, fed, feed1. rewrite (Encode_frame _ Hw).
  destruct t as [vi kv [w|] [r|]]; cbn.
  - destruct (wal_enabled w) eqn:Ew; cbn.
    + pose proof (wal_append_log w (frame_of ctx)) as HA.
      destruct (wal_append w (frame_of ctx)) as [[] w']; cbn; [|done]. destruct HA as [HA1 HA2].
      destruct (has_slaves r) eqn:Er; cbn; rewrite ?Er; intros _; split; eauto; exists w'; by rewrite HA2.
    + destruct (has_slaves r) eqn:Er; cbn; rewrite ?Er; intros _; split; eauto.
  - destruct (wal_enabled w) eqn:Ew; cbn; [|by eauto].
    pose proof (wal_append_log w (frame_of ctx)) as HA.
    destruct (wal_append w (frame_of ctx)) as [[] w']; cbn; [|done]. destruct HA as [HA1 HA2].
    intros _; split; eauto; exists w'; by rewrite HA2.
  - destruct (has_slaves r) eqn:Er; cbn; rewrite ?Er; by eauto.
  - done.
Qed.

(** A store changed and the write was published: it is journalled, or the log
    has refused it. *)
Lemma journal_publish ctx t t1 n :
  write_ok ctx -> t_wal t1 = t_wal t -> t_repl t1 = t_repl t ->
  redo1 (strip t) ctx = Some (strip t1) ->
  if ok (publish ctx kClient t1 n).1 then journal t (publish ctx kClient t1 n).2 [ctx]
  else err (publish ctx kClient t1 n).1 = bs "aof append failed" /\ unlogged t (publish ctx kClient t1 n).2 ctx.
Proof.
  intros Hw Hwal Hrepl Hredo. destruct (ok _) eqn:Hok.
  - destruct (publish_journal _ _ _ Hw Hok) as [Hl Hf]. split; [by constructor| | |].
    + cbn [redo]. by rewrite Hredo, publish_strip.
    + unfold logged in *. by rewrite Hwal in Hl.
    + unfold fed in *. by rewrite Hrepl in Hf.
  - destruct (publish_refused _ _ _ Hw Hok) as (He & Hl & Hf). split; [done|]. split; [done| | |].
    + by rewrite publish_strip.
    + unfold logged in *. by rewrite Hwal in Hl.
    + unfold fed in *. by rewrite Hrepl in Hf.
Qed.

(** How a client's write of [ctx] can end, with the keys [vs] of the nodes it
    evicted and journalled: done; refused, and the evictions stand; refused by
    the log after memory has executed it, or has executed an eviction; or, for a
    VSET, refused by the index after the node was stored and taken out again. *)
Inductive write_outcome (ctx : RequestContext) (t : Targets) (r : ApplyResult) (t' : Targets) : Prop :=
| outcome_done vs cs :
    ok r = true -> (cs = [] \/ cs = [ctx]) -> (cmd ctx <> kVset -> vs = []) ->
    journal t t' ((vdel_ctx <$> vs) ++ cs) -> write_outcome ctx t r t'
| outcome_refused vs :
    ok r = false -> in_step r = true -> (cmd ctx <> kVset -> vs = []) ->
    journal t t' (vdel_ctx <$> vs) -> write_outcome ctx t r t'
| outcome_unlogged vs t1 c :
    ok r = false -> err r = bs "aof append failed" -> (cmd ctx <> kVset -> vs = [] /\ c = ctx) ->
    (c = ctx \/ exists v, c = vdel_ctx v) ->
    journal t t1 (vdel_ctx <$> vs) -> unlogged t1 t' c -> write_outcome ctx t r t'
| outcome_lost vs t1 vi1 vi' :
    r = fail "vset failed" -> cmd ctx = kVset -> journal t t1 (vdel_ctx <$> vs) -> t_index t1 = Some vi1 ->
    VNodeIndex.Set_ vi1 (vector_blob ctx) (user_key ctx) (question ctx) (answer ctx) = (VNodeIndex.kError, vi') ->
    t' = with_index t1 vi' ->
    VNodeIndex.node_of vi' (user_key ctx) = None ->
    (forall k, k <> user_key ctx -> VNodeIndex.node_of vi' k = VNodeIndex.node_of vi1 k) ->
    write_outcome ctx t r t'.

(** Refused, and nothing has changed. *)
Lemma outcome_same ctx t r t' :
  ok r = false -> in_step r = true -> strip t' = strip t -> t_wal t' = t_wal t -> t_repl t' = t_repl t ->
  write_outcome ctx t r t'.
Proof. intros. apply (outcome_refused _ _ _ _ []); try done. by apply journal_nil. Qed.

(** The write is published after the evictions [vs]. *)
Lemma outcome_publish ctx t t0 t1 n vs :
  write_ok ctx -> t_wal t1 = t_wal t0 -> t_repl t1 = t_repl t0 -> redo1 (strip t0) ctx = Some (strip t1) ->
  journal t t0 (vdel_ctx <$> vs) -> (cmd ctx <> kVset -> vs = []) ->
  write_outcome ctx t (publish ctx kClient t1 n).1 (publish ctx kClient t1 n).2.
Proof.
  intros Hw Hwal Hrepl Hredo HJ Hvs. pose proof (journal_publish ctx t0 t1 n Hw Hwal Hrepl Hredo) as HP.
  destruct (ok (publish ctx kClient t1 n).1) eqn:Hok.
  - apply (outcome_done _ _ _ _ vs [ctx]); [done|by right|done|]. by eapply journal_app.
  - destruct HP as [He HU]. apply (outcome_unlogged _ _ _ _ vs t0 ctx); eauto.
Qed.

Lemma journal_self t : journal t t (vdel_ctx <$> []).
Proof. by apply journal_nil. Qed.

Lemma apply_set_outcome ctx t :
  cmd ctx = kSet -> write_outcome ctx t (apply_set ctx kClient t).1 (apply_set ctx kClient t).2.
Proof.
  intros Hc. unfold apply_set. destruct (t_kv t) as [kv|] eqn:E; [|by apply outcome_same].
  destruct (is_empty (key ctx)) eqn:Hk; [by apply outcome_same|].
  destruct (KvStore.Set_ kv (key ctx) (element ctx)) as [st kv'] eqn:HS.
  assert (st = KvStore.kOk) as -> by (unfold KvStore.Set_ in HS; rewrite Hk in HS; case_match; by simplify_eq).
  apply (outcome_publish ctx t t _ 0 []); try done; [| |apply journal_self].
  - unfold write_ok. rewrite Hc. by apply is_empty_false.
  - unfold redo1. cbn. rewrite Hc. unfold apply_set. cbn. by rewrite E, Hk, HS.
Qed.

Lemma apply_del_outcome ctx t :
  cmd ctx = kDel -> write_outcome ctx t (apply_del ctx kClient t).1 (apply_del ctx kClient t).2.
Proof.
  intros Hc. unfold apply_del. destruct (t_kv t) as [kv|] eqn:E; [|by apply outcome_same].
  destruct (is_empty (key ctx)) eqn:Hk; [by apply outcome_same|].
  destruct (KvStore.Del kv (key ctx)) as [st kv'] eqn:HS. pose proof HS as HS'. unfold KvStore.Del in HS'. rewrite Hk in HS'.
  destruct (KvStore.map_ kv !! key ctx); simplify_eq.
  - apply (outcome_publish ctx t t _ 1 []); try done; [| |apply journal_self].
    + unfold write_ok. rewrite Hc. by apply is_empty_false.
    + unfold redo1. cbn. rewrite Hc. unfold apply_del. cbn. by rewrite E, Hk, HS.
  - apply (outcome_done _ _ _ _ [] []); [done|by left|done|]. apply journal_nil; try done.
    unfold strip. cbn. by rewrite E.
Qed.

Lemma apply_vdel_outcome ctx t :
  cmd ctx = kVdel -> targets_wf t -> write_outcome ctx t (apply_vdel ctx kClient t).1 (apply_vdel ctx kClient t).2.
Proof.
  intros Hc Hwf. unfold apply_vdel, targets_wf in *. destruct (t_index t) as [vi|] eqn:E; [|by apply outcome_same].
  pose proof (VNodeIndex.Del_effect vi (user_key ctx) (proj1 Hwf) (proj1 (proj2 Hwf))) as HD.
  destruct (VNodeIndex.Del vi (user_key ctx)) as [st vi'] eqn:HS.
  destruct HD as (_ & _ & _ & HD). destruct st; try done.
  - apply (outcome_publish ctx t t _ 1 []); try done; [| |apply journal_self].
    + unfold write_ok. rewrite Hc. intros Hnil. unfold VNodeIndex.Del in HS. by rewrite Hnil in HS.
    + unfold redo1. cbn. rewrite Hc. unfold apply_vdel. cbn. by rewrite E, HS.
  - apply (outcome_done _ _ _ _ [] []); [done|by left|done|]. destruct HD as [_ ->]. apply journal_nil; try done.
    unfold strip. cbn. by rewrite E.
  - destruct HD as [_ ->]. apply outcome_same; try done. unfold strip. cbn. by rewrite E.
Qed.

(** The second half of a VSET, after the evictions [vs]. *)
Lemma apply_vset_set_outcome ctx t t1 vi vs :
  cmd ctx = kVset -> t_index t1 = Some vi -> VNodeIndex.wf vi -> VNodeIndex.indexed vi ->
  journal t t1 (vdel_ctx <$> vs) ->
  write_outcome ctx t (apply_vset_set ctx kClient t1 vi).1 (apply_vset_set ctx kClient t1 vi).2.
Proof.
  intros Hc E Hw Hi HJ. unfold apply_vset_set.
  pose proof (VNodeIndex.Set_effect vi (vector_blob ctx) (user_key ctx) (question ctx) (answer ctx) Hw Hi) as HE.
  pose proof (VNodeIndex.Set_rejected vi (vector_blob ctx) (user_key ctx) (question ctx) (answer ctx) Hi) as HR.
  pose proof (VNodeIndex.Set_codes vi (vector_blob ctx) (user_key ctx) (question ctx) (answer ctx)) as HC.
  destruct (VNodeIndex.Set_ vi _ _ _ _) as [st vi'] eqn:HS. destruct HE as (_ & _ & _ & Hother & HE).
  assert (strip (with_index t1 vi) = strip t1) as Hself by (unfold strip; cbn; by rewrite E).
  assert (forall r, ok r = false -> in_step r = true -> st <> VNodeIndex.kOk -> st <> VNodeIndex.kError ->
    write_outcome ctx t r (with_index t1 vi')) as Hsame.
  { intros r H1 H2 H3 H4. rewrite (HR H3 H4). apply (outcome_refused _ _ _ _ vs); try done.
    rewrite <- (app_nil_r (vdel_ctx <$> vs)). eapply journal_app; [exact HJ|]. by apply journal_nil. }
  destruct st; try done; try by apply Hsame.
  - apply (outcome_publish ctx t t1 _ 0 vs); try done.
    + unfold write_ok. rewrite Hc. intros Hnil. unfold VNodeIndex.Set_ in HS. by rewrite Hnil in HS.
    + unfold redo1. cbn. rewrite Hc. unfold apply_vset. cbn. rewrite E. unfold apply_vset_set. by rewrite HS.
  - by apply (outcome_lost _ _ _ _ vs t1 vi vi').
Qed.

(** ** Eviction *)

Definition count (vi : VNodeIndex.VNodeIndex) : Z := VNodeStorage.size (VNodeIndex.storage_ vi).

(** How many nodes a VSET of [k] evicts: none if [k] is known or there is room,
    and otherwise as many as leave room for one. *)
Definition evictions (vi : VNodeIndex.VNodeIndex) (k : bytes) : nat :=
  if VNodeIndex.NeedsRoomFor vi k then Z.to_nat (count vi - VNodeIndex.max_entries_ vi + 1) else O.

Lemma evictions_step vi vi2 k :
  VNodeIndex.NeedsRoomFor vi k = true -> VNodeIndex.node_of vi2 k = None ->
  VNodeIndex.max_entries_ vi2 = VNodeIndex.max_entries_ vi -> count vi2 = count vi - 1 ->
  evictions vi k = S (evictions vi2 k).
Proof.
  intros HN Hnone Hm Hc. unfold evictions. rewrite HN, Hm, Hc.
  apply VNodeIndex.NeedsRoomFor_spec in HN as (H1 & H2 & _ & H4). change (VNodeStorage.size _) with (count vi) in H4.
  destruct (VNodeIndex.NeedsRoomFor vi2 k) eqn:E; [lia|].
  destruct (decide (VNodeIndex.max_entries_ vi <= count vi - 1)); [|lia].
  assert (VNodeIndex.NeedsRoomFor vi2 k = true); [|congruence]. apply VNodeIndex.NeedsRoomFor_spec.
  change (VNodeStorage.size _) with (count vi2). rewrite Hm. split_and!; try done. lia.
Qed.

(** The nodes of [vi'] are those of [vi] without the ids [old]. *)
Definition nodes_without (old : list Z) (vi vi' : VNodeIndex.VNodeIndex) : Prop :=
  forall k n, VNodeIndex.node_of vi' k = Some n <-> VNodeIndex.node_of vi k = Some n /\ VNodeStorage.id n ∉ old.

Lemma nodes_without_self vi : nodes_without [] vi vi.
Proof. intros k n. split; [intros H; split; [done|apply not_elem_of_nil]|by intros [H _]]. Qed.

Lemma nodes_without_step i nd old vi vi2 vi' :
  VNodeIndex.wf vi -> VNodeStorage.by_id_ (VNodeIndex.storage_ vi) !! i = Some nd ->
  (forall k, VNodeIndex.node_of vi2 k = if decide (k = VNodeStorage.user_key nd) then None else VNodeIndex.node_of vi k) ->
  nodes_without old vi2 vi' -> nodes_without (i :: old) vi vi'.
Proof.
  intros Hwf Hn H2 H' k n. rewrite (H' k n), (H2 k), not_elem_of_cons.
  pose proof (VNodeStorage.wf_maps _ (VNodeIndex.wf_storage _ Hwf)) as Hok.
  destruct (VNodeStorage.ok_node _ Hok _ _ Hn) as (Hid & _ & _ & Hu).
  assert (VNodeIndex.node_of vi (VNodeStorage.user_key nd) = Some nd) as Hnd
    by (unfold VNodeIndex.node_of, VNodeStorage.lookup_key; by rewrite Hu).
  case_decide as Hk.
  - subst k. rewrite Hnd. split; [by intros []|]. intros [[= <-] [Hne _]]. congruence.
  - split; [|tauto]. intros [Hkn Ho]. split_and!; try done. intros Heq. apply Hk.
    destruct (VNodeStorage.lookup_key_node _ _ _ Hok Hkn) as (Hkey & Hb & _).
    rewrite Heq, Hn in Hb. congruence.
Qed.

(** With more iterations than nodes the loop ends; it has deleted the oldest
    nodes, as many as there have to go, and journalled each deletion -- unless
    the log has refused the last one. *)
Lemma EvictLoop_spec f n t vi k :
  t_index t = Some vi -> VNodeIndex.wf vi -> VNodeIndex.indexed vi ->
  0 <= VNodeIndex.max_entries_ vi -> count vi < Z.of_nat n ->
  exists early t' vi' victims old,
    EvictLoop (fun c t => ApplyMutation (S f) c kClient t) n k t vi = Some (early, t') /\
    t_index t' = Some vi' /\ VNodeIndex.wf vi' /\ VNodeIndex.indexed vi' /\
    VNodeIndex.max_entries_ vi' = VNodeIndex.max_entries_ vi /\ count vi' = count vi - Z.of_nat (length old) /\
    LruOrder.abs (VNodeIndex.lru_ vi) = old ++ LruOrder.abs (VNodeIndex.lru_ vi') /\
    nodes_without old vi vi' /\
    (VNodeIndex.NeedsRoomFor vi k = false -> early = None /\ victims = [] /\ t' = t) /\
    match early with
    | Some r => ok r = false /\ err r = bs "aof append failed" /\ (1 <= length old <= evictions vi k)%nat /\
        exists t1 v, journal t t1 (vdel_ctx <$> victims) /\ unlogged t1 t' (vdel_ctx v)
    | None => journal t t' (vdel_ctx <$> victims) /\ VNodeIndex.NeedsRoomFor vi' k = false /\
        length old = evictions vi k
    end.
Proof.
  revert t vi. induction n as [|n IH]; intros t vi Et Hwf Hix Hmax Hn.
  { unfold count, VNodeStorage.size in *. lia. }
  cbn [EvictLoop]. destruct (VNodeIndex.NeedsRoomFor vi k) eqn:HN.
  2: { exists None, t, vi, [], []. unfold evictions. rewrite HN. cbn [length].
       split_and!; try done; [lia|apply nodes_without_self|by apply journal_nil]. }
  pose proof HN as (Hm0 & Hk & Hnone & Hfull)%VNodeIndex.NeedsRoomFor_spec.
  destruct (LruOrder.abs (VNodeIndex.lru_ vi)) as [|i rest] eqn:El.
  { pose proof (VNodeIndex.lru_nil_size _ Hwf El). lia. }
  destruct (VNodeIndex.evict_step vi [] i rest Hwf Hix El)
    as (nd & vi2 & -> & Hnd & Hnk & HD & Hw2 & Hi2 & Hm2 & Hl2 & Hsz2 & Hlook).
  rewrite (proj2 (is_empty_false _) Hnk).
  assert (VNodeIndex.node_of vi2 k = None) as Hnone2 by (rewrite Hlook; by case_decide).
  pose proof (evictions_step vi vi2 k HN Hnone2 Hm2 Hsz2) as Hev.
  set (c := vdel_ctx (VNodeStorage.user_key nd)).
  set (t0 := with_index t vi). set (t1 := with_index t0 vi2).
  assert (ApplyMutation (S f) c kClient t0 = Some (publish c kClient t1 1)) as ->
    by (cbn; unfold apply_vdel; cbn; by rewrite HD).
  destruct (publish_index c kClient t1 1) as [Ei _].
  assert (redo1 (strip t) c = Some (strip t1)) as Hredo
    by (unfold redo1; cbn; unfold apply_vdel; cbn; by rewrite Et, HD).
  pose proof (journal_publish c t t1 1 Hnk eq_refl eq_refl Hredo) as HJ.
  destruct (publish c kClient t1 1) as [r t2]. cbn [fst snd] in *.
  destruct (ok r) eqn:Hr; cbn [negb].
  - rewrite Ei. cbn [t_index t1 with_index].
    destruct (IH t2 vi2) as (early & t' & vi' & vs & old & -> & E' & Hw' & Hi' & Hm' & Hc' & Ho & Hnw & _ & He);
      [by rewrite Ei|done|done|lia|unfold count in *; lia|].
    exists early, t', vi', (VNodeStorage.user_key nd :: vs), (i :: old). split_and!; try done.
    + lia.
    + cbn [length]. unfold count in *. lia.
    + cbn [app]. by rewrite <- Ho, Hl2.
    + by apply (nodes_without_step i nd old vi vi2 vi').
    + rewrite fmap_cons, Hev. destruct early.
      * destruct He as (He1 & He2 & He3 & t3 & v & He4 & He5). cbn [length]. split_and!; try done; [lia|lia|].
        exists t3, v. split; [|done]. by apply (journal_app t t2 t3 [c]).
      * destruct He as (He1 & He2 & He3). split_and!; [|done|cbn [length]; lia].
        by apply (journal_app t t2 t' [c]).
  - exists (Some r), t2, vi2, [], [i]. destruct HJ as [Herr HU]. split_and!; try done.
    + cbn [app]. by rewrite Hl2.
    + apply (nodes_without_step i nd [] vi vi2 vi2); try done. apply nodes_without_self.
    + cbn [length]. lia.
    + exists t, (VNodeStorage.user_key nd). split; [by apply journal_nil|done].
Qed.

(** The number of nodes behind the index pointer. *)
Definition nodes (t : Targets) : nat :=
  match t_index t with Some vi => Z.to_nat (count vi) | None => O end.

Lemma count_nonneg vi : 0 <= count vi.
Proof. unfold count, VNodeStorage.size. lia. Qed.

Lemma apply_set_index ctx src t : t_index (apply_set ctx src t).2 = t_index t.
Proof.
  unfold apply_set. repeat case_match; try done. cbn. by rewrite (proj1 (publish_index _ _ _ _)).
Qed.

Lemma apply_del_index ctx src t : t_index (apply_del ctx src t).2 = t_index t.
Proof.
  unfold apply_del. repeat case_match; try done; cbn; by rewrite (proj1 (publish_index _ _ _ _)).
Qed.

(** Deleting and setting through the mutation layer keep the index well formed. *)
Lemma apply_vdel_wf ctx src t :
  targets_wf t -> targets_wf (apply_vdel ctx src t).2.
Proof.
  unfold apply_vdel, targets_wf. destruct (t_index t) as [vi|] eqn:E; [|by cbn; rewrite ?E].
  intros (Hwf & Hix & Hm). pose proof (VNodeIndex.Del_effect vi (user_key ctx) Hwf Hix) as HD.
  destruct (VNodeIndex.Del vi (user_key ctx)) as [st vi'].
  destruct HD as (Hw & Hi & Hmax & _).
  destruct st; cbn; rewrite ?(proj1 (publish_index _ _ _ _)); cbn; rewrite ?Hmax; done.
Qed.

Lemma apply_vset_set_index ctx src t vi :
  t_index (apply_vset_set ctx src t vi).2 =
    Some (VNodeIndex.Set_ vi (vector_blob ctx) (user_key ctx) (question ctx) (answer ctx)).2.
Proof.
  unfold apply_vset_set. destruct (VNodeIndex.Set_ vi _ _ _ _) as [st vi'].
  destruct st; cbn; try done. by rewrite (proj1 (publish_index _ _ _ _)).
Qed.

Lemma apply_vset_set_wf ctx src t vi :
  VNodeIndex.wf vi -> VNodeIndex.indexed vi -> 0 <= VNodeIndex.max_entries_ vi ->
  targets_wf (apply_vset_set ctx src t vi).2.
Proof.
  intros Hwf Hix Hm. unfold targets_wf. rewrite apply_vset_set_index.
  pose proof (VNodeIndex.Set_effect vi (vector_blob ctx) (user_key ctx) (question ctx) (answer ctx)
                Hwf Hix) as HS.
  destruct (VNodeIndex.Set_ vi _ _ _ _) as [st vi']. destruct HS as (? & ? & Hmax & _).
  cbn. by rewrite Hmax.
Qed.

Lemma ApplyMutation_S n ctx src t :
  ApplyMutation (S n) ctx src t =
    match cmd ctx with
    | kSet => Some (apply_set ctx src t)
    | kDel => Some (apply_del ctx src t)
    | kVset => apply_vset (fun c t => ApplyMutation n c src t) n ctx src t
    | kVdel => Some (apply_vdel ctx src t)
    | _ => Some (fail "unknown write command", t)
    end.
Proof. reflexivity. Qed.

(** A client's write, on every command. *)
Lemma ApplyMutation_outcome fuel ctx t :
  targets_wf t -> (nodes t + 2 <= fuel)%nat ->
  exists r t', ApplyMutation fuel ctx kClient t = Some (r, t') /\ targets_wf t' /\ write_outcome ctx t r t'.
Proof.
  intros Hwf Hfuel. destruct fuel as [|[|f]]; [lia|lia|]. rewrite ApplyMutation_S.
  assert (forall p, targets_wf p.2 -> write_outcome ctx t p.1 p.2 ->
    exists r t', Some p = Some (r, t') /\ targets_wf t' /\ write_outcome ctx t r t') as Hpair
    by (intros [r t'] Hw Ho; by exists r, t').
  destruct (cmd ctx) eqn:Hc; try (apply Hpair; [done|by apply outcome_same]).
  - unfold apply_vset. destruct (t_index t) as [vi|] eqn:E; [|by apply Hpair; [|apply outcome_same]].
    pose proof Hwf as Hwf0. unfold targets_wf, nodes in Hwf0, Hfuel. rewrite E in Hwf0, Hfuel.
    destruct Hwf0 as (Hw & Hi & Hm). pose proof (count_nonneg vi).
    destruct (EvictLoop_spec f (S f) t vi (user_key ctx) E Hw Hi Hm ltac:(lia))
      as (early & t1 & vi1 & vs & old & HE & E1 & Hw1 & Hi1 & Hm1 & _ & _ & _ & _ & He).
    rewrite HE. destruct early as [r|].
    { exists r, t1. split; [done|]. unfold targets_wf. rewrite E1, Hm1. split; [done|].
      destruct He as (He1 & He2 & _ & t0 & v & HJ & HU).
      apply (outcome_unlogged _ _ _ _ vs t0 (vdel_ctx v)); eauto. congruence. }
    rewrite E1. destruct He as [HJ _]. apply Hpair; [apply apply_vset_set_wf; [done..|lia]|].
    by apply (apply_vset_set_outcome ctx t t1 vi1 vs).
  - apply Hpair; [by apply apply_vdel_wf|by apply apply_vdel_outcome].
  - apply Hpair; [|by apply apply_set_outcome]. unfold targets_wf. by rewrite apply_set_index.
  - apply Hpair; [|by apply apply_del_outcome]. unfold targets_wf. by rewrite apply_del_index.
Qed.

(** Unless the answer says otherwise, memory, log and replicas stay in step. *)
Lemma ApplyMutation_effect fuel ctx t :
  targets_wf t -> (nodes t + 2 <= fuel)%nat ->
  exists r t', ApplyMutation fuel ctx kClient t = Some (r, t') /\ targets_wf t' /\
    (in_step r = true -> exists victims cs, (cs = [] \/ cs = [ctx]) /\
       (cmd ctx <> kVset -> victims = []) /\
       journal t t' ((vdel_ctx <$> victims) ++ cs)).
Proof.
  intros Hwf Hfuel. destruct (ApplyMutation_outcome fuel ctx t Hwf Hfuel) as (r & t' & HA & Hw & HO).
  exists r, t'. split_and!; [done|done|]. intros Hs. destruct HO as [vs cs H1 H2 H3 HJ|vs H1 _ H3 HJ|vs t1 c H1 H2|vs t1 vi1 vi' -> _].
  - by exists vs, cs.
  - exists vs, []. rewrite app_nil_r. split_and!; [by left|done|done].
  - exfalso. unfold in_step in Hs. rewrite H1, H2 in Hs. by vm_compute in Hs.
  - by vm_compute in Hs.
Qed.

Lemma ok_in_step r : ok r = true -> in_step r = true.
Proof. intros H. unfold in_step. by rewrite H. Qed.

(** Replaying touches nothing but the stores, and keeps them well formed. *)
Lemma redo1_frame t c t' :
  redo1 t c = Some t' -> t_wal t' = t_wal t /\ t_repl t' = t_repl t /\ (targets_wf t -> targets_wf t') /\
    (is_Some (t_index t) -> is_Some (t_index t')) /\ (is_Some (t_kv t) -> is_Some (t_kv t')).
Proof.
  unfold redo1. cbn [ApplyMutation]. intros H. destruct (cmd c); try done.
  - unfold apply_vset in H. destruct (t_index t) as [vi|] eqn:E; [|done].
    pose proof (apply_vset_set_wf c kAofReplay t vi) as Hw. pose proof (apply_vset_set_index c kAofReplay t vi) as Hi.
    unfold apply_vset_set in *. destruct (VNodeIndex.Set_ vi _ _ _ _) as [st vi']. destruct st; cbn in *; simplify_eq.
    split_and!; try done. intros Hwf. unfold targets_wf in Hwf. rewrite E in Hwf. destruct Hwf as (? & ? & ?). by apply Hw.
  - pose proof (apply_vdel_wf c kAofReplay t) as Hw. unfold apply_vdel in *.
    destruct (t_index t) as [vi|] eqn:E; [|done].
    destruct (VNodeIndex.Del vi _) as [st vi']. destruct st; cbn in *; simplify_eq; by split_and!.
  - unfold apply_set in H. destruct (t_kv t) eqn:E; [|done]. destruct (is_empty (key c)); [done|].
    destruct (KvStore.Set_ _ _ _) as [[] kv']; cbn in *; simplify_eq; by split_and!.
  - unfold apply_del in H. destruct (t_kv t) eqn:E; [|done]. destruct (is_empty (key c)); [done|].
    destruct (KvStore.Del _ _) as [[] kv']; cbn in *; simplify_eq; by split_and!.
Qed.

Lemma redo_frame cs t t' :
  redo cs t = Some t' -> t_wal t' = t_wal t /\ t_repl t' = t_repl t /\ (targets_wf t -> targets_wf t') /\
    (is_Some (t_index t) -> is_Some (t_index t')) /\ (is_Some (t_kv t) -> is_Some (t_kv t')).
Proof.
  revert t. induction cs as [|c cs IH]; intros t H; cbn [redo] in H; [by injection H as <-|].
  destruct (redo1 t c) as [t1|] eqn:E; [|done]. apply redo1_frame in E as (A1 & A2 & A3 & A4 & A5).
  apply IH in H as (B1 & B2 & B3 & B4 & B5). split_and!; [congruence|congruence|auto..].
Qed.

Lemma strip_wf t t' : strip t = strip t' -> targets_wf t -> targets_wf t'.
Proof. intros H. injection H as Hi _. unfold targets_wf. by rewrite Hi. Qed.

(** A lookup changes the access order at most. *)
Lemma get_step t vi q thr :
  t_index t = Some vi -> targets_wf t ->
  let t1 := with_index t (VNodeIndex.Get vi q thr (Some [])).2 in
  targets_wf t1 /\ eqv_targets (strip t1) (strip t).
Proof.
  intros E Hwf. unfold targets_wf in *. rewrite E in Hwf. destruct Hwf as (Hw & Hi & Hm).
  pose proof (VNodeIndex.Get_effect vi q thr [] Hw Hi) as HG.
  pose proof (Get_eqv_self vi q thr (Some [])) as Hse.
  destruct (VNodeIndex.Get vi q thr (Some [])) as [[st out] vi']. cbn in *.
  destruct HG as (? & ? & _ & _ & _ & Hmax & _). rewrite Hmax. split; [done|].
  split; cbn; [|done]. rewrite E. constructor. by symmetry.
Qed.

(** Storing a node behind the eviction loop. *)
Lemma vset_stored ctx src t vi :
  VNodeIndex.wf vi -> VNodeIndex.indexed vi ->
  let vi' := (VNodeIndex.Set_ vi (vector_blob ctx) (user_key ctx) (question ctx) (answer ctx)).2 in
  (forall k, k <> user_key ctx -> VNodeIndex.node_of vi' k = VNodeIndex.node_of vi k) /\
  (ok (apply_vset_set ctx src t vi).1 = true -> exists i,
     VNodeIndex.node_of vi' (user_key ctx) = Some (VNodeStorage.mkNode i (user_key ctx) (question ctx) (answer ctx)) /\
     LruOrder.abs (VNodeIndex.lru_ vi') = LruOrder.without i (LruOrder.abs (VNodeIndex.lru_ vi)) ++ [i]).
Proof.
  intros Hw Hi. unfold apply_vset_set.
  pose proof (VNodeIndex.Set_effect vi (vector_blob ctx) (user_key ctx) (question ctx) (answer ctx) Hw Hi) as HS.
  destruct (VNodeIndex.Set_ vi _ _ _ _) as [st vi']. destruct HS as (_ & _ & _ & Ho & HS). cbn [snd]. split; [done|].
  intros Hok. destruct st; try done. destruct HS as (_ & _ & _ & _ & i & ix & Hn & Hl & _). by exists i.
Qed.

(** When the key is known or there is room, the limit is kept. *)
Lemma vset_set_count vi blob k q a :
  VNodeIndex.wf vi -> VNodeIndex.indexed vi -> VNodeIndex.NeedsRoomFor vi k = false ->
  VNodeIndex.max_entries_ vi <> 0 -> count vi <= VNodeIndex.max_entries_ vi ->
  count (VNodeIndex.Set_ vi blob k q a).2 <= VNodeIndex.max_entries_ vi.
Proof.
  intros Hw Hi Hroom Hm0 Hcap.
  pose proof (VNodeIndex.Set_count vi blob k q a Hw Hi) as HC. unfold count in *.
  destruct HC as [HC|(HC & Hk & Hnone)]; [lia|].
  destruct (decide (VNodeIndex.max_entries_ vi <= VNodeStorage.size (VNodeIndex.storage_ vi))); [|lia].
  assert (VNodeIndex.NeedsRoomFor vi k = true); [|congruence]. by apply VNodeIndex.NeedsRoomFor_spec.
Qed.

(** ** Properties *)

(** C8: what a client's write leaves behind, on every command.  It always returns
    (with as much fuel as there are nodes, plus two), and one of four things has
    happened ([write_outcome]).  Reported as done: there is a sequence of writes
    -- the evictions it made, oldest first, then the write itself, or nothing for
    a deletion that missed -- such that the log (if enabled) has grown by exactly
    their frames, the replicas (while there are any) have been fed exactly their
    frames, and replaying them on the stores as they were gives exactly the stores
    as they are.  Refused with any error but two: the same holds of the evictions
    alone, so memory, log and replicas still agree.  Refused with "aof append
    failed": memory has also executed one write more (the write itself, or an
    eviction), which neither the log nor the replicas have.  Refused with "vset
    failed": the evictions are journalled, the key has no node any more, every
    other key has the node it had after the evictions, and neither log nor
    replicas know. *)
Theorem write_journal (fuel : nat) (ctx : RequestContext) (t : Targets) :
  targets_wf t -> (nodes t + 2 <= fuel)%nat ->
  exists r t', ApplyMutation fuel ctx kClient t = Some (r, t') /\ write_outcome ctx t r t' /\
    (ok r = true ->
     exists victims cs, (cs = [] \/ cs = [ctx]) /\ (cmd ctx <> kVset -> victims = []) /\
       redo ((vdel_ctx <$> victims) ++ cs) (strip t) = Some (strip t') /\
       logged t t' (frame_of <$> ((vdel_ctx <$> victims) ++ cs)) /\
       fed t t' (frame_of <$> ((vdel_ctx <$> victims) ++ cs))).
Proof.
  intros Hwf Hfuel. destruct (ApplyMutation_outcome fuel ctx t Hwf Hfuel) as (r & t' & HA & _ & HO).
  exists r, t'. split_and!; [done|done|]. intros Hok.
  destruct (ApplyMutation_effect fuel ctx t Hwf Hfuel) as (r2 & t2 & HA2 & _ & HJ). rewrite HA in HA2. simplify_eq.
  destruct (HJ (ok_in_step _ Hok)) as (vs & cs & Hcs & Hvs & [_ Hr Hl Hf]). by exists vs, cs.
Qed.

(** C22: which nodes a client's VSET evicts, and how many.  The nodes that go are
    exactly the least recently used ones ([old], the front of the access order);
    every other key keeps its node.  None goes when the key is known or there is
    room, and otherwise exactly as many as leave room for one more (one, if the
    limit was kept so far) -- fewer only if the log refuses a deletion, which ends
    the write.  A VSET that succeeds then has its key's node at the most recently
    used end, behind the rest of the access order as it was.  So the limit holds:
    if the cache was within it, it is within it afterwards, whether the write
    succeeds or fails. *)
Theorem vset_capacity (fuel : nat) (ctx : RequestContext) (t : Targets) (vi : VNodeIndex.VNodeIndex) :
  targets_wf t -> (nodes t + 2 <= fuel)%nat -> cmd ctx = kVset -> t_index t = Some vi ->
  exists r t' vi' old kept, ApplyMutation fuel ctx kClient t = Some (r, t') /\ t_index t' = Some vi' /\
    LruOrder.abs (VNodeIndex.lru_ vi) = old ++ kept /\
    (forall k n, k <> user_key ctx ->
       VNodeIndex.node_of vi' k = Some n <-> VNodeIndex.node_of vi k = Some n /\ VNodeStorage.id n ∉ old) /\
    (length old = evictions vi (user_key ctx) \/
     err r = bs "aof append failed" /\ (1 <= length old <= evictions vi (user_key ctx))%nat) /\
    (ok r = true -> exists i,
       VNodeIndex.node_of vi' (user_key ctx) = Some (VNodeStorage.mkNode i (user_key ctx) (question ctx) (answer ctx)) /\
       LruOrder.abs (VNodeIndex.lru_ vi') = LruOrder.without i kept ++ [i]) /\
    (VNodeIndex.max_entries_ vi <> 0 -> count vi <= VNodeIndex.max_entries_ vi ->
     count vi' <= VNodeIndex.max_entries_ vi).
Proof.
  intros Hwf Hfuel Hc E. unfold targets_wf, nodes in *. rewrite E in Hwf, Hfuel.
  destruct Hwf as (Hw & Hi & Hm). pose proof (count_nonneg vi).
  destruct fuel as [|[|f]]; [lia|lia|]. rewrite ApplyMutation_S. rewrite Hc. unfold apply_vset. rewrite E.
  destruct (EvictLoop_spec f (S f) t vi (user_key ctx) E Hw Hi Hm ltac:(lia))
    as (early & t1 & vi1 & vs & old & HE & E1 & Hw1 & Hi1 & Hm1 & Hc1 & Ho & Hnw & _ & He).
  rewrite HE. destruct early as [r|].
  { destruct He as (He1 & He2 & He3 & _). exists r, t1, vi1, old, (LruOrder.abs (VNodeIndex.lru_ vi1)).
    split; [done|]. split; [done|]. split; [done|]. split; [intros k n _; apply Hnw|]. split; [by right|].
    split; [congruence|lia]. }
  rewrite E1. destruct He as (_ & Hroom & Hlen).
  exists (apply_vset_set ctx kClient t1 vi1).1, (apply_vset_set ctx kClient t1 vi1).2, (VNodeIndex.Set_ vi1 (vector_blob ctx) (user_key ctx) (question ctx) (answer ctx)).2, old, (LruOrder.abs (VNodeIndex.lru_ vi1)).
  split; [by destruct (apply_vset_set _ _ _ _)|]. split; [apply apply_vset_set_index|]. split; [done|].
  destruct (vset_stored ctx kClient t1 vi1 Hw1 Hi1) as (Hother & Hdone).
  split; [intros k n Hk; rewrite Hother by done; apply Hnw|]. split; [by left|]. split; [exact Hdone|].
  intros Hm0 Hcap. rewrite <- Hm1. apply vset_set_count; [done|done|done|by rewrite Hm1|lia].
Qed.

(** C32: a VSET whose index update fails is not clean: when the key already had
    a node (so nothing is evicted), the client is told that the write failed,
    neither the log nor the replicas receive anything, but the old node of the
    key is gone from memory; the log still rebuilds it. *)
Theorem failed_vset_unlogged (fuel : nat) (ctx : RequestContext) (t : Targets)
    (vi vi' : VNodeIndex.VNodeIndex) (n : VNodeStorage.VNode) :
  targets_wf t -> (nodes t + 2 <= fuel)%nat -> cmd ctx = kVset -> t_index t = Some vi ->
  VNodeIndex.node_of vi (user_key ctx) = Some n ->
  VNodeIndex.Set_ vi (vector_blob ctx) (user_key ctx) (question ctx) (answer ctx)
    = (VNodeIndex.kError, vi') ->
  ApplyMutation fuel ctx kClient t = Some (fail "vset failed", with_index t vi') /\
  VNodeIndex.node_of vi' (user_key ctx) = None /\
  (forall k, k <> user_key ctx -> VNodeIndex.node_of vi' k = VNodeIndex.node_of vi k).
Proof.
  intros Hwf Hfuel Hc E Hn HS. unfold targets_wf, nodes in *. rewrite E in Hwf, Hfuel.
  destruct Hwf as (Hw & Hi & Hm). pose proof (count_nonneg vi).
  pose proof (VNodeIndex.Set_effect vi (vector_blob ctx) (user_key ctx) (question ctx) (answer ctx)
                Hw Hi) as HE. rewrite HS in HE. destruct HE as (_ & _ & _ & Hother & Hnone).
  split_and!; try done. destruct fuel as [|[|f]]; [lia|lia|].
  rewrite ApplyMutation_S, Hc. unfold apply_vset. rewrite E.
  destruct (EvictLoop_spec f (S f) t vi (user_key ctx) E Hw Hi Hm ltac:(lia))
    as (early & t1 & vi1 & vs & old & -> & E1 & _ & _ & _ & _ & _ & _ & Hnr & _).
  destruct Hnr as (-> & _ & ->).
  { apply not_true_iff_false. intros (_ & _ & ? & _)%VNodeIndex.NeedsRoomFor_spec. congruence. }
  rewrite E. unfold apply_vset_set. by rewrite HS.
Qed.

End MutationApply.

(** ** Witnesses *)

#[local] Existing Instances flat_usearch flat_laws.

(** A log and replicas that keep what they are given. *)
Definition list_wal : Wal :=
  {| wal_state := list bytes; wal_enabled _ := true; wal_append w f := (true, w ++ [f]) |}.

Definition list_repl : Repl :=
  {| repl_state := list bytes; has_slaves _ := true; feed_frame r f := r ++ [f] |}.

#[local] Existing Instances list_wal list_repl.

#[local] Instance list_wal_laws : WalLaws list_wal.
Proof. refine {| wal_log := (fun w => w) : @wal_state list_wal -> list bytes |}. by intros w f. Defined.

(** A cache of at most two nodes, which is full. *)
Definition full : VNodeIndex.VNodeIndex :=
  fold_left VNodeIndex.run
    [VNodeIndex.OSet (bs "AAAA") (bs "k1") (bs "q1") (bs "a1");
     VNodeIndex.OSet (bs "BBBB") (bs "k2") (bs "q2") (bs "a2")] (VNodeIndex.construct 8 2).

Lemma full_ok : VNodeIndex.wf full /\ VNodeIndex.indexed full.
Proof. do 2 apply VNodeIndex.run_cache_inv. apply VNodeIndex.wf_construct. Qed.

Definition demo_targets : Targets := mkTargets (Some full) (Some KvStore.empty) (Some []) (Some []).

Lemma demo_targets_wf : targets_wf demo_targets.
Proof.
  split_and!; [apply full_ok|apply full_ok|]. vm_compute. discriminate.
Qed.

Definition demo_vset (k : string) : RequestContext :=
  mkCtx 7 kVset (bs "CCCC") (bs k) (bs "q3") (bs "a3") 0 [] [] [] (-1) 0.

(** Setting a third key evicts the oldest one: two frames are logged. *)
Lemma write_journal_witness :
  exists r t', ApplyMutation 4 (demo_vset "k3") kClient demo_targets = Some (r, t') /\
    ok r = true /\ t_wal t' = Some [frame_of (vdel_ctx (bs "k1")); frame_of (demo_vset "k3")].
Proof.
  destruct (write_journal 4 (demo_vset "k3") demo_targets demo_targets_wf) as (r & t' & HA & _ & _).
  { vm_compute. lia. }
  exists r, t'. split; [exact HA|].
  assert (option_map (fun p => (ok p.1, t_wal p.2)) (ApplyMutation 4 (demo_vset "k3") kClient demo_targets)
    = Some (true, Some [frame_of (vdel_ctx (bs "k1")); frame_of (demo_vset "k3")])) as Hv
    by (vm_compute; reflexivity).
  rewrite HA in Hv. injection Hv as Ho Hl. split; [exact Ho|exact Hl].
Defined.

(** The oldest of the two nodes goes. *)
Lemma vset_capacity_witness :
  exists r t' vi' old, ApplyMutation 4 (demo_vset "k3") kClient demo_targets = Some (r, t') /\
    t_index t' = Some vi' /\ count vi' <= 2 /\ old = [1].
Proof.
  destruct (vset_capacity 4 (demo_vset "k3") demo_targets full demo_targets_wf)
    as (r & t' & vi' & old & kept & HA & Hi & Ho & _ & Hl & _ & Hc).
  - vm_compute. lia.
  - reflexivity.
  - reflexivity.
  - exists r, t', vi', old. split; [exact HA|]. split; [exact Hi|]. split.
    + apply Hc; vm_compute; discriminate.
    + assert (ok r = true) as Hok.
      { assert (option_map (fun p => ok p.1) (ApplyMutation 4 (demo_vset "k3") kClient demo_targets) = Some true) as Hv
          by (vm_compute; reflexivity).
        rewrite HA in Hv. by injection Hv. }
      assert (evictions full (bs "k3") = 1%nat) as Hev by (vm_compute; reflexivity).
      assert (LruOrder.abs (VNodeIndex.lru_ full) = [1; 2]) as Hf by (vm_compute; reflexivity).
      change (user_key (demo_vset "k3")) with (bs "k3") in Hl. rewrite Hev in Hl.
      assert (length old = 1%nat) as Hlen by (destruct Hl as [Hl|[_ Hl]]; lia).
      rewrite Hf in Ho. destruct old as [|i [|j old]]; try discriminate. by injection Ho as <- _.
Defined.

(** The index of a replica: a read-only view of a mapped snapshot. *)
Definition viewed : VNodeIndex.VNodeIndex :=
  (VNodeIndex.LoadIndexMapped
     (fun _ => f_data <$> (VNodeIndex.SaveIndex full (Some (mkFile [] 0 None))).2)
     full (bs "dump.rdb") 0 1 true).2.

Lemma indexed_check s :
  match VNodeIndex.index_ s with
  | None => false
  | Some ix =>
      negb (VNodeIndex.dim_ s =? 0) &&
      match USearchEmbedIndex.impl_ ix with
      | Some x => index_dimensions x =? USearchEmbedIndex.dimensions_ ix
      | None => true
      end && (USearchEmbedIndex.dimensions_ ix =? VNodeIndex.dim_ s) &&
      bool_decide (map_Forall (fun i _ => is_Some (USearchEmbedIndex.content ix !! i))
                     (VNodeStorage.by_id_ (VNodeIndex.storage_ s)))
  end = true -> VNodeIndex.indexed s.
Proof.
  unfold VNodeIndex.indexed, USearchEmbedIndex.dims_ok.
  destruct (VNodeIndex.index_ s) as [ix|]; [|done]. intros H.
  apply andb_true_iff in H as [H Hm%bool_decide_eq_true]. bool_facts.
  split_and!; try done.
  - destruct (USearchEmbedIndex.impl_ ix); [by apply Z.eqb_eq|done].
  - intros i [n Hn]. by apply (Hm i n).
Qed.

Lemma viewed_ok : VNodeIndex.wf viewed /\ VNodeIndex.indexed viewed.
Proof.
  split.
  - apply VNodeIndex.wf_LoadIndexMapped, full_ok.
  - apply indexed_check. vm_compute. reflexivity.
Qed.

Definition viewed_targets : Targets := mkTargets (Some viewed) (Some KvStore.empty) (Some []) (Some []).

Lemma failed_vset_unlogged_witness :
  exists vi', ApplyMutation 4 (demo_vset "k1") kClient viewed_targets =
      Some (fail "vset failed", with_index viewed_targets vi') /\
    VNodeIndex.node_of vi' (bs "k1") = None.
Proof.
  destruct (VNodeIndex.Set_ viewed (bs "CCCC") (bs "k1") (bs "q3") (bs "a3")) as [st vi'] eqn:HS.
  assert ((VNodeIndex.Set_ viewed (bs "CCCC") (bs "k1") (bs "q3") (bs "a3")).1 = VNodeIndex.kError) as Hst
    by (vm_compute; reflexivity).
  rewrite HS in Hst. cbn in Hst. subst st. exists vi'.
  destruct (failed_vset_unlogged 4 (demo_vset "k1") viewed_targets viewed vi'
              (VNodeStorage.mkNode 1 (bs "k1") (bs "q1") (bs "a1"))) as (HA & Hn & _).
  - split; [exact (proj1 viewed_ok)|]. split; [exact (proj2 viewed_ok)|vm_compute; discriminate].
  - vm_compute. lia.
  - reflexivity.
  - reflexivity.
  - vm_compute. reflexivity.
  - exact HS.
  - split; [exact HA|exact Hn].
Defined.
