(* ===== verification/ReplicationBacklog.v ===== *)
(** * ReplicationBacklog: a ring buffer over the stream of write frames

    Models include/vemory/replication/ReplicationBacklog.h and
    src/replication/ReplicationBacklog.cc.  Logical offsets are [uint64_t];
    positions in the buffer are indices.  The abstract state is the history,
    all bytes ever fed: the buffer holds its suffix from [base_] to [tip_]. *)

From S2P Require Import Prelude.

Record ReplicationBacklog := mkBacklog {
  buf_ : bytes;
  head_ : nat;
  base_ : Z;
  tip_ : Z
}.

Definition kDefaultCapacity : Z := 16 * 1024 * 1024.

(** The constructor; [std::vector<char> buf_(n)] is zero-filled. *)
Definition construct (capacity : Z) : ReplicationBacklog :=
  mkBacklog (replicate (Z.to_nat (if capacity =? 0 then kDefaultCapacity else capacity)) NUL) 0 0 0.

(** ** Operations *)

Definition used_of (b : ReplicationBacklog) : nat := Z.to_nat (u64 (tip_ b - base_ b)).

(** [memcpy(buf + pos, d, d.size())]. *)
Definition blit (buf : bytes) (pos : nat) (d : bytes) : bytes :=
  take pos buf ++ d ++ drop (pos + length d) buf.

Definition AppendBytes (b : ReplicationBacklog) (d : bytes) : ReplicationBacklog :=
  let cap := length (buf_ b) in
  let write_pos := ((head_ b + used_of b) mod cap)%nat in
  let first := Nat.min (length d) (cap - write_pos) in
  let buf := blit (buf_ b) write_pos (take first d) in
  let buf := if (first <? length d)%nat then blit buf 0 (drop first d) else buf in
  mkBacklog buf (head_ b) (base_ b) (tip_ b).

(** The loop of [DropToMakeSpace]; every iteration drops at least one byte. *)
Fixpoint DropLoop (fuel : nat) (b : ReplicationBacklog) (need : nat) : option ReplicationBacklog :=
  match fuel with
  | O => None
  | S fuel =>
      let cap := length (buf_ b) in
      let used := used_of b in
      if (cap <? used + need)%nat && (0 <? used)%nat then
        let n := Nat.min used (Nat.max need (cap / 8)) in
        DropLoop fuel (mkBacklog (buf_ b) ((head_ b + n) mod cap) (u64 (base_ b + Z.of_nat n)) (tip_ b))
          need
      else Some b
  end.

(** One iteration more than there are bytes is enough. *)
Definition DropToMakeSpace (b : ReplicationBacklog) (need : nat) : option ReplicationBacklog :=
  DropLoop (S (used_of b)) b need.

Definition FeedEncoded (b : ReplicationBacklog) (frame : bytes) : option (bool * ReplicationBacklog) :=
  if is_empty frame then Some (true, b)
  else if (length (buf_ b) <? length frame)%nat then
    let tip := u64 (tip_ b + size_of frame) in
    Some (true, mkBacklog (buf_ b) 0 tip tip)
  else
    match DropToMakeSpace b (length frame) with
    | None => None
    | Some b =>
        let b := AppendBytes b frame in
        Some (true, mkBacklog (buf_ b) (head_ b) (base_ b) (u64 (tip_ b + size_of frame)))
    end.

Definition Contains (b : ReplicationBacklog) (offset : Z) : bool :=
  (base_ b <=? offset) && (offset <=? tip_ b).

Fixpoint CopyLoop (fuel : nat) (buf : bytes) (pos remaining : nat) (out : bytes) : option bytes :=
  match remaining with
  | O => Some out
  | S _ =>
      match fuel with
      | O => None
      | S fuel =>
          let cap := length buf in
          let n := Nat.min remaining (cap - pos) in
          CopyLoop fuel buf ((pos + n) mod cap) (remaining - n) (out ++ sub pos n buf)
      end
  end.

(** [*out] and the result; [None] if the loop did not end. *)
Definition CopyRange (b : ReplicationBacklog) (first last : Z) (out : ptr bytes)
    : option (bool * ptr bytes) :=
  match out with
  | None => Some (false, out)
  | Some _ =>
      if (last <? first) || (first <? base_ b) || (tip_ b <? last) then Some (false, out)
      else
        let len := u64 (last - first) in
        if len =? 0 then Some (true, Some [])
        else
          let cap := length (buf_ b) in
          let start_off := Z.to_nat (u64 (u64 (first - base_ b) + Z.of_nat (head_ b)) mod Z.of_nat cap) in
          match CopyLoop (Z.to_nat len) (buf_ b) start_off (Z.to_nat len) [] with
          | None => None
          | Some out => Some (true, Some out)
          end
  end.

(** ** The history *)

(** [h] is everything fed so far; the ring holds its last [tip_ - base_] bytes. *)
Record holds (b : ReplicationBacklog) (h : bytes) : Prop := {
  holds_cap : (0 < length (buf_ b))%nat /\ Z.of_nat (length (buf_ b)) < 2 ^ 63;
  holds_head : (head_ b < length (buf_ b))%nat;
  holds_tip : tip_ b = size_of h;
  holds_small : size_of h < 2 ^ 64;
  holds_base : 0 <= base_ b <= tip_ b;
  holds_used : tip_ b - base_ b <= Z.of_nat (length (buf_ b));
  holds_ring : forall i, (i < Z.to_nat (tip_ b - base_ b))%nat ->
    buf_ b !! ((head_ b + i) mod length (buf_ b))%nat = h !! (Z.to_nat (base_ b) + i)%nat
}.

(** ** Lemmas *)

Lemma used_of_holds b h : holds b h -> used_of b = Z.to_nat (tip_ b - base_ b).
Proof.
  intros Hh. pose proof (holds_tip _ _ Hh). pose proof (holds_small _ _ Hh).
  pose proof (holds_base _ _ Hh). unfold used_of. rewrite u64_small; [done|lia].
Qed.

Lemma blit_length buf pos d :
  (pos + length d <= length buf)%nat -> length (blit buf pos d) = length buf.
Proof. intros. unfold blit. rewrite !length_app, length_take, length_drop. lia. Qed.

Lemma blit_lookup buf pos d i :
  (pos + length d <= length buf)%nat ->
  blit buf pos d !! i =
    if decide (pos <= i < pos + length d)%nat then d !! (i - pos)%nat else buf !! i.
Proof.
  intros Hle. unfold blit. case_decide as Hi.
  - rewrite lookup_app_r; rewrite length_take_le by lia; [|lia]. by rewrite lookup_app_l by lia.
  - destruct (decide (i < pos)%nat).
    + rewrite lookup_app_l by (rewrite length_take_le; lia). by rewrite lookup_take_lt.
    + rewrite lookup_app_r; rewrite length_take_le by lia; [|lia]. rewrite lookup_app_r by lia.
      rewrite lookup_drop. f_equal. lia.
Qed.

(** The position [j] steps after [w] in the ring. *)
Lemma ring_pos w j cap :
  (w < cap)%nat -> (j < cap)%nat ->
  ((w + j) mod cap = if decide (w + j < cap) then w + j else w + j - cap)%nat.
Proof.
  intros Hw Hj. case_decide; [by apply Nat.mod_small|].
  replace (w + j)%nat with ((w + j - cap) + 1 * cap)%nat at 1 by lia.
  rewrite Nat.Div0.mod_add. apply Nat.mod_small. lia.
Qed.

(** Writing [d] at [w] around the end of the ring. *)
Definition ring_write (buf : bytes) (w : nat) (d : bytes) : bytes :=
  let first := Nat.min (length d) (length buf - w) in
  let buf' := blit buf w (take first d) in
  if (first <? length d)%nat then blit buf' 0 (drop first d) else buf'.

Lemma ring_write_length buf w d :
  (w < length buf)%nat -> (length d <= length buf)%nat -> length (ring_write buf w d) = length buf.
Proof.
  intros Hw Hd. unfold ring_write. set (f := Nat.min _ _).
  assert (length (blit buf w (take f d)) = length buf) as Hl
    by (apply blit_length; rewrite length_take; lia).
  destruct (f <? length d)%nat eqn:E; [|done].
  rewrite blit_length; [done|]. rewrite Hl, length_drop. lia.
Qed.

Lemma ring_write_lookup buf w d j :
  (w < length buf)%nat -> (length d <= length buf)%nat -> (j < length buf)%nat ->
  ring_write buf w d !! ((w + j) mod length buf)%nat =
    if decide (j < length d)%nat then d !! j else buf !! ((w + j) mod length buf)%nat.
Proof.
  intros Hw Hd Hj. rewrite ring_pos by done. unfold ring_write. set (f := Nat.min _ _).
  assert (length (take f d) = f) as Hf by (rewrite length_take; lia).
  assert (length (blit buf w (take f d)) = length buf) as Hl by (apply blit_length; lia).
  destruct (f <? length d)%nat eqn:E; [apply Nat.ltb_lt in E|apply Nat.ltb_ge in E].
  - assert (length (drop f d) = (length d - f)%nat) as Hdr by (by rewrite length_drop).
    rewrite blit_lookup, blit_lookup by lia. rewrite Hf, Hdr.
    repeat case_decide; try lia; rewrite ?lookup_take_lt, ?lookup_drop by lia; try (f_equal; lia); done.
  - rewrite blit_lookup by lia. rewrite Hf.
    repeat case_decide; try lia; rewrite ?lookup_take_lt by lia; try (f_equal; lia); done.
Qed.

Lemma AppendBytes_ring b d :
  buf_ (AppendBytes b d) = ring_write (buf_ b) ((head_ b + used_of b) mod length (buf_ b)) d.
Proof. reflexivity. Qed.

(** Dropping [n] bytes from the front. *)
Lemma holds_drop b h n :
  holds b h -> (n <= Z.to_nat (tip_ b - base_ b))%nat ->
  holds (mkBacklog (buf_ b) ((head_ b + n) mod length (buf_ b)) (u64 (base_ b + Z.of_nat n)) (tip_ b)) h.
Proof.
  intros Hh Hn. destruct Hh as [Hc Hhd Ht Hs Hb Hu Hr].
  assert (u64 (base_ b + Z.of_nat n) = base_ b + Z.of_nat n) as Hbn by (apply u64_small; lia).
  split; cbn; rewrite ?Hbn; try done; try lia.
  - apply Nat.mod_upper_bound. lia.
  - intros i Hi. rewrite Nat.Div0.add_mod_idemp_l, <- Nat.add_assoc, Hr by lia. f_equal. lia.
Qed.

Lemma DropLoop_holds fuel b h need :
  holds b h -> (0 < need <= length (buf_ b))%nat -> (used_of b < fuel)%nat ->
  exists b', DropLoop fuel b need = Some b' /\ holds b' h /\ buf_ b' = buf_ b /\ tip_ b' = tip_ b /\
    (used_of b' + need <= length (buf_ b))%nat /\ base_ b <= base_ b'.
Proof.
  revert b. induction fuel as [|fuel IH]; intros b Hh Hneed Hfuel; [lia|]. cbn [DropLoop].
  pose proof (used_of_holds _ _ Hh) as Hu.
  destruct ((length (buf_ b) <? used_of b + need)%nat && (0 <? used_of b)%nat) eqn:E.
  - apply andb_true_iff in E as [E1%Nat.ltb_lt E2%Nat.ltb_lt]. set (n := Nat.min _ _).
    assert (1 <= n <= used_of b)%nat as Hn by lia.
    pose proof (holds_drop b h n Hh ltac:(lia)) as Hh'. set (b1 := mkBacklog _ _ _ _) in *.
    pose proof (used_of_holds _ _ Hh') as Hu'. pose proof (holds_base _ _ Hh) as Hb0.
    assert (base_ b1 = base_ b + Z.of_nat n) as Hb1.
    { cbn. apply u64_small. pose proof (holds_small _ _ Hh). pose proof (holds_tip _ _ Hh). lia. }
    destruct (IH b1 Hh' Hneed) as (b' & HD & ? & ? & ? & ? & ?).
    { rewrite Hu', Hb1. change (tip_ b1) with (tip_ b). lia. }
    exists b'. split_and!; try done. lia.
  - exists b. split_and!; try done. apply andb_false_iff in E as [E%Nat.ltb_ge|E%Nat.ltb_ge]; lia.
Qed.

Lemma FeedEncoded_holds b h frame :
  holds b h -> size_of h + size_of frame < 2 ^ 64 ->
  exists b', FeedEncoded b frame = Some (true, b') /\ holds b' (h ++ frame) /\
    length (buf_ b') = length (buf_ b) /\ base_ b <= base_ b' /\
    ((length frame <= length (buf_ b))%nat -> base_ b' <= size_of h).
Proof.
  intros Hh Hsz. unfold FeedEncoded. pose proof Hh as [Hc Hhd Ht Hs Hb Hu Hr].
  pose proof (size_of_nonneg h). pose proof (size_of_nonneg frame).
  destruct (is_empty frame) eqn:He.
  { apply is_empty_true in He. subst frame. rewrite app_nil_r. exists b. split_and!; try done; lia. }
  apply is_empty_false in He.
  assert (u64 (tip_ b + size_of frame) = size_of h + size_of frame) as Ht'
    by (rewrite Ht; apply u64_small; lia).
  destruct (length (buf_ b) <? length frame)%nat eqn:Hbig;
    [apply Nat.ltb_lt in Hbig|apply Nat.ltb_ge in Hbig].
  - eexists. split; [done|]. rewrite Ht'. split_and!; cbn; try lia.
    split; cbn; rewrite ?size_of_app; try done; try lia.
  - unfold DropToMakeSpace. assert (0 < length frame)%nat as Hpos by (destruct frame; [done|cbn; lia]).
    destruct (DropLoop_holds (S (used_of b)) b h (length frame) Hh ltac:(lia) ltac:(lia))
      as (b1 & -> & Hh1 & Hbuf & Htip & Hroom & Hbase).
    pose proof (used_of_holds _ _ Hh1) as Hu1. eexists. split; [done|].
    rewrite AppendBytes_ring, Hbuf. cbn [head_ base_ tip_ AppendBytes]. rewrite Htip, Ht'.
    pose proof Hh1 as [Hc1 Hhd1 Ht1 _ Hb1 Hu1' Hr1]. rewrite Hbuf in *.
    assert ((head_ b1 + used_of b1) mod length (buf_ b) < length (buf_ b))%nat as Hw
      by (apply Nat.mod_upper_bound; lia).
    set (w := ((head_ b1 + used_of b1) mod length (buf_ b))%nat) in *.
    assert (length (ring_write (buf_ b) w frame) = length (buf_ b)) as Hlen
      by (by apply ring_write_length).
    split_and!; [|by cbn|cbn; lia|intros; cbn; lia].
    split; cbn; rewrite ?Hlen, ?size_of_app; try done; try lia.
    + unfold size_of in *. lia.
    + intros i Hi. destruct (decide (i < used_of b1)%nat) as [Hold|Hnew].
      * rewrite lookup_app_l by (unfold size_of in *; lia).
        assert ((head_ b1 + i) mod length (buf_ b) =
                (w + (length (buf_ b) - used_of b1 + i)) mod length (buf_ b))%nat as Hpos'.
        { unfold w. rewrite Nat.Div0.add_mod_idemp_l.
          replace (head_ b1 + used_of b1 + (length (buf_ b) - used_of b1 + i))%nat
            with (head_ b1 + i + 1 * length (buf_ b))%nat by lia.
          by rewrite Nat.Div0.mod_add. }
        rewrite Hpos', ring_write_lookup by lia. rewrite decide_False by lia.
        rewrite <- Hpos'. apply Hr1. lia.
      * rewrite lookup_app_r by (unfold size_of in *; lia).
        assert ((head_ b1 + i) mod length (buf_ b) = (w + (i - used_of b1)) mod length (buf_ b))%nat as ->.
        { unfold w. rewrite Nat.Div0.add_mod_idemp_l. f_equal. lia. }
        rewrite ring_write_lookup by (unfold size_of in *; lia).
        rewrite decide_True by (unfold size_of in *; lia). f_equal. unfold size_of in *. lia.
Qed.

(** The copy loop reads the ring from [pos] on. *)
Lemma CopyLoop_spec fuel buf pos remaining out :
  (pos < length buf)%nat -> (remaining <= fuel)%nat ->
  exists d, CopyLoop fuel buf pos remaining out = Some (out ++ d) /\ length d = remaining /\
    forall i, (i < remaining)%nat -> d !! i = buf !! ((pos + i) mod length buf)%nat.
Proof.
  revert pos remaining out. induction fuel as [|fuel IH]; intros pos remaining out Hp Hr.
  { assert (remaining = O) as -> by lia. exists []. cbn. rewrite app_nil_r. split_and!; [done..|lia]. }
  destruct remaining as [|r]; [exists []; cbn; rewrite app_nil_r; split_and!; [done..|lia]|].
  cbn [CopyLoop]. set (n := Nat.min (S r) (length buf - pos)).
  assert (1 <= n <= S r)%nat as Hn by lia.
  destruct (IH ((pos + n) mod length buf)%nat (S r - n)%nat (out ++ sub pos n buf)) as (d & -> & Hl & Hd).
  - apply Nat.mod_upper_bound. lia.
  - lia.
  - assert (length (sub pos n buf) = n) as Hs by (unfold sub; rewrite length_take, length_drop; lia).
    exists (sub pos n buf ++ d). rewrite app_assoc. split; [done|].
    split; [rewrite length_app; lia|]. intros i Hi.
    destruct (decide (i < n)%nat).
    + rewrite lookup_app_l by lia. unfold sub. rewrite lookup_take_lt, lookup_drop by lia.
      by rewrite Nat.mod_small by lia.
    + rewrite lookup_app_r, Hs, Hd by lia. rewrite Nat.Div0.add_mod_idemp_l. do 2 f_equal. lia.
Qed.

Lemma CopyRange_holds b h first last o :
  holds b h -> 0 <= first ->
  CopyRange b first last (Some o) =
    if Contains b first && (first <=? last) && (last <=? tip_ b)
    then Some (true, Some (sub (Z.to_nat first) (Z.to_nat (last - first)) h))
    else Some (false, Some o).
Proof.
  intros Hh Hf. pose proof Hh as [Hc Hhd Ht Hs Hb Hu Hr]. unfold CopyRange, Contains.
  destruct (Z.ltb_spec last first), (Z.ltb_spec first (base_ b)), (Z.ltb_spec (tip_ b) last),
    (Z.leb_spec (base_ b) first), (Z.leb_spec first (tip_ b)), (Z.leb_spec first last),
    (Z.leb_spec last (tip_ b)); try lia; try done. cbn [orb andb].
  rewrite (u64_small (last - first)) by lia.
  destruct (Z.eqb_spec (last - first) 0) as [Hz|Hz].
  { rewrite Hz. unfold sub. by rewrite take_0. }
  rewrite (u64_small (first - base_ b)), u64_small by lia.
  assert (Z.to_nat ((first - base_ b + Z.of_nat (head_ b)) mod Z.of_nat (length (buf_ b))) =
          (head_ b + Z.to_nat (first - base_ b)) mod length (buf_ b))%nat as ->.
  { rewrite <- (Z2Nat.id (first - base_ b)) at 1 by lia. rewrite <- Nat2Z.inj_add, <- Nat2Z.inj_mod, Nat2Z.id.
    f_equal. lia. }
  destruct (CopyLoop_spec (Z.to_nat (last - first)) (buf_ b)
              ((head_ b + Z.to_nat (first - base_ b)) mod length (buf_ b)) (Z.to_nat (last - first)) [])
    as (d & -> & Hl & Hd); [apply Nat.mod_upper_bound; lia|lia|].
  do 3 f_equal. cbn [app]. apply list_eq. intros i.
  destruct (decide (i < Z.to_nat (last - first))%nat) as [Hi|Hi].
  - rewrite Hd by done. unfold sub. rewrite lookup_take_lt, lookup_drop by done.
    rewrite Nat.Div0.add_mod_idemp_l, <- Nat.add_assoc, Hr by lia. f_equal. lia.
  - rewrite lookup_ge_None_2 by lia. symmetry. apply lookup_ge_None_2. unfold sub.
    rewrite length_take, length_drop. lia.
Qed.

Lemma holds_construct c :
  0 <= c < 2 ^ 63 -> holds (construct c) [].
Proof.
  intros Hc. assert (0 < (if c =? 0 then kDefaultCapacity else c) < 2 ^ 63).
  { destruct (Z.eqb_spec c 0); unfold kDefaultCapacity; lia. }
  split; cbn -[Z.to_nat replicate]; rewrite ?length_replicate; try done; try lia.
Qed.

(** ** Properties *)

(** Feeding frame after frame. *)
Fixpoint feed_all (b : ReplicationBacklog) (fs : list bytes) : option ReplicationBacklog :=
  match fs with
  | [] => Some b
  | f :: fs => match FeedEncoded b f with Some (_, b) => feed_all b fs | None => None end
  end.

Lemma feed_all_holds fs b h :
  holds b h -> size_of h + size_of (mjoin fs) < 2 ^ 64 ->
  exists b', feed_all b fs = Some b' /\ holds b' (h ++ mjoin fs) /\
    length (buf_ b') = length (buf_ b).
Proof.
  revert b h. induction fs as [|f fs IH]; intros b h Hh Hsz.
  { exists b. cbn. by rewrite app_nil_r. }
  assert (size_of (mjoin (f :: fs)) = size_of f + size_of (mjoin fs)) as Hm
    by (change (mjoin (f :: fs)) with (f ++ mjoin fs); apply size_of_app).
  pose proof (size_of_nonneg (mjoin fs)).
  destruct (FeedEncoded_holds b h f Hh ltac:(lia)) as (b1 & HF & Hh1 & Hl1 & _).
  destruct (IH b1 (h ++ f) Hh1) as (b2 & Hf2 & Hh2 & Hl2); [rewrite size_of_app; lia|].
  exists b2. cbn [feed_all]. rewrite HF, Hf2, Hl2, Hl1. split_and!; try done.
  change (mjoin (f :: fs)) with (f ++ mjoin fs). by rewrite app_assoc.
Qed.

(** C21: the backlog is a window on the history.  After feeding any frames to a
    new backlog (fewer than 2^64 bytes in all), [tip] is the number of bytes
    fed, at most [capacity] bytes are retained, and copying a range of offsets
    succeeds exactly when the range lies within [base, tip], in which case it
    yields exactly the bytes of the history at those offsets, wherever the
    ring has wrapped. *)
Theorem backlog_window (c : Z) (fs : list bytes) :
  0 <= c < 2 ^ 63 -> size_of (mjoin fs) < 2 ^ 64 ->
  exists b, feed_all (construct c) fs = Some b /\
    tip_ b = size_of (mjoin fs) /\ 0 <= base_ b <= tip_ b /\
    tip_ b - base_ b <= size_of (buf_ (construct c)) /\
    forall first last o, 0 <= first ->
      CopyRange b first last (Some o) =
        if Contains b first && (first <=? last) && (last <=? tip_ b)
        then Some (true, Some (sub (Z.to_nat first) (Z.to_nat (last - first)) (mjoin fs)))
        else Some (false, Some o).
Proof.
  intros Hc Hsz. pose proof (holds_construct c Hc) as Hh0.
  destruct (feed_all_holds fs _ [] Hh0) as (b & Hf & Hh & Hl); [done|].
  cbn [app] in Hh. exists b. split; [done|]. pose proof Hh as [_ _ Ht _ Hb Hu _].
  split_and!; try done; try lia; [unfold size_of; lia|]. intros. by apply CopyRange_holds.
Qed.

(** Feeding never loses the newest frame: if a frame is no larger than the
    capacity, the offset before it stays in the ring, so a replica that had
    everything up to that offset can be sent exactly that frame; a larger
    frame empties the ring, and then no earlier offset is contained. *)
Theorem newest_frame_retained (b : ReplicationBacklog) (h frame o : bytes) :
  holds b h -> size_of h + size_of frame < 2 ^ 64 ->
  exists b', FeedEncoded b frame = Some (true, b') /\ tip_ b' = size_of h + size_of frame /\
    if (length frame <=? length (buf_ b))%nat
    then CopyRange b' (size_of h) (tip_ b') (Some o) = Some (true, Some frame)
    else forall off, Contains b' off = true -> off = tip_ b'.
Proof.
  intros Hh Hsz. destruct (FeedEncoded_holds b h frame Hh Hsz) as (b' & HF & Hh' & _ & _ & Hret).
  exists b'. split; [done|]. pose proof (holds_tip _ _ Hh') as Ht. rewrite size_of_app in Ht.
  split; [done|]. pose proof (size_of_nonneg h). pose proof (size_of_nonneg frame).
  destruct (Nat.leb_spec (length frame) (length (buf_ b))) as [Hle|Hgt].
  - rewrite (CopyRange_holds b' (h ++ frame)) by done. specialize (Hret Hle). unfold Contains.
    rewrite !(proj2 (Z.leb_le _ _)) by lia. cbn [andb]. rewrite Ht.
    do 3 f_equal. replace (size_of h + size_of frame - size_of h) with (size_of frame) by lia.
    unfold size_of. rewrite !Nat2Z.id. rewrite <- (app_nil_r frame) at 2. apply sub_app_exact.
  - intros off Hc. unfold FeedEncoded in HF.
    destruct (is_empty frame) eqn:He.
    { apply is_empty_true in He. subst frame. cbn in Hgt. lia. }
    rewrite (proj2 (Nat.ltb_lt _ _) Hgt) in HF. injection HF as <-. unfold Contains in Hc. cbn in *.
    bool_facts. lia.
Qed.

(** ** Witnesses *)

(** A ring of eight bytes that has wrapped: the frames fill it twice. *)
Lemma backlog_window_witness :
  exists b, feed_all (construct 8) [bs "abcde"; bs "fgh"; bs "ijkl"] = Some b /\
    CopyRange b 8 12 (Some []) = Some (true, Some (bs "ijkl")) /\
    CopyRange b 3 12 (Some []) = Some (false, Some []).
Proof.
  destruct (backlog_window 8 [bs "abcde"; bs "fgh"; bs "ijkl"]) as (b & Hf & Ht & Hb & _ & Hc).
  - split; [discriminate|reflexivity].
  - reflexivity.
  - exists b. split; [exact Hf|]. assert (tip_ b = 12 /\ base_ b = 4) as [Htip Hbase].
    { vm_compute in Hf. injection Hf as <-. split; reflexivity. }
    rewrite !Hc by discriminate. unfold Contains. rewrite Htip, Hbase. split; vm_compute; reflexivity.
Defined.

Lemma newest_frame_retained_witness :
  exists b', FeedEncoded (construct 8) (bs "abc") = Some (true, b') /\
    CopyRange b' 0 (tip_ b') (Some []) = Some (true, Some (bs "abc")).
Proof.
  destruct (newest_frame_retained (construct 8) [] (bs "abc") []) as (b' & HF & _ & Hc).
  - apply holds_construct. split; [discriminate|reflexivity].
  - reflexivity.
  - exists b'. split; [exact HF|exact Hc].
Defined.
