(* ===== verification/WalManager.v ===== *)
(** * WalManager: the append-only file of write frames

    Models include/vemory/persist/WalManager.h, include/vemory/persist/AofWriter.h
    and src/persist/WalManager.cc.  The writer behind the file is an interface
    ([AofWriter]); ThreadAofWriter.v models one of its implementations. *)

From S2P Require Import Prelude.
From S2P Require Import Stdio.
From S2P Require Import CommandType.
From S2P Require Config.
From S2P Require Import RequestContext.
From S2P Require Import RespEncode.
From S2P Require Import RespDecode.
From S2P Require KvStore.
From S2P Require Import Usearch.
From S2P Require Import FlatIndex.
From S2P Require VNodeIndex.
From S2P Require Import MutationApply.

(** ** Interface of the writer *)

(** The virtual members of [AofWriter] that the manager calls. *)
Class AofWriter := {
  writer : Type;
  aof_enqueue : writer -> bytes -> bool * writer;
  aof_flush : writer -> bool * writer;
  aof_stop : writer -> writer;
  aof_failed : writer -> bool;
  aof_poll : writer -> writer
}.

(** Its promise: [Enqueue] takes a frame or refuses it, and keeps their order. *)
Class AofWriterLaws `(A : !AofWriter) := {
  aof_log : writer -> list bytes;
  aof_enqueue_log w f : let '(r, w') := aof_enqueue w f in
    aof_log w' = if r then aof_log w ++ [f] else aof_log w
}.

(** [thrown] is not a status of the code: the replay ends in the exception of
    [RespDecode.Status] instead of returning. *)
Inductive Status := kOk | kNotConfigured | kIoError | kError | thrown.

#[export] Instance Status_eq_dec : EqDecision Status.
Proof. solve_decision. Defined.

Definition kFileName : bytes := bs "appendonly.aof".

(** [MakeAofWriter]: [uring] is the result of [TryMakeIoUringAofWriter],
    [thread] a new [ThreadAofWriter]. *)
Definition MakeAofWriter {W} (mode : Config.AofIoMode) (uring : option W) (thread : W) : W :=
  match mode with
  | Config.kThread => thread
  | Config.kAuto | Config.kIoUring => match uring with Some u => u | None => thread end
  end.

(** ** Reading the file *)

Definition kChunk : nat := Z.to_nat 65536.

(** The [fread] loop: chunks of 64 KiB until a short one. *)
Fixpoint ReadAll (fuel : nat) (fp : File) (buf : bytes) : option (bytes * File) :=
  match fuel with
  | O => None
  | S fuel =>
      let '(chunk, fp) := fread kChunk fp in
      let buf := if (0 <? length chunk)%nat then buf ++ chunk else buf in
      if (length chunk <? kChunk)%nat then Some (buf, fp) else ReadAll fuel fp buf
  end.

Section WalManager.
Context `{A : !AofWriter} `{U : !Usearch} `{W : !Wal} `{R : !Repl}.

Record WalManager := mkWalManager {
  dir_ : bytes;
  path_ : bytes;
  enabled_ : bool;
  writer_ : option writer
}.

(** The constructor; [make] is [MakeAofWriter] with the policy arguments. *)
Definition construct (make : bytes -> writer) (dir : bytes) (enable : bool) : WalManager :=
  let enabled := enable && negb (is_empty dir) in
  if enabled then
    let path := dir ++ bs "/" ++ kFileName in
    mkWalManager dir path true (Some (make path))
  else mkWalManager dir [] false None.

Definition with_writer (s : WalManager) (w : writer) : WalManager :=
  mkWalManager (dir_ s) (path_ s) (enabled_ s) (Some w).

Definition AppendFrame (s : WalManager) (frame : bytes) : Status * WalManager :=
  match writer_ s with
  | None => (kNotConfigured, s)
  | Some w =>
      if negb (enabled_ s) then (kNotConfigured, s)
      else if aof_failed w then (kIoError, s)
      else if is_empty frame then (kError, s)
      else
        let '(r, w) := aof_enqueue w frame in
        if negb r then (if aof_failed w then kIoError else kError, with_writer s w)
        else (kOk, with_writer s w)
  end.

Definition Poll (s : WalManager) : WalManager :=
  match writer_ s with None => s | Some w => with_writer s (aof_poll w) end.

Definition Flush (s : WalManager) : Status * WalManager :=
  match writer_ s with
  | None => (kOk, s)
  | Some w =>
      if negb (enabled_ s) then (kOk, s)
      else let '(r, w) := aof_flush w in (if r then kOk else kIoError, with_writer s w)
  end.

(** The destructor. *)
Definition destroy (s : WalManager) : WalManager :=
  match writer_ s with
  | None => s
  | Some w => let _ := aof_stop w in mkWalManager (dir_ s) (path_ s) (enabled_ s) None
  end.

(** The loop of [Replay] at [off]: the status and the stores, and how many
    commands were applied ([applied]).  [clock] gives the readings of the
    steady clock.  A replayed write needs no fuel beyond one ([redo1]). *)
Fixpoint Replay_loop (fuel : nat) (clock : nat -> Z) (buf : bytes) (off applied : nat) (t : Targets)
    : option (Status * nat * Targets) :=
  match fuel with
  | O => None
  | S fuel =>
      if (off <? length buf)%nat then
        match RespDecode.decode (drop off buf) with
        | (RespDecode.kOk, tokens, consumed) =>
            match FromTokens (-1) (clock applied) tokens (Some default_ctx) with
            | (RequestContext.kOk, Some ctx) =>
                match ApplyMutation 1 ctx kAofReplay t with
                | None => None
                | Some (ar, t) =>
                    if negb (ok ar) then Some (kError, applied, t)
                    else Replay_loop fuel clock buf (off + consumed) (S applied) t
                end
            | _ => Some (kOk, applied, t)
            end
        | (RespDecode.thrown, _, _) => Some (thrown, applied, t)
        | _ => Some (kOk, applied, t)
        end
      else Some (kOk, applied, t)
  end.

(** [file]: the content of the file at [path_], if it can be opened. *)
Definition Replay (s : WalManager) (file : option bytes) (clock : nat -> Z) (t : Targets)
    : option (Status * nat * Targets) :=
  if negb (enabled_ s) then Some (kNotConfigured, O, t)
  else
    match t_index t, t_kv t with
    | Some _, Some _ =>
        match file with
        | None => Some (kOk, O, t)
        | Some data =>
            match ReadAll (S (length data)) (mkFile data 0 None) [] with
            | None => None
            | Some (buf, _) => Replay_loop (S (length buf)) clock buf 0 0 t
            end
        end
    | _, _ => Some (kError, O, t)
    end.

(** ** Lemmas *)

Lemma ReadAll_content fuel data pos room buf :
  (pos <= length data)%nat -> (length data - pos < fuel)%nat ->
  exists fp, ReadAll fuel (mkFile data pos room) buf = Some (buf ++ drop pos data, fp).
Proof.
  revert pos buf. induction fuel as [|fuel IH]; intros pos buf Hp Hf; [lia|]. cbn [ReadAll].
  assert (0 < kChunk)%nat as Hk by (unfold kChunk; lia). unfold fread. cbn [f_pos f_data f_room].
  set (chunk := sub pos kChunk data).
  assert (length chunk = Nat.min kChunk (length data - pos)) as Hl
    by (unfold chunk, sub; by rewrite length_take, length_drop).
  assert ((if (0 <? length chunk)%nat then buf ++ chunk else buf) = buf ++ chunk) as ->.
  { destruct chunk; cbn; by rewrite ?app_nil_r. }
  destruct (length chunk <? kChunk)%nat eqn:E; [apply Nat.ltb_lt in E|apply Nat.ltb_ge in E].
  - eexists. do 3 f_equal. unfold chunk, sub. apply take_ge. rewrite length_drop. lia.
  - destruct (IH (pos + length chunk)%nat (buf ++ chunk)) as [fp ->]; [lia|lia|].
    exists fp. rewrite <- app_assoc. do 3 f_equal. unfold chunk at 1, sub.
    replace (length chunk) with kChunk by lia.
    rewrite <- drop_drop. apply take_drop.
Qed.

(** The frames of the log decode to the writes that were journalled. *)
Definition frame_fits (c : RequestContext) : Prop :=
  match write_tokens c with Some toks => RespDecode.tokens_ok toks | None => False end.

Lemma decode_frame c rest :
  frame_fits c -> exists toks, write_tokens c = Some toks /\
    RespDecode.decode (frame_of c ++ rest) = (RespDecode.kOk, toks, length (frame_of c)).
Proof.
  unfold frame_fits, frame_of. destruct (write_tokens c) as [toks|]; [|done]. intros Hok.
  exists toks. split; [done|]. by apply RespDecode.decode_array.
Qed.

(** A frame cut short asks for more. *)
Lemma decode_torn c n :
  frame_fits c -> (n < length (frame_of c))%nat ->
  (RespDecode.decode (take n (frame_of c))).1.1 = RespDecode.kNeedMore.
Proof.
  intros Hf Hn. destruct (decode_frame c [] Hf) as (toks & _ & Hd). rewrite app_nil_r in Hd.
  destruct (RespDecode.decode (take n (frame_of c))) as [[st tk] k] eqn:E.
  destruct (decide (st = RespDecode.kNeedMore)) as [->|Hne]; [done|].
  pose proof (RespDecode.decode_app (take n (frame_of c)) (drop n (frame_of c))) as Ha.
  rewrite E, take_drop in Ha. specialize (Ha Hne). rewrite Hd in Ha. simplify_eq.
  apply RespDecode.decode_consumed in E. rewrite length_take in E. lia.
Qed.

(** Only the fields of the write matter to the mutation layer. *)
Lemma replay_view fd now c t :
  write_ok c ->
  ApplyMutation 1 (write_view fd now c) kAofReplay t = ApplyMutation 1 c kAofReplay t.
Proof. unfold write_ok, write_view. intros Hok. cbn. by destruct (cmd c) eqn:E. Qed.

Definition frames (cs : list RequestContext) : bytes := mjoin (frame_of <$> cs).

Lemma frames_app cs1 cs2 : frames (cs1 ++ cs2) = frames cs1 ++ frames cs2.
Proof. unfold frames. by rewrite fmap_app, join_app. Qed.

Lemma Replay_frame fuel clock c pre rest applied t t' :
  write_ok c -> frame_fits c -> redo1 t c = Some t' ->
  Replay_loop (S fuel) clock (pre ++ frame_of c ++ rest) (length pre) applied t =
  Replay_loop fuel clock (pre ++ frame_of c ++ rest) (length (pre ++ frame_of c)) (S applied) t'.
Proof.
  intros Hok Hf Hr. cbn [Replay_loop]. destruct (decode_frame c rest Hf) as (toks & Ht & Hd).
  assert (0 < length (frame_of c))%nat as Hpos
    by (apply RespDecode.decode_consumed in Hd; lia).
  rewrite (proj2 (Nat.ltb_lt _ _)) by (rewrite !length_app; lia).
  rewrite drop_app_length, Hd, (FromTokens_write _ _ _ _ _ Hok Ht), (replay_view _ _ _ _ Hok).
  unfold redo1 in Hr. destruct (ApplyMutation 1 c kAofReplay t) as [[ar t1]|]; [|done].
  destruct (ok ar); [|done]. injection Hr as ->. cbn [negb]. by rewrite length_app.
Qed.

Lemma Replay_frames cs fuel clock pre rest applied t u :
  Forall write_ok cs -> Forall frame_fits cs -> redo cs t = Some u ->
  Replay_loop (length cs + fuel) clock (pre ++ frames cs ++ rest) (length pre) applied t =
  Replay_loop fuel clock (pre ++ frames cs ++ rest) (length (pre ++ frames cs)) (length cs + applied) u.
Proof.
  revert pre applied t. induction cs as [|c cs IH]; intros pre applied t Hok Hf Hr.
  { cbn in *. simplify_eq. by rewrite app_nil_r. }
  apply Forall_cons_iff in Hok as [Hc Hok], Hf as [Hfc Hf]. cbn [redo] in Hr.
  destruct (redo1 t c) as [t1|] eqn:E; [|done].
  change (frames (c :: cs)) with (frame_of c ++ frames cs). rewrite <- app_assoc.
  cbn [length Nat.add]. rewrite (Replay_frame _ _ _ _ _ _ _ _ Hc Hfc E).
  specialize (IH (pre ++ frame_of c) (S applied) t1 Hok Hf Hr).
  rewrite <- !app_assoc in IH. rewrite IH. f_equal. lia.
Qed.

(** The decoder finds no frame at the front of [rest]: it asks for more bytes or
    reports an error. *)
Definition no_frame (rest : bytes) : Prop :=
  match (RespDecode.decode rest).1.1 with
  | RespDecode.kNeedMore | RespDecode.kError => True
  | _ => False
  end.

Lemma no_frame_more rest : (RespDecode.decode rest).1.1 = RespDecode.kNeedMore -> no_frame rest.
Proof. unfold no_frame. by intros ->. Qed.

(** At a tail that holds no complete frame the loop stops with [kOk]. *)
Lemma Replay_stop fuel clock pre rest applied t :
  no_frame rest ->
  Replay_loop (S fuel) clock (pre ++ rest) (length pre) applied t = Some (kOk, applied, t).
Proof.
  unfold no_frame. intros Hd. cbn [Replay_loop]. destruct (_ <? _)%nat; [|done]. rewrite drop_app_length.
  destruct (RespDecode.decode rest) as [[[] ?] ?]; done.
Qed.

(** The longest whole number of frames in a prefix of the log. *)
Lemma frames_prefix cs n :
  Forall frame_fits cs ->
  exists k tail, (k <= length cs)%nat /\ take n (frames cs) = frames (take k cs) ++ tail /\
    (RespDecode.decode tail).1.1 = RespDecode.kNeedMore /\
    (length (frames (take k cs)) <= n)%nat /\
    ((k < length cs)%nat -> (n < length (frames (take (S k) cs)))%nat).
Proof.
  revert n. induction cs as [|c cs IH]; intros n Hf.
  { exists O, []. cbn. rewrite take_nil. split_and!; try done; lia. }
  apply Forall_cons_iff in Hf as [Hfc Hf].
  change (frames (c :: cs)) with (frame_of c ++ frames cs).
  destruct (decide (n < length (frame_of c))%nat) as [Hlt|Hge].
  - exists O, (take n (frame_of c)). cbn. rewrite take_app_le by lia. split_and!; try done; try lia.
    + by apply decode_torn.
    + intros _. unfold frames. cbn. rewrite take_0, length_app. cbn. lia.
  - destruct (IH (n - length (frame_of c))%nat Hf) as (k & tail & Hk & Ht & Hd & Hle & Hnext).
    exists (S k), tail. cbn [take length].
    change (frames (c :: take k cs)) with (frame_of c ++ frames (take k cs)).
    rewrite take_app_ge, Ht, <- app_assoc by lia. rewrite length_app. split_and!; try done; try lia.
    intros Hlt. change (take (S (S k)) (c :: cs)) with (c :: take (S k) cs).
    change (frames (c :: take (S k) cs)) with (frame_of c ++ frames (take (S k) cs)).
    rewrite length_app. specialize (Hnext ltac:(lia)). lia.
Qed.

Lemma frames_count cs : Forall frame_fits cs -> (length cs <= length (frames cs))%nat.
Proof.
  induction cs as [|c cs IH]; intros Hf; [cbn; lia|]. apply Forall_cons_iff in Hf as [Hfc Hf].
  destruct (decode_frame c [] Hfc) as (toks & _ & Hd). apply RespDecode.decode_consumed in Hd.
  change (frames (c :: cs)) with (frame_of c ++ frames cs). rewrite length_app. cbn [length].
  specialize (IH Hf). lia.
Qed.

Lemma redo_take cs t u k : redo cs t = Some u -> exists v, redo (take k cs) t = Some v.
Proof.
  revert t k. induction cs as [|c cs IH]; intros t [|k] H; cbn in *; eauto.
  destruct (redo1 t c); [eauto|done].
Qed.

End WalManager.

(** ** The manager is the log of the mutation layer *)

#[export] Instance manager_wal `{A : !AofWriter} : Wal := {|
  wal_state := WalManager;
  wal_enabled := enabled_;
  wal_append s f :=
    let '(st, s) := AppendFrame s f in (match st with kOk => true | _ => false end, s)
|}.

#[export] Instance manager_wal_laws `{A : !AofWriter} `{AL : !AofWriterLaws A} : WalLaws manager_wal.
Proof.
  refine {| wal_log := (fun s => match writer_ s with Some w => aof_log w | None => [] end)
              : @wal_state manager_wal -> list bytes |}.
  intros s f. cbn. unfold AppendFrame. destruct (writer_ s) as [w|] eqn:E; [|by rewrite E].
  destruct (enabled_ s) eqn:Ee; cbn; [|by rewrite E].
  destruct (aof_failed w); cbn; [by rewrite E|]. destruct (is_empty f); cbn; [by rewrite E|].
  pose proof (aof_enqueue_log w f) as H. destruct (aof_enqueue w f) as [[] w']; cbn in *.
  - by rewrite H.
  - destruct (aof_failed w'); cbn; by rewrite H.
Defined.

(** ** Properties *)

Section properties.
Context `{A : !AofWriter} `{AL : !AofWriterLaws A} `{U : !Usearch} `{L : !UsearchLaws U} `{R : !Repl}.

(** What the server did between a start and a crash: writes, done or refused, with
    any answer that leaves memory and log in step (all but "aof append failed" and
    "vset failed", see [MutationApply.write_journal]), writes refused without any
    effect, and lookups. *)
Inductive event := EWrite (ctx : RequestContext) | EGet (query : bytes) (threshold : Z).

Inductive runs : Targets -> list event -> Targets -> Prop :=
| runs_nil t : runs t [] t
| runs_write t ctx fuel r t1 es t2 :
    ApplyMutation fuel ctx kClient t = Some (r, t1) -> in_step r = true -> (nodes t + 2 <= fuel)%nat ->
    runs t1 es t2 -> runs t (EWrite ctx :: es) t2
| runs_refused t ctx fuel r t1 es t2 :
    ApplyMutation fuel ctx kClient t = Some (r, t1) -> ok r = false -> strip t1 = strip t ->
    t_wal t1 = t_wal t -> runs t1 es t2 -> runs t (EWrite ctx :: es) t2
| runs_get t vi q thr es t2 :
    t_index t = Some vi ->
    runs (MutationApply.with_index t (VNodeIndex.Get vi q thr (Some [])).2) es t2 ->
    runs t (EGet q thr :: es) t2.

(** Along a run the log records writes that rebuild the stores, up to the
    access order. *)
Lemma runs_journal t es t2 :
  runs t es t2 -> targets_wf t ->
  exists cs, Forall write_ok cs /\ logged t t2 (frame_of <$> cs) /\ targets_wf t2 /\
    exists u, redo cs (strip t) = Some u /\ eqv_targets u (strip t2).
Proof.
  induction 1 as [t|t ctx fuel r t1 es t2 HA Hok Hfuel Hr IH|t ctx fuel r t1 es t2 HA Hok Hs Hw Hr IH
                 |t vi q thr es t2 E Hr IH]; intros Hwf.
  - exists []. split; [done|]. split; [|split; [done|]].
    + unfold logged. destruct (t_wal t) as [w|]; [|done]. exists w. cbn.
      by rewrite app_nil_r; destruct (enabled_ w).
    + exists (strip t). by split.
  - destruct (ApplyMutation_effect fuel ctx t Hwf Hfuel) as (r' & t1' & HA' & Hwf1 & HJ).
    rewrite HA in HA'. simplify_eq. destruct (HJ Hok) as (vs & cs & _ & _ & HJ1).
    destruct (IH Hwf1) as (cs2 & Ho2 & Hl2 & Hwf2 & u & Hu & He).
    exists (((vdel_ctx <$> vs) ++ cs) ++ cs2). split; [apply Forall_app; split; [apply HJ1|done]|].
    split; [|split; [done|]].
    + rewrite fmap_app. eapply logged_trans; [apply HJ1|done].
    + exists u. by rewrite redo_app, (journal_redo _ _ _ HJ1).
  - destruct (IH (strip_wf _ _ (eq_sym Hs) Hwf)) as (cs2 & Ho2 & Hl2 & Hwf2 & u & Hu & He).
    exists cs2. split_and!; try done.
    + unfold logged in *. by rewrite Hw in Hl2.
    + exists u. by rewrite <- Hs.
  - set (t1 := MutationApply.with_index t _) in *.
    destruct (get_step t vi q thr E Hwf) as [Hwf1 He1].
    destruct (IH Hwf1) as (cs2 & Ho2 & Hl2 & Hwf2 & u & Hu & He).
    exists cs2. split_and!; try done.
    destruct (redo_eqv _ _ _ _ He1 Hu) as (u' & Hu' & Hee). exists u'. split; [done|].
    etrans; [|exact He]. by symmetry.
Qed.

(** Frames are replayed up to a tail that is none. *)
Lemma Replay_tail s cs tail t u clock :
  enabled_ s = true -> is_Some (t_index t) -> is_Some (t_kv t) ->
  Forall write_ok cs -> Forall frame_fits cs -> redo cs t = Some u -> no_frame tail ->
  Replay s (Some (frames cs ++ tail)) clock t = Some (kOk, length cs, u).
Proof.
  intros He [vi Hi] [kv Hk] Hok Hf Hr Hd. unfold Replay. rewrite He, Hi, Hk. cbn [negb].
  set (data := frames cs ++ tail).
  destruct (ReadAll_content (S (length data)) data 0 None []) as [fp ->]; [lia|lia|]. cbn [app].
  rewrite drop_0. pose proof (frames_count cs Hf) as Hc.
  pose proof (Replay_frames cs (S (length data - length cs)) clock [] tail O t u Hok Hf Hr) as HR.
  cbn [app length] in HR. fold data in HR. assert (length cs <= length data)%nat by (unfold data; rewrite length_app; lia).
  replace (length cs + S (length data - length cs))%nat with (S (length data)) in HR by lia.
  rewrite HR, Nat.add_0_r. by apply Replay_stop.
Qed.

Lemma Replay_prefix s cs t u n clock :
  enabled_ s = true -> is_Some (t_index t) -> is_Some (t_kv t) ->
  Forall write_ok cs -> Forall frame_fits cs -> redo cs t = Some u ->
  exists k v, Replay s (Some (take n (frames cs))) clock t = Some (kOk, k, v) /\
    (k <= length cs)%nat /\ redo (take k cs) t = Some v /\
    (length (frames (take k cs)) <= n)%nat /\
    ((k < length cs)%nat -> (n < length (frames (take (S k) cs)))%nat).
Proof.
  intros He Hi Hk Hok Hf Hr. destruct (frames_prefix cs n Hf) as (k & tail & Hkl & Ht & Hd & Hle & Hnext).
  destruct (redo_take cs t u k Hr) as [v Hv]. exists k, v. split_and!; try done. rewrite Ht.
  rewrite (Replay_tail s (take k cs) tail t v) by (done || by apply Forall_take || by apply no_frame_more).
  by rewrite length_take_le.
Qed.

(** The whole log is replayed. *)
Lemma Replay_whole w cs t u clock :
  enabled_ w = true -> is_Some (t_index t) -> is_Some (t_kv t) -> Forall write_ok cs -> Forall frame_fits cs ->
  redo cs t = Some u -> Replay w (Some (frames cs)) clock t = Some (kOk, length cs, u).
Proof.
  intros He Hi Hk Ho Hf Hu.
  destruct (Replay_prefix w cs t u (length (frames cs)) clock He Hi Hk Ho Hf Hu)
    as (k & v & HR & Hle & Hv & Hn & Hnext).
  assert (k = length cs) as ->.
  { destruct (decide (k < length cs)%nat) as [Hlt|]; [|lia]. specialize (Hnext Hlt). exfalso.
    pose proof (frames_app (take (S k) cs) (drop (S k) cs)) as Ha. rewrite take_drop in Ha.
    rewrite Ha, length_app in Hnext. lia. }
  rewrite firstn_all in HR. rewrite firstn_all in Hv. rewrite Hu in Hv. by injection Hv as <-.
Qed.

(** Recovery after a crash is a prefix of the journalled writes.  If the
    file holds any number [n] of bytes of the log of a sequence of writes, the
    replay reports [kOk], has applied exactly the writes whose frames are
    complete within those bytes -- in order, none twice, none of the torn
    frame -- and leaves the stores those writes produce. *)
Theorem replay_torn_tail (s : WalManager) (cs : list RequestContext) (t u : Targets) (n : nat)
    (clock : nat -> Z) :
  enabled_ s = true -> is_Some (t_index t) -> is_Some (t_kv t) ->
  Forall write_ok cs -> Forall frame_fits cs -> redo cs t = Some u ->
  exists k v, Replay s (Some (take n (frames cs))) clock t = Some (kOk, k, v) /\
    (k <= length cs)%nat /\ redo (take k cs) t = Some v /\
    (length (frames (take k cs)) <= n)%nat /\
    ((k < length cs)%nat -> (n < length (frames (take (S k) cs)))%nat).
Proof. intros He Hi Hk Hok Hf Hr. by apply (Replay_prefix s cs t u n clock). Qed.

(** C4: what the log rebuilds after a crash.  Take any run of a server that logs:
    client writes with the evictions they cause, done or refused -- with any answer
    but "aof append failed" and "vset failed", unless such a refusal changed
    nothing -- and lookups.  The log has accepted the frames of a sequence [cs] of
    writes.  Let the file hold any number [n] of bytes of them (what was still
    buffered at the crash is lost).  Replaying it on the stores as they were at the
    start reports [kOk] and gives the stores after exactly the writes whose frames
    are complete in the file; when nothing was lost these are the stores at the end
    of the run, up to the access order of the cache (lookups are not logged). *)
Theorem recovery (t t2 : Targets) (es : list event) (w : WalManager) (clock : nat -> Z) :
  runs t es t2 -> targets_wf t -> t_wal t = Some w -> enabled_ w = true ->
  is_Some (t_index t) -> is_Some (t_kv t) ->
  exists cs w2, t_wal t2 = Some w2 /\ wal_log w2 = wal_log w ++ (frame_of <$> cs) /\
    (Forall frame_fits cs -> forall n,
     exists k v, Replay w (Some (take n (mjoin (frame_of <$> cs)))) clock (strip t) = Some (kOk, k, v) /\
       (k <= length cs)%nat /\ redo (take k cs) (strip t) = Some v /\
       (length (frames (take k cs)) <= n)%nat /\
       ((k < length cs)%nat -> (n < length (frames (take (S k) cs)))%nat) /\
       ((length (mjoin (frame_of <$> cs)) <= n)%nat -> k = length cs /\ eqv_targets v (strip t2))).
Proof.
  intros Hr Hwf Hw He Hi Hk. destruct (runs_journal _ _ _ Hr Hwf) as (cs & Ho & Hl & _ & u & Hu & Heq).
  unfold logged in Hl. rewrite Hw in Hl. destruct Hl as (w2 & Hw2 & _ & Hlog).
  cbn [wal_enabled manager_wal] in Hlog. rewrite He in Hlog.
  exists cs, w2. split_and!; [done|done|]. intros Hf n.
  destruct (Replay_prefix w cs (strip t) u n clock He Hi Hk Ho Hf Hu) as (k & v & HR & Hkl & Hv & Hn & Hnext).
  exists k, v. split_and!; [done..|]. intros Hall.
  assert (k = length cs) as ->; [|split; [done|rewrite firstn_all in Hv; congruence]].
  destruct (decide (k < length cs)%nat) as [Hlt|]; [|lia]. specialize (Hnext Hlt).
  pose proof (frames_app (take (S k) cs) (drop (S k) cs)) as Ha. rewrite take_drop in Ha.
  change (mjoin (frame_of <$> cs)) with (frames cs) in Hall. rewrite Ha, length_app in Hall. lia.
Qed.

End properties.

(** ** Witnesses *)

#[local] Existing Instances flat_usearch flat_laws list_repl.

(** A writer that keeps its frames in memory. *)
Definition list_writer : AofWriter := {|
  writer := list bytes;
  aof_enqueue w f := (true, w ++ [f]);
  aof_flush w := (true, w);
  aof_stop w := w;
  aof_failed _ := false;
  aof_poll w := w
|}.

#[local] Existing Instance list_writer.

#[local] Instance list_writer_laws : AofWriterLaws list_writer.
Proof. refine {| aof_log := (fun w => w) : @writer list_writer -> list bytes |}. by intros w f. Defined.

Definition demo_manager : WalManager := construct (fun _ => [] : @writer list_writer) (bs "data") true.

Definition demo_set : RequestContext :=
  mkCtx 7 kSet [] [] [] [] 0 (bs "k") (CRLF ++ bs "v") [] (-1) 0.

Definition demo_log : list RequestContext := [demo_set; vdel_ctx (bs "k1"); demo_vset "k3"].

Definition demo_start : Targets := mkTargets (Some full) (Some KvStore.empty) None None.

(** A decidable form of [frame_fits]. *)
Lemma frame_fits_check c :
  match write_tokens c with
  | Some toks => (size_of toks <=? RespDecode.kMaxTokens) && forallb (fun s => size_of s <? 2 ^ 63) toks
  | None => false
  end = true -> frame_fits c.
Proof.
  unfold frame_fits. destruct (write_tokens c) as [toks|]; [|done].
  intros [Hl Ha]%andb_true_iff. split; [by apply Z.leb_le|].
  apply Forall_elem. intros s Hs%list_elem_of_In. rewrite forallb_forall in Ha.
  apply Z.ltb_lt. by apply Ha.
Qed.

Lemma demo_log_ok : Forall write_ok demo_log /\ Forall frame_fits demo_log.
Proof.
  split.
  - unfold demo_log. rewrite !Forall_cons_iff. split_and!; done.
  - unfold demo_log. rewrite !Forall_cons_iff.
    split_and!; try done; apply frame_fits_check; vm_compute; reflexivity.
Qed.

Lemma replay_torn_tail_witness :
  exists k v, Replay demo_manager (Some (take 40 (frames demo_log))) (fun _ => 0) demo_start
      = Some (kOk, k, v) /\ redo (take k demo_log) demo_start = Some v.
Proof.
  destruct (redo demo_log demo_start) as [u|] eqn:Hr.
  - destruct (replay_torn_tail demo_manager demo_log demo_start u 40 (fun _ => 0))
      as (k & v & HR & _ & Hv & _).
    + reflexivity.
    + eauto.
    + eauto.
    + exact (proj1 demo_log_ok).
    + exact (proj2 demo_log_ok).
    + exact Hr.
    + exists k, v. split; [exact HR|exact Hv].
  - exfalso. assert (match redo demo_log demo_start with Some _ => true | None => false end = true)
      as Hs by (vm_compute; reflexivity).
    rewrite Hr in Hs. discriminate.
Defined.

Definition demo_live : Targets :=
  mkTargets (Some full) (Some KvStore.empty) (Some demo_manager) (Some [] : ptr (@repl_state list_repl)).

Definition write_step (t : Targets) (ctx : RequestContext) : Targets :=
  match ApplyMutation 4 ctx kClient t with Some (_, t1) => t1 | None => t end.

(** A new key with a vector of the wrong dimension. *)
Definition demo_bad : RequestContext :=
  mkCtx 7 kVset (bs "CCCCDDDD") (bs "k4") (bs "q4") (bs "a4") 0 [] [] [] (-1) 0.

Lemma runs_step t ctx es t2 :
  match ApplyMutation 4 ctx kClient t with Some (r, _) => in_step r | None => false end = true ->
  (nodes t + 2 <= 4)%nat -> runs (write_step t ctx) es t2 -> runs t (EWrite ctx :: es) t2.
Proof.
  unfold write_step. destruct (ApplyMutation 4 ctx kClient t) as [[r t1]|] eqn:E; [|done].
  intros Hok Hn Hr. by eapply runs_write.
Qed.

(** A VSET that evicts, then a VSET refused for its vector after it has evicted
    another node, then a SET; the file holds the first 100 bytes of the log. *)
Lemma recovery_witness :
  exists t2, runs demo_live [EWrite (demo_vset "k3"); EWrite demo_bad; EWrite demo_set] t2 /\
    exists cs w2, t_wal t2 = Some w2 /\ wal_log w2 = wal_log demo_manager ++ (frame_of <$> cs) /\
      (Forall frame_fits cs ->
       exists k v, Replay demo_manager (Some (take 100 (mjoin (frame_of <$> cs)))) (fun _ => 0) (strip demo_live)
           = Some (kOk, k, v) /\ redo (take k cs) (strip demo_live) = Some v).
Proof.
  set (t1 := write_step (write_step demo_live (demo_vset "k3")) demo_bad).
  assert (runs demo_live [EWrite (demo_vset "k3"); EWrite demo_bad; EWrite demo_set] (write_step t1 demo_set)) as Hr.
  { apply runs_step; [vm_compute; reflexivity|vm_compute; lia|].
    apply runs_step; [vm_compute; reflexivity|vm_compute; lia|].
    apply runs_step; [vm_compute; reflexivity|vm_compute; lia|]. apply runs_nil. }
  exists (write_step t1 demo_set). split; [exact Hr|].
  destruct (recovery demo_live (write_step t1 demo_set) [EWrite (demo_vset "k3"); EWrite demo_bad; EWrite demo_set] demo_manager (fun _ => 0) Hr)
    as (cs & w2 & Hw & Hl & HR).
  - split; [apply full_ok|]. split; [apply full_ok|vm_compute; discriminate].
  - reflexivity.
  - reflexivity.
  - eauto.
  - eauto.
  - exists cs, w2. split; [exact Hw|]. split; [exact Hl|]. intros Hf.
    destruct (HR Hf 100%nat) as (k & v & H1 & _ & H2 & _). exists k, v. split; [exact H1|exact H2].
Defined.
