(* ===== verification/MessageBuffer.v ===== *)
(** * MessageBuffer: the read buffer of a connection

    Models include/vemory/net/MessageBuffer.h. *)

From S2P Require Import Prelude.
From S2P Require Import RespDecode.

Record MessageBuffer := mkBuffer { buf_ : bytes }.

Definition empty : MessageBuffer := mkBuffer [].

(** What [recv] reported: bytes, or a value that is not positive with [errno]. *)
Inductive RecvResult := Received (data : bytes) | NotReceived (n : Z) (errno : Z).

(** [Recv(fd, &err)]: the result, [*err] and the buffer. *)
Definition Recv (s : MessageBuffer) (r : RecvResult) (err : ptr Z) : Z * ptr Z * MessageBuffer :=
  match r with
  | Received data =>
      if 0 <? size_of data then (size_of data, err, mkBuffer (buf_ s ++ data))
      else (0, match err with Some _ => Some 0 | None => None end, s)
  | NotReceived n e =>
      (n, match err with Some _ => Some (if n =? 0 then 0 else e) | None => None end, s)
  end.

(** The line before the first CRLF; [None] is [{nullptr, 0}]. *)
Definition GetDataUntilCRLF (s : MessageBuffer) : option bytes :=
  match FindCRLF (buf_ s) 0 with
  | None => None
  | Some pos => Some (take pos (buf_ s))
  end.

(** [None] is [{nullptr, 0}]. *)
Definition GetAllData (s : MessageBuffer) : option bytes :=
  if is_empty (buf_ s) then None else Some (buf_ s).

Definition ReadCompleted (s : MessageBuffer) (n : nat) : MessageBuffer :=
  if (length (buf_ s) <=? n)%nat then mkBuffer []
  else if (0 <? n)%nat then mkBuffer (drop n (buf_ s)) else s.

Definition Size (s : MessageBuffer) : Z := size_of (buf_ s).

Lemma ReadCompleted_drop s n : buf_ (ReadCompleted s n) = drop n (buf_ s).
Proof.
  unfold ReadCompleted. destruct (Nat.leb_spec (length (buf_ s)) n); cbn; [by rewrite drop_ge|].
  by destruct n.
Qed.
