(* ===== verification/ProtocolExecutor.v ===== *)
(** * ProtocolExecutor: the parse loop of a connection

    Models include/vemory/protocol/ProtocolExecutor.h,
    src/protocol/ProtocolExecutor.cc, and the handler it calls,
    include/vemory/protocol/resp/RespProtocolHandler.h and
    src/protocol/resp/RespProtocolHandler.cc.  The callbacks run on a [World]
    (what the dispatcher, the socket and the clock act on). *)

From S2P Require Import Prelude.
From S2P Require Import CommandType.
From S2P Require Import RequestContext.
From S2P Require Import RespEncode.
From S2P Require Import RespDecode.
From S2P Require Import MessageBuffer.

(** [RespProtocolHandler::Status].  [thrown] is not a status of the code: the call
    ends in the exception of [RespDecode.Status] instead of returning. *)
Inductive Status := kOk | kNeedMore | kError | thrown.

(** [TryParse]: the status, [*out] and [*consumed]; the buffer is only read.
    [now] is the reading of the steady clock. *)
Definition TryParse (client_fd now : Z) (buf : MessageBuffer) (out : ptr RequestContext)
    (consumed : ptr nat) : Status * ptr RequestContext * ptr nat :=
  match out, consumed with
  | Some _, Some c =>
      match GetAllData buf with
      | None => (kNeedMore, out, consumed)
      | Some all =>
          match DecodeArrayOfBulk (Some all) (Some []) (Some c) with
          | (RespDecode.kNeedMore, _, consumed) => (kNeedMore, out, consumed)
          | (RespDecode.kError, _, consumed) => (kError, out, consumed)
          | (RespDecode.thrown, _, consumed) => (thrown, out, consumed)
          | (RespDecode.kOk, tokens, consumed) =>
              let '(_, out) := FromTokens client_fd now (default [] tokens) out in
              (kOk, out, consumed)
          end
      end
  | _, _ => (kError, out, consumed)
  end.

Section ProtocolExecutor.
Context {World : Type}.

(** The callbacks ([None] is an empty [std::function] or handler pointer);
    [clock] reads the steady clock. *)
Record ProtocolExecutor := mkExecutor {
  handler_ : option unit;
  on_ok_ : option (RequestContext -> World -> bytes * World);
  on_write_ : option (bytes -> World -> World);
  on_error_ : option (World -> World);
  clock : World -> Z
}.

(** The lambda [flush]: the batch and the world. *)
Definition flush (e : ProtocolExecutor) (batch : bytes) (w : World) : bytes * World :=
  match on_write_ e with
  | Some write => if is_empty batch then (batch, w) else ([], write batch w)
  | None => (batch, w)
  end.

(** [None]: an exception ends the process (or the fuel is out, which
    [executor_serves] excludes); the batch is not written then. *)
Fixpoint OnBufferReadable_loop (fuel : nat) (e : ProtocolExecutor)
    (on_ok : RequestContext -> World -> bytes * World) (client_fd : Z)
    (buf : MessageBuffer) (batch : bytes) (w : World) : option (MessageBuffer * World) :=
  match fuel with
  | O => None
  | S fuel =>
      match TryParse client_fd (clock e w) buf (Some default_ctx) (Some O) with
      | (kNeedMore, _, _) => Some (buf, (flush e batch w).2)
      | (thrown, _, _) => None
      | (kError, _, _) =>
          let w := (flush e batch w).2 in
          Some (buf, match on_error_ e with Some err => err w | None => w end)
      | (kOk, ctx, consumed) =>
          let buf := ReadCompleted buf (default O consumed) in
          let '(reply, w) := on_ok (default default_ctx ctx) w in
          let batch := if is_empty reply then batch else batch ++ reply in
          OnBufferReadable_loop fuel e on_ok client_fd buf batch w
      end
  end.

(** Every round consumes at least one byte, so the size of the buffer plus one
    bounds the number of rounds ([loop_serve]). *)
Definition OnBufferReadable (e : ProtocolExecutor) (client_fd : Z) (buf : MessageBuffer) (w : World)
    : option (MessageBuffer * World) :=
  match handler_ e, on_ok_ e with
  | Some _, Some on_ok =>
      OnBufferReadable_loop (S (length (buf_ buf))) e on_ok client_fd buf [] w
  | _, _ => Some (buf, w)
  end.

(** ** The stream of commands *)

(** The dispatcher of a connection, as a function of its state: what the
    sequence of complete commands at the front of [data] does.  The result is
    the replies in order, the state, what is left of the data, and why no command
    is taken from it: it is the start of one, it is no command, or the decoder
    throws. *)
Inductive Stop := Waits | Bad | Throws.

#[export] Instance Stop_eq_dec : EqDecision Stop.
Proof. solve_decision. Defined.

Fixpoint serve (fuel : nat) (on_ok : RequestContext -> World -> bytes * World) (clk : World -> Z) (fd : Z)
    (data : bytes) (w : World) : bytes * World * bytes * Stop :=
  match fuel with
  | O => ([], w, data, Waits)
  | S fuel =>
      match decode data with
      | (RespDecode.kNeedMore, _, _) => ([], w, data, Waits)
      | (RespDecode.kError, _, _) => ([], w, data, Bad)
      | (RespDecode.thrown, _, _) => ([], w, data, Throws)
      | (RespDecode.kOk, tokens, n) =>
          let ctx := default default_ctx (FromTokens fd (clk w) tokens (Some default_ctx)).2 in
          let '(reply, w) := on_ok ctx w in
          let '(replies, w, rest, stop) := serve fuel on_ok clk fd (drop n data) w in
          (reply ++ replies, w, rest, stop)
      end
  end.

(** With fuel for every byte. *)
Definition serve_all on_ok clk fd (data : bytes) w := serve (S (length data)) on_ok clk fd data w.

(** ** Lemmas *)

Lemma TryParse_decode fd now buf :
  TryParse fd now buf (Some default_ctx) (Some O) =
    match decode (buf_ buf) with
    | (RespDecode.kNeedMore, _, _) => (kNeedMore, Some default_ctx, Some O)
    | (RespDecode.kError, _, _) => (kError, Some default_ctx, Some O)
    | (RespDecode.thrown, _, _) => (thrown, Some default_ctx, Some O)
    | (RespDecode.kOk, tokens, n) =>
        (kOk, (FromTokens fd now tokens (Some default_ctx)).2, Some n)
    end.
Proof.
  unfold TryParse, GetAllData. destruct (is_empty (buf_ buf)) eqn:He.
  { apply is_empty_true in He. by rewrite He. }
  unfold decode, DecodeArrayOfBulk. destruct (buf_ buf) as [|c data]; [done|].
  destruct (negb _); [done|].
  destruct (ParseIntegerLine _ _) as [[count p]|]; [|by destruct (FindCRLF _ _)].
  destruct (count <? 0); [done|]. destruct (kMaxTokens <? count); [done|].
  destruct (DecodeLoop _ _ _ _) as [[[] toks] q]; cbn; try done.
  by destruct toks; [|destruct (bool_decide _); [|destruct (FromTokens_switch _ _ _ _)]].
Qed.

Lemma decode_progress data toks n :
  decode data = (RespDecode.kOk, toks, n) -> (length (drop n data) < length data)%nat.
Proof. intros H. pose proof (decode_consumed _ _ _ H). rewrite length_drop. lia. Qed.

(** More fuel than bytes changes nothing. *)
Lemma serve_fuel f1 f2 on_ok clk fd data w :
  (length data < f1)%nat -> (length data < f2)%nat ->
  serve f1 on_ok clk fd data w = serve f2 on_ok clk fd data w.
Proof.
  revert f2 data w. induction f1 as [|f1 IH]; intros [|f2] data w H1 H2; try lia. cbn [serve].
  destruct (decode data) as [[[] toks] n] eqn:E; try done.
  apply decode_progress in E. destruct (on_ok _ w) as [reply w'].
  by rewrite (IH f2) by lia.
Qed.

Lemma serve_all_step on_ok clk fd data w toks n :
  decode data = (RespDecode.kOk, toks, n) ->
  serve_all on_ok clk fd data w =
    let ctx := default default_ctx (FromTokens fd (clk w) toks (Some default_ctx)).2 in
    let '(reply, w) := on_ok ctx w in
    let '(replies, w, rest, stop) := serve_all on_ok clk fd (drop n data) w in
    (reply ++ replies, w, rest, stop).
Proof.
  intros E. pose proof (decode_progress _ _ _ E). unfold serve_all. cbn [serve]. rewrite E.
  destruct (on_ok _ w) as [reply w']. by rewrite (serve_fuel (length data) (S (length (drop n data)))) by lia.
Qed.

(** Serving a stream that arrives in two pieces. *)
Lemma serve_all_app on_ok clk fd a b w :
  let '(r1, w1, rest, stop) := serve_all on_ok clk fd a w in
  stop = Waits ->
  serve_all on_ok clk fd (a ++ b) w =
    let '(r2, w2, rest2, stop2) := serve_all on_ok clk fd (rest ++ b) w1 in
    (r1 ++ r2, w2, rest2, stop2).
Proof.
  remember (length a) as k eqn:Hk. revert a w Hk.
  induction (lt_wf k) as [k _ IH]. intros a w ->.
  destruct (decode a) as [[st toks] n] eqn:E. destruct st.
  - rewrite (serve_all_step _ _ _ _ _ _ _ E).
    assert (decode (a ++ b) = (RespDecode.kOk, toks, n)) as E' by (rewrite decode_app; by rewrite E).
    rewrite (serve_all_step _ _ _ _ _ _ _ E'). cbn zeta.
    destruct (on_ok _ w) as [reply w'].
    pose proof (decode_consumed _ _ _ E) as Hn. rewrite drop_app_le by lia.
    specialize (IH (length (drop n a)) ltac:(by apply decode_progress in E) (drop n a) w' eq_refl).
    destruct (serve_all on_ok clk fd (drop n a) w') as [[[r1 w1] rest] err]. intros Herr.
    rewrite (IH Herr). destruct (serve_all _ _ _ (rest ++ b) w1) as [[[r2 w2] rest2] err2].
    by rewrite app_assoc.
  - unfold serve_all at 1. cbn [serve]. rewrite E. intros _.
    by destruct (serve_all _ _ _ (a ++ b) w) as [[[r2 w2] rest2] err2].
  - unfold serve_all at 1. cbn [serve]. by rewrite E.
  - unfold serve_all at 1. cbn [serve]. by rewrite E.
Qed.

Lemma loop_serve fuel e on_ok fd buf batch w :
  (length (buf_ buf) < fuel)%nat ->
  OnBufferReadable_loop fuel e on_ok fd buf batch w =
    let '(replies, w, rest, stop) := serve fuel on_ok (clock e) fd (buf_ buf) w in
    let w := (flush e (batch ++ replies) w).2 in
    match stop with
    | Waits => Some (mkBuffer rest, w)
    | Bad => Some (mkBuffer rest, match on_error_ e with Some f => f w | None => w end)
    | Throws => None
    end.
Proof.
  revert buf batch w. induction fuel as [|fuel IH]; intros buf batch w Hf; [lia|].
  cbn [OnBufferReadable_loop serve]. rewrite TryParse_decode.
  destruct (decode (buf_ buf)) as [[st toks] n] eqn:E. destruct st.
  - pose proof (decode_progress _ _ _ E). cbn [default from_option id].
    change (from_option id default_ctx ?x) with (default default_ctx x).
    destruct (on_ok _ w) as [reply w']. rewrite IH by (rewrite ReadCompleted_drop; lia).
    rewrite ReadCompleted_drop. destruct (serve fuel _ _ _ _ w') as [[[rs w1] rest] err].
    assert ((if is_empty reply then batch else batch ++ reply) = batch ++ reply) as ->
      by (destruct reply; cbn; by rewrite ?app_nil_r).
    by rewrite <- app_assoc.
  - rewrite app_nil_r. by destruct buf.
  - rewrite app_nil_r. by destruct buf.
  - done.
Qed.

(** What is left waiting asks for more. *)
Lemma serve_all_rest on_ok clk fd a w r w' rest :
  serve_all on_ok clk fd a w = (r, w', rest, Waits) ->
  exists n : list bytes * nat, decode rest = (RespDecode.kNeedMore, n.1, n.2).
Proof.
  remember (length a) as k eqn:Hk. revert a w r Hk.
  induction (lt_wf k) as [k _ IH]. intros a w r ->.
  destruct (decode a) as [[st toks] n] eqn:E. destruct st.
  - rewrite (serve_all_step _ _ _ _ _ _ _ E). cbn zeta. destruct (on_ok _ w) as [reply w1].
    destruct (serve_all on_ok clk fd (drop n a) w1) as [[[r1 w2] rest1] err] eqn:Es.
    intros. simplify_eq. eapply (IH (length (drop n a))); [by apply decode_progress in E|done|done].
  - unfold serve_all. cbn [serve]. rewrite E. intros. simplify_eq. by exists (toks, n).
  - unfold serve_all. cbn [serve]. by rewrite E.
  - unfold serve_all. cbn [serve]. by rewrite E.
Qed.

(** An error or an exception is final: bytes that arrive later change nothing. *)
Lemma serve_all_error on_ok clk fd a b w :
  let '(r1, w1, rest, stop) := serve_all on_ok clk fd a w in
  stop <> Waits -> serve_all on_ok clk fd (a ++ b) w = (r1, w1, rest ++ b, stop).
Proof.
  remember (length a) as k eqn:Hk. revert a w Hk.
  induction (lt_wf k) as [k _ IH]. intros a w ->.
  destruct (decode a) as [[st toks] n] eqn:E. destruct st.
  - rewrite (serve_all_step _ _ _ _ _ _ _ E).
    assert (decode (a ++ b) = (RespDecode.kOk, toks, n)) as E' by (rewrite decode_app; by rewrite E).
    rewrite (serve_all_step _ _ _ _ _ _ _ E'). cbn zeta.
    destruct (on_ok _ w) as [reply w'].
    pose proof (decode_consumed _ _ _ E) as Hn. rewrite drop_app_le by lia.
    specialize (IH (length (drop n a)) ltac:(by apply decode_progress in E) (drop n a) w' eq_refl).
    destruct (serve_all on_ok clk fd (drop n a) w') as [[[r1 w1] rest] err]. intros Herr.
    by rewrite (IH Herr).
  - unfold serve_all at 1. cbn [serve]. by rewrite E.
  - unfold serve_all at 1. cbn [serve]. rewrite E. intros _.
    assert (decode (a ++ b) = (RespDecode.kError, toks, n)) as E' by (rewrite decode_app; by rewrite E).
    unfold serve_all. cbn [serve]. by rewrite E'.
  - unfold serve_all at 1. cbn [serve]. rewrite E. intros _.
    assert (decode (a ++ b) = (RespDecode.thrown, toks, n)) as E' by (rewrite decode_app; by rewrite E).
    unfold serve_all. cbn [serve]. by rewrite E'.
Qed.

End ProtocolExecutor.

(** ** Properties *)

(** C34: one call of [OnBufferReadable] has dispatched exactly the complete
    commands at the front of the buffer, in order and once each.  Unless the
    decoder throws on what follows them (a header that announces more elements than
    a vector can hold), which ends the process, the call returns, has written all
    their replies in one write (none if they are empty), keeps exactly the bytes
    after the last complete command, and reports an error exactly when those bytes
    cannot be the start of a command. *)
Theorem executor_serves {World} (e : @ProtocolExecutor World) (fd : Z) (buf : MessageBuffer) (w : World) :
  match handler_ e, on_ok_ e with
  | Some _, Some on_ok =>
      let '(replies, w1, rest, stop) := serve_all on_ok (clock e) fd (buf_ buf) w in
      let w2 := match on_write_ e with
                | Some write => if is_empty replies then w1 else write replies w1
                | None => w1
                end in
      OnBufferReadable e fd buf w =
        match stop with
        | Waits => Some (mkBuffer rest, w2)
        | Bad => Some (mkBuffer rest, match on_error_ e with Some report => report w2 | None => w2 end)
        | Throws => None
        end
  | _, _ => OnBufferReadable e fd buf w = Some (buf, w)
  end.
Proof.
  unfold OnBufferReadable. destruct (handler_ e); [|done]. destruct (on_ok_ e) as [on_ok|]; [|done].
  rewrite loop_serve by lia. unfold serve_all.
  destruct (serve _ _ _ _ _ _) as [[[replies w1] rest] stop]. cbn [app]. unfold flush.
  destruct (on_write_ e); [destruct (is_empty replies)|]; cbn; by destruct stop, (on_error_ e).
Qed.

Section fragmentation.
Context {D : Type} (dispatch : RequestContext -> D -> bytes * D) (clk : D -> Z) (fd : Z) (line : bytes).

(** A connection: its dispatcher's state and the bytes written to its socket;
    the error callback writes [line] and leaves the connection open. *)
Definition connection : ProtocolExecutor := {|
  handler_ := Some tt;
  on_ok_ := Some (fun ctx (w : D * bytes) =>
    let '(d, out) := w in let '(reply, d) := dispatch ctx d in (reply, (d, out)));
  on_write_ := Some (fun b w => let '(d, out) := w in (d, out ++ b));
  on_error_ := Some (fun w => let '(d, out) := w in (d, out ++ line));
  clock := fun w => clk w.1
|}.

(** [Recv] appends each piece, then the executor runs. *)
Fixpoint receive (pieces : list bytes) (buf : MessageBuffer) (w : D * bytes) : option (MessageBuffer * (D * bytes)) :=
  match pieces with
  | [] => Some (buf, w)
  | p :: pieces =>
      let '(_, _, buf) := Recv buf (Received p) None in
      match OnBufferReadable connection fd buf w with
      | Some (buf, w) => receive pieces buf w
      | None => None
      end
  end.

Lemma Recv_append buf p : (Recv buf (Received p) None).2 = mkBuffer (buf_ buf ++ p).
Proof.
  unfold Recv. destruct (Z.ltb_spec 0 (size_of p)); [done|]. cbn.
  destruct p; [rewrite app_nil_r; by destruct buf|]. unfold size_of in *. cbn in *. lia.
Qed.

(** The dispatcher does not look at the socket. *)
Lemma serve_connection fuel data d out :
  serve fuel (fun ctx (w : D * bytes) => let '(d, out) := w in let '(reply, d) := dispatch ctx d in (reply, (d, out)))
    (fun w => clk w.1) fd data (d, out) =
  let '(r, d', rest, stop) := serve fuel dispatch clk fd data d in (r, (d', out), rest, stop).
Proof.
  revert data d. induction fuel as [|fuel IH]; intros data d; [done|]. cbn [serve fst snd].
  destruct (decode data) as [[[] toks] n]; try done.
  destruct (dispatch _ d) as [reply d']. rewrite IH.
  by destruct (serve fuel dispatch clk fd (drop n data) d') as [[[? ?] ?] ?].
Qed.

Lemma receive_one p pieces buf d out :
  receive (p :: pieces) buf (d, out) =
    let '(r, d', rest, stop) := serve_all dispatch clk fd (buf_ buf ++ p) d in
    match stop with
    | Throws => None
    | _ => receive pieces (mkBuffer rest) (d', out ++ r ++ if decide (stop = Bad) then line else [])
    end.
Proof.
  cbn [receive]. pose proof (Recv_append buf p) as HR.
  destruct (Recv buf (Received p) None) as [[? ?] b]. cbn in HR. subst b.
  unfold OnBufferReadable. cbn [handler_ on_ok_ connection]. rewrite loop_serve by (cbn; lia).
  cbn [buf_ clock connection]. rewrite serve_connection. unfold serve_all.
  destruct (serve _ dispatch _ _ _ _) as [[[r d'] rest] stop]. cbn.
  unfold flush. cbn. destruct r; cbn; rewrite ?app_nil_r; destruct stop; cbn; by rewrite ?app_nil_r, <- ?app_assoc.
Qed.

(** How many of the reads that deliver [pieces] to a connection that has kept [pre]
    find bytes that are no command. *)
Fixpoint bad_reads (pre : bytes) (pieces : list bytes) (d : D) : nat :=
  match pieces with
  | [] => O
  | p :: pieces =>
      (if decide ((serve_all dispatch clk fd (pre ++ p) d).2 = Bad) then 1 else 0)
        + bad_reads (pre ++ p) pieces d
  end.

Lemma bad_reads_ext a b pieces d1 d2 :
  (forall x, (serve_all dispatch clk fd (a ++ x) d1).2 = (serve_all dispatch clk fd (b ++ x) d2).2) ->
  bad_reads a pieces d1 = bad_reads b pieces d2.
Proof.
  revert a b. induction pieces as [|p pieces IH]; intros a b H; [done|]. cbn [bad_reads].
  rewrite (H p), (IH (a ++ p) (b ++ p)); [done|]. intros x. by rewrite <- !app_assoc, H.
Qed.

(** Once the bytes are no command, every read finds them. *)
Lemma bad_reads_bad a pieces d :
  (serve_all dispatch clk fd a d).2 = Bad -> bad_reads a pieces d = length pieces.
Proof.
  revert a. induction pieces as [|p pieces IH]; intros a H; [done|]. cbn [bad_reads length].
  assert ((serve_all dispatch clk fd (a ++ p) d).2 = Bad) as Hp.
  { pose proof (serve_all_error dispatch clk fd a p d) as He.
    destruct (serve_all dispatch clk fd a d) as [[[r1 w1] rest] stop]. cbn in H. subst stop. by rewrite He. }
  rewrite Hp, (IH _ Hp). by case_decide.
Qed.

(** After an error every piece gets the error line, and is kept. *)
Lemma receive_bad pieces data d out toks n :
  decode data = (RespDecode.kError, toks, n) ->
  receive pieces (mkBuffer data) (d, out) =
    Some (mkBuffer (data ++ mjoin pieces), (d, out ++ mjoin (replicate (length pieces) line))).
Proof.
  revert data out. induction pieces as [|p pieces IH]; intros data out E; [cbn; by rewrite !app_nil_r|].
  rewrite receive_one. cbn [buf_].
  assert (decode (data ++ p) = (RespDecode.kError, toks, n)) as E' by (rewrite decode_app; by rewrite E).
  unfold serve_all. cbn [serve]. rewrite E', (IH _ _ E'). cbn. by rewrite !app_assoc.
Qed.

(** What is left with an error is no start of a command. *)
Lemma serve_all_bad a d r d' rest :
  serve_all dispatch clk fd a d = (r, d', rest, Bad) -> exists toks n, decode rest = (RespDecode.kError, toks, n).
Proof.
  remember (length a) as k eqn:Hk. revert a d r Hk.
  induction (lt_wf k) as [k _ IH]. intros a d r ->.
  destruct (decode a) as [[st toks] n] eqn:E. destruct st.
  - rewrite (serve_all_step _ _ _ _ _ _ _ E). cbn zeta. destruct (dispatch _ d) as [reply w1].
    destruct (serve_all dispatch clk fd (drop n a) w1) as [[[r1 w2] rest1] err] eqn:Es.
    intros. simplify_eq. eapply (IH (length (drop n a))); [by apply decode_progress in E|done|done].
  - unfold serve_all. cbn [serve]. by rewrite E.
  - unfold serve_all. cbn [serve]. rewrite E. intros. simplify_eq. eauto.
  - unfold serve_all. cbn [serve]. by rewrite E.
Qed.

Lemma receive_all pieces buf d out :
  (exists n : list bytes * nat, decode (buf_ buf) = (RespDecode.kNeedMore, n.1, n.2)) ->
  let '(r, d', rest, stop) := serve_all dispatch clk fd (buf_ buf ++ mjoin pieces) d in
  let k := bad_reads (buf_ buf) pieces d in
  receive pieces buf (d, out) =
    (if decide (stop = Throws) then None else Some (mkBuffer rest, (d', out ++ r ++ mjoin (replicate k line)))) /\
  match stop with Waits => k = 0%nat | Bad => (1 <= k <= length pieces)%nat | Throws => True end.
Proof.
  revert buf d out. induction pieces as [|p pieces IH]; intros buf d out Hn.
  { destruct Hn as [n Hn]. cbn [mjoin list_join]. rewrite app_nil_r. unfold serve_all. cbn [serve]. rewrite Hn.
    cbn. rewrite !app_nil_r. by destruct buf. }
  change (mjoin (p :: pieces)) with (p ++ mjoin pieces). rewrite app_assoc.
  pose proof (receive_one p pieces buf d out) as HR. cbn [bad_reads].
  destruct (serve_all dispatch clk fd (buf_ buf ++ p) d) as [[[r1 d1] rest1] stop1] eqn:Es. cbn [snd].
  pose proof (serve_all_error dispatch clk fd (buf_ buf ++ p) (mjoin pieces) d) as He.
  pose proof (fun x => serve_all_app dispatch clk fd (buf_ buf ++ p) x d) as Ha.
  rewrite Es in He, Ha. destruct stop1.
  - rewrite (Ha (mjoin pieces) eq_refl).
    assert (bad_reads (buf_ buf ++ p) pieces d = bad_reads rest1 pieces d1) as ->.
    { apply bad_reads_ext. intros x. rewrite (Ha x eq_refl).
      by destruct (serve_all dispatch clk fd (rest1 ++ x) d1) as [[[? ?] ?] ?]. }
    specialize (IH (mkBuffer rest1) d1 (out ++ r1 ++ []) (serve_all_rest _ _ _ _ _ _ _ _ Es)). cbn [buf_] in IH.
    destruct (serve_all dispatch clk fd (rest1 ++ mjoin pieces) d1) as [[[r2 d2] rest2] stop2].
    destruct IH as [IH Hk]. rewrite HR. destruct (decide (Waits = Bad)) as [|_]; [done|]. rewrite IH, app_nil_r.
    cbn [Nat.add]. split; [by rewrite !app_assoc|]. destruct stop2; [done|cbn [length]; lia|done].
  - rewrite (He ltac:(done)). destruct (serve_all_bad _ _ _ _ _ Es) as (toks & n & Hb).
    rewrite (bad_reads_bad (buf_ buf ++ p) pieces d) by (by rewrite Es).
    rewrite HR, (receive_bad _ _ _ _ _ _ Hb). destruct (decide (Bad = Bad)) as [_|]; [|done].
    destruct (decide (Bad = Throws)); [done|]. cbn [Nat.add length replicate].
    change (mjoin (line :: replicate (length pieces) line)) with (line ++ mjoin (replicate (length pieces) line)).
    split; [by rewrite <- !app_assoc|lia].
  - rewrite (He ltac:(done)), HR. by destruct (decide (Throws = Throws)).
Qed.

(** C19: how TCP cuts the stream does not matter.  However the bytes of a
    connection arrive in pieces, the dispatcher ends in the same state, the same
    replies are written, and the same bytes are kept as if all had arrived at once
    -- or the process is ended by the same exception, if the bytes contain a header
    that makes the decoder throw.  Only the error line tells.  It is written once
    for every read that finds, of all that has arrived so far, bytes that are no
    command: not at all if everything is the start of a stream of commands, and
    otherwise once for the read that completes the bytes that are none and once for
    every later one, as these bytes stay where they are. *)
Theorem fragmentation_irrelevant (pieces : list bytes) (d : D) :
  let '(r, d', rest, stop) := serve_all dispatch clk fd (mjoin pieces) d in
  let k := bad_reads [] pieces d in
  receive pieces empty (d, []) =
    (if decide (stop = Throws) then None else Some (mkBuffer rest, (d', r ++ mjoin (replicate k line)))) /\
  receive [mjoin pieces] empty (d, []) =
    (if decide (stop = Throws) then None else Some (mkBuffer rest, (d', r ++ if decide (stop = Bad) then line else []))) /\
  match stop with Waits => k = 0%nat | Bad => (1 <= k <= length pieces)%nat | Throws => True end.
Proof.
  assert (exists n : list bytes * nat, decode (buf_ empty) = (RespDecode.kNeedMore, n.1, n.2)) as Hn
    by (by exists ([], O)).
  pose proof (receive_all pieces empty d [] Hn) as H1.
  pose proof (receive_all [mjoin pieces] empty d [] Hn) as H2.
  assert (mjoin [mjoin pieces] = mjoin pieces) as Hj by (cbn; by rewrite app_nil_r).
  rewrite Hj in H2. cbn [buf_ empty app bad_reads] in H1, H2.
  destruct (serve_all dispatch clk fd (mjoin pieces) d) as [[[r d'] rest] stop].
  destruct H1 as (H1 & Hk), H2 as (H2 & Hk'). split; [exact H1|]. split; [|exact Hk].
  rewrite H2. cbn [snd]. destruct (decide (stop = Throws)); [done|]. destruct (decide (stop = Bad)); cbn; by rewrite ?app_nil_r.
Qed.

End fragmentation.
