(* ===== verification/RdbFormat.v ===== *)
(** * RdbFormat: the header of a snapshot file

    Models include/vemory/persist/RdbFormat.h and the header members of
    src/persist/SnapshotManager.cc (WriteHeader, ReadHeader), which declare the
    same layout: 96 bytes, little endian. *)

From S2P Require Import Prelude.
From S2P Require Import Stdio.

Record TocEntry := mkToc { toc_offset : Z; toc_length : Z }.

Record Header := mkHeader {
  version : Z;
  flags : Z;
  dim : Z;
  next_id : Z;
  pad : Z;
  kv_count : Z;
  node_count : Z;
  toc_kv : TocEntry;
  toc_nodes : TocEntry;
  toc_usearch : TocEntry
}.

Definition default_toc : TocEntry := mkToc 0 0.
Definition default_header : Header :=
  mkHeader 3 0 0 1 0 0 0 default_toc default_toc default_toc.

Definition kMagic : bytes := bs "VEMORYDB".
Definition kVersion : Z := 3.
Definition kHeaderBytes : nat := 96.
Definition kFlagHasUsearch : Z := 1.

Inductive ParseStatus := kOk | kBadValue | kIoError | kError.

(** The fields in file order, and their sizes. *)
Definition toc_bytes (e : TocEntry) : bytes :=
  le_encode 8 (toc_offset e) ++ le_encode 8 (toc_length e).

Definition header_fields (h : Header) : list bytes :=
  [kMagic; le_encode 4 (version h); le_encode 4 (flags h); le_encode 8 (dim h);
   le_encode 4 (next_id h); le_encode 4 (pad h); le_encode 8 (kv_count h);
   le_encode 8 (node_count h);
   toc_bytes (toc_kv h) ++ toc_bytes (toc_nodes h) ++ toc_bytes (toc_usearch h)].

Definition field_sizes : list nat := [8; 4; 4; 8; 4; 4; 8; 8; 48]%nat.

(** Copying the [i]-th eight bytes of the table into an integer. *)
Definition toc_word (data : bytes) (i : nat) : Z := le_decode (sub (8 * i) 8 data).

Definition header_of_fields (f : list bytes) : option (bytes * Header) :=
  match f with
  | [magic; v; fl; d; nx; pd; kc; nc; toc] =>
      Some (magic,
        mkHeader (le_decode v) (le_decode fl) (le_decode d) (le_decode nx) (le_decode pd)
          (le_decode kc) (le_decode nc)
          (mkToc (toc_word toc 0) (toc_word toc 1)) (mkToc (toc_word toc 2) (toc_word toc 3))
          (mkToc (toc_word toc 4) (toc_word toc 5)))
  | _ => None
  end.

(** ** [WriteHeader] and [ReadHeader] of SnapshotManager *)

(** A chain [WriteExact(..) && WriteExact(..) && ...]. *)
Fixpoint WriteAll (l : list bytes) (fp : File) : bool * File :=
  match l with
  | [] => (true, fp)
  | d :: l =>
      let '(ok, fp) := WriteExact d fp in
      if ok then WriteAll l fp else (false, fp)
  end.

(** A chain [ReadExact(..) && ReadExact(..) && ...]. *)
Fixpoint ReadAllFields (sizes : list nat) (fp : File) : option (list bytes) * File :=
  match sizes with
  | [] => (Some [], fp)
  | n :: sizes =>
      match ReadExact n fp with
      | (None, fp) => (None, fp)
      | (Some d, fp) =>
          match ReadAllFields sizes fp with
          | (Some l, fp) => (Some (d :: l), fp)
          | (None, fp) => (None, fp)
          end
      end
  end.

Definition WriteHeader (fp : ptr File) (h : Header) : ParseStatus * ptr File :=
  match fp with
  | None => (kBadValue, fp)
  | Some f =>
      let '(ok, f) := fseek 0 f in
      if negb ok then (kIoError, Some f)
      else
        let '(ok, f) := WriteAll (header_fields h) f in
        (if ok then kOk else kIoError, Some f)
  end.

Definition ReadHeader (fp : ptr File) (out : ptr Header) : ParseStatus * ptr Header * ptr File :=
  match fp, out with
  | Some f, Some _ =>
      let '(ok, f) := fseek 0 f in
      if negb ok then (kIoError, out, Some f)
      else
        match ReadAllFields field_sizes f with
        | (None, f) => (kIoError, out, Some f)
        | (Some fields, f) =>
            match header_of_fields fields with
            | Some (magic, h) =>
                if negb (beq magic kMagic) || negb (version h =? kVersion)
                then (kError, out, Some f) else (kOk, Some h, Some f)
            | None => (kIoError, out, Some f)
            end
        end
  | _, _ => (kBadValue, out, fp)
  end.

(** ** [rdb::ParseHeader] *)

(** The lambda [take], once per field. *)
Fixpoint take_fields (sizes : list nat) (off : nat) (data : bytes) : list bytes :=
  match sizes with
  | [] => []
  | n :: sizes => sub off n data :: take_fields sizes (off + n) data
  end.

Definition toc_in_bounds (e : TocEntry) (size : Z) : bool :=
  (toc_length e =? 0) ||
  negb ((size <? toc_offset e) || (u64 (size - toc_offset e) <? toc_length e)).

(** [data] points to [size] bytes, or is null. *)
Definition ParseHeader (data : ptr bytes) (out : ptr Header) : ParseStatus * ptr Header :=
  match data, out with
  | Some d, Some _ =>
      if (length d <? kHeaderBytes)%nat then (kIoError, out)
      else
        match header_of_fields (take_fields field_sizes 0 d) with
        | Some (magic, h) =>
            if negb (beq magic kMagic) || negb (version h =? kVersion) then (kError, out)
            else if toc_in_bounds (toc_kv h) (size_of d) && toc_in_bounds (toc_nodes h) (size_of d)
                 && toc_in_bounds (toc_usearch h) (size_of d)
            then (kOk, Some h) else (kError, out)
        | None => (kError, out)
        end
  | _, _ => (kBadValue, out)
  end.

(** ** Lemmas *)

(** Field values that fit their width. *)
Record header_ok (h : Header) : Prop := {
  ok_version : version h = kVersion;
  ok_flags : 0 <= flags h < 2 ^ 32;
  ok_dim : 0 <= dim h < 2 ^ 64;
  ok_next : 0 <= next_id h < 2 ^ 32;
  ok_pad : 0 <= pad h < 2 ^ 32;
  ok_kv : 0 <= kv_count h < 2 ^ 64;
  ok_nodes : 0 <= node_count h < 2 ^ 64;
  ok_toc : Forall (fun e => 0 <= toc_offset e < 2 ^ 64 /\ 0 <= toc_length e < 2 ^ 64)
             [toc_kv h; toc_nodes h; toc_usearch h]
}.

Definition header_image (h : Header) : bytes := mjoin (header_fields h).

Lemma toc_bytes_length e : length (toc_bytes e) = 16%nat.
Proof. unfold toc_bytes. by rewrite length_app, !length_le_encode. Qed.

Lemma header_fields_sizes h : length <$> header_fields h = field_sizes.
Proof.
  unfold header_fields. rewrite !fmap_cons, !length_app, !length_le_encode, !toc_bytes_length. reflexivity.
Qed.

Lemma mjoin_length (l : list bytes) : length (mjoin l) = sum_list (length <$> l).
Proof. induction l as [|d l IH]; [done|]. cbn. rewrite length_app. by f_equal. Qed.

Lemma header_image_length h : length (header_image h) = kHeaderBytes.
Proof. unfold header_image. by rewrite mjoin_length, header_fields_sizes. Qed.

Lemma take_fields_app pre l rest :
  take_fields (length <$> l) (length pre) (pre ++ mjoin l ++ rest) = l.
Proof.
  revert pre. induction l as [|d l IH]; intros pre; [done|].
  rewrite fmap_cons. cbn [take_fields].
  change (mjoin (d :: l)) with (d ++ mjoin l). rewrite <- app_assoc, sub_app_exact. f_equal.
  specialize (IH (pre ++ d)). by rewrite length_app, <- app_assoc in IH.
Qed.

Lemma toc_word_nth (l : list bytes) i rest :
  Forall (fun d => length d = 8%nat) l -> (i < length l)%nat ->
  toc_word (mjoin l ++ rest) i = le_decode (nth i l []).
Proof.
  unfold toc_word. revert i. induction l as [|d l IH]; intros i Hl Hi; [cbn in Hi; lia|].
  apply Forall_cons_iff in Hl as [Hd Hl].
  change (mjoin (d :: l)) with (d ++ mjoin l). rewrite <- app_assoc. destruct i as [|i].
  - cbn [nth]. f_equal. unfold sub. cbn [Nat.mul drop]. by apply take_app_exact.
  - cbn [nth]. rewrite <- (IH i) by (done || cbn in Hi; lia). f_equal. unfold sub. f_equal.
    replace (8 * S i)%nat with (length d + 8 * i)%nat by lia. by rewrite drop_app_add'.
Qed.

Lemma header_of_fields_image h :
  header_ok h -> header_of_fields (header_fields h) = Some (kMagic, h).
Proof.
  intros [Hv Hf Hd Hn Hp Hk Hnc Ht]. unfold header_of_fields, header_fields.
  set (l := [le_encode 8 (toc_offset (toc_kv h)); le_encode 8 (toc_length (toc_kv h));
             le_encode 8 (toc_offset (toc_nodes h)); le_encode 8 (toc_length (toc_nodes h));
             le_encode 8 (toc_offset (toc_usearch h)); le_encode 8 (toc_length (toc_usearch h))]).
  assert (toc_bytes (toc_kv h) ++ toc_bytes (toc_nodes h) ++ toc_bytes (toc_usearch h) = mjoin l ++ []) as ->.
  { unfold l, toc_bytes. cbn. by rewrite <- !app_assoc, !app_nil_r. }
  assert (Forall (fun d : bytes => length d = 8%nat) l) as Hl
    by (repeat constructor; apply length_le_encode).
  rewrite !toc_word_nth by (done || cbn; lia). unfold l. cbn [nth].
  rewrite !Forall_cons_iff in Ht. destruct Ht as ((? & ?) & (? & ?) & (? & ?) & _).
  change (2 ^ 64) with (256 ^ Z.of_nat 8) in *. change (2 ^ 32) with (256 ^ Z.of_nat 4) in *.
  rewrite Hv. rewrite !le_decode_encode by (done || (vm_compute; split; [discriminate|reflexivity])).
  destruct h as [v ? ? ? ? ? ? [] [] []]. cbn in *. by subst v.
Qed.

Lemma ParseHeader_image h rest o :
  header_ok h ->
  toc_in_bounds (toc_kv h) (size_of (header_image h ++ rest)) = true ->
  toc_in_bounds (toc_nodes h) (size_of (header_image h ++ rest)) = true ->
  toc_in_bounds (toc_usearch h) (size_of (header_image h ++ rest)) = true ->
  ParseHeader (Some (header_image h ++ rest)) (Some o) = (kOk, Some h).
Proof.
  intros Hok H1 H2 H3. unfold ParseHeader. rewrite length_app, header_image_length.
  destruct (Nat.ltb_spec (kHeaderBytes + length rest) kHeaderBytes); [lia|].
  rewrite <- (header_fields_sizes h).
  pose proof (take_fields_app [] (header_fields h) rest) as Ht. cbn [app length] in Ht.
  unfold header_image at 1. rewrite Ht, (header_of_fields_image _ Hok).
  rewrite (ok_version _ Hok), (proj2 (beq_true _ _) eq_refl), Z.eqb_refl. cbn [negb orb].
  by rewrite H1, H2, H3.
Qed.

Lemma ReadAllFields_app l fp rest :
  unread fp = mjoin l ++ rest ->
  ReadAllFields (length <$> l) fp = (Some l, skipped (length (mjoin l)) fp).
Proof.
  revert fp. induction l as [|d l IH]; intros fp Hu.
  { cbn. f_equal. unfold skipped. destruct fp. cbn. by rewrite Nat.add_0_r. }
  rewrite fmap_cons. cbn [ReadAllFields]. change (mjoin (d :: l)) with (d ++ mjoin l) in *.
  rewrite <- app_assoc in Hu. rewrite (ReadExact_app _ _ _ _ Hu eq_refl).
  rewrite IH by (rewrite unread_skipped, Hu; by apply drop_app_exact).
  by rewrite skipped_skipped, length_app.
Qed.

Lemma ReadHeader_image h rest o data pos room :
  header_ok h -> data = header_image h ++ rest ->
  ReadHeader (Some (mkFile data pos room)) (Some o) = (kOk, Some h, Some (mkFile data kHeaderBytes room)).
Proof.
  intros Hok ->. unfold ReadHeader, fseek. change (0 <? 0) with false. cbn [negb f_data f_room Z.to_nat].
  rewrite <- (header_fields_sizes h).
  rewrite (ReadAllFields_app (header_fields h) _ rest) by done. rewrite (header_of_fields_image _ Hok).
  rewrite (ok_version _ Hok), (proj2 (beq_true _ _) eq_refl), Z.eqb_refl. cbn [negb orb].
  fold (header_image h). by rewrite header_image_length.
Qed.

(** Overwriting bytes that are there. *)
Lemma WriteAll_over l data pos :
  (pos + length (mjoin l) <= length data)%nat ->
  WriteAll l (mkFile data pos None) =
    (true, mkFile (take pos data ++ mjoin l ++ drop (pos + length (mjoin l)) data)
             (pos + length (mjoin l)) None).
Proof.
  revert data pos. induction l as [|d l IH]; intros data pos Hle.
  { cbn. by rewrite Nat.add_0_r, take_drop. }
  change (mjoin (d :: l)) with (d ++ mjoin l) in *. rewrite length_app in *. cbn [WriteAll].
  unfold WriteExact, fwrite, pwrite. cbn [f_room f_data f_pos option_map]. rewrite firstn_all.
  rewrite bool_decide_eq_true_2 by done.
  replace (pos - length data)%nat with O by lia. cbn [replicate]. rewrite app_nil_r.
  assert (length (take pos data ++ d ++ drop (pos + length d) data) = length data) as Hl
    by (rewrite !length_app, length_take, length_drop; lia).
  rewrite IH by lia. do 2 f_equal; [|lia]. assert (length (take pos data) = pos) as Htp by (rewrite length_take; lia).
  rewrite take_app_ge, Htp by lia. replace (pos + length d - pos)%nat with (length d) by lia.
  rewrite take_app_length, <- !app_assoc. do 3 f_equal.
  rewrite drop_app_ge, Htp by lia. rewrite drop_app_ge by lia. rewrite drop_drop. f_equal. lia.
Qed.

Lemma WriteHeader_over h data pos :
  (kHeaderBytes <= length data)%nat ->
  WriteHeader (Some (mkFile data pos None)) h =
    (kOk, Some (mkFile (header_image h ++ drop kHeaderBytes data) kHeaderBytes None)).
Proof.
  intros Hl. unfold WriteHeader, fseek. change (0 <? 0) with false. cbn [negb f_data f_room].
  change (Z.to_nat 0) with O.
  pose proof (header_image_length h) as Hh. unfold header_image in *.
  rewrite WriteAll_over by lia. rewrite Hh. done.
Qed.

(** ** Properties *)

(** The mapped parser accepts every header the snapshot writer produces,
    and what it accepts is safe to use: if it reports [kOk], the magic and the
    version were right, and every non-empty segment of the table lies within
    the mapped bytes (so the loaders never read outside the mapping); on any
    other result the caller's header is untouched. *)
Theorem ParseHeader_safe (data : bytes) (o : Header) :
  let '(st, out) := ParseHeader (Some data) (Some o) in
  match st with
  | kOk => exists h, out = Some h /\ take 8 data = kMagic /\ version h = kVersion /\
      (kHeaderBytes <= length data)%nat /\
      (size_of data < 2 ^ 64 ->
       Forall (fun e => toc_length e = 0 \/
           (0 <= toc_offset e /\ 0 <= toc_length e /\ toc_offset e + toc_length e <= size_of data))
         [toc_kv h; toc_nodes h; toc_usearch h])
  | _ => out = Some o
  end.
Proof.
  unfold ParseHeader. destruct (Nat.ltb_spec (length data) kHeaderBytes) as [|Hlen]; [done|].
  destruct (header_of_fields _) as [[magic h]|] eqn:E; [|done].
  destruct (negb (beq magic kMagic) || negb (version h =? kVersion)) eqn:Em; [done|].
  destruct (_ && _) eqn:Et; [|done]. exists h.
  apply orb_false_iff in Em as [Em Ev]. bool_facts. cbn in E.
  assert (forall n, 0 <= le_decode (sub n 8 (sub 48 48 data)) ) as Hnn by (intros; apply le_decode_range).
  injection E as Hmg Hh. split_and!; try done; [by rewrite <- Em, <- Hmg|]. intros Hsz.
  assert (forall e, toc_in_bounds e (size_of data) = true -> 0 <= toc_offset e -> 0 <= toc_length e ->
    toc_length e = 0 \/ 0 <= toc_offset e /\ 0 <= toc_length e /\ toc_offset e + toc_length e <= size_of data) as HB.
  { intros e He Ho Hl. unfold toc_in_bounds in He. apply orb_true_iff in He as [He|He]; bool_facts; [by left|right].
    rewrite u64_small in * by lia. lia. }
  repeat (apply Forall_cons_iff; split); [..|constructor]; apply HB; try done; subst h; cbn; apply Hnn.
Qed.

(** The header round trip: [WriteHeader] over the first 96 bytes of a file
    leaves the rest of the file alone, and [ReadHeader] then finds the same
    header, from whatever position. *)
Theorem header_roundtrip (h o : Header) (data : bytes) (pos pos' : nat) :
  header_ok h -> (kHeaderBytes <= length data)%nat ->
  exists data', WriteHeader (Some (mkFile data pos None)) h =
      (kOk, Some (mkFile data' kHeaderBytes None)) /\
    drop kHeaderBytes data' = drop kHeaderBytes data /\ length data' = length data /\
    ReadHeader (Some (mkFile data' pos' None)) (Some o) =
      (kOk, Some h, Some (mkFile data' kHeaderBytes None)).
Proof.
  intros Hok Hl. exists (header_image h ++ drop kHeaderBytes data).
  pose proof (header_image_length h) as Hh. split_and!.
  - by apply WriteHeader_over.
  - by apply drop_app_exact.
  - rewrite length_app, length_drop. lia.
  - by eapply ReadHeader_image.
Qed.

Definition demo_header : Header := mkHeader 3 1 2 7 0 1 1 (mkToc 96 20) (mkToc 116 4) (mkToc 120 8).

Lemma header_roundtrip_witness :
  exists data', WriteHeader (Some (mkFile (replicate 128 NUL) 100 None)) demo_header =
      (kOk, Some (mkFile data' kHeaderBytes None)) /\
    ReadHeader (Some (mkFile data' 0 None)) (Some default_header) =
      (kOk, Some demo_header, Some (mkFile data' kHeaderBytes None)).
Proof.
  destruct (header_roundtrip demo_header default_header (replicate 128 NUL) 100 0) as (d & HW & _ & _ & HR).
  - split; cbn; try lia; [done|]. rewrite !Forall_cons_iff. cbn. split_and!; try lia. constructor.
  - vm_compute. lia.
  - exists d. split; [exact HW|exact HR].
Defined.
