(* ===== verification/FileSystem.v ===== *)
(** * FileSystem: what SnapshotManager and MappedFile use of the file system

    Files by path, with switches for the calls that can fail.  MappedFile
    models include/vemory/util/MappedFile.h and src/util/MappedFile.cc. *)

From S2P Require Import Prelude.
From S2P Require Import Stdio.

Record Fs := mkFs {
  files : gmap bytes bytes;
  can_create : bytes -> bool;   (** [fopen(path, "wb+")] *)
  can_mkdir : bytes -> bool;    (** [create_directories(path)] *)
  can_map : bytes -> bool;      (** [open], [fstat] and [mmap] of an existing file *)
  can_rename : bool;
  can_sync : bool;
  disk_room : option nat        (** how many bytes the disk still takes *)
}.

Definition with_files (fs : Fs) (m : gmap bytes bytes) : Fs :=
  mkFs m (can_create fs) (can_mkdir fs) (can_map fs) (can_rename fs) (can_sync fs) (disk_room fs).

(** [fopen(path, "wb+")]: truncates or creates. *)
Definition fopen_wb (path : bytes) (fs : Fs) : option File * Fs :=
  if can_create fs path
  then (Some (mkFile [] 0 (disk_room fs)), with_files fs (<[path := []]> (files fs)))
  else (None, fs).

Definition fopen_rb (path : bytes) (fs : Fs) : option File :=
  (fun d => mkFile d 0 None) <$> files fs !! path.

(** [fclose]: the bytes written are in the file. *)
Definition fclose (path : bytes) (fp : File) (fs : Fs) : Fs :=
  with_files fs (<[path := f_data fp]> (files fs)).

Definition rename (tmp final : bytes) (fs : Fs) : bool * Fs :=
  if can_rename fs then
    match files fs !! tmp with
    | Some d => (true, with_files fs (<[final := d]> (delete tmp (files fs))))
    | None => (false, fs)
    end
  else (false, fs).

(** [std::filesystem::path(p).parent_path()] for a path with a parent. *)
Fixpoint last_slash (i : nat) (l : bytes) (found : option nat) : option nat :=
  match l with
  | [] => found
  | c :: l => last_slash (S i) l (if bool_decide (c = "/"%char) then Some i else found)
  end.

Definition parent_path (p : bytes) : option bytes :=
  match last_slash 0 p None with
  | None => None
  | Some O => Some (bs "/")
  | Some i => Some (take i p)
  end.

Definition create_directories (dir : bytes) (fs : Fs) : bool := can_mkdir fs dir.

(** [path(dir) / name]. *)
Definition join_path (dir name : bytes) : bytes :=
  match last dir with
  | None => name
  | Some c => if bool_decide (c = "/"%char) then dir ++ name else dir ++ bs "/" ++ name
  end.

(** ** [MappedFile] *)

Inductive MapStatus := kOk | kBadValue | kIoError.

(** The mapping: [m_data] is [None] for [nullptr]. *)
Record MappedFile := mkMapped { m_data : ptr bytes; m_size : nat }.

Definition unmapped : MappedFile := mkMapped None 0.

Definition Open (path : bytes) (fs : Fs) (m : MappedFile) : MapStatus * MappedFile :=
  if is_empty path then (kBadValue, m)
  else
    match files fs !! path with
    | None => (kIoError, unmapped)
    | Some d =>
        if negb (can_map fs path) then (kIoError, unmapped)
        else if (length d =? 0)%nat then (kOk, unmapped)
        else (kOk, mkMapped (Some d) (length d))
    end.

Definition Close (m : MappedFile) : MappedFile := unmapped.
