(* ===== verification/MappedFile.v ===== *)
(** * MappedFile: the owner of a descriptor and a mapping

    Models src/util/MappedFile.cc and include/vemory/util/MappedFile.h with the
    resources that an object owns.  The system is the class [Maps]: which
    descriptors are open and which regions are mapped.  FileSystem.v has [Open]
    and [Close] as the loaders see them, by the bytes of the file and without
    resources. *)

From S2P Require Import Prelude.
From S2P Require Import FileSystem.

(** The calls; a region is its address and its length. *)
Class Maps := {
  os : Type;
  open_ro : bytes -> os -> Z * os;
  fstat : Z -> os -> option Z;
  mmap : Z -> nat -> os -> option Z * os;
  munmap : Z -> nat -> os -> os;
  close : Z -> os -> os
}.

(** What they do to the resources of the process. *)
Class MapsLaws (M : Maps) := {
  descriptors : os -> list Z;
  regions : os -> list (Z * nat);
  open_law path o :
    regions (open_ro path o).2 = regions o /\
    (((open_ro path o).1 < 0 /\ descriptors (open_ro path o).2 = descriptors o) \/
     (0 <= (open_ro path o).1 /\ descriptors (open_ro path o).2 = (open_ro path o).1 :: descriptors o));
  mmap_law fd n o :
    descriptors (mmap fd n o).2 = descriptors o /\
    match (mmap fd n o).1 with
    | Some a => a <> 0 /\ regions (mmap fd n o).2 = (a, n) :: regions o
    | None => regions (mmap fd n o).2 = regions o
    end;
  munmap_law a n o : (a, n) ∈ regions o ->
    descriptors (munmap a n o) = descriptors o /\
    (a, n) :: regions (munmap a n o) ≡ₚ regions o;
  close_law fd o : fd ∈ descriptors o ->
    regions (close fd o) = regions o /\
    fd :: descriptors (close fd o) ≡ₚ descriptors o
}.

Section MappedFile.
Context `{M : Maps}.

(** [data_] is the address, zero for [nullptr]. *)
Record MappedFile := mkMappedFile {
  path_ : bytes;
  data_ : Z;
  size_ : nat;
  fd_ : Z
}.

Definition construct : MappedFile := mkMappedFile [] 0 0 (-1).

Definition Close (m : MappedFile) (o : os) : MappedFile * os :=
  let o := if negb (data_ m =? 0) && (0 <? size_ m)%nat then munmap (data_ m) (size_ m) o else o in
  let o := if 0 <=? fd_ m then close (fd_ m) o else o in
  (mkMappedFile [] 0 0 (if 0 <=? fd_ m then -1 else fd_ m), o).

Definition Open (path : bytes) (m : MappedFile) (o : os) : MapStatus * MappedFile * os :=
  if is_empty path then (kBadValue, m, o)
  else
    let '(m, o) := Close m o in
    let '(fd, o) := open_ro path o in
    if fd <? 0 then (kIoError, mkMappedFile [] (data_ m) (size_ m) fd, o)
    else
      let m := mkMappedFile path (data_ m) (size_ m) fd in
      match fstat fd o with
      | None => let '(m, o) := Close m o in (kIoError, m, o)
      | Some st_size =>
          if st_size <? 0 then let '(m, o) := Close m o in (kIoError, m, o)
          else
            let file_size := Z.to_nat st_size in
            if (file_size =? 0)%nat then (kOk, mkMappedFile path 0 0 fd, o)
            else
              match mmap fd file_size o with
              | (None, o) => let '(m, o) := Close m o in (kIoError, m, o)
              | (Some addr, o) => (kOk, mkMappedFile path addr file_size fd, o)
              end
      end.

(** The move constructor: the new object and what is left of the other (a string
    that was moved from is taken to be empty). *)
Definition move (other : MappedFile) : MappedFile * MappedFile :=
  (mkMappedFile (path_ other) (data_ other) (size_ other) (fd_ other), mkMappedFile [] 0 0 (-1)).

(** Move assignment between two objects. *)
Definition move_assign (m other : MappedFile) (o : os) : MappedFile * MappedFile * os :=
  let '(_, o) := Close m o in
  let '(m, other) := move other in (m, other, o).

Definition empty (m : MappedFile) : bool := (data_ m =? 0) || (size_ m =? 0)%nat.

(** ** The objects of a process *)

(** What is done with the objects: the [i]-th one is opened, closed, moved into a
    new one, assigned from the [j]-th, or destroyed. *)
Inductive Op := Construct | OpenAt (i : nat) (path : bytes) | CloseAt (i : nat) | MoveNew (i : nat) | Assign (i j : nat) | Destroy (i : nat).

Definition perform (op : Op) (objs : list MappedFile) (o : os) : list MappedFile * os :=
  match op with
  | Construct => (objs ++ [construct], o)
  | OpenAt i path =>
      match objs !! i with
      | Some m => let '(_, m, o) := Open path m o in (<[i := m]> objs, o)
      | None => (objs, o)
      end
  | CloseAt i => match objs !! i with Some m => let '(m, o) := Close m o in (<[i := m]> objs, o) | None => (objs, o) end
  | MoveNew i => match objs !! i with Some m => let '(n, m) := move m in (<[i := m]> objs ++ [n], o) | None => (objs, o) end
  | Assign i j =>
      match objs !! i, objs !! j with
      | Some m, Some other =>
          if (i =? j)%nat then (objs, o)
          else let '(m, other, o) := move_assign m other o in (<[j := other]> (<[i := m]> objs), o)
      | _, _ => (objs, o)
      end
  | Destroy i =>
      match objs !! i with
      | Some m => let '(_, o) := Close m o in (take i objs ++ drop (S i) objs, o)
      | None => (objs, o)
      end
  end.

End MappedFile.

(** ** Lemmas *)

Section Lemmas.
Context `{M : Maps} {ML : MapsLaws M}.

(** What an object owns. *)
Definition fds_of (m : MappedFile) : list Z := if 0 <=? fd_ m then [fd_ m] else [].
Definition regions_of (m : MappedFile) : list (Z * nat) :=
  if negb (data_ m =? 0) && (0 <? size_ m)%nat then [(data_ m, size_ m)] else [].

(** The resources of the process are those of [m] and the others. *)
Definition holds (ds : list Z) (rs : list (Z * nat)) (D : list Z) (R : list (Z * nat)) (o : os) : Prop :=
  ds ++ D ≡ₚ descriptors o /\ rs ++ R ≡ₚ regions o.

Lemma Close_holds m D R o :
  holds (fds_of m) (regions_of m) D R o ->
  let '(m', o') := Close m o in fds_of m' = [] /\ regions_of m' = [] /\ data_ m' = 0 /\ size_ m' = O /\ holds [] [] D R o'.
Proof.
  unfold Close, holds, fds_of, regions_of. intros [HD HR].
  assert (exists o1, (if negb (data_ m =? 0) && (0 <? size_ m)%nat then munmap (data_ m) (size_ m) o else o) = o1 /\
    descriptors o1 = descriptors o /\ R ≡ₚ regions o1) as (o1 & -> & H1 & H2).
  { destruct (negb _ && _); [|by exists o]. eexists. split; [done|].
    destruct (munmap_law (data_ m) (size_ m) o) as [A1 A2]; [rewrite <- HR; by left|]. split; [done|].
    rewrite <- HR in A2. cbn in A2. by apply Permutation_cons_inv in A2. }
  rewrite <- H1 in HD. destruct (Z.leb_spec 0 (fd_ m)) as [Hfd|Hfd].
  - destruct (close_law (fd_ m) o1) as [A1 A2]; [rewrite <- HD; by left|]. split_and!; try done.
    + rewrite <- HD in A2. cbn in A2. symmetry. by apply Permutation_cons_inv in A2.
    + cbn. by rewrite A1.
  - split_and!; try done. cbn. by destruct (Z.leb_spec 0 (fd_ m)); [lia|].
Qed.

Lemma Open_holds path m D R o :
  holds (fds_of m) (regions_of m) D R o ->
  let '(st, m', o') := Open path m o in holds (fds_of m') (regions_of m') D R o'.
Proof.
  intros H. unfold Open. destruct (is_empty path); [done|].
  pose proof (Close_holds m D R o H) as HC. destruct (Close m o) as [m0 o0]. destruct HC as (_ & _ & E1 & E2 & [HD HR]). cbn [app] in HD, HR.
  destruct (open_law path o0) as [A1 A2]. destruct (open_ro path o0) as [fd o1]. cbn in A1, A2. rewrite E1, E2.
  destruct (Z.ltb_spec fd 0) as [Hlt|Hge].
  { unfold holds, fds_of, regions_of. cbn. destruct (Z.leb_spec 0 fd); [lia|]. destruct A2 as [[_ A2]|[? _]]; [|lia]. by rewrite A1, A2. }
  destruct A2 as [[? _]|[_ A2]]; [lia|].
  assert (holds (fds_of (mkMappedFile path 0 0 fd)) (regions_of (mkMappedFile path 0 0 fd)) D R o1) as H1.
  { unfold holds, fds_of, regions_of. cbn. destruct (Z.leb_spec 0 fd); [|lia]. rewrite A1, A2. cbn. by rewrite HD. }
  assert (forall o2, descriptors o2 = descriptors o1 -> regions o2 = regions o1 ->
    let '(m', o') := Close (mkMappedFile path 0 0 fd) o2 in holds (fds_of m') (regions_of m') D R o') as Hfail.
  { intros o2 B1 B2. pose proof (Close_holds (mkMappedFile path 0 0 fd) D R o2) as HC. unfold holds in *. rewrite B1, B2 in HC. specialize (HC H1).
    destruct (Close _ o2) as [m2 o3]. destruct HC as (-> & -> & _ & _ & HC). exact HC. }
  destruct (fstat fd o1) as [sz|]; [|specialize (Hfail o1 eq_refl eq_refl); by destruct (Close _ o1)].
  destruct (sz <? 0); [specialize (Hfail o1 eq_refl eq_refl); by destruct (Close _ o1)|].
  destruct (Nat.eqb_spec (Z.to_nat sz) 0) as [|Hsz]; [done|].
  destruct (mmap_law fd (Z.to_nat sz) o1) as [B1 B2]. destruct (mmap fd (Z.to_nat sz) o1) as [[a|] o2]; cbn in B1, B2.
  - destruct B2 as [Ha B2]. destruct H1 as [H1 H2]. unfold holds, fds_of, regions_of in *. cbn in *. rewrite B1, B2.
    destruct (Z.eqb_spec a 0); [done|]. destruct (Z.to_nat sz) as [|k]; [done|]. cbn. split; [done|]. by apply perm_skip.
  - specialize (Hfail o2 B1 B2). by destruct (Close _ o2).
Qed.

(** All objects together. *)
Definition owned (objs : list MappedFile) (D : list Z) (R : list (Z * nat)) (o : os) : Prop :=
  holds (mjoin (fds_of <$> objs)) (mjoin (regions_of <$> objs)) D R o.

Lemma join_perm {A} (l l' : list (list A)) : l ≡ₚ l' -> mjoin l ≡ₚ mjoin l'.
Proof. induction 1; cbn; [done|by f_equiv|solve_Permutation|by etrans]. Qed.

Lemma owned_perm objs objs' D R o : objs ≡ₚ objs' -> owned objs D R o <-> owned objs' D R o.
Proof.
  intros H. unfold owned, holds. by rewrite (join_perm (fds_of <$> objs) (fds_of <$> objs')), (join_perm (regions_of <$> objs) (regions_of <$> objs'))
    by (by rewrite H).
Qed.

Lemma owned_cons m objs D R o :
  owned (m :: objs) D R o <->
  holds (fds_of m) (regions_of m) (mjoin (fds_of <$> objs) ++ D) (mjoin (regions_of <$> objs) ++ R) o.
Proof. unfold owned, holds. cbn. by rewrite <- !app_assoc. Qed.

(** An object that owns nothing. *)
Lemma owned_bare m objs D R o : fds_of m = [] -> regions_of m = [] -> owned (m :: objs) D R o <-> owned objs D R o.
Proof. intros E1 E2. rewrite owned_cons, E1, E2. done. Qed.

(** The [i]-th object and the others. *)
Lemma at_index (objs : list MappedFile) i m :
  objs !! i = Some m -> exists rest, objs ≡ₚ m :: rest /\ (forall m', <[i := m']> objs ≡ₚ m' :: rest) /\
    take i objs ++ drop (S i) objs = rest.
Proof.
  intros E. pose proof (lookup_lt_Some _ _ _ E). exists (take i objs ++ drop (S i) objs). split_and!; [|intros m'|done].
  - rewrite <- (take_drop_middle _ _ _ E) at 1. by rewrite Permutation_middle.
  - rewrite insert_take_drop by done. by rewrite Permutation_middle.
Qed.

Lemma at_indices (objs : list MappedFile) i j m n :
  objs !! i = Some m -> objs !! j = Some n -> i <> j ->
  exists rest, objs ≡ₚ m :: n :: rest /\ forall m' n', <[j := n']> (<[i := m']> objs) ≡ₚ m' :: n' :: rest.
Proof.
  revert i j. induction objs as [|x l IH]; intros [|i] [|j] Ei Ej Hne; try done; cbn in Ei, Ej.
  - injection Ei as ->. destruct (at_index l j n Ej) as (rest & H1 & H2 & _). exists rest. split; [by rewrite H1|]. intros m' n'. cbn. by rewrite H2.
  - injection Ej as ->. destruct (at_index l i m Ei) as (rest & H1 & H2 & _). exists rest. split; [rewrite H1; apply Permutation_swap|].
    intros m' n'. cbn. rewrite H2. apply Permutation_swap.
  - destruct (IH i j Ei Ej ltac:(lia)) as (rest & H1 & H2). exists (x :: rest). split; [rewrite H1; solve_Permutation|].
    intros m' n'. cbn. rewrite H2. solve_Permutation.
Qed.

Lemma perform_owned op objs D R o :
  owned objs D R o -> let '(objs', o') := perform op objs o in owned objs' D R o'.
Proof.
  intros H. destruct op as [|i path|i|i|i j|i]; cbn [perform].
  - rewrite (owned_perm _ (construct :: objs)) by (by rewrite Permutation_app_comm). by apply owned_bare.
  - destruct (objs !! i) as [m|] eqn:E; [|done]. destruct (at_index _ _ _ E) as (rest & P1 & P2 & _). apply (owned_perm _ _ _ _ _ P1), owned_cons in H.
    pose proof (Open_holds path m _ _ o H) as HO. destruct (Open path m o) as [[st m'] o']. apply (owned_perm _ _ _ _ _ (P2 m')). by apply owned_cons.
  - destruct (objs !! i) as [m|] eqn:E; [|done]. destruct (at_index _ _ _ E) as (rest & P1 & P2 & _). apply (owned_perm _ _ _ _ _ P1), owned_cons in H.
    pose proof (Close_holds m _ _ o H) as HC. destruct (Close m o) as [m' o']. destruct HC as (E1 & E2 & _ & _ & HC).
    apply (owned_perm _ _ _ _ _ (P2 m')). by apply owned_bare.
  - destruct (objs !! i) as [m|] eqn:E; [|done]. destruct (at_index _ _ _ E) as (rest & P1 & P2 & _). apply (owned_perm _ _ _ _ _ P1) in H. cbn [move].
    rewrite (owned_perm _ (m :: mkMappedFile [] 0 0 (-1) :: rest)); [|rewrite P2; destruct m; solve_Permutation].
    rewrite (owned_perm _ (mkMappedFile [] 0 0 (-1) :: m :: rest)) by apply Permutation_swap. by apply owned_bare.
  - destruct (objs !! i) as [m|] eqn:E; [|done]. destruct (objs !! j) as [other|] eqn:Ej; [|done].
    destruct (Nat.eqb_spec i j) as [|Hne]; [done|]. destruct (at_indices _ _ _ _ _ E Ej Hne) as (rest & P1 & P2).
    apply (owned_perm _ _ _ _ _ P1), owned_cons in H. unfold move_assign. cbn [move].
    pose proof (Close_holds m _ _ o H) as HC. destruct (Close m o) as [m' o']. destruct HC as (_ & _ & _ & _ & HC).
    apply (owned_perm _ _ _ _ _ (P2 _ _)). rewrite (owned_perm _ _ _ _ _ (Permutation_swap _ _ _)). apply owned_bare; [done|done|].
    by destruct other.
  - destruct (objs !! i) as [m|] eqn:E; [|done]. destruct (at_index _ _ _ E) as (rest & P1 & _ & ->). apply (owned_perm _ _ _ _ _ P1), owned_cons in H.
    pose proof (Close_holds m _ _ o H) as HC. destruct (Close m o) as [m' o']. by destruct HC as (_ & _ & _ & _ & HC).
Qed.

End Lemmas.

(** ** Properties *)

(** Some operations, one after the other. *)
Definition performs `{M : Maps} (ops : list Op) (objs : list MappedFile) (o : os) : list MappedFile * os :=
  fold_left (fun s op => perform op s.1 s.2) ops (objs, o).

(** Mapped files own their resources.  Whatever is done with the objects of
    a process -- files opened, again and with failures at every call, closed,
    moved, assigned to each other or to themselves, destroyed -- the descriptors
    that are open and the regions that are mapped are those of the objects, each
    owned by one of them, and those [D] and [R] there were before; when all objects
    are destroyed, only these are left. *)
Theorem mapped_files_owned `{M : Maps} (ML : MapsLaws M) (ops : list Op) (o : os) :
  let '(objs, o') := performs ops [] o in
  mjoin (fds_of <$> objs) ++ descriptors o ≡ₚ descriptors o' /\
  mjoin (regions_of <$> objs) ++ regions o ≡ₚ regions o' /\
  (objs = [] -> descriptors o ≡ₚ descriptors o' /\ regions o ≡ₚ regions o').
Proof.
  assert (forall objs o1, owned objs (descriptors o) (regions o) o1 ->
    let '(objs', o') := performs ops objs o1 in owned objs' (descriptors o) (regions o) o') as H.
  { unfold performs. induction ops as [|op ops IH]; intros objs o1 H1; [done|]. cbn [fold_left].
    pose proof (perform_owned op objs _ _ o1 H1) as H2. cbn [fst snd]. destruct (perform op objs o1) as [objs2 o2]. by apply IH. }
  specialize (H [] o ltac:(by split)). destruct (performs ops [] o) as [objs o']. destruct H as [H1 H2]. split_and!; [done|done|].
  intros ->. by split.
Qed.
