(* ===== verification/SnapshotManager.v ===== *)
(** * SnapshotManager: the snapshot file and its background writer

    Models include/vemory/persist/SnapshotManager.h and
    src/persist/SnapshotManager.cc.  Stores are what [vnode_index_] and [kv_]
    point to; the file system is the one of FileSystem.v.  A background save is
    a forked child: it works on a copy of the stores taken at the fork. *)

From S2P Require Import Prelude.
From S2P Require Import Stdio.
From S2P Require Import FileSystem.
From S2P Require Import RdbFormat.
From S2P Require KvStore.
From S2P Require Import Usearch.
From S2P Require Import FlatIndex.
From S2P Require USearchEmbedIndex.
From S2P Require LruOrder.
From S2P Require VNodeStorage.
From S2P Require VNodeIndex.
From S2P Require VNodeDump.

(** [thrown] is not a status of the code: the call ends in the exception of
    [RespDecode.Status] instead of returning. *)
Inductive Status := kOk | kBadValue | kNotConfigured | kInProgress | kIoError | kError | thrown.

#[export] Instance Status_eq_dec : EqDecision Status.
Proof. solve_decision. Defined.

Definition kRdbName : bytes := bs "dump.rdb".

Definition kLegacy : list bytes :=
  [bs "dump.meta"; bs "dump.kv"; bs "dump.nodes"; bs "dump.usearch"; bs "dump.meta.tmp";
   bs "dump.kv.tmp"; bs "dump.nodes.tmp"; bs "dump.usearch.tmp"].

Definition of_parse (st : ParseStatus) : Status :=
  match st with
  | RdbFormat.kOk => kOk
  | RdbFormat.kBadValue => kBadValue
  | RdbFormat.kIoError => kIoError
  | RdbFormat.kError => kError
  end.

Section SnapshotManager.
Context `{U : !Usearch} `{OB : !IterOrder bytes} `{OZ : !IterOrder Z}.

(** The stores behind [vnode_index_] and [kv_]. *)
Record Stores := mkStores { s_index : ptr VNodeIndex.VNodeIndex; s_kv : ptr KvStore.KvStore }.

(** ** Writing *)

Definition set_dims (vi : VNodeIndex.VNodeIndex) (kv : KvStore.KvStore) : Header :=
  mkHeader kVersion 0 (VNodeIndex.dim_ vi) (VNodeStorage.next_id_ (VNodeIndex.storage_ vi)) 0
    (KvStore.size kv) (VNodeStorage.size (VNodeIndex.storage_ vi))
    default_toc default_toc default_toc.

Definition with_toc_kv (h : Header) (e : TocEntry) : Header :=
  mkHeader (version h) (flags h) (dim h) (next_id h) (pad h) (kv_count h) (node_count h)
    e (toc_nodes h) (toc_usearch h).
Definition with_toc_nodes (h : Header) (e : TocEntry) : Header :=
  mkHeader (version h) (flags h) (dim h) (next_id h) (pad h) (kv_count h) (node_count h)
    (toc_kv h) e (toc_usearch h).
Definition with_toc_usearch (h : Header) (e : TocEntry) : Header :=
  mkHeader (version h)
    (if 0 <? toc_length e then Z.lor (flags h) kFlagHasUsearch else flags h)
    (dim h) (next_id h) (pad h) (kv_count h) (node_count h) (toc_kv h) (toc_nodes h) e.

(** The part of a segment between [start] and the current position; [None] if
    [end < start]. *)
Definition toc_between (start : Z) (fp : File) : option TocEntry :=
  if ftell fp <? start then None
  else Some (mkToc (u64 start) (u64 (ftell fp - start))).

(** The three segments, from position 96 on. *)
Definition SaveSegments (vi : VNodeIndex.VNodeIndex) (kv : KvStore.KvStore) (fp : File)
    : option Header * File :=
  let header := set_dims vi kv in
  let start := ftell fp in
  match KvStore.Dump kv (Some fp) with
  | (KvStore.kOk, Some fp) =>
      match toc_between start fp with
      | None => (None, fp)
      | Some e =>
          let header := with_toc_kv header e in
          let start := ftell fp in
          match VNodeIndex.DumpNodes vi (Some fp) with
          | (VNodeIndex.kOk, Some fp) =>
              match toc_between start fp with
              | None => (None, fp)
              | Some e =>
                  let header := with_toc_nodes header e in
                  if 0 <? dim header then
                    let start := ftell fp in
                    match VNodeIndex.SaveIndex vi (Some fp) with
                    | (VNodeIndex.kOk, Some fp) =>
                        match toc_between start fp with
                        | None => (None, fp)
                        | Some e => (Some (with_toc_usearch header e), fp)
                        end
                    | (_, f) => (None, default fp f)
                    end
                  else (Some header, fp)
              end
          | (_, f) => (None, default fp f)
          end
      end
  | (_, f) => (None, default fp f)
  end.

Definition FsyncFile (fs : Fs) : bool := can_sync fs.

Definition SaveToPath (st : Stores) (final_path : bytes) (fs : Fs) : Status * Fs :=
  match s_index st, s_kv st with
  | Some vi, Some kv =>
      if is_empty final_path then (kBadValue, fs)
      else if match parent_path final_path with
              | Some dir => negb (create_directories dir fs)
              | None => false
              end
      then (kIoError, fs)
      else
        let tmp_path := final_path ++ bs ".tmp" in
        match fopen_wb tmp_path fs with
        | (None, fs) => (kIoError, fs)
        | (Some fp, fs) =>
            let '(ok, fp) := fseek (Z.of_nat kHeaderBytes) fp in
            if negb ok then (kIoError, fclose tmp_path fp fs)
            else
              match SaveSegments vi kv fp with
              | (None, fp) => (kIoError, fclose tmp_path fp fs)
              | (Some header, fp) =>
                  match WriteHeader (Some fp) header with
                  | (RdbFormat.kOk, f) =>
                      let synced := FsyncFile fs in
                      let fs := fclose tmp_path (default fp f) fs in
                      if negb synced then (kIoError, fs)
                      else
                        let '(renamed, fs) := rename tmp_path final_path fs in
                        (if renamed then kOk else kIoError, fs)
                  | (_, f) => (kIoError, fclose tmp_path (default fp f) fs)
                  end
              end
        end
  | _, _ => (kBadValue, fs)
  end.

(** ** Loading *)

(** After the header, on a stream. *)
Definition LoadSegments (h : Header) (vi : VNodeIndex.VNodeIndex) (kv : KvStore.KvStore) (fp : File)
    : Status * VNodeIndex.VNodeIndex * KvStore.KvStore * File :=
  let '(ok, fp) := fseek (i64 (toc_offset (toc_kv h))) fp in
  if negb ok then (kIoError, vi, kv, fp)
  else
    let kv := KvStore.Clear kv in
    match KvStore.Load kv (Some fp) with
    | (KvStore.kOk, kv, Some fp) =>
        if negb (KvStore.size kv =? kv_count h) then (kError, vi, kv, fp)
        else
          let '(ok, fp) := fseek (i64 (toc_offset (toc_nodes h))) fp in
          if negb ok then (kIoError, vi, kv, fp)
          else
            let vi := VNodeIndex.Clear vi in
            match VNodeIndex.LoadNodes vi (Some fp) (node_count h) (u16 (next_id h)) with
            | (VNodeIndex.kOk, vi, Some fp) =>
                if negb (VNodeStorage.size (VNodeIndex.storage_ vi) =? node_count h)
                then (kError, vi, kv, fp)
                else if 0 <? dim h then
                  if toc_length (toc_usearch h) =? 0 then (kError, vi, kv, fp)
                  else
                    let '(ok, fp) := fseek (i64 (toc_offset (toc_usearch h))) fp in
                    if negb ok then (kIoError, vi, kv, fp)
                    else
                      match VNodeIndex.LoadIndex vi (Some fp) (dim h) with
                      | (VNodeIndex.kOk, vi, f) => (kOk, vi, kv, default fp f)
                      | (_, vi, f) => (kIoError, vi, kv, default fp f)
                      end
                else (kOk, vi, kv, fp)
            | (VNodeIndex.thrown, vi, f) => (thrown, vi, kv, default fp f)
            | (_, vi, f) => (kIoError, vi, kv, default fp f)
            end
    | (_, kv, f) => (kIoError, vi, kv, default fp f)
    end.

Definition LoadFromFile (st : Stores) (fp : ptr File) : Status * Stores :=
  match fp, s_index st, s_kv st with
  | Some fp, Some vi, Some kv =>
      match ReadHeader (Some fp) (Some default_header) with
      | (RdbFormat.kOk, Some h, Some fp) =>
          let '(r, vi, kv, _) := LoadSegments h vi kv fp in (r, mkStores (Some vi) (Some kv))
      | (hst, _, _) => (of_parse hst, st)
      end
  | _, _, _ => (kBadValue, st)
  end.

(** After the header, on the mapped bytes [data]. *)
Definition LoadMappedSegments (h : Header) (data : bytes) (view : bool) (path : bytes) (fs : Fs)
    (vi : VNodeIndex.VNodeIndex) (kv : KvStore.KvStore)
    : Status * VNodeIndex.VNodeIndex * KvStore.KvStore :=
  let kv := KvStore.Clear kv in
  let base e := Some (drop (Z.to_nat (toc_offset e)) data) in
  match KvStore.LoadFrom kv (base (toc_kv h)) (Z.to_nat (toc_length (toc_kv h))) with
  | (KvStore.kOk, kv) =>
      if negb (KvStore.size kv =? kv_count h) then (kError, vi, kv)
      else
        let vi := VNodeIndex.Clear vi in
        match VNodeIndex.LoadNodesFrom vi (base (toc_nodes h)) (Z.to_nat (toc_length (toc_nodes h)))
                (node_count h) (u16 (next_id h)) with
        | (VNodeIndex.kOk, vi) =>
            if negb (VNodeStorage.size (VNodeIndex.storage_ vi) =? node_count h) then (kError, vi, kv)
            else if 0 <? dim h then
              if toc_length (toc_usearch h) =? 0 then (kError, vi, kv)
              else
                match VNodeIndex.LoadIndexMapped (fun p => files fs !! p) vi path
                        (toc_offset (toc_usearch h)) (dim h) view with
                | (VNodeIndex.kOk, vi) => (kOk, vi, kv)
                | (_, vi) => (kIoError, vi, kv)
                end
            else (kOk, vi, kv)
        | (VNodeIndex.thrown, vi) => (thrown, vi, kv)
        | (_, vi) => (kIoError, vi, kv)
        end
  | (_, kv) => (kIoError, vi, kv)
  end.

Definition LoadFromMapped (st : Stores) (view : bool) (path : bytes) (fs : Fs) : Status * Stores :=
  match s_index st, s_kv st with
  | Some vi, Some kv =>
      if is_empty path then (kBadValue, st)
      else
        match Open path fs unmapped with
        | (FileSystem.kOk, mapped) =>
            match ParseHeader (m_data mapped) (Some default_header), m_data mapped with
            | (RdbFormat.kOk, Some h), Some data =>
                let '(r, vi, kv) := LoadMappedSegments h data view path fs vi kv in
                (r, mkStores (Some vi) (Some kv))
            | (RdbFormat.kIoError, _), _ => (kIoError, st)
            | _, _ => (kError, st)
            end
        | _ => (kIoError, st)
        end
  | _, _ => (kBadValue, st)
  end.

(** [mmap_build] is [VEMORY_RDB_MMAP]. *)
Definition LoadFromPath (mmap_build : bool) (st : Stores) (view : bool) (path : bytes) (fs : Fs)
    : Status * Stores :=
  match s_index st, s_kv st with
  | Some _, Some _ =>
      if is_empty path then (kBadValue, st)
      else if mmap_build then
        match LoadFromMapped st view path fs with
        | (kOk, st) => (kOk, st)
        | (thrown, st) => (thrown, st)
        | (_, st) =>
            match fopen_rb path fs with
            | None => (kIoError, st)
            | Some fp => LoadFromFile st (Some fp)
            end
        end
      else
        match fopen_rb path fs with
        | None => (kIoError, st)
        | Some fp => LoadFromFile st (Some fp)
        end
  | _, _ => (kBadValue, st)
  end.

Definition Load (mmap_build : bool) (dir : bytes) (st : Stores) (view : bool) (fs : Fs)
    : Status * Stores :=
  match s_index st, s_kv st with
  | Some _, Some _ =>
      if is_empty dir then (kNotConfigured, st)
      else LoadFromPath mmap_build st view (join_path dir kRdbName) fs
  | _, _ => (kNotConfigured, st)
  end.

(** ** Background saves *)

(** A forked child: its pid, the copy of the stores it saves, and the path. *)
Record Child := mkChild { c_stores : Stores; c_path : bytes }.

Record SnapshotManager := mkSnapshot {
  dir_ : bytes;
  child_pid_ : Z;
  child : option Child;          (** the process behind [child_pid_] *)
  pending_save_path_ : bytes;
  reap_timer_ : bool;            (** [reap_timer_ != nullptr] *)
  usearch_mmap_view_ : bool
}.

Definition construct (dir : bytes) : SnapshotManager := mkSnapshot dir (-1) None [] false false.

Definition SetUsearchMmapView (m : SnapshotManager) (v : bool) : SnapshotManager :=
  mkSnapshot (dir_ m) (child_pid_ m) (child m) (pending_save_path_ m) (reap_timer_ m) v.

Definition EnsureReapTimer (m : SnapshotManager) : SnapshotManager :=
  mkSnapshot (dir_ m) (child_pid_ m) (child m) (pending_save_path_ m) true (usearch_mmap_view_ m).

(** [pid] is what [fork] returned to the parent. *)
Definition BackgroundSaveToPath (m : SnapshotManager) (st : Stores) (path : bytes) (pid : Z)
    : Status * SnapshotManager :=
  match s_index st, s_kv st with
  | Some _, Some _ =>
      if is_empty path then (kBadValue, m)
      else if 0 <? child_pid_ m then (kInProgress, m)
      else if pid <? 0 then
        (kError, mkSnapshot (dir_ m) (child_pid_ m) (child m) [] (reap_timer_ m) (usearch_mmap_view_ m))
      else
        (kOk, EnsureReapTimer
           (mkSnapshot (dir_ m) pid (Some (mkChild st path)) path (reap_timer_ m) (usearch_mmap_view_ m)))
  | _, _ => (kBadValue, m)
  end.

Definition BackgroundSave (m : SnapshotManager) (st : Stores) (pid : Z) : Status * SnapshotManager :=
  if is_empty (dir_ m) then (kNotConfigured, m)
  else BackgroundSaveToPath m st (join_path (dir_ m) kRdbName) pid.

Definition RemoveLegacyDumpFiles (m : SnapshotManager) (fs : Fs) : Fs :=
  if is_empty (dir_ m) then fs
  else with_files fs (fold_left (fun fm name => delete (join_path (dir_ m) name) fm) kLegacy (files fs)).

(** What [waitpid(child_pid_, &status, WNOHANG)] reported. *)
Inductive WaitResult := StillRunning | WaitError (echild : bool) | Exited (ok : bool).

(** The result is the callback to run, [save_done_cb_(ok, path)], if any. *)
Definition ReapSaveChild (m : SnapshotManager) (r : WaitResult) (fs : Fs)
    : option (bool * bytes) * SnapshotManager * Fs :=
  if child_pid_ m <=? 0 then (None, m, fs)
  else
    match r with
    | StillRunning => (None, m, fs)
    | WaitError echild =>
        (None,
         if echild then mkSnapshot (dir_ m) (-1) None (pending_save_path_ m) (reap_timer_ m)
                          (usearch_mmap_view_ m)
         else m, fs)
    | Exited ok =>
        let fs := if ok && negb (is_empty (dir_ m)) &&
                     beq (pending_save_path_ m) (join_path (dir_ m) kRdbName)
                  then RemoveLegacyDumpFiles m fs else fs in
        (Some (ok, pending_save_path_ m),
         mkSnapshot (dir_ m) (-1) None [] (reap_timer_ m) (usearch_mmap_view_ m), fs)
    end.

(** The lambda of the reap timer. *)
Definition OnReapTimer (m : SnapshotManager) (r : WaitResult) (fs : Fs)
    : option (bool * bytes) * SnapshotManager * Fs :=
  let m := mkSnapshot (dir_ m) (child_pid_ m) (child m) (pending_save_path_ m) false
             (usearch_mmap_view_ m) in
  let '(cb, m, fs) := ReapSaveChild m r fs in
  (cb, if 0 <? child_pid_ m then EnsureReapTimer m else m, fs).

(** The child's life: [SaveToPath] on its copy, then [_exit]. *)
Definition RunChild (c : Child) (fs : Fs) : WaitResult * Fs :=
  let '(st, fs) := SaveToPath (c_stores c) (c_path c) fs in (Exited (bool_decide (st = kOk)), fs).

(** ** Lemmas: the image of the stores *)

Context `{L : !UsearchLaws U}.

(** Stores whose sizes and values fit the file format. *)
Record savable (vi : VNodeIndex.VNodeIndex) (kv : KvStore.KvStore) : Prop := {
  sv_kv : KvStore.wf kv;
  sv_vi : VNodeIndex.wf vi;
  sv_indexed : VNodeIndex.indexed vi;
  sv_fits : VNodeDump.fits vi;
  sv_index : match VNodeIndex.index_ vi with
             | None => VNodeIndex.dim_ vi = 0
             | Some ix => is_Some (USearchEmbedIndex.impl_ ix)
             end;
  sv_dim : 0 <= VNodeIndex.dim_ vi < 2 ^ 64;
  sv_count : VNodeStorage.size (VNodeIndex.storage_ vi) < 2 ^ 64
}.

(** The USEARCH segment. *)
Definition index_image (vi : VNodeIndex.VNodeIndex) : bytes :=
  match VNodeIndex.index_ vi with
  | Some ix => match USearchEmbedIndex.impl_ ix with Some x => image x | None => [] end
  | None => []
  end.

Definition kv_segment (kv : KvStore.KvStore) : bytes := KvStore.dump_bytes kv.
Definition nodes_segment (vi : VNodeIndex.VNodeIndex) : bytes :=
  VNodeDump.records_bytes (VNodeDump.nodes_of vi).

(** The header and the whole file. *)
Definition saved_header (vi : VNodeIndex.VNodeIndex) (kv : KvStore.KvStore) : Header :=
  let a := Z.of_nat kHeaderBytes in
  let b := a + size_of (kv_segment kv) in
  let c := b + size_of (nodes_segment vi) in
  let h := with_toc_nodes (with_toc_kv (set_dims vi kv) (mkToc a (size_of (kv_segment kv))))
             (mkToc b (size_of (nodes_segment vi))) in
  if 0 <? dim h then with_toc_usearch h (mkToc c (size_of (index_image vi))) else h.

Definition segments (vi : VNodeIndex.VNodeIndex) (kv : KvStore.KvStore) : bytes :=
  kv_segment kv ++ nodes_segment vi ++ index_image vi.

Definition rdb_image (vi : VNodeIndex.VNodeIndex) (kv : KvStore.KvStore) : bytes :=
  header_image (saved_header vi kv) ++ segments vi kv.

Lemma toc_between_appended d fp :
  at_end fp -> Z.of_nat (length (f_data fp)) + size_of d < 2 ^ 63 ->
  toc_between (ftell fp) (appended d fp) = Some (mkToc (ftell fp) (size_of d)).
Proof.
  intros [Hp _] Hs. unfold toc_between, ftell, appended, size_of in *. cbn.
  destruct (Z.ltb_spec (Z.of_nat (f_pos fp + length d)) (Z.of_nat (f_pos fp))); [lia|].
  rewrite !u64_small by lia. do 2 f_equal. lia.
Qed.

Lemma SaveIndex_image vi kv fp :
  savable vi kv -> at_end fp -> 0 < VNodeIndex.dim_ vi ->
  VNodeIndex.SaveIndex vi (Some fp) = (VNodeIndex.kOk, Some (appended (index_image vi) fp)).
Proof.
  intros Hs Hend Hd. pose proof (sv_index _ _ Hs) as Hi. unfold VNodeIndex.SaveIndex, index_image.
  destruct (VNodeIndex.index_ vi) as [ix|]; [|lia]. destruct (Z.eqb_spec (VNodeIndex.dim_ vi) 0); [lia|].
  destruct Hi as [x Hx]. unfold USearchEmbedIndex.Save. rewrite Hx.
  by rewrite (save_image x fp Hend).
Qed.

Lemma index_image_nil vi kv :
  savable vi kv -> ~ 0 < VNodeIndex.dim_ vi -> index_image vi = [].
Proof.
  intros Hs Hd. pose proof (sv_indexed _ _ Hs) as Hi. pose proof (sv_dim _ _ Hs).
  unfold VNodeIndex.indexed, index_image in *. destruct (VNodeIndex.index_ vi); [|done].
  destruct Hi as [Hne _]. lia.
Qed.

(** The stream at position 96 of an empty file: the first write fills the gap. *)
Definition blank_header : File := mkFile (replicate kHeaderBytes NUL) kHeaderBytes None.

Lemma Dump_gap kv :
  KvStore.Dump kv (Some (mkFile [] kHeaderBytes None)) = KvStore.Dump kv (Some blank_header).
Proof.
  unfold KvStore.Dump, blank_header.
  assert (forall d, WriteExact d (mkFile [] kHeaderBytes None) =
                    WriteExact d (mkFile (replicate kHeaderBytes NUL) kHeaderBytes None)) as Hw.
  { intros d. unfold WriteExact, fwrite. cbn [f_room f_data f_pos option_map].
    do 2 f_equal. rewrite firstn_all.
    transitivity (replicate kHeaderBytes NUL ++ d); [|symmetry; apply (pwrite_end d (replicate kHeaderBytes NUL))].
    unfold pwrite. cbn [length app]. rewrite Nat.sub_0_r, drop_nil, app_nil_r.
    rewrite take_ge; [done|]. by rewrite length_replicate. }
  by rewrite Hw.
Qed.

Lemma SaveSegments_image vi kv :
  savable vi kv -> Z.of_nat kHeaderBytes + size_of (segments vi kv) < 2 ^ 63 ->
  SaveSegments vi kv (mkFile [] kHeaderBytes None) =
    (Some (saved_header vi kv), appended (segments vi kv) blank_header).
Proof.
  intros Hs Hsize. unfold SaveSegments. rewrite Dump_gap.
  change (ftell (mkFile [] kHeaderBytes None)) with (ftell blank_header).
  assert (at_end blank_header) as He0 by (split; done).
  assert (length (f_data blank_header) = kHeaderBytes) as Hl0 by done.
  rewrite (KvStore.Dump_append kv blank_header (sv_kv _ _ Hs) He0). fold (kv_segment kv).
  unfold segments in *. rewrite !size_of_app in Hsize.
  pose proof (size_of_nonneg (kv_segment kv)). pose proof (size_of_nonneg (nodes_segment vi)).
  pose proof (size_of_nonneg (index_image vi)).
  rewrite toc_between_appended by (done || (rewrite Hl0; lia)).
  set (f1 := appended (kv_segment kv) blank_header).
  assert (at_end f1) as He1 by (by apply appended_at_end).
  rewrite (VNodeDump.DumpNodes_append vi f1 (sv_fits _ _ Hs) He1). fold (nodes_segment vi).
  assert (Z.of_nat (length (f_data f1)) = Z.of_nat kHeaderBytes + size_of (kv_segment kv)) as Hl1.
  { cbn [f1 appended f_data]. rewrite length_app, Hl0. unfold size_of. lia. }
  rewrite toc_between_appended by (done || lia).
  set (f2 := appended (nodes_segment vi) f1).
  assert (at_end f2) as He2 by (by apply appended_at_end).
  assert (Z.of_nat (length (f_data f2)) = Z.of_nat kHeaderBytes + size_of (kv_segment kv)
            + size_of (nodes_segment vi)) as Hl2.
  { cbn [f2 appended f_data]. rewrite length_app. unfold size_of in *. lia. }
  assert (ftell f1 = Z.of_nat kHeaderBytes + size_of (kv_segment kv)) as Ht1
    by (unfold ftell; by rewrite (proj1 He1)).
  assert (ftell f2 = Z.of_nat kHeaderBytes + size_of (kv_segment kv) + size_of (nodes_segment vi)) as Ht2
    by (unfold ftell; by rewrite (proj1 He2)).
  change (ftell blank_header) with (Z.of_nat kHeaderBytes).
  unfold saved_header. cbn [dim with_toc_nodes with_toc_kv set_dims].
  destruct (Z.ltb_spec 0 (VNodeIndex.dim_ vi)) as [Hd|Hd].
  - rewrite (SaveIndex_image vi kv f2 Hs He2 Hd), toc_between_appended by (done || lia).
    rewrite Ht1, Ht2. f_equal. unfold f2, f1. rewrite !appended_appended. by rewrite <- ?app_assoc.
  - rewrite (index_image_nil vi kv Hs) by lia. rewrite app_nil_r, Ht1.
    f_equal. unfold f2, f1. by rewrite !appended_appended.
Qed.

(** ** Lemmas: loading the image *)

(** The segment boundaries. *)
Definition nodes_at (kv : KvStore.KvStore) : Z := Z.of_nat kHeaderBytes + size_of (kv_segment kv).
Definition usearch_at (vi : VNodeIndex.VNodeIndex) (kv : KvStore.KvStore) : Z :=
  nodes_at kv + size_of (nodes_segment vi).

Lemma saved_header_fields vi kv :
  let h := saved_header vi kv in
  dim h = VNodeIndex.dim_ vi /\ next_id h = VNodeStorage.next_id_ (VNodeIndex.storage_ vi) /\
  kv_count h = KvStore.size kv /\ node_count h = VNodeStorage.size (VNodeIndex.storage_ vi) /\
  toc_kv h = mkToc (Z.of_nat kHeaderBytes) (size_of (kv_segment kv)) /\
  toc_nodes h = mkToc (nodes_at kv) (size_of (nodes_segment vi)) /\
  toc_usearch h = (if 0 <? VNodeIndex.dim_ vi then mkToc (usearch_at vi kv) (size_of (index_image vi))
                   else default_toc).
Proof. unfold saved_header. cbn zeta. cbn [dim with_toc_nodes with_toc_kv set_dims]. by destruct (_ <? _). Qed.

Lemma saved_header_ok vi kv :
  savable vi kv -> Z.of_nat kHeaderBytes + size_of (segments vi kv) < 2 ^ 63 ->
  header_ok (saved_header vi kv).
Proof.
  intros Hs Hsize. destruct (saved_header_fields vi kv) as (Hd & Hn & Hk & Hc & H1 & H2 & H3).
  unfold segments in Hsize. rewrite !size_of_app in Hsize.
  pose proof (size_of_nonneg (kv_segment kv)). pose proof (size_of_nonneg (nodes_segment vi)).
  pose proof (size_of_nonneg (index_image vi)). pose proof (sv_dim _ _ Hs). pose proof (sv_count _ _ Hs).
  pose proof (VNodeStorage.wf_next _ (VNodeIndex.wf_storage _ (sv_vi _ _ Hs))).
  pose proof (KvStore.wf_count _ (sv_kv _ _ Hs)).
  change (Z.of_nat kHeaderBytes) with 96 in *.
  split; rewrite ?Hd, ?Hn, ?Hk, ?Hc.
  - unfold saved_header. cbn zeta. by destruct (_ <? _).
  - unfold saved_header. cbn zeta. destruct (_ <? _); [|done]. unfold with_toc_usearch. cbn [flags].
    by destruct (_ <? _).
  - lia.
  - lia.
  - unfold saved_header. cbn zeta. by destruct (_ <? _).
  - unfold KvStore.size in *. lia.
  - unfold VNodeStorage.size in *. lia.
  - rewrite H1, H2, H3. unfold usearch_at, nodes_at. change (Z.of_nat kHeaderBytes) with 96.
    repeat (apply Forall_cons_iff; split); [..|constructor]; cbn [toc_offset toc_length]; try lia.
    destruct (_ <? _); cbn [toc_offset toc_length default_toc]; lia.
Qed.

(** Where the segments lie in the file. *)
Lemma rdb_image_at vi kv :
  let d := rdb_image vi kv in
  drop kHeaderBytes d = kv_segment kv ++ nodes_segment vi ++ index_image vi /\
  drop (Z.to_nat (nodes_at kv)) d = nodes_segment vi ++ index_image vi /\
  exists pre, d = pre ++ index_image vi ++ [] /\ size_of pre = usearch_at vi kv.
Proof.
  unfold rdb_image, segments. pose proof (header_image_length (saved_header vi kv)) as Hh. split_and!.
  - by apply drop_app_exact.
  - rewrite app_assoc. apply drop_app_exact. rewrite length_app. unfold nodes_at, size_of. lia.
  - exists (header_image (saved_header vi kv) ++ kv_segment kv ++ nodes_segment vi).
    rewrite app_nil_r, <- !app_assoc. split; [done|].
    unfold usearch_at, nodes_at. rewrite !size_of_app. unfold size_of at 1. rewrite Hh. lia.
Qed.

Lemma rdb_image_size vi kv :
  size_of (rdb_image vi kv) = Z.of_nat kHeaderBytes + size_of (segments vi kv).
Proof. unfold rdb_image. rewrite size_of_app. unfold size_of at 1. by rewrite header_image_length. Qed.

(** The loaded vector index. *)
Definition index_like (ix : ptr USearchEmbedIndex.USearchEmbedIndex) (d : Z)
    (ix' : USearchEmbedIndex.USearchEmbedIndex) : Prop :=
  exists ix0, ix = Some ix0 /\ USearchEmbedIndex.content ix' = USearchEmbedIndex.content ix0 /\
    USearchEmbedIndex.dims_ok ix' /\ USearchEmbedIndex.dimensions_ ix' = d.

Lemma construct_ensures d c :
  is_Some (make d) ->
  is_Some (USearchEmbedIndex.ensure_impl (USearchEmbedIndex.construct d c)) /\
  USearchEmbedIndex.dimensions_ (USearchEmbedIndex.construct d c) = d.
Proof.
  intros [x Hx]. unfold USearchEmbedIndex.construct, USearchEmbedIndex.ensure_impl.
  destruct (d =? 0); cbn [USearchEmbedIndex.impl_ USearchEmbedIndex.dimensions_]; [by rewrite Hx|].
  rewrite Hx. destruct (try_reserve _ _) as [[] ?]; cbn; [done|by rewrite Hx].
Qed.

(** What the loaders of the vectors rely on: the backend can be created with
    the dimension of the saved cache. *)
Definition loadable (vi : VNodeIndex.VNodeIndex) : Prop :=
  0 < VNodeIndex.dim_ vi -> is_Some (make (VNodeIndex.dim_ vi)).

(** The saved vectors, when there is an index. *)
Lemma savable_index vi kv :
  savable vi kv -> 0 < VNodeIndex.dim_ vi ->
  exists ix x, VNodeIndex.index_ vi = Some ix /\ USearchEmbedIndex.impl_ ix = Some x /\
    index_image vi = image x /\ index_dimensions x = VNodeIndex.dim_ vi.
Proof.
  intros Hs Hd. pose proof (sv_index _ _ Hs) as Hi. pose proof (sv_indexed _ _ Hs) as Hx.
  unfold VNodeIndex.indexed, index_image in *. destruct (VNodeIndex.index_ vi) as [ix|]; [|lia].
  destruct Hi as [x Hi]. exists ix, x. rewrite Hi. destruct Hx as (_ & Hok & Heq & _).
  unfold USearchEmbedIndex.dims_ok in Hok. rewrite Hi in Hok. by rewrite Hok.
Qed.

Lemma LoadIndex_image vi kv s fp rest :
  savable vi kv -> loadable vi -> 0 < VNodeIndex.dim_ vi -> size_of (index_image vi) < 2 ^ 63 ->
  unread fp = index_image vi ++ rest ->
  exists ix' fp', VNodeIndex.LoadIndex s (Some fp) (VNodeIndex.dim_ vi) =
      (VNodeIndex.kOk, VNodeIndex.with_index s (VNodeIndex.dim_ vi) (Some ix'), Some fp') /\
    index_like (VNodeIndex.index_ vi) (VNodeIndex.dim_ vi) ix'.
Proof.
  intros Hs Hl Hd Hsz Hu. destruct (savable_index _ _ Hs Hd) as (ix & x & Hix & Hx & Him & Hdim).
  destruct (construct_ensures (VNodeIndex.dim_ vi) (VNodeIndex.default_capacity_ s) (Hl Hd)) as [[x0 E0] E1].
  rewrite Him in *. destruct (load_image x x0 fp rest Hsz Hu) as (x' & Hload & Hv & Hdx).
  unfold VNodeIndex.LoadIndex, USearchEmbedIndex.Load. rewrite E1, (proj2 (Z.eqb_neq _ 0)), E0, Hload by lia.
  cbn [negb USearchEmbedIndex.after_load USearchEmbedIndex.dimensions_]. rewrite Hdx, Hdim, Z.eqb_refl.
  eexists _, _. split; [done|]. exists ix. split; [done|].
  unfold USearchEmbedIndex.content, USearchEmbedIndex.dims_ok. rewrite Hx. cbn. by rewrite Hdx.
Qed.

Lemma LoadIndexMapped_image vi kv s get path data pre rest view :
  savable vi kv -> loadable vi -> 0 < VNodeIndex.dim_ vi -> size_of (index_image vi) < 2 ^ 63 ->
  get path = Some data -> data = pre ++ index_image vi ++ rest -> is_empty path = false ->
  exists ix', VNodeIndex.LoadIndexMapped get s path (size_of pre) (VNodeIndex.dim_ vi) view =
      (VNodeIndex.kOk, VNodeIndex.with_index s (VNodeIndex.dim_ vi) (Some ix')) /\
    index_like (VNodeIndex.index_ vi) (VNodeIndex.dim_ vi) ix'.
Proof.
  intros Hs Hl Hd Hsz Hg Hdata Hp. destruct (savable_index _ _ Hs Hd) as (ix & x & Hix & Hx & Him & Hdim).
  destruct (construct_ensures (VNodeIndex.dim_ vi) (VNodeIndex.default_capacity_ s) (Hl Hd)) as [[x0 E0] E1].
  rewrite Him in *. unfold VNodeIndex.LoadIndexMapped, USearchEmbedIndex.ViewMapped,
    USearchEmbedIndex.LoadMapped.
  rewrite Hp, E1, (proj2 (Z.eqb_neq _ 0)), E0, Hg, Hdata by lia. cbn [orb].
  destruct view.
  - destruct (view_mapped x x0 pre rest Hsz) as (x' & -> & Hv & Hdx).
    cbn [negb USearchEmbedIndex.after_load USearchEmbedIndex.dimensions_]. rewrite Hdx, Hdim, Z.eqb_refl.
    eexists. split; [done|]. exists ix. split; [done|].
    unfold USearchEmbedIndex.content, USearchEmbedIndex.dims_ok. rewrite Hx. cbn. by rewrite Hdx.
  - destruct (load_mapped x x0 pre rest Hsz) as (x' & -> & Hv & Hdx).
    cbn [negb USearchEmbedIndex.after_load USearchEmbedIndex.dimensions_]. rewrite Hdx, Hdim, Z.eqb_refl.
    eexists. split; [done|]. exists ix. split; [done|].
    unfold USearchEmbedIndex.content, USearchEmbedIndex.dims_ok. rewrite Hx. cbn. by rewrite Hdx.
Qed.

(** ** Lemmas: the round trip *)

(** The cache [vi'] holds the nodes, the id counter and the vectors of [vi],
    is well formed, and keeps the limits of the cache [s] it was loaded into. *)
Record restored (vi s vi' : VNodeIndex.VNodeIndex) : Prop := {
  rs_storage : VNodeIndex.storage_ vi' = VNodeIndex.storage_ vi;
  rs_dim : VNodeIndex.dim_ vi' = VNodeIndex.dim_ vi;
  rs_index : match VNodeIndex.index_ vi' with
             | Some ix' => index_like (VNodeIndex.index_ vi) (VNodeIndex.dim_ vi) ix'
             | None => VNodeIndex.index_ vi = None
             end;
  rs_wf : VNodeIndex.wf vi';
  rs_indexed : VNodeIndex.indexed vi';
  rs_max : VNodeIndex.max_entries_ vi' = VNodeIndex.max_entries_ s
}.

Lemma restored_no_index vi kv s s1 :
  savable vi kv -> ~ 0 < VNodeIndex.dim_ vi ->
  VNodeIndex.storage_ s1 = VNodeIndex.storage_ vi -> VNodeIndex.wf s1 ->
  VNodeIndex.index_ s1 = None -> VNodeIndex.dim_ s1 = 0 ->
  VNodeIndex.max_entries_ s1 = VNodeIndex.max_entries_ s -> restored vi s s1.
Proof.
  intros Hs Hd Hst Hwf Hix Hdim Hmax. pose proof (sv_indexed _ _ Hs) as Hi. pose proof (sv_dim _ _ Hs).
  assert (VNodeIndex.index_ vi = None) as Hn.
  { unfold VNodeIndex.indexed in Hi. destruct (VNodeIndex.index_ vi); [|done]. destruct Hi. lia. }
  split; try done; [lia|by rewrite Hix|]. unfold VNodeIndex.indexed in *. rewrite Hix, Hst. by rewrite Hn in Hi.
Qed.

Lemma restored_with_index vi kv s s1 ix' :
  savable vi kv -> 0 < VNodeIndex.dim_ vi ->
  VNodeIndex.storage_ s1 = VNodeIndex.storage_ vi -> VNodeIndex.wf s1 ->
  VNodeIndex.max_entries_ s1 = VNodeIndex.max_entries_ s ->
  index_like (VNodeIndex.index_ vi) (VNodeIndex.dim_ vi) ix' ->
  restored vi s (VNodeIndex.with_index s1 (VNodeIndex.dim_ vi) (Some ix')).
Proof.
  intros Hs Hd Hst [Hw1 Hw2 Hw3] Hmax Hlike. pose proof (sv_indexed _ _ Hs) as Hi.
  split; try done. destruct Hlike as (ix & Hix & Hc & Hok & Hdim).
  unfold VNodeIndex.indexed in *. cbn. rewrite Hst, Hc. rewrite Hix in Hi. naive_solver.
Qed.

(** The sizes fit the header's 64-bit offsets. *)
Definition rdb_fits (vi : VNodeIndex.VNodeIndex) (kv : KvStore.KvStore) : Prop :=
  size_of (rdb_image vi kv) < 2 ^ 63.

Lemma rdb_fits_bounds vi kv :
  rdb_fits vi kv ->
  Z.of_nat kHeaderBytes + size_of (segments vi kv) < 2 ^ 63 /\
  nodes_at kv < 2 ^ 63 /\ usearch_at vi kv < 2 ^ 63 /\ size_of (index_image vi) < 2 ^ 63 /\
  0 <= nodes_at kv /\ 0 <= usearch_at vi kv.
Proof.
  unfold rdb_fits. rewrite rdb_image_size. unfold segments, usearch_at, nodes_at.
  rewrite !size_of_app. change (Z.of_nat kHeaderBytes) with 96.
  pose proof (size_of_nonneg (kv_segment kv)). pose proof (size_of_nonneg (nodes_segment vi)).
  pose proof (size_of_nonneg (index_image vi)). lia.
Qed.

(** The counter is not exhausted and the backend can be created. *)
Definition restorable (vi : VNodeIndex.VNodeIndex) : Prop :=
  VNodeStorage.next_id_ (VNodeIndex.storage_ vi) <> 0 /\ loadable vi.

Lemma unread_at data n room : unread (mkFile data n room) = drop n data.
Proof. done. Qed.

Lemma fseek_ok off fp :
  0 <= off < 2 ^ 63 -> fseek (i64 off) fp = (true, mkFile (f_data fp) (Z.to_nat off) (f_room fp)).
Proof. intros H. rewrite i64_small by lia. unfold fseek. destruct (Z.ltb_spec off 0); [lia|done]. Qed.

Lemma next_id_u16 vi kv :
  savable vi kv -> u16 (VNodeStorage.next_id_ (VNodeIndex.storage_ vi)) =
    VNodeStorage.next_id_ (VNodeIndex.storage_ vi).
Proof. intros Hs. apply u16_small, (VNodeStorage.wf_next _ (VNodeIndex.wf_storage _ (sv_vi _ _ Hs))). Qed.

Lemma size_of_0 (l : bytes) : size_of l = 0 -> l = [].
Proof. destruct l; [done|]. rewrite size_of_cons. pose proof (size_of_nonneg l). lia. Qed.

Lemma LoadSegments_image vi kv s kv0 room pos :
  savable vi kv -> rdb_fits vi kv -> restorable vi ->
  exists vi' fp', LoadSegments (saved_header vi kv) s kv0 (mkFile (rdb_image vi kv) pos room) =
      (kOk, vi', kv, fp') /\ restored vi s vi'.
Proof.
  intros Hs Hfit [Hnx Hl]. destruct (rdb_fits_bounds _ _ Hfit) as (_ & Hn63 & Hu63 & Him & Hn0 & Hu0).
  destruct (saved_header_fields vi kv) as (Hd & Hn & Hk & Hc & H1 & H2 & H3).
  destruct (rdb_image_at vi kv) as (D1 & D2 & pre & D3 & Hpre).
  unfold LoadSegments. rewrite H1. cbn [toc_offset]. rewrite fseek_ok by done. cbn [negb f_data f_room].
  destruct (KvStore.Load_dump_bytes kv (KvStore.Clear kv0)
     (mkFile (rdb_image vi kv) (Z.to_nat (Z.of_nat kHeaderBytes)) room)
     (nodes_segment vi ++ index_image vi) (sv_kv _ _ Hs) D1) as [f1 HL].
  rewrite HL. apply KvStore.Load_data in HL. cbn [f_data] in HL.
  rewrite Hk, Z.eqb_refl. cbn [negb]. rewrite H2. cbn [toc_offset]. rewrite fseek_ok by done. cbn [negb].
  rewrite HL, Hc, Hn, (next_id_u16 vi kv Hs).
  destruct (VNodeDump.load_dumped_nodes vi (VNodeIndex.Clear s) (index_image vi) (sv_vi _ _ Hs)
              (sv_fits _ _ Hs) Hnx) as (s1 & _ & HN & Hst & Hwf & Hix & Hdim & Hmax & Hcap).
  destruct (HN (mkFile (rdb_image vi kv) (Z.to_nat (nodes_at kv)) (f_room f1)) D2) as (f2 & HL2 & _).
  rewrite HL2. apply VNodeDump.LoadNodes_data in HL2. cbn [f_data] in HL2.
  rewrite Hst, Z.eqb_refl. cbn [negb]. rewrite Hd, H3.
  destruct (Z.ltb_spec 0 (VNodeIndex.dim_ vi)) as [Hp|Hp].
  - destruct (savable_index _ _ Hs Hp) as (ix & x & _ & _ & Hxi & _). cbn [toc_length toc_offset].
    destruct (Z.eqb_spec (size_of (index_image vi)) 0) as [Hz|_].
    { destruct (image_nonempty x). rewrite <- Hxi. by apply size_of_0. }
    rewrite fseek_ok, HL2 by done. cbn [negb].
    destruct (LoadIndex_image vi kv s1 (mkFile (rdb_image vi kv) (Z.to_nat (usearch_at vi kv)) (f_room f2)) []
                Hs Hl Hp Him) as (ix' & f3 & HL3 & Hlike).
    { rewrite unread_at, D3. apply drop_app_exact. rewrite <- Hpre. unfold size_of. lia. }
    rewrite HL3. eexists _, _. split; [done|]. by eapply restored_with_index.
  - eexists _, _. split; [done|]. apply (restored_no_index vi kv); try done. lia.
Qed.

Lemma LoadMapped_image vi kv s kv0 view path fs :
  savable vi kv -> rdb_fits vi kv -> restorable vi ->
  files fs !! path = Some (rdb_image vi kv) -> is_empty path = false ->
  exists vi', LoadMappedSegments (saved_header vi kv) (rdb_image vi kv) view path fs s kv0 =
      (kOk, vi', kv) /\ restored vi s vi'.
Proof.
  intros Hs Hfit [Hnx Hl] Hfile Hpath.
  destruct (rdb_fits_bounds _ _ Hfit) as (_ & Hn63 & Hu63 & Him & Hn0 & Hu0).
  destruct (saved_header_fields vi kv) as (Hd & Hn & Hk & Hc & H1 & H2 & H3).
  destruct (rdb_image_at vi kv) as (D1 & D2 & pre & D3 & Hpre).
  unfold LoadMappedSegments. rewrite H1, H2. cbn [toc_offset toc_length].
  rewrite Nat2Z.id, D1, D2. unfold size_of at 1. rewrite Nat2Z.id.
  pose proof (KvStore.LoadFrom_dump_bytes kv (KvStore.Clear kv0) (nodes_segment vi ++ index_image vi)
    (sv_kv _ _ Hs)) as HL.
  fold (kv_segment kv) in HL. rewrite HL, Hk, Z.eqb_refl. cbn [negb].
  rewrite Hc, Hn, (next_id_u16 vi kv Hs). unfold size_of at 1. rewrite Nat2Z.id.
  destruct (VNodeDump.load_dumped_nodes vi (VNodeIndex.Clear s) (index_image vi) (sv_vi _ _ Hs)
              (sv_fits _ _ Hs) Hnx) as (s1 & HN & _ & Hst & Hwf & Hix & Hdim & Hmax & Hcap).
  fold (nodes_segment vi) in HN. rewrite HN, Hst, Z.eqb_refl. cbn [negb]. rewrite Hd, H3.
  destruct (Z.ltb_spec 0 (VNodeIndex.dim_ vi)) as [Hp|Hp].
  - destruct (savable_index _ _ Hs Hp) as (ix & x & _ & _ & Hxi & _). cbn [toc_length toc_offset].
    destruct (Z.eqb_spec (size_of (index_image vi)) 0) as [Hz|_].
    { destruct (image_nonempty x). rewrite <- Hxi. by apply size_of_0. }
    destruct (LoadIndexMapped_image vi kv s1 (fun p => files fs !! p) path _ pre [] view
                Hs Hl Hp Him Hfile D3 Hpath) as (ix' & HL3 & Hlike).
    rewrite Hpre in HL3. rewrite HL3. eexists. split; [done|]. by eapply restored_with_index.
  - eexists. split; [done|]. apply (restored_no_index vi kv); try done. lia.
Qed.

Lemma tmp_neq (path : bytes) : path <> path ++ bs ".tmp".
Proof. intros H. apply (f_equal length) in H. rewrite length_app in H. cbn in H. lia. Qed.

(** A file system on which the save of [path] meets no failure. *)
Record healthy (path : bytes) (fs : Fs) : Prop := {
  h_create : can_create fs (path ++ bs ".tmp") = true;
  h_mkdir : match parent_path path with Some dir => can_mkdir fs dir = true | None => True end;
  h_rename : can_rename fs = true;
  h_sync : can_sync fs = true;
  h_room : disk_room fs = None
}.

Lemma SaveToPath_image vi kv path fs :
  savable vi kv -> rdb_fits vi kv -> is_empty path = false -> healthy path fs ->
  exists fs', SaveToPath (mkStores (Some vi) (Some kv)) path fs = (kOk, fs') /\
    files fs' !! path = Some (rdb_image vi kv) /\ can_map fs' = can_map fs.
Proof.
  intros Hs Hfit Hp [Hc Hm Hr Hy Ho]. destruct (rdb_fits_bounds _ _ Hfit) as (Hb & _).
  unfold SaveToPath, fopen_wb. cbn [s_index s_kv]. rewrite Hp, Hc, Ho.
  assert (match parent_path path with Some dir => negb (create_directories dir fs) | None => false end = false) as ->.
  { destruct (parent_path path); [|done]. unfold create_directories. by rewrite Hm. }
  unfold fseek. destruct (Z.ltb_spec (Z.of_nat kHeaderBytes) 0); [lia|]. cbn [negb f_data f_room].
  rewrite Nat2Z.id, (SaveSegments_image vi kv Hs Hb).
  assert (appended (segments vi kv) blank_header =
    mkFile (replicate kHeaderBytes NUL ++ segments vi kv) (kHeaderBytes + length (segments vi kv)) None) as -> by done.
  rewrite WriteHeader_over by (rewrite length_app, length_replicate; lia).
  rewrite drop_app_exact by (by rewrite length_replicate). fold (rdb_image vi kv).
  unfold FsyncFile, fclose, rename, with_files. cbn [can_sync can_rename files negb default f_data].
  rewrite Hy, Hr. cbn [negb]. unfold id. rewrite lookup_insert_eq.
  eexists. split; [done|]. cbn [files can_map]. by rewrite lookup_insert_eq.
Qed.

Lemma LoadFromFile_image vi kv s kv0 :
  savable vi kv -> rdb_fits vi kv -> restorable vi ->
  exists vi', LoadFromFile (mkStores (Some s) (Some kv0)) (Some (mkFile (rdb_image vi kv) 0 None)) =
      (kOk, mkStores (Some vi') (Some kv)) /\ restored vi s vi'.
Proof.
  intros Hs Hfit Hr. destruct (rdb_fits_bounds _ _ Hfit) as (Hb & _).
  unfold LoadFromFile. cbn [s_index s_kv].
  rewrite (ReadHeader_image (saved_header vi kv) (segments vi kv))
    by (done || by apply saved_header_ok).
  destruct (LoadSegments_image vi kv s kv0 None kHeaderBytes Hs Hfit Hr) as (vi' & fp' & -> & Hres).
  by exists vi'.
Qed.

Lemma toc_in_bounds_ok o n size :
  0 <= o -> 0 <= n -> o + n <= size -> size < 2 ^ 63 -> toc_in_bounds (mkToc o n) size = true.
Proof.
  intros. unfold toc_in_bounds. cbn [toc_offset toc_length]. apply orb_true_iff. right.
  rewrite u64_small by lia.
  destruct (Z.ltb_spec size o), (Z.ltb_spec (size - o) n); done || lia.
Qed.

Lemma ParseHeader_rdb vi kv o :
  savable vi kv -> rdb_fits vi kv ->
  ParseHeader (Some (rdb_image vi kv)) (Some o) = (RdbFormat.kOk, Some (saved_header vi kv)).
Proof.
  intros Hs Hfit. destruct (rdb_fits_bounds _ _ Hfit) as (Hb & _).
  destruct (saved_header_fields vi kv) as (_ & _ & _ & _ & H1 & H2 & H3).
  pose proof (rdb_image_size vi kv) as Hsz. unfold rdb_fits in Hfit. unfold rdb_image in *.
  assert (size_of (segments vi kv) = size_of (kv_segment kv) + size_of (nodes_segment vi)
    + size_of (index_image vi)) as Hseg by (unfold segments; rewrite !size_of_app; lia).
  pose proof (size_of_nonneg (kv_segment kv)). pose proof (size_of_nonneg (nodes_segment vi)).
  pose proof (size_of_nonneg (index_image vi)).
  apply ParseHeader_image; [by apply saved_header_ok|..]; rewrite ?H1, ?H2, ?H3, Hsz.
  - apply toc_in_bounds_ok; lia.
  - apply toc_in_bounds_ok; unfold nodes_at; lia.
  - destruct (_ <? _); [|done]. apply toc_in_bounds_ok; unfold usearch_at, nodes_at; lia.
Qed.

Lemma LoadFromPath_image mmap_build view vi kv s kv0 path fs :
  savable vi kv -> rdb_fits vi kv -> restorable vi ->
  files fs !! path = Some (rdb_image vi kv) -> is_empty path = false ->
  exists vi', LoadFromPath mmap_build (mkStores (Some s) (Some kv0)) view path fs =
      (kOk, mkStores (Some vi') (Some kv)) /\ restored vi s vi'.
Proof.
  intros Hs Hfit Hr Hf Hp.
  destruct (LoadFromFile_image vi kv s kv0 Hs Hfit Hr) as (vf & HF & Hresf).
  unfold LoadFromPath, fopen_rb. cbn [s_index s_kv]. rewrite Hp, Hf. cbn [fmap option_fmap option_map].
  destruct mmap_build; [|by exists vf].
  unfold LoadFromMapped, Open. cbn [s_index s_kv]. rewrite Hp, Hf.
  destruct (can_map fs path); cbn [negb]; [|by exists vf].
  pose proof (header_image_length (saved_header vi kv)) as Hh.
  destruct (Nat.eqb_spec (length (rdb_image vi kv)) 0) as [Hz|_].
  { unfold rdb_image in Hz. rewrite length_app, Hh in Hz. cbn in Hz. lia. }
  cbn [m_data]. rewrite ParseHeader_rdb by done.
  destruct (LoadMapped_image vi kv s kv0 view path fs Hs Hfit Hr Hf Hp) as (vi' & -> & Hres).
  by exists vi'.
Qed.

(** ** Lemmas: failures and background saves *)

(** [fs'] differs from [fs] at [tmp] at most. *)
Definition only_tmp (tmp : bytes) (fs fs' : Fs) : Prop :=
  forall q, q <> tmp -> files fs' !! q = files fs !! q.

Lemma fclose_tmp tmp fp fs : only_tmp tmp fs (fclose tmp fp fs).
Proof. intros q Hq. unfold fclose, with_files. cbn [files]. by rewrite lookup_insert_ne. Qed.

Lemma only_tmp_trans tmp fs fs1 fs2 : only_tmp tmp fs fs1 -> only_tmp tmp fs1 fs2 -> only_tmp tmp fs fs2.
Proof. intros H1 H2 q Hq. by rewrite H2, H1. Qed.

Lemma rename_fails tmp path fs :
  let '(ok, fs') := rename tmp path fs in
  if ok then forall q, q <> path -> q <> tmp -> files fs' !! q = files fs !! q
  else fs' = fs.
Proof.
  unfold rename. destruct (can_rename fs); [|done]. destruct (files fs !! tmp); [|done].
  intros q H1 H2. unfold with_files. cbn [files]. by rewrite lookup_insert_ne, lookup_delete_ne.
Qed.

(** What the parent sees of background saves: requests and timer firings. *)
Inductive event :=
| Request (st : Stores) (path : bytes) (pid : Z)
| Timer (r : WaitResult) (fs : Fs).

Definition step (m : SnapshotManager) (e : event) : SnapshotManager :=
  match e with
  | Request st path pid => (BackgroundSaveToPath m st path pid).2
  | Timer r fs => if reap_timer_ m then (OnReapTimer m r fs).1.2 else m
  end.

(** [fork] never returns zero to the parent. *)
Definition event_ok (e : event) : bool :=
  match e with Request _ _ pid => negb (pid =? 0) | Timer _ _ => true end.

Definition supervised (m : SnapshotManager) : Prop :=
  match child m with
  | Some c => 0 < child_pid_ m /\ reap_timer_ m = true /\ pending_save_path_ m = c_path c /\
              is_empty (c_path c) = false
  | None => child_pid_ m <= 0
  end.

Lemma supervised_step m e : supervised m -> event_ok e = true -> supervised (step m e).
Proof.
  intros Hm He. destruct e as [st path pid|r fs]; cbn [step].
  - cbn in He. bool_facts. unfold BackgroundSaveToPath.
    destruct (s_index st), (s_kv st); try done. destruct (is_empty path) eqn:Ep; [done|].
    destruct (Z.ltb_spec 0 (child_pid_ m)) as [|Hpid]; [done|].
    destruct (Z.ltb_spec pid 0); cbn.
    + unfold supervised in *. cbn. destruct (child m); [lia|done].
    + unfold supervised. cbn. split_and!; done || lia.
  - destruct (reap_timer_ m) eqn:Et; [|done]. unfold OnReapTimer, ReapSaveChild, supervised in *. cbn.
    destruct (Z.leb_spec (child_pid_ m) 0) as [Hz|Hz]; cbn.
    { destruct (child m); [lia|]. destruct (Z.ltb_spec 0 (child_pid_ m)); [lia|]. done. }
    destruct r as [|[]|ok]; cbn; try done;
      rewrite (proj2 (Z.ltb_lt _ _) Hz); cbn; destruct (child m); naive_solver.
Qed.

(** ** Properties *)

(** C10: the snapshot round trip.  On a file system that meets no failure,
    [SaveToPath] reports [kOk]; loading that path afterwards into any stores
    (from the mapping, viewing or copying the vectors, or from the stream, in
    either build) reports [kOk] and gives the saved key-value store, the saved
    nodes, id counter and vectors, in a well-formed cache in which every node
    has its vector and whose entry limit is the loading cache's. *)
Theorem snapshot_roundtrip (vi vi0 : VNodeIndex.VNodeIndex) (kv kv0 : KvStore.KvStore) (path : bytes)
    (fs : Fs) (mmap_build view : bool) :
  savable vi kv -> rdb_fits vi kv -> restorable vi -> is_empty path = false -> healthy path fs ->
  exists fs' vi', SaveToPath (mkStores (Some vi) (Some kv)) path fs = (kOk, fs') /\
    LoadFromPath mmap_build (mkStores (Some vi0) (Some kv0)) view path fs' =
      (kOk, mkStores (Some vi') (Some kv)) /\
    restored vi vi0 vi'.
Proof.
  intros Hs Hfit Hr Hp Hh. destruct (SaveToPath_image vi kv path fs Hs Hfit Hp Hh) as (fs' & HS & Hf & _).
  destruct (LoadFromPath_image mmap_build view vi kv vi0 kv0 path fs' Hs Hfit Hr Hf Hp) as (vi' & HL & Hres).
  by exists fs', vi'.
Qed.

(** C24: a snapshot is replaced atomically.  Whatever fails (a directory, the
    temporary file, any write on a full disk, the sync, the rename), when
    [SaveToPath] does not report [kOk] the file at the final path is the one
    that was there before; and in no case is another file than the final and
    the temporary one touched. *)
Theorem save_atomic (st : Stores) (path : bytes) (fs : Fs) :
  let '(r, fs') := SaveToPath st path fs in
  (r <> kOk -> files fs' !! path = files fs !! path) /\
  (forall q, q <> path -> q <> path ++ bs ".tmp" -> files fs' !! q = files fs !! q).
Proof.
  pose proof (tmp_neq path) as Ht. unfold SaveToPath.
  destruct (s_index st) as [vi|], (s_kv st) as [kv|]; try done.
  destruct (is_empty path); [done|]. destruct (match parent_path path with Some dir => negb (create_directories dir fs) | None => false end);
    [done|].
  unfold fopen_wb. destruct (can_create fs _); [|done]. set (tmp := path ++ bs ".tmp") in *.
  set (fs1 := with_files fs _).
  assert (only_tmp tmp fs fs1) as H1 by (intros q Hq; unfold fs1; cbn; by rewrite lookup_insert_ne).
  assert (forall fp, only_tmp tmp fs (fclose tmp fp fs1)) as H2
    by (intros fp; eapply only_tmp_trans; [exact H1|apply fclose_tmp]).
  destruct (fseek _ _) as [[] fp]; cbn [negb]; [|split; intros; apply H2; congruence].
  destruct (SaveSegments vi kv fp) as [[h|] fp1]; [|split; intros; apply H2; congruence].
  destruct (WriteHeader (Some fp1) h) as [[] f]; try (split; intros; apply H2; congruence).
  destruct (FsyncFile fs1); cbn [negb]; [|split; intros; apply H2; congruence].
  pose proof (rename_fails tmp path (fclose tmp (default fp1 f) fs1)) as Hr.
  destruct (rename _ _ _) as [[] fs2].
  - split; [done|]. intros q Hq1 Hq2. rewrite Hr by done. by apply H2.
  - rewrite Hr. split; intros; apply H2; congruence.
Qed.

(** C33: background saves are supervised.  After any sequence of save requests
    and timer firings: at most one child exists, it is the process
    [child_pid_] names, and while it exists the reap timer is armed, so its
    exit will be seen, and every further request is refused with [kInProgress]
    and changes nothing.  The child holds the stores and the path of the
    request that forked it; when the timer then sees it exit, the callback
    runs once, with the exit's result and that path, no child is left, and a
    new request is accepted. *)
Theorem background_saves_supervised (dir : bytes) (es : list event) (vi : VNodeIndex.VNodeIndex)
    (kv : KvStore.KvStore) (path : bytes) (pid : Z) :
  forallb event_ok es = true -> is_empty path = false -> 0 < pid ->
  let m := fold_left step es (construct dir) in
  let st := mkStores (Some vi) (Some kv) in
  match child m with
  | Some c => 0 < child_pid_ m /\ reap_timer_ m = true /\
      BackgroundSaveToPath m st path pid = (kInProgress, m) /\
      forall ok fs, let '(cb, m', _) := OnReapTimer m (Exited ok) fs in
        cb = Some (ok, c_path c) /\ child m' = None /\ child_pid_ m' = -1
  | None => exists m', BackgroundSaveToPath m st path pid = (kOk, m') /\
      child m' = Some (mkChild st path) /\ child_pid_ m' = pid /\ reap_timer_ m' = true
  end.
Proof.
  intros Hes Hp Hpid m st. assert (supervised m) as Hm.
  { assert (supervised (construct dir)) as H0 by (cbn; lia). revert H0. subst m.
    generalize (construct dir). induction es as [|e es IH]; intros m0 H0; [done|].
    cbn in Hes. apply andb_true_iff in Hes as [He Hes]. apply IH; [done|]. by apply supervised_step. }
  clearbody m. unfold supervised in Hm. unfold BackgroundSaveToPath. cbn [s_index s_kv st]. rewrite Hp.
  destruct (child m) as [c|] eqn:Ec.
  - destruct Hm as (H1 & H2 & H3 & H4). rewrite (proj2 (Z.ltb_lt _ _) H1). split_and!; try done.
    intros ok fs. unfold OnReapTimer, ReapSaveChild. cbn. destruct (Z.leb_spec (child_pid_ m) 0); [lia|].
    cbn. by rewrite H3.
  - rewrite (proj2 (Z.ltb_ge _ _) Hm), (proj2 (Z.ltb_ge pid 0)) by lia. by eexists.
Qed.

End SnapshotManager.

(** ** Witnesses *)

#[local] Existing Instances flat_usearch flat_laws.
#[local] Instance demo_orderZ : IterOrder Z := default_order Z.
#[local] Instance demo_orderB : IterOrder bytes := default_order bytes.

Definition demo_fs : Fs :=
  mkFs {[bs "d/dump.rdb" := bs "old"]} (fun _ => true) (fun _ => true) (fun _ => true) true true None.

Lemma demo_savable : savable VNodeIndex.demo KvStore.demo.
Proof.
  split.
  - apply KvStore.demo_wf.
  - apply VNodeIndex.demo_ok.
  - apply VNodeIndex.demo_ok.
  - apply VNodeDump.demo_fits.
  - vm_compute. eauto.
  - vm_compute. split; [discriminate|reflexivity].
  - vm_compute. reflexivity.
Qed.

Lemma snapshot_roundtrip_witness :
  exists fs' vi',
    SaveToPath (mkStores (Some VNodeIndex.demo) (Some KvStore.demo)) (bs "d/dump.rdb") demo_fs = (kOk, fs') /\
    LoadFromPath true (mkStores (Some (VNodeIndex.construct 8 5)) (Some KvStore.empty)) true
      (bs "d/dump.rdb") fs' = (kOk, mkStores (Some vi') (Some KvStore.demo)) /\
    restored VNodeIndex.demo (VNodeIndex.construct 8 5) vi'.
Proof.
  apply (snapshot_roundtrip VNodeIndex.demo (VNodeIndex.construct 8 5) KvStore.demo KvStore.empty
           (bs "d/dump.rdb") demo_fs true true).
  - apply demo_savable.
  - vm_compute. reflexivity.
  - split; [vm_compute; discriminate|]. intros _. vm_compute. eauto.
  - reflexivity.
  - split; reflexivity.
Defined.

Lemma background_saves_supervised_witness :
  let m := fold_left step
    [Request (mkStores (Some VNodeIndex.demo) (Some KvStore.demo)) (bs "a.rdb") 7; Timer StillRunning demo_fs]
    (construct (bs "d")) in
  child_pid_ m = 7 /\
  BackgroundSaveToPath m (mkStores (Some VNodeIndex.demo) (Some KvStore.demo)) (bs "b.rdb") 8 = (kInProgress, m).
Proof.
  intros m. split; [reflexivity|].
  destruct (background_saves_supervised (bs "d")
    [Request (mkStores (Some VNodeIndex.demo) (Some KvStore.demo)) (bs "a.rdb") 7; Timer StillRunning demo_fs]
    VNodeIndex.demo KvStore.demo (bs "b.rdb") 8 eq_refl eq_refl eq_refl) as (_ & _ & H & _).
  exact H.
Defined.
