(* ===== verification/CommandHandler.v ===== *)
(** * CommandHandler: from a parsed request to its reply

    Models include/vemory/protocol/dispatcher/ and src/protocol/dispatcher/:
    HandlerRegister, the domain dispatchers and CommandHandler.  A pointer to
    one of the server's objects is a boolean, true if it is not null: all such
    pointers of one type are to the same object.  [None] as the result of a
    dispatcher is undefined behaviour (an argument of another type), which
    [dispatch_answers] excludes. *)

From S2P Require Import Prelude.
From S2P Require Import Stdio.
From S2P Require Import CommandType.
From S2P Require Import RequestContext.
From S2P Require Import RespEncode.
From S2P Require KvStore.
From S2P Require Import Usearch.
From S2P Require Import FlatIndex.
From S2P Require USearchEmbedIndex.
From S2P Require VNodeStorage.
From S2P Require VNodeIndex.
From S2P Require Import MutationApply.
From S2P Require SnapshotManager.

(** What the dispatcher uses of [ReplicationMaster::OnPsync]: the reply (which
    may stay empty) and its effect on the master and on the snapshots;
    [pid] is what [fork] would return. *)
Class Psync `{U : !Usearch} `(R : !Repl) := {
  on_psync : forall (client_fd : Z) (replid : bytes) (offset : Z) (pid : Z),
    SnapshotManager.Stores -> ptr (SnapshotManager.SnapshotManager) -> repl_state ->
    bytes * ptr SnapshotManager.SnapshotManager * repl_state
}.

Create HintDb reply.

Section CommandHandler.
Context `{U : !Usearch} `{W : !Wal} `{R : !Repl} `{P : !Psync R}.

(** The objects. *)
Record Server := mkServer {
  index : ptr VNodeIndex.VNodeIndex;
  kv : ptr KvStore.KvStore;
  snapshot : ptr SnapshotManager.SnapshotManager;
  wal : ptr wal_state;
  repl : ptr repl_state
}.

Record KvsDispatchArg := mkKvsArg { ka_kv : bool; ka_wal : bool; ka_repl : bool }.
Record VNodeDispatchArg := mkVNodeArg { va_index : bool; va_wal : bool; va_repl : bool }.

(** The [void*] argument. *)
Inductive Arg :=
| ArgKvs (a : KvsDispatchArg)
| ArgVNode (a : VNodeDispatchArg)
| ArgSnapshot
| ArgRepl.

(** A handler: the reply buffer and the server after it. *)
Definition CommandHandlerFn : Type :=
  RequestContext -> ptr bytes -> ptr Arg -> Z -> Server -> option (ptr bytes * Server).

(** Following a pointer to an object, and storing the object back. *)
Definition via {A} (p : bool) (o : ptr A) : ptr A := if p then o else None.
Definition back {A} (p : bool) (o o' : ptr A) : ptr A := if p then o' else o.

Definition ERR (msg : bytes) : bytes := bs "ERR " ++ msg.

(** ** The domain dispatchers *)

Definition AssistDispatcher : CommandHandlerFn := fun ctx reply arg pid s =>
  match reply with
  | None => Some (reply, s)
  | Some out =>
      let out :=
        match cmd ctx with
        | kPing => if is_empty (element ctx) then AppendSimpleString out (bs "PONG")
                   else AppendBulkString out (element ctx)
        | kEcho => AppendBulkString out (element ctx)
        | _ => AppendError out (bs "ERR unknown command")
        end in
      Some (Some out, s)
  end.

(** [ApplyMutation] on the objects [t] points to; the number of nodes plus two
    is enough fuel. *)
Definition Apply (ctx : RequestContext) (t : Targets) : option (ApplyResult * Targets) :=
  ApplyMutation (nodes t + 2) ctx kClient t.

Definition KvsDispatcher : CommandHandlerFn := fun ctx reply arg pid s =>
  match reply, arg with
  | Some out, Some (ArgKvs a) =>
      match via (ka_kv a) (kv s) with
      | None => Some (Some (AppendError out (bs "ERR kv not available")), s)
      | Some store =>
          let t := mkTargets None (Some store) (via (ka_wal a) (wal s)) (via (ka_repl a) (repl s)) in
          let after t' := mkServer (index s) (t_kv t') (snapshot s)
                            (back (ka_wal a) (wal s) (t_wal t')) (back (ka_repl a) (repl s) (t_repl t')) in
          match cmd ctx with
          | kSet =>
              match Apply ctx t with
              | None => None
              | Some (ar, t') =>
                  Some (Some (if ok ar then AppendOk out else AppendError out (ERR (err ar))), after t')
              end
          | kGet =>
              Some (Some (match KvStore.Get store (key ctx) (Some []) with
                          | (KvStore.kNotFound, _) => AppendNullBulk out
                          | (KvStore.kOk, value) => AppendBulkString out (default [] value)
                          | _ => AppendError out (bs "ERR get failed")
                          end), s)
          | kDel =>
              match Apply ctx t with
              | None => None
              | Some (ar, t') =>
                  Some (Some (if ok ar then AppendInteger out (integer_reply ar)
                              else AppendError out (ERR (err ar))), after t')
              end
          | _ => Some (Some (AppendError out (bs "ERR unknown command")), s)
          end
      end
  | Some _, Some _ => None
  | _, _ => Some (reply, s)
  end.

Definition VNodeDispatcher : CommandHandlerFn := fun ctx reply arg pid s =>
  match reply, arg with
  | Some out, Some (ArgVNode a) =>
      match via (va_index a) (index s) with
      | None => Some (Some (AppendError out (bs "ERR index not available")), s)
      | Some vi =>
          let t := mkTargets (Some vi) None (via (va_wal a) (wal s)) (via (va_repl a) (repl s)) in
          let after t' := mkServer (t_index t') (kv s) (snapshot s)
                            (back (va_wal a) (wal s) (t_wal t')) (back (va_repl a) (repl s) (t_repl t')) in
          match cmd ctx with
          | kVset =>
              match Apply ctx t with
              | None => None
              | Some (ar, t') =>
                  Some (Some (if ok ar then AppendOk out else AppendError out (ERR (err ar))), after t')
              end
          | kVget =>
              let '(st, answer, vi) := VNodeIndex.Get vi (vector_blob ctx) (threshold ctx) (Some []) in
              Some (Some (match st with
                          | VNodeIndex.kOk => AppendBulkString out (default [] answer)
                          | _ => AppendNullBulk out
                          end),
                    mkServer (Some vi) (kv s) (snapshot s) (wal s) (repl s))
          | kVdel =>
              match Apply ctx t with
              | None => None
              | Some (ar, t') =>
                  Some (Some (if ok ar then AppendInteger out (integer_reply ar)
                              else AppendError out (ERR (err ar))), after t')
              end
          | _ => Some (Some (AppendError out (bs "ERR unknown command")), s)
          end
      end
  | Some _, Some _ => None
  | _, _ => Some (reply, s)
  end.

Definition PersistDispatcher : CommandHandlerFn := fun ctx reply arg pid s =>
  match reply, arg with
  | None, _ => Some (reply, s)
  | Some out, None => Some (Some (AppendError out (bs "ERR persistence not available")), s)
  | Some out, Some ArgSnapshot =>
      match snapshot s with
      | None => Some (Some (AppendError out (bs "ERR persistence not available")), s)
      | Some snap =>
          match cmd ctx with
          | kSave =>
              let '(st, snap) :=
                SnapshotManager.BackgroundSave snap (SnapshotManager.mkStores (index s) (kv s)) pid in
              Some (Some (match st with
                          | SnapshotManager.kOk => AppendOk out
                          | SnapshotManager.kNotConfigured =>
                              AppendError out (bs "ERR persistence dir not set")
                          | SnapshotManager.kInProgress =>
                              AppendError out (bs "ERR Background save already in progress")
                          | _ => AppendError out (bs "ERR save failed")
                          end),
                    mkServer (index s) (kv s) (Some snap) (wal s) (repl s))
          | _ => Some (Some (AppendError out (bs "ERR unknown command")), s)
          end
      end
  | Some _, Some _ => None
  end.

Definition ReplicationDispatcher : CommandHandlerFn := fun ctx reply arg pid s =>
  match reply with
  | None => Some (reply, s)
  | Some out =>
      match cmd ctx with
      | kPsync =>
          match arg with
          | None => Some (Some (AppendError out (bs "ERR not a master")), s)
          | Some ArgRepl =>
              match repl s with
              | None => Some (Some (AppendError out (bs "ERR not a master")), s)
              | Some master =>
                  let '(out, snap, master) :=
                    on_psync (client_fd ctx) (psync_replid ctx) (psync_offset ctx) pid
                      (SnapshotManager.mkStores (index s) (kv s)) (snapshot s) master in
                  Some (Some out, mkServer (index s) (kv s) snap (wal s) (Some master))
              end
          | Some _ => None
          end
      | _ => Some (Some (AppendError out (bs "ERR unknown command")), s)
      end
  end.

(** ** [HandlerRegister] *)

Record Entry := mkEntry { fn : ptr CommandHandlerFn; arg : ptr Arg }.

Definition HandlerRegister : Type := list Entry.

Definition empty_register : HandlerRegister := replicate kCommandTypeCount (mkEntry None None).

Definition Register (r : HandlerRegister) (c : CommandType) (f : ptr CommandHandlerFn) (a : ptr Arg)
    : HandlerRegister :=
  match f with
  | None => r
  | Some _ =>
      if bool_decide (c = kUnknown) then r
      else
        let idx := CommandType.index c in
        if (kCommandTypeCount <=? idx)%nat then r else <[idx := mkEntry f a]> r
  end.

Definition RegisterDispatch (r : HandlerRegister) : RequestContext -> ptr bytes -> Z -> Server ->
    option (ptr bytes * Server) := fun ctx reply pid s =>
  match reply with
  | None => Some (reply, s)
  | Some out =>
      let unknown := Some (Some (AppendError out (bs "ERR unknown command")), s) in
      if bool_decide (cmd ctx = kUnknown) then unknown
      else
        match r !! CommandType.index (cmd ctx) with
        | Some (mkEntry (Some f) a) => f ctx reply a pid s
        | _ => unknown
        end
  end.

(** ** [CommandHandler] *)

Definition IsReplicaWriteCommand (c : CommandType) : bool :=
  match c with
  | kSet | kDel | kVset | kVdel | kSave => true
  | _ => false
  end.

Record CommandHandler := mkHandler { replica_readonly_ : bool; register_ : HandlerRegister }.

Definition construct (s : Server) (replica_readonly : bool) : CommandHandler :=
  let is_set {A} (p : ptr A) := match p with Some _ => true | None => false end in
  let kvs_arg := ArgKvs (mkKvsArg (is_set (kv s)) (is_set (wal s)) (is_set (repl s))) in
  let vnode_arg := ArgVNode (mkVNodeArg (is_set (index s)) (is_set (wal s)) (is_set (repl s))) in
  let r := empty_register in
  let r := Register r kPing (Some AssistDispatcher) None in
  let r := Register r kEcho (Some AssistDispatcher) None in
  let r := if is_set (index s) then
             let r := Register r kVset (Some VNodeDispatcher) (Some vnode_arg) in
             let r := Register r kVget (Some VNodeDispatcher) (Some vnode_arg) in
             Register r kVdel (Some VNodeDispatcher) (Some vnode_arg)
           else r in
  let r := if is_set (kv s) then
             let r := Register r kSet (Some KvsDispatcher) (Some kvs_arg) in
             let r := Register r kDel (Some KvsDispatcher) (Some kvs_arg) in
             Register r kGet (Some KvsDispatcher) (Some kvs_arg)
           else r in
  let r := if is_set (snapshot s) then Register r kSave (Some PersistDispatcher) (Some ArgSnapshot) else r in
  let r := if is_set (repl s) then Register r kPsync (Some ReplicationDispatcher) (Some ArgRepl) else r in
  mkHandler replica_readonly r.

Definition Dispatch (h : CommandHandler) (ctx : RequestContext) (reply : ptr bytes) (pid : Z) (s : Server)
    : option (ptr bytes * Server) :=
  match reply with
  | None => Some (reply, s)
  | Some _ =>
      let out := [] in
      if replica_readonly_ h && IsReplicaWriteCommand (cmd ctx) then
        Some (Some (AppendError out (bs "READONLY You can't write against a read only replica.")), s)
      else RegisterDispatch (register_ h) ctx (Some out) pid s
  end.

(** ** Lemmas: what a mutation leaves alone *)

Definition is_set {A} (p : ptr A) : bool := match p with Some _ => true | None => false end.

(** Which pointers are set. *)
Definition targets_shape (t : Targets) : bool * bool * bool * bool :=
  (is_set (t_index t), is_set (t_kv t), is_set (t_wal t), is_set (t_repl t)).

(** Text without line breaks. *)
Definition clean (s : bytes) : bool :=
  forallb (fun c => negb (bool_decide (c = CR)) && negb (bool_decide (c = LF))) s.

Definition framed (t : Targets) (p : ApplyResult * Targets) : Prop :=
  clean (err p.1) = true /\ targets_shape p.2 = targets_shape t.

Lemma publish_framed ctx src t n : framed t (publish ctx src t n).
Proof.
  unfold publish, framed. destruct t as [i k w r].
  destruct src; [|done]. cbn [t_wal t_repl].
  destruct w as [w|], r as [r|]; cbn [negb andb orb];
    repeat (case_match; try done); unfold with_wal, with_repl in *; simplify_eq/=; done.
Qed.

Lemma framed_trans t t1 p : targets_shape t1 = targets_shape t -> framed t1 p -> framed t p.
Proof. unfold framed. intros E [? ?]. by rewrite <- E. Qed.

Lemma fail_framed t t1 msg :
  clean (bs msg) = true -> targets_shape t1 = targets_shape t -> framed t (fail msg, t1).
Proof. by split. Qed.

Lemma shape_with_index t vi vi' : t_index t = Some vi -> targets_shape (with_index t vi') = targets_shape t.
Proof. unfold targets_shape. cbn. by intros ->. Qed.

Lemma shape_with_kv t k k' : t_kv t = Some k -> targets_shape (with_kv t k') = targets_shape t.
Proof. unfold targets_shape. cbn. by intros ->. Qed.

Ltac framed :=
  first [ apply fail_framed; [reflexivity|] | eapply framed_trans; [|apply publish_framed] | split; [reflexivity|] ];
  cbn; eauto using shape_with_index, shape_with_kv.

Lemma apply_set_framed ctx src t : framed t (apply_set ctx src t).
Proof.
  unfold apply_set. destruct (t_kv t) eqn:E; [|by framed]. destruct (is_empty _); [by framed|].
  destruct (KvStore.Set_ _ _ _) as [[] ?]; framed.
Qed.

Lemma apply_del_framed ctx src t : framed t (apply_del ctx src t).
Proof.
  unfold apply_del. destruct (t_kv t) eqn:E; [|by framed]. destruct (is_empty _); [by framed|].
  destruct (KvStore.Del _ _) as [[] ?]; framed.
Qed.

Lemma apply_vdel_framed ctx src t : framed t (apply_vdel ctx src t).
Proof.
  unfold apply_vdel. destruct (t_index t) eqn:E; [|by framed].
  destruct (VNodeIndex.Del _ _) as [[] ?]; framed.
Qed.

Lemma apply_vset_set_framed ctx src t vi :
  t_index t = Some vi -> framed t (apply_vset_set ctx src t vi).
Proof.
  intros E. unfold apply_vset_set. destruct (VNodeIndex.Set_ _ _ _ _ _) as [[] ?]; framed.
Qed.

Lemma EvictLoop_framed apply n key t vi r t' :
  (forall c u p, apply c u = Some p -> framed u p) ->
  t_index t = Some vi -> EvictLoop apply n key t vi = Some (r, t') ->
  targets_shape t' = targets_shape t /\ match r with Some e => clean (err e) = true | None => True end.
Proof.
  intros Ha. revert t vi. induction n as [|n IH]; intros t vi E H; [done|]. cbn [EvictLoop] in H.
  destruct (VNodeIndex.NeedsRoomFor vi key); [|by injection H as <- <-].
  destruct (VNodeIndex.PeekLruUserKey vi (Some [])) as [[st victim] vi'].
  assert (targets_shape (with_index t vi') = targets_shape t) as Hs by eauto using shape_with_index.
  destruct st; try (by injection H as <- <-). destruct victim as [victim|]; [|by injection H as <- <-].
  destruct (is_empty victim); [by injection H as <- <-|].
  destruct (apply _ _) as [[ar t1]|] eqn:E1; [|done].
  apply Ha in E1 as [Hc H1]. cbn [fst snd] in *. destruct (ok ar); cbn [negb] in H.
  - destruct (t_index t1) as [vi1|] eqn:E2; [|done]. apply IH in H as [H ?]; [|done].
    split; [congruence|done].
  - injection H as <- <-. split; [congruence|done].
Qed.

Lemma ApplyMutation_framed fuel ctx src t p : ApplyMutation fuel ctx src t = Some p -> framed t p.
Proof.
  revert ctx src t p. induction fuel as [|n IH]; intros ctx src t p H; [done|].
  rewrite ApplyMutation_S in H.
  destruct (cmd ctx);
    [|by injection H as <-; framed|by injection H as <-; apply apply_vdel_framed
     |by injection H as <-; apply apply_set_framed|by injection H as <-; apply apply_del_framed
     |by injection H as <-; framed..].
  unfold apply_vset in H. destruct (t_index t) as [vi|] eqn:E; [|by injection H as <-; framed].
  destruct (match src with kClient => _ | kAofReplay => _ end) as [[r t1]|] eqn:E1; [|done].
  assert (targets_shape t1 = targets_shape t /\ match r with Some e => clean (err e) = true | None => True end)
    as [Hs Hr].
  { destruct src; [|by injection E1 as <- <-].
    eapply EvictLoop_framed; [|exact E|exact E1]. intros c u q Hq. exact (IH _ _ _ _ Hq). }
  destruct r as [e|]; [by injection H as <-; split|].
  destruct (t_index t1) as [vi1|] eqn:E2; [|done]. injection H as <-.
  eapply framed_trans; [exact Hs|]. by apply apply_vset_set_framed.
Qed.

Context `{L : !UsearchLaws U} `{WL : !WalLaws W}.

(** ** Lemmas: replies *)

(** One RESP reply: a status line, an error line, an integer, a bulk string or
    the null bulk string. *)
Inductive one_reply : bytes -> Prop :=
| reply_simple l : clean l = true -> one_reply (AppendSimpleString [] l)
| reply_error l : clean l = true -> one_reply (AppendError [] l)
| reply_integer n : one_reply (AppendInteger [] n)
| reply_bulk d : one_reply (AppendBulkString [] d)
| reply_null : one_reply (AppendNullBulk []).

Lemma reply_ok : one_reply (AppendOk []).
Proof. apply (reply_simple (bs "OK")). reflexivity. Qed.

Lemma reply_ERR l : clean l = true -> one_reply (AppendError [] (ERR l)).
Proof. intros Hl. apply reply_error. exact Hl. Qed.

#[local] Hint Resolve reply_simple reply_error reply_integer reply_bulk reply_null reply_ok reply_ERR : reply.

Definition server_targets (s : Server) : Targets := mkTargets (index s) (kv s) (wal s) (repl s).

(** The cache behind the index pointer is well formed. *)
Definition server_wf (s : Server) : Prop := targets_wf (server_targets s).

Definition server_shape (s : Server) : bool * bool * bool * bool * bool :=
  (is_set (index s), is_set (kv s), is_set (snapshot s), is_set (wal s), is_set (repl s)).

(** A dispatcher that answers: one reply, and a server of the same shape. *)
Definition answers (s : Server) (p : option (ptr bytes * Server)) : Prop :=
  exists reply s', p = Some (Some reply, s') /\ server_wf s' /\ server_shape s' = server_shape s /\
    one_reply reply.

Lemma answers_here s l : server_wf s -> one_reply l -> answers s (Some (Some l, s)).
Proof. intros. by exists l, s. Qed.

Lemma Apply_total ctx t :
  targets_wf t -> exists r t', Apply ctx t = Some (r, t') /\ targets_wf t' /\
    clean (err r) = true /\ targets_shape t' = targets_shape t.
Proof.
  intros Hwf. unfold Apply. destruct (ApplyMutation_effect (nodes t + 2) ctx t Hwf) as (r & t' & HA & Hw & _);
    [lia|].
  exists r, t'. split_and!; try done; by apply ApplyMutation_framed in HA as [? ?].
Qed.

Lemma back_shape {A} p (o o' : ptr A) : is_set o' = is_set (via p o) -> is_set (back p o o') = is_set o.
Proof. by destruct p. Qed.

Lemma AssistDispatcher_answers ctx a pid s :
  server_wf s -> answers s (AssistDispatcher ctx (Some []) a pid s).
Proof.
  intros Hwf. unfold AssistDispatcher. destruct (cmd ctx); try (apply answers_here; auto with reply).
  destruct (is_empty _); auto with reply.
Qed.

Lemma KvsDispatcher_answers ctx a pid s :
  server_wf s -> answers s (KvsDispatcher ctx (Some []) (Some (ArgKvs a)) pid s).
Proof.
  intros Hwf. unfold KvsDispatcher. destruct (via (ka_kv a) (kv s)) as [store|] eqn:E;
    [|apply answers_here; auto with reply].
  assert (is_set (kv s) = true) as Hkv by (destruct (ka_kv a), (kv s); done).
  set (t := mkTargets None (Some store) _ _).
  destruct (Apply_total ctx t ltac:(done)) as (r & t' & HA & Hw & Hc & Hs). unfold targets_shape in Hs.
  injection Hs as _ Hsk Hsw Hsr.
  assert (forall l, one_reply l -> answers s (Some (Some l,
    mkServer (index s) (t_kv t') (snapshot s) (back (ka_wal a) (wal s) (t_wal t'))
      (back (ka_repl a) (repl s) (t_repl t'))))) as Hafter.
  { intros l Hl. eexists _, _. split; [done|]. split_and!; try done.
    unfold server_shape. cbn [index kv snapshot wal repl]. by rewrite Hsk, !back_shape, Hkv. }
  destruct (cmd ctx); rewrite ?HA; try (apply answers_here; auto with reply).
  - apply Hafter. destruct (ok r); auto with reply.
  - apply Hafter. destruct (ok r); auto with reply.
  - destruct (KvStore.Get _ _ _) as [[] ?]; auto with reply.
Qed.

Lemma VNodeDispatcher_answers ctx a pid s :
  server_wf s -> answers s (VNodeDispatcher ctx (Some []) (Some (ArgVNode a)) pid s).
Proof.
  intros Hwf. unfold VNodeDispatcher. destruct (via (va_index a) (index s)) as [vi|] eqn:E;
    [|apply answers_here; auto with reply].
  assert (index s = Some vi) as Hix by (by destruct (va_index a)).
  set (t := mkTargets (Some vi) None _ _).
  assert (targets_wf t) as Ht by (unfold server_wf, targets_wf in Hwf; cbn in Hwf; by rewrite Hix in Hwf).
  destruct (Apply_total ctx t Ht) as (r & t' & HA & Hw & Hc & Hs). unfold targets_shape in Hs.
  injection Hs as Hsi _ Hsw Hsr.
  assert (forall l, one_reply l -> answers s (Some (Some l,
    mkServer (t_index t') (kv s) (snapshot s) (back (va_wal a) (wal s) (t_wal t'))
      (back (va_repl a) (repl s) (t_repl t'))))) as Hafter.
  { intros l Hl. eexists _, _. split; [done|]. split_and!; try done.
    unfold server_shape. cbn [index kv snapshot wal repl]. by rewrite Hsi, !back_shape, Hix. }
  destruct (cmd ctx); rewrite ?HA; try (apply answers_here; auto with reply).
  - apply Hafter. destruct (ok r); auto with reply.
  - destruct Ht as (Hw1 & Hi1 & Hm1).
    pose proof (VNodeIndex.Get_effect vi (vector_blob ctx) (threshold ctx) [] Hw1 Hi1) as HG.
    destruct (VNodeIndex.Get _ _ _ _) as [[st ans] vi']. destruct HG as (Hw2 & Hi2 & _ & _ & _ & Hm2 & _).
    eexists _, _. split; [done|]. split_and!.
    + unfold server_wf, targets_wf. cbn. by rewrite Hm2.
    + unfold server_shape. by rewrite Hix.
    + destruct st; auto with reply.
  - apply Hafter. destruct (ok r); auto with reply.
Qed.

Lemma PersistDispatcher_answers ctx pid s :
  server_wf s -> answers s (PersistDispatcher ctx (Some []) (Some ArgSnapshot) pid s).
Proof.
  intros Hwf. unfold PersistDispatcher. destruct (snapshot s) as [snap|] eqn:E;
    [|apply answers_here; auto with reply].
  destruct (cmd ctx); try (apply answers_here; auto with reply).
  destruct (SnapshotManager.BackgroundSave _ _ _) as [st snap']. eexists _, _. split; [done|].
  split_and!; [done|unfold server_shape; by rewrite E|destruct st; auto with reply].
Qed.

(** The registrations of the constructor. *)
Definition kvs_arg (s : Server) : Arg := ArgKvs (mkKvsArg (is_set (kv s)) (is_set (wal s)) (is_set (repl s))).
Definition vnode_arg (s : Server) : Arg :=
  ArgVNode (mkVNodeArg (is_set (index s)) (is_set (wal s)) (is_set (repl s))).

Definition registered (s : Server) (c : CommandType) : Entry :=
  match c with
  | kPing | kEcho => mkEntry (Some AssistDispatcher) None
  | kVset | kVget | kVdel =>
      if is_set (index s) then mkEntry (Some VNodeDispatcher) (Some (vnode_arg s)) else mkEntry None None
  | kSet | kDel | kGet =>
      if is_set (kv s) then mkEntry (Some KvsDispatcher) (Some (kvs_arg s)) else mkEntry None None
  | kSave => if is_set (snapshot s) then mkEntry (Some PersistDispatcher) (Some ArgSnapshot)
             else mkEntry None None
  | kPsync => if is_set (repl s) then mkEntry (Some ReplicationDispatcher) (Some ArgRepl)
              else mkEntry None None
  | kUnknown => mkEntry None None
  end.

Lemma construct_registers s ro c :
  c <> kUnknown -> register_ (construct s ro) !! CommandType.index c = Some (registered s c).
Proof.
  intros Hc. destruct s as [i k sn w r]. unfold construct, kvs_arg, vnode_arg. cbn [index kv snapshot wal repl].
  destruct c, i, k, sn, w, r; try done; reflexivity.
Qed.

Lemma RegisterDispatch_spec s0 ro ctx out pid s :
  RegisterDispatch (register_ (construct s0 ro)) ctx (Some out) pid s =
    match fn (registered s0 (cmd ctx)) with
    | Some f => f ctx (Some out) (arg (registered s0 (cmd ctx))) pid s
    | None => Some (Some (AppendError out (bs "ERR unknown command")), s)
    end.
Proof.
  unfold RegisterDispatch. case_bool_decide as Hu; [by rewrite Hu|].
  rewrite construct_registers by done. by destruct (registered s0 (cmd ctx)) as [[] ?].
Qed.

(** ** Lemmas: the key-value commands *)

Definition log_failed (s : Server) (reply : bytes) : Prop :=
  reply = AppendError [] (bs "ERR aof append failed") /\
  match wal s with Some w => wal_enabled w = true | None => False end.

Lemma publish_result ctx t n :
  is_Some (write_tokens ctx) ->
  (publish ctx kClient t n).1 = mkResult true [] n \/
  (publish ctx kClient t n).1 = mkResult false (bs "aof append failed") n /\
    match t_wal t with Some w => wal_enabled w = true | None => False end.
Proof.
  intros [toks Ht]. unfold publish. destruct (_ || _); [|by left]. rewrite EncodeWriteCommand_spec, Ht.
  destruct (t_wal t) as [w|] eqn:Ew; [|by left].
  destruct (wal_enabled w) eqn:Ee; [|by left]. destruct (wal_append w _) as [[] w']; [by left|by right].
Qed.

Lemma apply_set_result ctx kv w r :
  cmd ctx = kSet -> is_empty (key ctx) = false ->
  let t := mkTargets None (Some kv) w r in
  let '(res, t') := apply_set ctx kClient t in
  t_kv t' = Some (KvStore.mkKv (<[key ctx := element ctx]> (KvStore.map_ kv))) /\
  (res = mkResult true [] 0 \/ res = mkResult false (bs "aof append failed") 0 /\
     match w with Some w => wal_enabled w = true | None => False end).
Proof.
  intros Hc Hk t. unfold apply_set. cbn [t_kv t]. rewrite Hk, KvStore.kv_Set_spec, Hk.
  set (t1 := with_kv t _).
  pose proof (publish_result ctx t1 0 ltac:(unfold write_tokens; rewrite Hc; eauto)) as HP.
  pose proof (publish_index ctx kClient t1 0) as HI.
  destruct (publish ctx kClient t1 0) as [res t']. cbn [fst snd] in *. split; [|done].
  by destruct HI as [_ ->].
Qed.

Lemma apply_del_result ctx kv w r :
  cmd ctx = kDel -> is_empty (key ctx) = false ->
  let t := mkTargets None (Some kv) w r in
  let '(res, t') := apply_del ctx kClient t in
  let n := if decide (is_Some (KvStore.map_ kv !! key ctx)) then 1 else 0 in
  (exists kv', t_kv t' = Some kv' /\ KvStore.map_ kv' = delete (key ctx) (KvStore.map_ kv)) /\
  (res = mkResult true [] n \/ res = mkResult false (bs "aof append failed") n /\
     match w with Some w => wal_enabled w = true | None => False end).
Proof.
  intros Hc Hk t. unfold apply_del. cbn [t_kv t]. rewrite Hk, KvStore.kv_Del_spec, Hk.
  destruct (KvStore.map_ kv !! key ctx) as [v|] eqn:E.
  - set (t1 := with_kv t _). rewrite decide_True by eauto.
    pose proof (publish_result ctx t1 1 ltac:(unfold write_tokens; rewrite Hc; eauto)) as HP.
    pose proof (publish_index ctx kClient t1 1) as HI.
    destruct (publish ctx kClient t1 1) as [res t']. cbn [fst snd] in *. split; [|done].
    destruct HI as [_ ->]. by exists (KvStore.mkKv (delete (key ctx) (KvStore.map_ kv))).
  - cbn. split; [|by left]. by eexists.
Qed.

Lemma via_set {A} (o : ptr A) : via (is_set o) o = o.
Proof. by destruct o. Qed.

Lemma Apply_set ctx t : cmd ctx = kSet -> Apply ctx t = Some (apply_set ctx kClient t).
Proof. intros Hc. unfold Apply. rewrite Nat.add_comm. cbn [Nat.add]. by rewrite ApplyMutation_S, Hc. Qed.

Lemma Apply_del ctx t : cmd ctx = kDel -> Apply ctx t = Some (apply_del ctx kClient t).
Proof. intros Hc. unfold Apply. rewrite Nat.add_comm. cbn [Nat.add]. by rewrite ApplyMutation_S, Hc. Qed.

(** The other commands do not touch the store. *)
Definition store_kept (f : CommandHandlerFn) : Prop :=
  forall ctx r a pid s r' s', f ctx r a pid s = Some (r', s') -> kv s' = kv s.

Lemma VNodeDispatcher_kv : store_kept VNodeDispatcher.
Proof. intros ctx r a pid s r' s' H. unfold VNodeDispatcher in H. repeat (case_match; simplify_eq/=; try done). Qed.

Lemma PersistDispatcher_kv : store_kept PersistDispatcher.
Proof. intros ctx r a pid s r' s' H. unfold PersistDispatcher in H. repeat (case_match; simplify_eq/=; try done). Qed.

Lemma ReplicationDispatcher_kv : store_kept ReplicationDispatcher.
Proof. intros ctx r a pid s r' s' H. unfold ReplicationDispatcher in H. repeat (case_match; simplify_eq/=; try done). Qed.

Lemma AssistDispatcher_kv : store_kept AssistDispatcher.
Proof. intros ctx r a pid s r' s' H. unfold AssistDispatcher in H. destruct r; by simplify_eq. Qed.

Lemma registered_kv s c :
  match c with kSet | kDel | kGet => True
  | _ => match fn (registered s c) with Some f => store_kept f | None => True end end.
Proof.
  unfold registered. destruct c; try done; repeat (destruct (is_set _)); cbn;
    auto using VNodeDispatcher_kv, PersistDispatcher_kv, ReplicationDispatcher_kv, AssistDispatcher_kv.
Qed.

Lemma ReplicationDispatcher_total ctx s pid :
  exists reply s', ReplicationDispatcher ctx (Some []) (Some ArgRepl) pid s = Some (Some reply, s').
Proof.
  unfold ReplicationDispatcher. destruct (cmd ctx); try by eexists _, _.
  destruct (repl s); [|by eexists _, _]. destruct (on_psync _ _ _ _ _ _ _) as [[? ?] ?]. by eexists _, _.
Qed.

Lemma Dispatch_total s0 s ro ctx pid r0 :
  server_wf s -> exists reply s', Dispatch (construct s0 ro) ctx (Some r0) pid s = Some (Some reply, s').
Proof.
  intros Hwf. unfold Dispatch. destruct (_ && _); [by eexists _, _|]. rewrite RegisterDispatch_spec.
  assert (forall p, answers s p -> exists reply s', p = Some (Some reply, s')) as HA
    by (intros p (l & s' & -> & _); by exists l, s').
  unfold registered, kvs_arg, vnode_arg. destruct (cmd ctx); repeat (destruct (is_set _)); cbn [fn arg];
    try (by eexists _, _); try apply ReplicationDispatcher_total; apply HA;
    auto using VNodeDispatcher_answers, KvsDispatcher_answers, AssistDispatcher_answers,
      PersistDispatcher_answers.
Qed.

(** ** Properties *)

(** Every request is answered.  Whatever the request (its arguments
    unchecked, its command unknown), a server of any configuration neither
    runs into undefined behaviour nor leaves its cache ill formed, and the
    reply is exactly one RESP reply, whose status and error lines hold no line
    break; only a PSYNC to a master, which answers later, is exempt. *)
Theorem dispatch_answers (s0 s : Server) (ro : bool) (ctx : RequestContext) (pid : Z) (r0 : bytes) :
  server_shape s = server_shape s0 -> server_wf s -> cmd ctx <> kPsync \/ repl s0 = None ->
  exists reply s', Dispatch (construct s0 ro) ctx (Some r0) pid s = Some (Some reply, s') /\
    server_wf s' /\ server_shape s' = server_shape s0 /\ one_reply reply.
Proof.
  intros Hsh Hwf Hps. rewrite <- Hsh. change (answers s (Dispatch (construct s0 ro) ctx (Some r0) pid s)).
  unfold Dispatch. cbn [replica_readonly_ construct]. destruct (ro && _); [apply answers_here; auto with reply|].
  rewrite RegisterDispatch_spec. unfold registered, kvs_arg, vnode_arg.
  destruct (cmd ctx) eqn:Ec;
    repeat match goal with |- context [if is_set ?p then _ else _] => destruct (is_set p) eqn:? end;
    cbn [fn arg];
    auto using answers_here, VNodeDispatcher_answers, KvsDispatcher_answers, AssistDispatcher_answers,
      PersistDispatcher_answers with reply.
  destruct Hps as [|Hn]; [done|]. by rewrite Hn in *.
Qed.

(** The reply to GET. *)
Definition get_reply (m : gmap bytes bytes) (k : bytes) : bytes :=
  if is_empty k then AppendError [] (bs "ERR get failed")
  else match m !! k with Some v => AppendBulkString [] v | None => AppendNullBulk [] end.

Lemma Dispatch_kv (s0 s : Server) (ctx : RequestContext) (pid : Z) (r0 : bytes) (store : KvStore.KvStore) :
  server_shape s = server_shape s0 -> server_wf s -> kv s = Some store ->
  exists reply s' store', Dispatch (construct s0 false) ctx (Some r0) pid s = Some (Some reply, s') /\
    kv s' = Some store' /\
    let m := KvStore.map_ store in
    match cmd ctx with
    | kSet =>
        if is_empty (key ctx) then reply = AppendError [] (bs "ERR empty key") /\ store' = store
        else KvStore.map_ store' = <[key ctx := element ctx]> m /\ (reply = AppendOk [] \/ log_failed s reply)
    | kDel =>
        if is_empty (key ctx) then reply = AppendError [] (bs "ERR empty key") /\ store' = store
        else KvStore.map_ store' = delete (key ctx) m /\
          (reply = AppendInteger [] (if decide (is_Some (m !! key ctx)) then 1 else 0) \/ log_failed s reply)
    | kGet => reply = get_reply m (key ctx) /\ store' = store
    | _ => store' = store
    end.
Proof.
  intros Hsh Hwf Hkv. unfold server_shape in Hsh. injection Hsh as _ Hs _ Hw Hr. rewrite Hkv in Hs.
  destruct (Dispatch_total s0 s false ctx pid r0 Hwf) as (reply & s' & HD). exists reply, s'.
  unfold Dispatch in HD. cbn [replica_readonly_ construct andb] in HD. rewrite RegisterDispatch_spec in HD.
  assert (kv s' = kv s -> exists store', kv s' = Some store' /\ store' = store) as Hkeep
    by (intros ->; by exists store).
  pose proof (registered_kv s0 (cmd ctx)) as HK. unfold Dispatch.
  cbn [replica_readonly_ construct andb]. rewrite RegisterDispatch_spec, HD.
  assert (registered s0 kSet = mkEntry (Some KvsDispatcher) (Some (kvs_arg s0)) /\
          registered s0 kDel = mkEntry (Some KvsDispatcher) (Some (kvs_arg s0)) /\
          registered s0 kGet = mkEntry (Some KvsDispatcher) (Some (kvs_arg s0))) as (R1 & R2 & R3)
    by (unfold registered; by rewrite <- Hs).
  destruct (cmd ctx) eqn:Ec; rewrite ?R1, ?R2, ?R3 in HD; cbn [fn arg] in HD.
  all: try (rewrite ?HK in HD; destruct Hkeep as (st' & ? & ?);
    [destruct (fn (registered s0 _)) as [f|]; [by eapply HK|by simplify_eq]|by exists st']).
  all: unfold KvsDispatcher, kvs_arg in HD; cbn [ka_kv ka_wal ka_repl] in HD;
    rewrite <- Hs, <- Hw, <- Hr in HD; cbn [is_set via] in HD; rewrite Hkv, Ec, ?via_set in HD.
  - rewrite Apply_set in HD by done. destruct (is_empty (key ctx)) eqn:Ek.
    { unfold apply_set in HD. cbn [t_kv] in HD. rewrite Ek in HD. simplify_eq/=. by exists store. }
    pose proof (apply_set_result ctx store (wal s) (repl s) Ec Ek) as HA. cbn zeta in HA.
    destruct (apply_set _ _ _) as [res t']. destruct HA as [Hm Hres]. simplify_eq/=. rewrite Hm.
    eexists. split_and!; [done..|]. by destruct Hres as [->|[-> ?]]; [left|right].
  - rewrite Apply_del in HD by done. destruct (is_empty (key ctx)) eqn:Ek.
    { unfold apply_del in HD. cbn [t_kv] in HD. rewrite Ek in HD. simplify_eq/=. by exists store. }
    pose proof (apply_del_result ctx store (wal s) (repl s) Ec Ek) as HA. cbn zeta in HA.
    destruct (apply_del _ _ _) as [res t']. destruct HA as [(kv' & Hm & Hm') Hres]. simplify_eq/=. rewrite Hm.
    eexists. split_and!; [done..|]. by destruct Hres as [->|[-> ?]]; [left|right].
  - simplify_eq. exists store. split_and!; try done. unfold get_reply, KvStore.Get.
    destruct (is_empty (key ctx)); [done|]. by destruct (KvStore.map_ store !! key ctx).
Qed.

(** What a command does to the map of the store, and its reply; [log_refused] is what
    holds if the log may have refused the write. *)
Definition map_call (m : gmap bytes bytes) (ctx : RequestContext) (reply : bytes) (m' : gmap bytes bytes)
    (log_refused : Prop) : Prop :=
  match cmd ctx with
  | kSet =>
      if is_empty (key ctx) then reply = AppendError [] (bs "ERR empty key") /\ m' = m
      else m' = <[key ctx := element ctx]> m /\ (reply = AppendOk [] \/ log_refused)
  | kDel =>
      if is_empty (key ctx) then reply = AppendError [] (bs "ERR empty key") /\ m' = m
      else m' = delete (key ctx) m /\
        (reply = AppendInteger [] (if decide (is_Some (m !! key ctx)) then 1 else 0) \/ log_refused)
  | kGet => reply = get_reply m (key ctx) /\ m' = m
  | _ => m' = m
  end.

(** The same, of the map behind the store. *)
Lemma Dispatch_map s0 s ctx pid r0 store :
  server_shape s = server_shape s0 -> server_wf s -> kv s = Some store ->
  exists reply s' store', Dispatch (construct s0 false) ctx (Some r0) pid s = Some (Some reply, s') /\
    kv s' = Some store' /\ map_call (KvStore.map_ store) ctx reply (KvStore.map_ store') (log_failed s reply).
Proof.
  intros Hsh Hwf Hkv. destruct (Dispatch_kv s0 s ctx pid r0 store Hsh Hwf Hkv) as (reply & s' & store' & H1 & H2 & H3).
  exists reply, s', store'. split_and!; [done|done|]. unfold map_call. cbn zeta in H3.
  destruct (cmd ctx); try (destruct (is_empty (key ctx))); naive_solver.
Qed.

(** C9: the server is a key-value map.  On a server with a store, SET of a
    non-empty key binds it and answers OK, DEL unbinds it and answers how many
    keys it removed, GET answers the bound value or null, and no other command
    changes a binding.  If the enabled log refuses the write the client is told
    so, but the write has been made all the same. *)
Theorem kv_refines_map (s0 s : Server) (ctx : RequestContext) (pid : Z) (r0 : bytes) (store : KvStore.KvStore) :
  server_shape s = server_shape s0 -> server_wf s -> kv s = Some store ->
  exists reply s' store', Dispatch (construct s0 false) ctx (Some r0) pid s = Some (Some reply, s') /\
    kv s' = Some store' /\
    let m := KvStore.map_ store in
    match cmd ctx with
    | kSet =>
        if is_empty (key ctx) then reply = AppendError [] (bs "ERR empty key") /\ store' = store
        else KvStore.map_ store' = <[key ctx := element ctx]> m /\ (reply = AppendOk [] \/ log_failed s reply)
    | kDel =>
        if is_empty (key ctx) then reply = AppendError [] (bs "ERR empty key") /\ store' = store
        else KvStore.map_ store' = delete (key ctx) m /\
          (reply = AppendInteger [] (if decide (is_Some (m !! key ctx)) then 1 else 0) \/ log_failed s reply)
    | kGet => reply = get_reply m (key ctx) /\ store' = store
    | _ => store' = store
    end.
Proof. apply Dispatch_kv. Qed.

(** C23: a replica serves no writes.  On a read-only server (which has no
    replication master) SET, DEL, VSET, VDEL and SAVE are refused with the
    READONLY error, and no request whatsoever changes the store, the log, the
    snapshots, or the cache beyond the access order of its nodes. *)
Theorem replica_never_writes (s0 s : Server) (ctx : RequestContext) (pid : Z) (r0 : bytes) :
  server_shape s = server_shape s0 -> server_wf s -> repl s0 = None ->
  exists reply s', Dispatch (construct s0 true) ctx (Some r0) pid s = Some (Some reply, s') /\
    kv s' = kv s /\ wal s' = wal s /\ snapshot s' = snapshot s /\ repl s' = repl s /\
    option_Forall2 eqv (index s) (index s') /\
    (IsReplicaWriteCommand (cmd ctx) = true ->
     s' = s /\ reply = AppendError [] (bs "READONLY You can't write against a read only replica.")).
Proof.
  intros Hsh Hwf Hrepl.
  assert (forall i : ptr VNodeIndex.VNodeIndex, option_Forall2 eqv i i) as Hrefl
    by (intros []; by constructor).
  unfold Dispatch. cbn [replica_readonly_ construct andb].
  destruct (IsReplicaWriteCommand (cmd ctx)) eqn:Ew; [by eexists _, s|].
  rewrite RegisterDispatch_spec. unfold registered. rewrite Hrepl.
  unfold server_shape in Hsh. injection Hsh as Hs1 Hs2 Hs3 Hs4 Hs5. cbn [is_set].
  destruct (cmd ctx) eqn:Ec; try done; cbn [fn arg]; try by (eexists _, s).
  - destruct (is_set (index s0)) eqn:E0; cbn [fn arg]; [|by eexists _, s].
    unfold VNodeDispatcher, vnode_arg. cbn [va_index]. rewrite E0. cbn [via].
    destruct (index s) as [vi|] eqn:Ei; [|done]. rewrite Ec.
    pose proof (Get_eqv_self vi (vector_blob ctx) (threshold ctx) (Some [])) as HG.
    destruct (VNodeIndex.Get _ _ _ _) as [[st ans] vi']. cbn [snd] in HG.
    eexists _, _. split; [done|]. split_and!; try done. by constructor.
  - destruct (is_set (kv s0)); cbn [fn arg]; [|by eexists _, s].
    unfold KvsDispatcher, kvs_arg. cbn [ka_kv].
    destruct (via (is_set (kv s0)) (kv s)) as [store|]; [|by eexists _, s]. rewrite Ec. by eexists _, s.
Qed.

End CommandHandler.

(** ** Witnesses *)

#[local] Existing Instances flat_usearch flat_laws.
#[local] Existing Instances list_wal list_repl list_wal_laws.

(** A master that registers nobody. *)
#[local] Instance no_psync : Psync list_repl := {| on_psync fd id off pid st sn r := ([], sn, r) |}.

Definition demo_server : Server :=
  mkServer (Some VNodeIndex.demo) (Some KvStore.demo) (Some (SnapshotManager.construct (bs "d")))
    (Some []) None.

Lemma demo_server_wf : server_wf demo_server.
Proof. split_and!; [apply VNodeIndex.demo_ok|apply VNodeIndex.demo_ok|]. vm_compute. discriminate. Qed.

Definition ctx_of (c : CommandType) (k e : string) : RequestContext :=
  mkCtx 7 c [] (bs k) [] [] 0 (bs k) (bs e) [] (-1) 0.

Lemma dispatch_answers_witness :
  exists reply s', Dispatch (construct demo_server false) (ctx_of kVdel "k1" "") (Some []) 9 demo_server =
      Some (Some reply, s') /\ server_wf s' /\ one_reply reply.
Proof.
  destruct (dispatch_answers demo_server demo_server false (ctx_of kVdel "k1" "") 9 [] eq_refl demo_server_wf)
    as (reply & s' & HD & Hwf & _ & Hr).
  - left. discriminate.
  - exists reply, s'. split; [exact HD|]. split; [exact Hwf|exact Hr].
Defined.

Lemma kv_refines_map_witness :
  exists reply s' store', Dispatch (construct demo_server false) (ctx_of kSet "a" "b") (Some []) 9 demo_server =
      Some (Some reply, s') /\ kv s' = Some store' /\
    KvStore.map_ store' = <[bs "a" := bs "b"]> (KvStore.map_ KvStore.demo).
Proof.
  destruct (kv_refines_map demo_server demo_server (ctx_of kSet "a" "b") 9 [] KvStore.demo eq_refl
              demo_server_wf eq_refl) as (reply & s' & store' & HD & Hkv & Hm & _).
  exists reply, s', store'. split; [exact HD|]. split; [exact Hkv|exact Hm].
Defined.

Lemma replica_never_writes_witness :
  exists reply s', Dispatch (construct demo_server true) (ctx_of kVget "" "") (Some []) 9 demo_server =
      Some (Some reply, s') /\ kv s' = kv demo_server /\ option_Forall2 eqv (index demo_server) (index s').
Proof.
  destruct (replica_never_writes demo_server demo_server (ctx_of kVget "" "") 9 [] eq_refl demo_server_wf eq_refl)
    as (reply & s' & HD & Hkv & _ & _ & _ & Hi & _).
  exists reply, s'. split; [exact HD|]. split; [exact Hkv|exact Hi].
Defined.
