(* ===== verification/TcpConnection.v ===== *)
(** * TcpConnection: output buffering of a connection

    Models include/vemory/net/TcpConnection.h and src/net/TcpConnection.cc.
    The kernel's side of the socket is [sock_], what the next [send] and
    [sendfile] calls will return, and [wire], the bytes it has accepted so far.
    Callbacks are returned as events, in the order in which they are called;
    the owner of the connection runs them. *)

From S2P Require Import Prelude.
From S2P Require Import Stdio.
From S2P Require Import MessageBuffer.

(** The result of one [send] or [sendfile]: [n] bytes accepted (at most what was
    offered), EAGAIN, or another error. *)
Inductive SendResult := Sent (n : nat) | Again | SendFailed.

(** [sendfile_done_(ok)], [close_cb_()] and [read_cb_()]. *)
Inductive Event := SendFileDone (ok : bool) | Closed | Readable.

#[export] Instance Event_eq_dec : EqDecision Event.
Proof. solve_decision. Defined.

Record TcpConn := mkConn {
  closed_ : bool;
  output_buffer_ : bytes;
  input_buffer_ : MessageBuffer;
  sendfile_fd_ : option bytes;      (** the open file's content; [None] is -1 *)
  sendfile_offset_ : nat;
  sendfile_remaining_ : nat;
  sendfile_done_ : bool;            (** a callback is set *)
  post_sendfile_buffer_ : bytes;
  epollout : bool;                  (** EPOLLOUT is in the event mask *)
  sock_ : list SendResult;
  wire : bytes
}.

Definition construct (sock : list SendResult) : TcpConn :=
  mkConn false [] MessageBuffer.empty None 0 0 false [] false sock [].

Definition with_closed (c : TcpConn) : TcpConn :=
  mkConn true (output_buffer_ c) (input_buffer_ c) (sendfile_fd_ c) (sendfile_offset_ c)
    (sendfile_remaining_ c) (sendfile_done_ c) (post_sendfile_buffer_ c) (epollout c) (sock_ c) (wire c).
Definition with_output (c : TcpConn) (out : bytes) : TcpConn :=
  mkConn (closed_ c) out (input_buffer_ c) (sendfile_fd_ c) (sendfile_offset_ c)
    (sendfile_remaining_ c) (sendfile_done_ c) (post_sendfile_buffer_ c) (epollout c) (sock_ c) (wire c).
Definition with_input (c : TcpConn) (buf : MessageBuffer) : TcpConn :=
  mkConn (closed_ c) (output_buffer_ c) buf (sendfile_fd_ c) (sendfile_offset_ c)
    (sendfile_remaining_ c) (sendfile_done_ c) (post_sendfile_buffer_ c) (epollout c) (sock_ c) (wire c).
Definition with_file (c : TcpConn) (fd : option bytes) (off rem : nat) (done : bool) : TcpConn :=
  mkConn (closed_ c) (output_buffer_ c) (input_buffer_ c) fd off rem done
    (post_sendfile_buffer_ c) (epollout c) (sock_ c) (wire c).
Definition with_post (c : TcpConn) (post : bytes) : TcpConn :=
  mkConn (closed_ c) (output_buffer_ c) (input_buffer_ c) (sendfile_fd_ c) (sendfile_offset_ c)
    (sendfile_remaining_ c) (sendfile_done_ c) post (epollout c) (sock_ c) (wire c).
Definition with_epollout (c : TcpConn) (on : bool) : TcpConn :=
  mkConn (closed_ c) (output_buffer_ c) (input_buffer_ c) (sendfile_fd_ c) (sendfile_offset_ c)
    (sendfile_remaining_ c) (sendfile_done_ c) (post_sendfile_buffer_ c) on (sock_ c) (wire c).
Definition with_kernel (c : TcpConn) (sock : list SendResult) (w : bytes) : TcpConn :=
  mkConn (closed_ c) (output_buffer_ c) (input_buffer_ c) (sendfile_fd_ c) (sendfile_offset_ c)
    (sendfile_remaining_ c) (sendfile_done_ c) (post_sendfile_buffer_ c) (epollout c) sock w.

Definition EnableWrite (c : TcpConn) : TcpConn := with_epollout c true.
Definition DisableWrite (c : TcpConn) : TcpConn := with_epollout c false.

(** One [send] or [sendfile] of [data]; with no answer left the socket is full. *)
Definition syscall (data : bytes) (c : TcpConn) : SendResult * TcpConn :=
  match sock_ c with
  | [] => (Again, c)
  | Sent n :: sock =>
      let n := Nat.min n (length data) in
      (Sent n, with_kernel c sock (wire c ++ take n data))
  | r :: sock => (r, with_kernel c sock (wire c))
  end.

Definition OutputBufferedBytes (c : TcpConn) : nat :=
  length (output_buffer_ c) + length (post_sendfile_buffer_ c) + sendfile_remaining_ c.

Definition ClearSendFile (ok : bool) (c : TcpConn) : list Event * TcpConn :=
  let cb := sendfile_done_ c in
  let c := with_file c None 0 0 false in
  let c := if ok && negb (is_empty (post_sendfile_buffer_ c)) then
             EnableWrite (with_post (with_output c (output_buffer_ c ++ post_sendfile_buffer_ c)) [])
           else with_post c [] in
  (if cb then [SendFileDone ok] else [], c).

Definition Close (c : TcpConn) : list Event * TcpConn :=
  if closed_ c then ([], c)
  else
    let '(evs, c) := ClearSendFile false (with_closed c) in
    (evs ++ [Closed], c).

(** [data] is [None] for [nullptr]. *)
Definition Send (c : TcpConn) (data : ptr bytes) : Z * list Event * TcpConn :=
  match data with
  | None => (-1, [], c)
  | Some data =>
      if closed_ c || is_empty data then (-1, [], c)
      else
        match sendfile_fd_ c with
        | Some _ => (i32 (size_of data), [], with_post c (post_sendfile_buffer_ c ++ data))
        | None =>
            if negb (is_empty (output_buffer_ c)) then
              (i32 (size_of data), [], EnableWrite (with_output c (output_buffer_ c ++ data)))
            else
              match syscall data c with
              | (Again, c) =>
                  (i32 (size_of data), [], EnableWrite (with_output c (output_buffer_ c ++ data)))
              | (SendFailed, c) => let '(evs, c) := Close c in (-1, evs, c)
              | (Sent n, c) =>
                  (Z.of_nat n, [],
                   if (n <? length data)%nat
                   then EnableWrite (with_output c (output_buffer_ c ++ drop n data)) else c)
              end
        end
  end.

(** One iteration of the loop of [HandleWrite]: whether it goes on, the
    callbacks of this iteration, the connection. *)
Definition HandleWrite_round (c : TcpConn) : bool * list Event * TcpConn :=
  let fail c :=
    let '(e1, c) := ClearSendFile false c in
    let '(e2, c) := Close c in (false, e1 ++ e2, c) in
  if negb (is_empty (output_buffer_ c)) then
    match syscall (output_buffer_ c) c with
    | (Sent (S n), c) => (true, [], with_output c (drop (S n) (output_buffer_ c)))
    | (Again, c) => (false, [], c)
    | (_, c) => fail c
    end
  else
    match sendfile_fd_ c with
    | Some file =>
        if (0 <? sendfile_remaining_ c)%nat then
          let chunk := Nat.min (sendfile_remaining_ c) (Z.to_nat (2 ^ 20)) in
          match syscall (sub (sendfile_offset_ c) chunk file) c with
          | (Sent (S n), c) =>
              (true, [], with_file c (sendfile_fd_ c) (sendfile_offset_ c + S n)
                           (sendfile_remaining_ c - S n) (sendfile_done_ c))
          | (Again, c) => (false, [], c)
          | (_, c) => fail c
          end
        else let '(evs, c) := ClearSendFile true c in (true, evs, c)
    | None => (false, [], DisableWrite c)
    end.

(** [SendFile] up to its call of [HandleWrite], which its caller makes;
    [file] is what opening the path gives. *)
Definition SendFile (c : TcpConn) (path : bytes) (file : option bytes) (done : bool) : bool * TcpConn :=
  if closed_ c || is_empty path then (false, c)
  else
    match sendfile_fd_ c with
    | Some _ => (false, c)
    | None =>
        match file with
        | None => (false, c)
        | Some content => (true, EnableWrite (with_file c (Some content) 0 (length content) done))
        end
    end.

Definition EAGAIN : Z := 11.

(** The loop of [HandleRead], given what the successive [recv] calls return. *)
Fixpoint HandleRead_loop (rs : list RecvResult) (has_data : bool) (c : TcpConn) : bool * list Event * TcpConn :=
  match rs with
  | [] => (has_data, [], c)
  | r :: rs =>
      let '(n, err, buf) := Recv (input_buffer_ c) r (Some 0) in
      let c := with_input c buf in
      if 0 <? n then HandleRead_loop rs true c
      else if n =? 0 then let '(evs, c) := Close c in (false, evs, c)
      else if bool_decide (err = Some EAGAIN) then (has_data, [], c)
      else let '(evs, c) := Close c in (false, evs, c)
  end.

Definition HandleRead (rs : list RecvResult) (read_cb : bool) (c : TcpConn) : list Event * TcpConn :=
  let '(has_data, evs, c) := HandleRead_loop rs false c in
  (evs ++ if has_data && read_cb then [Readable] else [], c).

(** ** The event handlers, with the owner's callbacks *)

(** How often the loop of [HandleWrite] can still go round: once for each answer
    of the socket and once for the end of a file. *)
Definition rounds (c : TcpConn) : nat :=
  length (sock_ c) + match sendfile_fd_ c with Some _ => 1 | None => 0 end.

Definition EPOLLIN : Z := 1.
Definition EPOLLOUT : Z := 4.
Definition EPOLLERR : Z := 8.
Definition EPOLLHUP : Z := 16.
Definition EPOLLRDHUP : Z := 8192.

Definition has (events mask : Z) : bool := negb (Z.land events mask =? 0).

Section handlers.
Context {World : Type} (conn : World -> TcpConn) (set_conn : TcpConn -> World -> World).
Context (callback : Event -> World -> option World).

(** Running callbacks; [None] is undefined behaviour in one of them. *)
Fixpoint callbacks (evs : list Event) (w : World) : option World :=
  match evs with
  | [] => Some w
  | e :: evs => match callback e w with Some w => callbacks evs w | None => None end
  end.

Fixpoint HandleWrite (fuel : nat) (w : World) : option World :=
  match fuel with
  | O => None
  | S fuel =>
      let '(again, evs, c) := HandleWrite_round (conn w) in
      match callbacks evs (set_conn c w) with
      | None => None
      | Some w => if again then HandleWrite fuel w else Some w
      end
  end.

Definition HandleIO (events : Z) (rs : list RecvResult) (read_cb : bool) (w : World) : option World :=
  if closed_ (conn w) then Some w
  else
    match (if has events EPOLLIN then
             let '(evs, c) := HandleRead rs read_cb (conn w) in callbacks evs (set_conn c w)
           else Some w) with
    | None => None
    | Some w =>
        if closed_ (conn w) then Some w
        else
          match (if has events EPOLLOUT then HandleWrite (S (rounds (conn w))) w else Some w) with
          | None => None
          | Some w =>
              if closed_ (conn w) then Some w
              else if has events (Z.lor EPOLLERR (Z.lor EPOLLHUP EPOLLRDHUP)) then
                let '(evs, c) := Close (conn w) in callbacks evs (set_conn c w)
              else Some w
          end
    end.
End handlers.

(** ** Lemmas *)

(** What is still to be sent: the buffered output, the rest of the file, and
    what was sent after the file. *)
Definition file_rest (c : TcpConn) : bytes :=
  match sendfile_fd_ c with Some f => drop (sendfile_offset_ c) f | None => [] end.

Definition pending (c : TcpConn) : bytes := output_buffer_ c ++ file_rest c ++ post_sendfile_buffer_ c.

(** What the owner has handed over, and what the kernel has taken. *)
Record inv (given : bytes) (c : TcpConn) : Prop := {
  inv_wire : exists rest, given = wire c ++ rest;
  inv_pending : closed_ c = false -> given = wire c ++ pending c;
  inv_file : match sendfile_fd_ c with
             | Some f => (sendfile_offset_ c + sendfile_remaining_ c = length f)%nat
             | None => sendfile_remaining_ c = 0%nat /\ post_sendfile_buffer_ c = []
             end;
  inv_armed : closed_ c = false -> (pending c <> [] \/ is_Some (sendfile_fd_ c)) -> epollout c = true
}.

Lemma inv_construct sock : inv [] (construct sock).
Proof.
  split; try done; [by exists []|]. intros _ [|[? H]]; done.
Qed.

Lemma pending_size given c : inv given c -> OutputBufferedBytes c = length (pending c).
Proof.
  intros [_ _ Hf _]. unfold OutputBufferedBytes, pending, file_rest. rewrite !length_app.
  destruct (sendfile_fd_ c) as [f|]; [rewrite length_drop; lia|]. destruct Hf as [-> ->]. cbn. lia.
Qed.

(** The kernel takes a prefix of what it is offered. *)
Lemma syscall_spec data c :
  let '(r, c') := syscall data c in
  exists n, (n <= length data)%nat /\ wire c' = wire c ++ take n data /\
    c' = with_kernel c (sock_ c') (wire c') /\
    match r with Sent k => k = n | _ => n = 0%nat end.
Proof.
  unfold syscall. destruct (sock_ c) as [|[n| |] sock] eqn:E.
  - exists 0%nat. rewrite app_nil_r. split_and!; try done; [lia|]. destruct c. by cbn in *.
  - exists (Nat.min n (length data)). split_and!; try done. lia.
  - exists 0%nat. cbn. rewrite app_nil_r. split_and!; try done. lia.
  - exists 0%nat. cbn. rewrite app_nil_r. split_and!; try done. lia.
Qed.

(** Closing keeps what has been taken. *)
Lemma Close_spec c :
  let '(evs, c') := Close c in
  closed_ c' = true /\ wire c' = wire c /\
  (closed_ c = true -> c' = c /\ evs = []) /\
  (closed_ c = false -> sendfile_fd_ c' = None /\ sendfile_remaining_ c' = 0%nat /\ post_sendfile_buffer_ c' = []).
Proof.
  unfold Close, ClearSendFile. destruct (closed_ c) eqn:E; [by rewrite E|]. cbn. by destruct (sendfile_done_ c).
Qed.

Lemma inv_Close given c : inv given c -> inv given (Close c).2.
Proof.
  intros Hi. pose proof Hi as [[rest Hw] _ _ _]. pose proof (Close_spec c) as HC.
  destruct (Close c) as [evs c']. destruct HC as (Hc & Hw' & H1 & H2). cbn.
  destruct (closed_ c); [by destruct (H1 eq_refl) as [-> _]|].
  destruct (H2 eq_refl) as (Hf & Hr & Hp). split.
  - exists rest. by rewrite Hw'.
  - rewrite Hc. done.
  - by rewrite Hf.
  - rewrite Hc. done.
Qed.

(** A broken connection: cleared and closed. *)
Lemma inv_fail given c :
  (exists rest, given = wire c ++ rest) -> closed_ c = false -> inv given (Close (ClearSendFile false c).2).2.
Proof.
  intros Hw Hc. unfold Close, ClearSendFile. cbn. rewrite Hc. cbn.
  split; [exact Hw|done|done|done].
Qed.

Lemma inv_open given c :
  closed_ c = false -> given = wire c ++ pending c ->
  match sendfile_fd_ c with
  | Some f => (sendfile_offset_ c + sendfile_remaining_ c = length f)%nat
  | None => sendfile_remaining_ c = 0%nat /\ post_sendfile_buffer_ c = []
  end ->
  (pending c <> [] \/ is_Some (sendfile_fd_ c) -> epollout c = true) -> inv given c.
Proof. intros Hc Hs Hf Ha. split; try done. by exists (pending c). Qed.

(** With no file in flight only the output buffer is pending. *)
Lemma pending_plain c :
  sendfile_fd_ c = None -> post_sendfile_buffer_ c = [] -> pending c = output_buffer_ c.
Proof. unfold pending, file_rest. intros -> ->. by rewrite !app_nil_r. Qed.

Lemma inv_Send_direct given c data :
  inv given c -> closed_ c = false -> sendfile_fd_ c = None -> output_buffer_ c = [] ->
  inv (given ++ data)
    match syscall data c with
    | (Again, c) => EnableWrite (with_output c (output_buffer_ c ++ data))
    | (SendFailed, c) => (Close c).2
    | (Sent n, c) =>
        if (n <? length data)%nat
        then EnableWrite (with_output c (output_buffer_ c ++ drop n data)) else c
    end.
Proof.
  intros [_ Hp Hf _] Hc Hfd Hout. rewrite Hfd in Hf. destruct Hf as [Hr Hpost].
  specialize (Hp Hc). rewrite pending_plain, Hout, app_nil_r in Hp by done. subst given.
  pose proof (syscall_spec data c) as HS. destruct (syscall data c) as [r c'].
  destruct HS as (n & Hn & Hwire & -> & Hk). cbn in Hwire. destruct r as [k| |]; try subst k.
  - destruct (Nat.ltb_spec n (length data)).
    + apply inv_open; [done| |by cbn; rewrite Hfd|done].
      rewrite pending_plain by done. cbn. rewrite Hwire, Hout. cbn [app]. by rewrite <- app_assoc, take_drop.
    + rewrite take_ge in Hwire by lia. apply inv_open; [done| |by cbn; rewrite Hfd|].
      * rewrite pending_plain by done. cbn. by rewrite Hwire, Hout, app_nil_r.
      * rewrite pending_plain by done. cbn. rewrite Hout, Hfd. by intros [|[? ?]].
  - subst n. cbn in Hwire. rewrite app_nil_r in Hwire.
    apply inv_open; [done| |by cbn; rewrite Hfd|done].
    rewrite pending_plain by done. cbn. by rewrite Hwire, Hout.
  - subst n. cbn in Hwire. rewrite app_nil_r in Hwire.
    unfold Close, ClearSendFile. cbn. rewrite Hc. cbn. split; try done. exists data. cbn. by rewrite Hwire.
Qed.

(** [Send] on an open connection submits its data. *)
Lemma inv_Send given c data :
  inv given c ->
  inv (if closed_ c || is_empty (default [] data) then given else given ++ default [] data) (Send c data).2.
Proof.
  intros Hi. pose proof Hi as [_ Hp Hf Ha]. unfold Send.
  destruct data as [data|]; cbn [default]; unfold id; [|by destruct (closed_ c); cbn].
  destruct (closed_ c) eqn:Ec; cbn [orb]; [done|]. destruct (is_empty data) eqn:Ee; [done|].
  destruct (sendfile_fd_ c) as [f|] eqn:Efd.
  - apply inv_open; [done| |by cbn; rewrite Efd|].
    + rewrite Hp by done. unfold pending, file_rest. cbn. by rewrite <- !app_assoc.
    + cbn. intros _. apply Ha; [done|]. right. by eexists.
  - destruct (is_empty (output_buffer_ c)) eqn:Eo; cbn [negb].
    + destruct (output_buffer_ c) eqn:Eout; [|done].
      pose proof (inv_Send_direct given c data Hi Ec Efd Eout) as HS.
      destruct (syscall data c) as [[n| |] c']; [done|done|]. by destruct (Close c').
    + destruct Hf as [Hr Hpost]. apply inv_open; [done| |by cbn; rewrite Efd|done].
      rewrite Hp by done. rewrite !pending_plain by done. cbn. by rewrite <- app_assoc.
Qed.

(** One round of [HandleWrite] submits nothing. *)
Lemma inv_round_buffer given c :
  inv given c -> closed_ c = false ->
  inv given
    match syscall (output_buffer_ c) c with
    | (Sent (S n), c) => with_output c (drop (S n) (output_buffer_ c))
    | (Again, c) => c
    | (_, c) => (Close (ClearSendFile false c).2).2
    end.
Proof.
  intros [Hw Hp Hf Ha] Hc. specialize (Hp Hc).
  pose proof (syscall_spec (output_buffer_ c) c) as HS. destruct (syscall _ c) as [r c'].
  destruct HS as (n & Hn & Hwire & -> & Hk). cbn in Hwire.
  assert (forall c1, wire c1 = wire c -> closed_ c1 = false -> inv given (Close (ClearSendFile false c1).2).2) as Hfail.
  { intros c1 H1 H2. apply inv_fail; [|done]. by rewrite H1. }
  destruct r as [[|k]| |]; subst n; cbn [take] in *; rewrite ?app_nil_r in Hwire; try by apply Hfail.
  - apply inv_open; [done| |done|].
    + rewrite Hp. unfold pending, file_rest. cbn [wire with_output with_kernel output_buffer_ sendfile_fd_
        sendfile_offset_ post_sendfile_buffer_]. rewrite Hwire, <- app_assoc. f_equal.
      by rewrite (app_assoc (take _ _)), take_drop.
    + cbn. intros [H|H]; apply Ha; auto. left. intros Hz. apply H. unfold pending, file_rest in *. cbn.
      apply app_eq_nil in Hz as [-> Hz]. by rewrite drop_nil.
  - apply inv_open; [done| |done|].
    + rewrite Hp. cbn. by rewrite Hwire.
    + cbn. intros H. apply Ha; auto.
Qed.

Lemma inv_round_file given c f :
  inv given c -> closed_ c = false -> output_buffer_ c = [] -> sendfile_fd_ c = Some f ->
  let chunk := Nat.min (sendfile_remaining_ c) (Z.to_nat (2 ^ 20)) in
  inv given
    match syscall (sub (sendfile_offset_ c) chunk f) c with
    | (Sent (S n), c) => with_file c (sendfile_fd_ c) (sendfile_offset_ c + S n)
                           (sendfile_remaining_ c - S n) (sendfile_done_ c)
    | (Again, c) => c
    | (_, c) => (Close (ClearSendFile false c).2).2
    end.
Proof.
  intros [Hw Hp Hf Ha] Hc Hout Hfd chunk. specialize (Hp Hc). rewrite Hfd in Hf.
  pose proof (syscall_spec (sub (sendfile_offset_ c) chunk f) c) as HS. destruct (syscall _ c) as [r c'].
  destruct HS as (n & Hn & Hwire & -> & Hk). cbn in Hwire.
  unfold sub in Hn. rewrite length_take, length_drop in Hn.
  assert (forall c1, wire c1 = wire c -> closed_ c1 = false -> inv given (Close (ClearSendFile false c1).2).2) as Hfail.
  { intros c1 H1 H2. apply inv_fail; [|done]. by rewrite H1. }
  destruct r as [[|k]| |]; subst n; cbn [take] in *; rewrite ?app_nil_r in Hwire; try by apply Hfail.
  - apply inv_open; [done| |cbn; rewrite Hfd; lia|].
    + rewrite Hp. unfold pending, file_rest, sub in *. cbn [wire with_file with_kernel output_buffer_ sendfile_fd_
        sendfile_offset_ post_sendfile_buffer_]. rewrite Hwire, Hout, Hfd, <- app_assoc. cbn [app]. f_equal.
      rewrite take_take, Nat.min_l by lia. rewrite app_assoc. f_equal.
      rewrite <- drop_drop. by rewrite take_drop.
    + cbn. rewrite Hfd. intros _. apply Ha; [done|]. right. eauto.
  - apply inv_open; [done| |cbn; by rewrite Hfd|].
    + rewrite Hp. cbn. by rewrite Hwire.
    + cbn. intros H. apply Ha; auto.
Qed.

Lemma inv_round_done given c f :
  inv given c -> closed_ c = false -> output_buffer_ c = [] -> sendfile_fd_ c = Some f ->
  sendfile_remaining_ c = 0%nat -> inv given (ClearSendFile true c).2.
Proof.
  intros [Hw Hp Hf Ha] Hc Hout Hfd Hrem. specialize (Hp Hc). rewrite Hfd in Hf.
  assert (given = wire c ++ post_sendfile_buffer_ c) as Hg.
  { rewrite Hp. unfold pending, file_rest. rewrite Hout, Hfd, drop_ge by lia. done. }
  unfold ClearSendFile. cbn [andb]. destruct (is_empty _) eqn:Ep; cbn [negb snd]; cbn in Ep.
  - assert (post_sendfile_buffer_ c = []) as Hpost by (by destruct (post_sendfile_buffer_ c)).
    apply inv_open; [done| |done|].
    + rewrite pending_plain by done. cbn. by rewrite Hg, Hout, Hpost.
    + rewrite pending_plain by done. cbn. rewrite Hout. by intros [|[? ?]].
  - apply inv_open; [done| |done|done]. rewrite pending_plain by done. cbn. by rewrite Hg, Hout.
Qed.

Lemma inv_round given c :
  inv given c -> closed_ c = false -> inv given (HandleWrite_round c).2.
Proof.
  intros Hi Hc. unfold HandleWrite_round. destruct (is_empty (output_buffer_ c)) eqn:Eo; cbn [negb].
  - assert (output_buffer_ c = []) as Hout by (by destruct (output_buffer_ c)).
    destruct (sendfile_fd_ c) as [f|] eqn:Efd.
    + destruct (Nat.ltb_spec 0 (sendfile_remaining_ c)) as [Hrem|Hrem].
      * pose proof (inv_round_file given c f Hi Hc Hout Efd) as HR. cbn zeta in HR.
        destruct (syscall _ c) as [[[|n]| |] c'];
          try destruct (ClearSendFile false c') as [e1 c1]; try destruct (Close _) as [e2 c2]; exact HR.
      * pose proof (inv_round_done given c f Hi Hc Hout Efd ltac:(lia)) as HR.
        destruct (ClearSendFile true c) as [e1 c1]. exact HR.
    + pose proof Hi as [Hw Hp Hf Ha]. rewrite Efd in Hf. destruct Hf as [Hr Hpost].
      specialize (Hp Hc). rewrite pending_plain, Hout in Hp by done.
      apply inv_open; [done| |cbn; by rewrite Efd|].
      * rewrite pending_plain by done. cbn. by rewrite Hout.
      * rewrite pending_plain by done. cbn. rewrite Hout, Efd. by intros [|[? ?]].
  - pose proof (inv_round_buffer given c Hi Hc) as HR.
    destruct (syscall _ c) as [[[|n]| |] c'];
      try destruct (ClearSendFile false c') as [e1 c1]; try destruct (Close _) as [e2 c2]; exact HR.
Qed.

Lemma inv_SendFile given c path file done :
  inv given c ->
  let '(ok, c') := SendFile c path file done in
  inv (if ok then given ++ default [] file else given) c' /\ (ok = true -> is_Some file).
Proof.
  intros Hi. unfold SendFile. destruct (closed_ c) eqn:Ec; cbn [orb]; [done|].
  destruct (is_empty path); [done|]. destruct (sendfile_fd_ c) eqn:Efd; [done|]. destruct file as [f|]; [|done].
  pose proof Hi as [_ Hp Hf _]. rewrite Efd in Hf. destruct Hf as [Hr Hpost]. specialize (Hp Ec).
  rewrite pending_plain in Hp by done. split; [|by eexists]. cbn [default]. unfold id.
  apply inv_open; [done| |done|done]. unfold pending, file_rest. cbn. by rewrite Hp, Hpost, app_nil_r, <- app_assoc.
Qed.

Lemma inv_with_input given c buf : inv given c -> inv given (with_input c buf).
Proof. intros [Hw Hp Hf Ha]. by split. Qed.

Lemma inv_HandleRead_loop given rs d c :
  inv given c -> inv given (HandleRead_loop rs d c).2.
Proof.
  revert d c. induction rs as [|r rs IH]; intros d c Hi; [done|]. cbn [HandleRead_loop].
  destruct (Recv _ _ _) as [[n e] buf]. pose proof (inv_with_input given c buf Hi) as Hi'.
  pose proof (inv_Close given _ Hi') as Hcl.
  destruct (0 <? n); [by apply IH|]. destruct (n =? 0); [by destruct (Close _)|].
  case_bool_decide; [done|]. by destruct (Close _).
Qed.

(** ** Lemmas: [HandleWrite] ends *)

Lemma syscall_rounds data c r c' :
  syscall data c = (r, c') ->
  sendfile_fd_ c' = sendfile_fd_ c /\ closed_ c' = closed_ c /\ sendfile_done_ c' = sendfile_done_ c /\
  match r with
  | Sent _ => (rounds c' < rounds c)%nat
  | Again => (rounds c' <= rounds c)%nat
  | SendFailed => True
  end.
Proof.
  unfold syscall, rounds. destruct (sock_ c) as [|[n| |] sock] eqn:E; intros H; simplify_eq; cbn;
    rewrite ?E; cbn; split_and!; done || lia.
Qed.

(** The callbacks of a closing connection. *)
Definition closes (evs : list Event) : Prop := evs = [Closed] \/ evs = [SendFileDone false; Closed].

Lemma Close_outcome c : closed_ c = false -> let '(evs, c') := Close c in closed_ c' = true /\ closes evs.
Proof.
  intros Hc. unfold Close, ClearSendFile, closes. rewrite Hc. cbn. by destruct (sendfile_done_ c); cbn; auto.
Qed.

(** A round that goes on has used up an answer or a file; one that closes the
    connection ends with the close callback. *)
Lemma round_outcome c again evs c' :
  closed_ c = false -> HandleWrite_round c = (again, evs, c') ->
  (again = true -> (rounds c' < rounds c)%nat) /\
  (closed_ c' = false /\
     (evs = [] /\ sendfile_fd_ c' = sendfile_fd_ c /\ sendfile_done_ c' = sendfile_done_ c \/
      is_Some (sendfile_fd_ c) /\ sendfile_fd_ c' = None /\
        evs = if sendfile_done_ c then [SendFileDone true] else []) \/
   again = false /\ closed_ c' = true /\ closes evs).
Proof.
  intros Hc H.
  assert (forall d r d', closed_ d = false -> (let '(e1, d1) := ClearSendFile false d in
    let '(e2, d2) := Close d1 in (false, e1 ++ e2, d2)) = (r, evs, d') -> r = false /\ closed_ d' = true /\
    closes evs) as Hfail.
  { intros d r d' Hd Hr. unfold Close, ClearSendFile in Hr. cbn in Hr. rewrite Hd in Hr. cbn in Hr.
    unfold closes. destruct (sendfile_done_ d); simplify_eq; auto. }
  unfold HandleWrite_round in H. destruct (negb (is_empty (output_buffer_ c))).
  - destruct (syscall (output_buffer_ c) c) as [[[|n]| |] d] eqn:E; apply syscall_rounds in E as (Ef & Ec & Ed & Er);
      try (destruct (Hfail d again c' ltac:(congruence) H) as (-> & ? & ?); by split; [|by right]);
      simplify_eq.
    + split; [by intros _|]. left. cbn. rewrite Ec. auto.
    + split; [done|]. left. rewrite Ec. auto.
  - destruct (sendfile_fd_ c) as [f|] eqn:Ef; [|simplify_eq; split; [done|by left; auto]].
    destruct (0 <? sendfile_remaining_ c)%nat.
    + destruct (syscall _ c) as [[[|n]| |] d] eqn:E; apply syscall_rounds in E as (Ef' & Ec & Ed & Er);
        try (destruct (Hfail d again c' ltac:(congruence) H) as (-> & ? & ?); by split; [|by right]);
        simplify_eq.
      * split; [by intros _|]. left. cbn. rewrite Ec, Ef', Ed. auto.
      * split; [done|]. left. rewrite Ec, Ef', Ed. auto.
    + unfold ClearSendFile in H. cbn in H. unfold rounds. rewrite Ef.
      destruct (negb (is_empty (post_sendfile_buffer_ c))), (sendfile_done_ c); simplify_eq;
        (split; [intros _; cbn; lia|left; split; [done|]]); right; eauto.
Qed.

(** With callbacks that are defined and do not undo the progress of a round,
    [HandleWrite] returns. *)
Lemma HandleWrite_ends {World} (conn : World -> TcpConn) set_conn callback (I J : World -> Prop) :
  (forall w again evs c, I w -> HandleWrite_round (conn w) = (again, evs, c) ->
     exists w', callbacks callback evs (set_conn c w) = Some w' /\
       if again then I w' /\ (rounds (conn w') <= rounds c)%nat else J w') ->
  (forall w, I w -> closed_ (conn w) = false) ->
  forall fuel w, I w -> (rounds (conn w) < fuel)%nat ->
  exists w', HandleWrite conn set_conn callback fuel w = Some w' /\ J w'.
Proof.
  intros Hstep Hopen fuel. induction fuel as [|fuel IH]; intros w Hi Hf; [lia|]. cbn [HandleWrite].
  destruct (HandleWrite_round (conn w)) as [[again evs] c] eqn:E.
  destruct (Hstep w again evs c Hi E) as (w' & -> & Hn).
  apply round_outcome in E as [Hlt _]; [|by apply Hopen]. destruct again; [|by exists w'].
  destruct Hn. specialize (Hlt eq_refl). apply IH; [done|lia].
Qed.

(** [HandleRead] leaves the connection open, with or without data for the read
    callback, or closes it, and then the read callback does not run. *)
Lemma HandleRead_outcome rs cb c evs c' :
  closed_ c = false -> HandleRead rs cb c = (evs, c') ->
  closed_ c' = false /\ (exists buf, c' = with_input c buf) /\ (evs = [] \/ evs = [Readable] /\ cb = true) \/
  closed_ c' = true /\ closes evs.
Proof.
  intros Hc H. unfold HandleRead in H.
  assert (forall hd d, closed_ d = false -> (exists buf, d = with_input c buf) ->
    let '(hd', e, d') := HandleRead_loop rs hd d in
    closed_ d' = false /\ (exists buf, d' = with_input c buf) /\ e = [] \/
    hd' = false /\ closed_ d' = true /\ closes e) as Hloop.
  { clear H. induction rs as [|r rs IH]; intros hd d Hd [b Hb]; cbn [HandleRead_loop]; [left; eauto|].
    destruct (Recv _ _ _) as [[n e] buf]. destruct (0 <? n).
    { apply IH; [done|]. exists buf. by rewrite Hb. }
    pose proof (Close_outcome (with_input d buf) Hd) as HC. destruct (n =? 0); [by destruct (Close _); right|].
    case_bool_decide; [|by destruct (Close _); right].
    left. split_and!; [done| |done]. exists buf. by rewrite Hb. }
  specialize (Hloop false c Hc). destruct (HandleRead_loop rs false c) as [[hd e] d]. simplify_eq.
  destruct Hloop as [(H1 & H2 & ->)|(-> & H1 & H2)]; [by exists (input_buffer_ c); destruct c|..].
  - left. split_and!; [done|done|]. destruct hd, cb; auto.
  - right. cbn. by rewrite app_nil_r.
Qed.

(** ** Properties *)

(** What can happen to a connection, in any order and interleaving: its owner
    sends, starts a file or closes it, the event loop runs rounds of
    [HandleWrite] or [HandleRead]. *)
Inductive op :=
| OSend (data : ptr bytes)
| OSendFile (path : bytes) (file : option bytes) (done : bool)
| OWrite
| ORead (rs : list RecvResult) (read_cb : bool)
| OClose.

(** The bytes the connection has accepted to send, and the connection. *)
Definition run (p : bytes * TcpConn) (o : op) : bytes * TcpConn :=
  let '(given, c) := p in
  match o with
  | OSend data => (if closed_ c || is_empty (default [] data) then given else given ++ default [] data,
                   (Send c data).2)
  | OSendFile path file done =>
      let '(ok, c) := SendFile c path file done in (if ok then given ++ default [] file else given, c)
  | OWrite => (given, if closed_ c then c else (HandleWrite_round c).2)
  | ORead rs cb => (given, if closed_ c then c else (HandleRead rs cb c).2)
  | OClose => (given, (Close c).2)
  end.

Lemma conn_run_inv p o : inv p.1 p.2 -> inv (run p o).1 (run p o).2.
Proof.
  destruct p as [given c]. cbn [fst snd]. intros Hi. destruct o as [data|path file done| |rs cb|]; cbn [run].
  - by apply inv_Send.
  - pose proof (inv_SendFile given c path file done Hi) as H. by destruct (SendFile _ _ _ _) as [ok c'], H.
  - destruct (closed_ c) eqn:E; [done|]. by apply inv_round.
  - destruct (closed_ c) eqn:E; [done|]. unfold HandleRead.
    pose proof (inv_HandleRead_loop given rs false c Hi) as H. by destruct (HandleRead_loop _ _ _) as [[? ?] ?].
  - by apply inv_Close.
Qed.

(** C20: a connection delivers in order.  Whatever the kernel accepts of each
    write (all, part, nothing, an error), and however sends, file transfers,
    rounds of writing and reading interleave, the bytes the kernel has taken
    are a prefix of everything the connection accepted to send, in the order
    of the calls, the file's bytes in its place.  While the connection is open
    the rest is exactly what is pending, [OutputBufferedBytes] is its size,
    and write events are armed unless nothing is pending; so nothing is lost,
    reordered or left behind. *)
Theorem delivery_in_order (sock : list SendResult) (ops : list op) :
  let '(given, c) := fold_left run ops ([], construct sock) in
  (exists rest, given = wire c ++ rest) /\
  (closed_ c = false ->
   given = wire c ++ pending c /\ OutputBufferedBytes c = length (pending c) /\
   (epollout c = false -> given = wire c)).
Proof.
  assert (inv (fold_left run ops ([], construct sock)).1 (fold_left run ops ([], construct sock)).2) as Hi.
  { pose proof (inv_construct sock) as H0. change (inv (@nil ascii, construct sock).1 (@nil ascii, construct sock).2) in H0.
    revert H0. generalize (([], construct sock) : bytes * TcpConn).
    induction ops as [|o ops IH]; intros p Hp; [done|]. cbn [fold_left]. by apply IH, conn_run_inv. }
  destruct (fold_left run ops _) as [given c]. cbn [fst snd] in Hi. pose proof (pending_size _ _ Hi) as Hsz.
  destruct Hi as [Hw Hp Hf Ha]. split; [done|]. intros Hc. split_and!; [by apply Hp|done|]. intros Hout.
  rewrite (Hp Hc). destruct (decide (pending c = [])) as [->|Hne]; [by rewrite app_nil_r|].
  rewrite Ha in Hout by auto. done.
Qed.
