(* ===== verification/ReplicationSlave.v ===== *)
(** * ReplicationSlave: a replica's link to its master

    Models include/vemory/replication/ReplicationSlave.h and
    src/replication/ReplicationSlave.cc.  The connection is a TcpConnection
    with the callbacks set on it; the reconnect timer is its delay; the file
    system is the one of FileSystem.v. *)

From S2P Require Import Prelude.
From S2P Require Import Stdio.
From S2P Require Import CLib.
From S2P Require Import CommandType.
From S2P Require Import RequestContext.
From S2P Require RespDecode.
From S2P Require KvStore.
From S2P Require Import Usearch.
From S2P Require Import FlatIndex.
From S2P Require VNodeStorage.
From S2P Require VNodeIndex.
From S2P Require VNodeDump.
From S2P Require Import MutationApply.
From S2P Require Import WalManager.
From S2P Require Import MessageBuffer.
From S2P Require Import FileSystem.
From S2P Require RdbFormat.
From S2P Require Import SnapshotManager.
From S2P Require Import TcpConnection.

Definition kTmpDir : bytes := bs "tmp".
Definition kInPath : bytes := bs "tmp/repl-in.rdb".
Definition kInTmpPath : bytes := bs "tmp/repl-in.rdb.tmp".
Definition kMinBackoffMs : Z := 1000.
Definition kMaxBackoffMs : Z := 60000.

(** [std::string::max_size()]: half of [PTRDIFF_MAX], less one. *)
Definition kMaxString : Z := 2 ^ 62 - 1.

(** [kTerminated] is not a state of the code: a [std::length_error], which nothing
    catches, has ended the process. *)
Inductive State :=
| kInit | kWaitFullresync | kRecvRdbHeader | kRecvRdbBody | kRecvBacklogHeader | kRecvBacklogBody
| kStreaming | kError | kTerminated.

#[export] Instance State_eq_dec : EqDecision State.
Proof. solve_decision. Defined.

Definition NextBackoffMs (current_ms : Z) : Z :=
  if kMaxBackoffMs <=? current_ms then kMaxBackoffMs
  else
    let next := u64 (current_ms * 2) in
    if kMaxBackoffMs <? next then kMaxBackoffMs else next.

(** No log and no replicas behind the stores of a replica. *)
#[local] Instance no_wal : Wal := {| wal_state := Empty_set; wal_enabled w := match w with end;
                                     wal_append w f := match w with end |}.
#[local] Instance no_repl : Repl := {| repl_state := Empty_set; has_slaves r := match r with end;
                                       feed_frame r f := match r with end |}.

Create HintDb slave.

Section ReplicationSlave.
Context `{U : !Usearch} `{OB : !IterOrder bytes} `{OZ : !IterOrder Z}.

(** [VEMORY_RDB_MMAP], [usearch_mmap_view_] of the snapshot manager, and the
    readings of the steady clock. *)
Context (mmap_build view : bool) (clock : nat -> Z).

(** The connection with its callbacks. *)
Record Link := mkLink { l_conn : TcpConn; l_read_cb : bool; l_close_cb : bool }.

Record ReplicationSlave := mkSlave {
  loop_ : bool;                      (** [loop_ != nullptr] *)
  snapshot_ : bool;                  (** [snapshot_ != nullptr] *)
  stores : Stores;                   (** behind [vnode_index_] and [kv_] *)
  conn_ : option Link;
  state_ : State;
  rdb_remaining_ : Z;
  backlog_remaining_ : Z;
  rdb_fp_ : option File;
  backlog_buf_ : bytes;
  stream_buf_ : bytes;
  master_host_ : bytes;
  master_port_ : Z;
  reconnect_timer_ : option Z;
  backoff_ms_ : Z;
  closing_ : bool;
  stopping_ : bool;
  master_replid_ : bytes;
  repl_offset_ : Z;
  have_offset_ : bool;
  disk : Fs
}.

Definition construct (loop snapshot : bool) (st : Stores) (fs : Fs) : ReplicationSlave :=
  mkSlave loop snapshot st None kInit (-1) (-1) None [] [] [] 0 None kMinBackoffMs false false [] 0 false fs.

(** Assignments to members. *)
Definition set_stores s x := mkSlave (loop_ s) (snapshot_ s) x (conn_ s) (state_ s) (rdb_remaining_ s)
  (backlog_remaining_ s) (rdb_fp_ s) (backlog_buf_ s) (stream_buf_ s) (master_host_ s) (master_port_ s)
  (reconnect_timer_ s) (backoff_ms_ s) (closing_ s) (stopping_ s) (master_replid_ s) (repl_offset_ s)
  (have_offset_ s) (disk s).
Definition set_conn s x := mkSlave (loop_ s) (snapshot_ s) (stores s) x (state_ s) (rdb_remaining_ s)
  (backlog_remaining_ s) (rdb_fp_ s) (backlog_buf_ s) (stream_buf_ s) (master_host_ s) (master_port_ s)
  (reconnect_timer_ s) (backoff_ms_ s) (closing_ s) (stopping_ s) (master_replid_ s) (repl_offset_ s)
  (have_offset_ s) (disk s).
Definition set_state s x := mkSlave (loop_ s) (snapshot_ s) (stores s) (conn_ s) x (rdb_remaining_ s)
  (backlog_remaining_ s) (rdb_fp_ s) (backlog_buf_ s) (stream_buf_ s) (master_host_ s) (master_port_ s)
  (reconnect_timer_ s) (backoff_ms_ s) (closing_ s) (stopping_ s) (master_replid_ s) (repl_offset_ s)
  (have_offset_ s) (disk s).
Definition set_remaining s rdb backlog := mkSlave (loop_ s) (snapshot_ s) (stores s) (conn_ s) (state_ s) rdb
  backlog (rdb_fp_ s) (backlog_buf_ s) (stream_buf_ s) (master_host_ s) (master_port_ s)
  (reconnect_timer_ s) (backoff_ms_ s) (closing_ s) (stopping_ s) (master_replid_ s) (repl_offset_ s)
  (have_offset_ s) (disk s).
Definition set_file s fp fs := mkSlave (loop_ s) (snapshot_ s) (stores s) (conn_ s) (state_ s) (rdb_remaining_ s)
  (backlog_remaining_ s) fp (backlog_buf_ s) (stream_buf_ s) (master_host_ s) (master_port_ s)
  (reconnect_timer_ s) (backoff_ms_ s) (closing_ s) (stopping_ s) (master_replid_ s) (repl_offset_ s)
  (have_offset_ s) fs.
Definition set_buffers s backlog stream := mkSlave (loop_ s) (snapshot_ s) (stores s) (conn_ s) (state_ s)
  (rdb_remaining_ s) (backlog_remaining_ s) (rdb_fp_ s) backlog stream (master_host_ s) (master_port_ s)
  (reconnect_timer_ s) (backoff_ms_ s) (closing_ s) (stopping_ s) (master_replid_ s) (repl_offset_ s)
  (have_offset_ s) (disk s).
Definition set_master s host port := mkSlave (loop_ s) (snapshot_ s) (stores s) (conn_ s) (state_ s)
  (rdb_remaining_ s) (backlog_remaining_ s) (rdb_fp_ s) (backlog_buf_ s) (stream_buf_ s) host port
  (reconnect_timer_ s) (backoff_ms_ s) (closing_ s) (stopping_ s) (master_replid_ s) (repl_offset_ s)
  (have_offset_ s) (disk s).
Definition set_timer s timer backoff := mkSlave (loop_ s) (snapshot_ s) (stores s) (conn_ s) (state_ s)
  (rdb_remaining_ s) (backlog_remaining_ s) (rdb_fp_ s) (backlog_buf_ s) (stream_buf_ s) (master_host_ s)
  (master_port_ s) timer backoff (closing_ s) (stopping_ s) (master_replid_ s) (repl_offset_ s)
  (have_offset_ s) (disk s).
Definition set_flags s closing stopping := mkSlave (loop_ s) (snapshot_ s) (stores s) (conn_ s) (state_ s)
  (rdb_remaining_ s) (backlog_remaining_ s) (rdb_fp_ s) (backlog_buf_ s) (stream_buf_ s) (master_host_ s)
  (master_port_ s) (reconnect_timer_ s) (backoff_ms_ s) closing stopping (master_replid_ s)
  (repl_offset_ s) (have_offset_ s) (disk s).
Definition set_offset s replid off have := mkSlave (loop_ s) (snapshot_ s) (stores s) (conn_ s) (state_ s)
  (rdb_remaining_ s) (backlog_remaining_ s) (rdb_fp_ s) (backlog_buf_ s) (stream_buf_ s) (master_host_ s)
  (master_port_ s) (reconnect_timer_ s) (backoff_ms_ s) (closing_ s) (stopping_ s) replid off have (disk s).

(** [conn_->InputBuffer()]. *)
Definition InputBuffer (s : ReplicationSlave) : MessageBuffer :=
  match conn_ s with Some l => input_buffer_ (l_conn l) | None => MessageBuffer.empty end.
Definition set_input (s : ReplicationSlave) (buf : MessageBuffer) : ReplicationSlave :=
  match conn_ s with
  | Some l => set_conn s (Some (mkLink (with_input (l_conn l) buf) (l_read_cb l) (l_close_cb l)))
  | None => s
  end.

(** [buf.ReadCompleted(n)]. *)
Definition Consume (s : ReplicationSlave) (n : nat) : ReplicationSlave :=
  set_input s (ReadCompleted (InputBuffer s) n).

(** ** The link *)

Definition EnsureTmpDir (s : ReplicationSlave) : bool := create_directories kTmpDir (disk s).

Definition CancelReconnectTimer (s : ReplicationSlave) : ReplicationSlave :=
  set_timer s None (backoff_ms_ s).

(** [fclose(rdb_fp_); rdb_fp_ = nullptr] if it is open. *)
Definition CloseRdb (s : ReplicationSlave) : ReplicationSlave :=
  match rdb_fp_ s with
  | Some fp => set_file s None (fclose kInTmpPath fp (disk s))
  | None => s
  end.

(** Callbacks cleared, then closed: no callback runs. *)
Definition CloseConn (s : ReplicationSlave) : ReplicationSlave :=
  match conn_ s with
  | Some l => set_conn s (Some (mkLink (Close (l_conn l)).2 false false))
  | None => s
  end.

(** An exception ends the process: the kernel closes its socket, and no timer fires
    and no callback runs any more. *)
Definition Terminate (s : ReplicationSlave) : ReplicationSlave :=
  set_timer (set_state (CloseConn s) kTerminated) None (backoff_ms_ s).

Definition ResetLink (s : ReplicationSlave) : ReplicationSlave :=
  let s := CancelReconnectTimer s in
  let s := set_flags s true (stopping_ s) in
  let s := set_conn (CloseConn s) None in
  let s := set_flags s false (stopping_ s) in
  let s := CloseRdb s in
  let s := set_buffers s [] [] in
  let s := set_remaining s (-1) (-1) in
  set_state s kInit.

Definition ScheduleReconnect (s : ReplicationSlave) : ReplicationSlave :=
  if stopping_ s then s
  else
    let s := CancelReconnectTimer s in
    let delay := backoff_ms_ s in
    let s := set_timer s (reconnect_timer_ s) (NextBackoffMs (backoff_ms_ s)) in
    let s := set_state s kError in
    set_timer s (Some delay) (backoff_ms_ s).

Definition AdvanceOffset (s : ReplicationSlave) (n : nat) : ReplicationSlave :=
  if (n =? 0)%nat then s
  else set_offset s (master_replid_ s) (u64 (repl_offset_ s + Z.of_nat n)) true.

(** The PSYNC request. *)
Definition psync_request (s : ReplicationSlave) : bytes :=
  if have_offset_ s && negb (is_empty (master_replid_ s)) then
    let off := print_unsigned (repl_offset_ s) in
    bs "*3" ++ CRLF ++ bs "$5" ++ CRLF ++ bs "PSYNC" ++ CRLF ++ bs "$" ++
      print_unsigned (size_of (master_replid_ s)) ++ CRLF ++ master_replid_ s ++ CRLF ++ bs "$" ++
      print_unsigned (size_of off) ++ CRLF ++ off ++ CRLF
  else
    bs "*3" ++ CRLF ++ bs "$5" ++ CRLF ++ bs "PSYNC" ++ CRLF ++ bs "$1" ++ CRLF ++ bs "?" ++ CRLF ++
      bs "$2" ++ CRLF ++ bs "-1" ++ CRLF.

(** [sock] is the socket of the new connection, [None] if it cannot connect.
    The callbacks are set after the request is sent. *)
Definition TryConnect (s : ReplicationSlave) (sock : option (list SendResult)) : ReplicationSlave :=
  if stopping_ s || negb (loop_ s) || negb (snapshot_ s) then s
  else
    let s := ResetLink s in
    match sock with
    | None => ScheduleReconnect s
    | Some sock =>
        let conn := TcpConnection.construct sock in
        let s := set_state s kWaitFullresync in
        let conn := (Send conn (Some (psync_request s))).2 in
        set_conn s (Some (mkLink conn true true))
    end.

(** The lambda of the reconnect timer. *)
Definition OnReconnectTimer (s : ReplicationSlave) (sock : option (list SendResult)) : ReplicationSlave :=
  TryConnect (set_timer s None (backoff_ms_ s)) sock.

Definition EnterStreaming (s : ReplicationSlave) : ReplicationSlave :=
  set_timer (set_state s kStreaming) (reconnect_timer_ s) kMinBackoffMs.

Definition Start (s : ReplicationSlave) (host : bytes) (port : Z) (sock : option (list SendResult))
    : bool * ReplicationSlave :=
  if negb (loop_ s) || negb (snapshot_ s) then (false, s)
  else if negb (EnsureTmpDir s) then (false, s)
  else if is_empty host || (port =? 0) then (false, s)
  else
    let s := set_master s host port in
    let s := set_timer s (reconnect_timer_ s) kMinBackoffMs in
    (true, TryConnect s sock).

Definition Fail (s : ReplicationSlave) : ReplicationSlave :=
  if stopping_ s || bool_decide (state_ s = kError) then s
  else
    let s := set_state s kError in
    let s := CloseRdb s in
    let s := set_flags s true (stopping_ s) in
    let s := CloseConn s in
    let s := set_flags s false (stopping_ s) in
    ScheduleReconnect s.

Definition destroy (s : ReplicationSlave) : ReplicationSlave :=
  ResetLink (CancelReconnectTimer (set_flags s (closing_ s) true)).

(** The close callback of [TryConnect]. *)
Definition OnClose (s : ReplicationSlave) : ReplicationSlave :=
  if closing_ s || stopping_ s then s else Fail s.

(** ** Replies of the master *)

(** [s.rfind(prefix, 0) == 0]. *)
Definition starts_with (prefix l : bytes) : bool := beq (take (length prefix) l) prefix.

Definition HandleSyncReply (s : ReplicationSlave) (reply : bytes) : bool * ReplicationSlave :=
  if beq reply (bs "CONTINUE") then (true, EnterStreaming s)
  else if negb (starts_with (bs "FULLRESYNC ") reply) then (false, Fail s)
  else
    let rest := drop (length (bs "FULLRESYNC ")) reply in
    match list_find (fun c => c = " "%char) rest with
    | None => (false, Fail s)
    | Some (sp, _) =>
        if (sp =? 0)%nat || (length rest <=? sp + 1)%nat then (false, Fail s)
        else
          let s := set_offset s (take sp rest) (repl_offset_ s) (have_offset_ s) in
          let text := c_str (drop (sp + 1) rest) in
          let '(cut, fin) := strtoull text in
          if bool_decide (fin = text) || negb (is_empty fin) then (false, Fail s)
          else
            let s := set_offset s (master_replid_ s) (u64 cut) true in
            (true, set_state s kRecvRdbHeader)
    end.

(** [memchr(data, '\n', len)], as an index. *)
Definition find_LF (l : bytes) : option nat := fst <$> list_find (fun c => c = LF) l.

(** The character before index [i] is CR. *)
Definition CR_before (l : bytes) (i : nat) : bool :=
  match i with O => false | S j => bool_decide (l !! j = Some CR) end.

(** [None]: [false]. *)
Definition ConsumeSimpleString (s : ReplicationSlave) : option bytes * ReplicationSlave :=
  match GetAllData (InputBuffer s) with
  | None => (None, s)
  | Some data =>
      if (length data <? 3)%nat then (None, s)
      else if bool_decide (data !! 0%nat = Some "-"%char) then
        match find_LF data with
        | None => (None, s)
        | Some i => (None, Consume (Fail s) (i + 1))
        end
      else if negb (bool_decide (data !! 0%nat = Some "+"%char)) then (None, Fail s)
      else
        match find_LF data with
        | None => (None, s)
        | Some i =>
            if CR_before data i then (Some (sub 1 (i - 2) data), Consume s (i + 1)) else (None, s)
        end
  end.

Definition TryConsumeBulkHeader (s : ReplicationSlave) : option Z * ReplicationSlave :=
  match GetAllData (InputBuffer s) with
  | None => (None, s)
  | Some data =>
      if (length data <? 4)%nat || negb (bool_decide (data !! 0%nat = Some "$"%char)) then (None, s)
      else
        match find_LF data with
        | None => (None, s)
        | Some i =>
            if CR_before data i then
              let text := c_str (drop 1 data) in
              let '(v, fin) := strtoll text in
              if bool_decide (fin = text) then (None, Fail s) else (Some v, Consume s (i + 1))
            else (None, s)
        end
  end.

Definition WriteRdbChunk (s : ReplicationSlave) (data : bytes) : bool * ReplicationSlave :=
  let '(ready, s) :=
    match rdb_fp_ s with
    | Some _ => (true, s)
    | None =>
        match fopen_wb kInTmpPath (disk s) with
        | (Some fp, fs) => (true, set_file s (Some fp) fs)
        | (None, fs) => (false, Fail (set_file s None fs))
        end
    end in
  if negb ready then (false, s)
  else
    match rdb_fp_ s with
    | None => (false, s)
    | Some fp =>
        if is_empty data then (true, s)
        else
          let '(n, fp) := fwrite data fp in
          let s := set_file s (Some fp) (disk s) in
          if (n =? length data)%nat then (true, s) else (false, Fail s)
    end.

Definition FinishRdbAndLoad (s : ReplicationSlave) : bool * ReplicationSlave :=
  let s := CloseRdb s in
  let '(renamed, fs) := rename kInTmpPath kInPath (disk s) in
  let s := set_file s (rdb_fp_ s) fs in
  if negb renamed then (false, Fail s)
  else
    let '(st, stores) := LoadFromPath mmap_build (stores s) view kInPath (disk s) in
    let s := set_stores s stores in
    match st with
    | SnapshotManager.kOk => (true, s)
    | SnapshotManager.thrown => (false, Terminate s)
    | _ => (false, Fail s)
    end.

(** ** Applying the stream *)

(** How [ConsumeStreamFrames] ends: [true], [false], or with an exception. *)
Inductive Verdict := Good | Malformed | Thrown.

(** The loop of [ConsumeStreamFrames]: how it ends, the offset reached and the
    stores; [None]: out of fuel. *)
Fixpoint ConsumeLoop (fuel : nat) (buf : bytes) (off applied : nat) (t : Targets)
    : option (Verdict * nat * Targets) :=
  match fuel with
  | O => None
  | S fuel =>
      if (off <? length buf)%nat then
        match RespDecode.decode (drop off buf) with
        | (RespDecode.kNeedMore, _, _) => Some (Good, off, t)
        | (RespDecode.kOk, tokens, consumed) =>
            match FromTokens (-1) (clock applied) tokens (Some default_ctx) with
            | (RequestContext.kOk, Some ctx) =>
                match ApplyMutation 1 ctx kAofReplay t with
                | None => None
                | Some (ar, t) =>
                    if negb (ok ar) then Some (Malformed, off, t)
                    else ConsumeLoop fuel buf (off + consumed) (S applied) t
                end
            | _ => Some (Malformed, off, t)
            end
        | (RespDecode.kError, _, _) => Some (Malformed, off, t)
        | (RespDecode.thrown, _, _) => Some (Thrown, off, t)
        end
      else Some (Good, off, t)
  end.

(** [*bytes], [*bytes_consumed] and the stores after the call. *)
Definition ConsumeStreamFrames (buf : ptr bytes) (st : Stores) : option (Verdict * ptr bytes * nat * Stores) :=
  match buf with
  | None => Some (Malformed, None, O, st)
  | Some data =>
      match ConsumeLoop (S (length data)) data 0 0 (mkTargets (s_index st) (s_kv st) None None) with
      | None => None
      | Some (good, off, t) =>
          let st := mkStores (t_index t) (t_kv t) in
          match good with
          | Good => Some (Good, Some (drop off data), off, st)
          | _ => Some (good, Some data, O, st)
          end
      end
  end.

Definition ApplyBacklog (s : ReplicationSlave) (data : bytes) : option (bool * ReplicationSlave) :=
  match ConsumeStreamFrames (Some data) (stores s) with
  | None => None
  | Some (good, buf, consumed, st) =>
      let s := set_stores s st in
      match good with
      | Malformed => Some (false, Fail s)
      | Thrown => Some (false, Terminate s)
      | Good =>
          if negb (is_empty (default [] buf)) then Some (false, Fail s)
          else Some (true, AdvanceOffset s consumed)
      end
  end.

Definition DrainStreaming (s : ReplicationSlave) : option (bool * ReplicationSlave) :=
  let s :=
    match GetAllData (InputBuffer s) with
    | None => s
    | Some data => Consume (set_buffers s (backlog_buf_ s) (stream_buf_ s ++ data)) (length data)
    end in
  match ConsumeStreamFrames (Some (stream_buf_ s)) (stores s) with
  | None => None
  | Some (good, buf, consumed, st) =>
      let s := set_buffers (set_stores s st) (backlog_buf_ s) (default [] buf) in
      match good with
      | Malformed => Some (false, Fail s)
      | Thrown => Some (false, Terminate s)
      | Good => Some (true, AdvanceOffset s consumed)
      end
  end.

(** ** [OnReadable] *)

(** One iteration of the loop: whether it continues. *)
Definition OnReadable_round (s : ReplicationSlave) : option (bool * ReplicationSlave) :=
  match state_ s with
  | kWaitFullresync =>
      match ConsumeSimpleString s with
      | (None, s) => Some (false, s)
      | (Some line, s) => Some (HandleSyncReply s line)
      end
  | kRecvRdbHeader =>
      match TryConsumeBulkHeader s with
      | (None, s) => Some (false, s)
      | (Some len, s) =>
          if len <? 0 then Some (false, Fail s)
          else
            let s := set_state (set_remaining s len (backlog_remaining_ s)) kRecvRdbBody in
            if len =? 0 then
              let '(loaded, s) := FinishRdbAndLoad s in
              if loaded then Some (true, set_state s kRecvBacklogHeader) else Some (false, s)
            else Some (true, s)
      end
  | kRecvRdbBody =>
      match GetAllData (InputBuffer s) with
      | None => Some (false, s)
      | Some data =>
          let n := if size_of data <? u64 (rdb_remaining_ s) then length data
                   else Z.to_nat (u64 (rdb_remaining_ s)) in
          let '(written, s) := WriteRdbChunk s (take n data) in
          if negb written then Some (false, s)
          else
            let s := Consume s n in
            let s := set_remaining s (rdb_remaining_ s - Z.of_nat n) (backlog_remaining_ s) in
            if rdb_remaining_ s =? 0 then
              let '(loaded, s) := FinishRdbAndLoad s in
              if loaded then Some (true, set_state s kRecvBacklogHeader) else Some (false, s)
            else Some (true, s)
      end
  | kRecvBacklogHeader =>
      match TryConsumeBulkHeader s with
      | (None, s) => Some (false, s)
      | (Some len, s) =>
          if len <? 0 then Some (false, Fail s)
          else
            let s := set_remaining s (rdb_remaining_ s) len in
            let s := set_buffers s [] (stream_buf_ s) in
            if kMaxString <? len then Some (false, Terminate s)
            else
              let s := set_state s kRecvBacklogBody in
              if len =? 0 then Some (true, EnterStreaming s) else Some (true, s)
      end
  | kRecvBacklogBody =>
      match GetAllData (InputBuffer s) with
      | None => Some (false, s)
      | Some data =>
          let n := if size_of data <? u64 (backlog_remaining_ s) then length data
                   else Z.to_nat (u64 (backlog_remaining_ s)) in
          let s := set_buffers s (backlog_buf_ s ++ take n data) (stream_buf_ s) in
          let s := Consume s n in
          let s := set_remaining s (rdb_remaining_ s) (backlog_remaining_ s - Z.of_nat n) in
          if backlog_remaining_ s =? 0 then
            match ApplyBacklog s (backlog_buf_ s) with
            | None => None
            | Some (false, s) => Some (false, s)
            | Some (true, s) => Some (true, EnterStreaming (set_buffers s [] (stream_buf_ s)))
            end
          else Some (true, s)
      end
  | kStreaming =>
      match DrainStreaming s with
      | None => None
      | Some (_, s) => Some (false, s)
      end
  | kInit | kError | kTerminated => Some (false, s)
  end.

Fixpoint OnReadable_loop (fuel : nat) (s : ReplicationSlave) : option ReplicationSlave :=
  match fuel with
  | O => None
  | S fuel =>
      match OnReadable_round s with
      | None => None
      | Some (true, s) => OnReadable_loop fuel s
      | Some (false, s) => Some s
      end
  end.

(** Every continuing iteration consumes at least one byte of input. *)
Definition OnReadable (s : ReplicationSlave) : option ReplicationSlave :=
  match conn_ s with
  | None => Some s
  | Some _ =>
      if bool_decide (state_ s = kError) then Some s
      else OnReadable_loop (S (length (buf_ (InputBuffer s)))) s
  end.

(** ** The connection's callbacks *)

(** What [conn_] points to (meaningful while it is set). *)
Definition link_conn (s : ReplicationSlave) : TcpConn :=
  match conn_ s with Some l => l_conn l | None => TcpConnection.construct [] end.
Definition set_link (c : TcpConn) (s : ReplicationSlave) : ReplicationSlave :=
  match conn_ s with
  | Some l => set_conn s (Some (mkLink c (l_read_cb l) (l_close_cb l)))
  | None => s
  end.

(** The callbacks set in [TryConnect]; a close callback that was cleared does
    not run. *)
Definition on_event (e : Event) (s : ReplicationSlave) : option ReplicationSlave :=
  match e with
  | Readable => OnReadable s
  | Closed => Some (match conn_ s with Some l => if l_close_cb l then OnClose s else s | None => s end)
  | SendFileDone _ => Some s
  end.

(** [HandleIO(events)] of the connection; [rs] is what its [recv] calls return. *)
Definition OnIO (events : Z) (rs : list RecvResult) (s : ReplicationSlave) : option ReplicationSlave :=
  match conn_ s with
  | None => Some s
  | Some l => HandleIO link_conn set_link on_event events rs (l_read_cb l) s
  end.

(** ** Lemmas: supervision *)

(** The members that no step of the protocol changes. *)
Record core (s : ReplicationSlave) : Prop := {
  co_loop : loop_ s = true;
  co_snapshot : snapshot_ s = true;
  co_closing : closing_ s = false;
  co_stopping : stopping_ s = false;
  co_backoff : kMinBackoffMs <= backoff_ms_ s <= kMaxBackoffMs
}.

(** A connection that is open and watched. *)
Definition watched (s : ReplicationSlave) : Prop :=
  reconnect_timer_ s = None /\
  exists l, conn_ s = Some l /\ closed_ (l_conn l) = false /\ l_read_cb l = true /\ l_close_cb l = true.

(** A link that failed and will be retried. *)
Definition retrying (s : ReplicationSlave) : Prop :=
  state_ s = kError /\
  (exists d, reconnect_timer_ s = Some d /\ kMinBackoffMs <= d <= kMaxBackoffMs) /\
  match conn_ s with Some l => closed_ (l_conn l) = true | None => True end.

(** The body of a transfer has a positive number of bytes to come. *)
Definition counted (s : ReplicationSlave) : Prop :=
  match state_ s with
  | kRecvRdbBody => 0 < rdb_remaining_ s < 2 ^ 63
  | kRecvBacklogBody => 0 < backlog_remaining_ s < 2 ^ 63
  | kInit | kError | kTerminated => False
  | _ => True
  end.

Definition alive (s : ReplicationSlave) : Prop := core s /\ (watched s /\ counted s \/ retrying s).

(** A connection that is closed while no timer is armed: nothing happens any more. *)
Definition inert (s : ReplicationSlave) : Prop :=
  reconnect_timer_ s = None /\ exists l, conn_ s = Some l /\ closed_ (l_conn l) = true.

Definition terminated (s : ReplicationSlave) : Prop := state_ s = kTerminated /\ inert s.

(** The request could not be sent, and nobody was told. *)
Definition stuck (s : ReplicationSlave) : Prop := state_ s = kWaitFullresync /\ inert s.

(** What a handler leaves behind, unless a request could not be sent. *)
Definition settled (s : ReplicationSlave) : Prop := alive s \/ terminated s.

Lemma NextBackoffMs_range b :
  kMinBackoffMs <= b <= kMaxBackoffMs -> kMinBackoffMs <= NextBackoffMs b <= kMaxBackoffMs.
Proof.
  unfold NextBackoffMs, kMinBackoffMs, kMaxBackoffMs. intros H.
  destruct (Z.leb_spec 60000 b); [lia|]. rewrite u64_small by lia. destruct (Z.ltb_spec 60000 (b * 2)); lia.
Qed.

Lemma ScheduleReconnect_retrying s :
  core s -> match conn_ s with Some l => closed_ (l_conn l) = true | None => True end ->
  core (ScheduleReconnect s) /\ retrying (ScheduleReconnect s).
Proof.
  intros [H1 H2 H3 H4 H5] Hc. unfold ScheduleReconnect. rewrite H4. split.
  - split; cbn; try done. by apply NextBackoffMs_range.
  - split_and!; [done|by exists (backoff_ms_ s)|done].
Qed.

Lemma Close_closes c : closed_ (Close c).2 = true.
Proof. pose proof (Close_spec c) as H. by destruct (Close c), H. Qed.

Lemma CloseRdb_keeps s :
  loop_ (CloseRdb s) = loop_ s /\ snapshot_ (CloseRdb s) = snapshot_ s /\ closing_ (CloseRdb s) = closing_ s /\
  stopping_ (CloseRdb s) = stopping_ s /\ backoff_ms_ (CloseRdb s) = backoff_ms_ s /\
  reconnect_timer_ (CloseRdb s) = reconnect_timer_ s /\ conn_ (CloseRdb s) = conn_ s /\
  state_ (CloseRdb s) = state_ s /\ stores (CloseRdb s) = stores s.
Proof. unfold CloseRdb. by destruct (rdb_fp_ s). Qed.

Lemma Fail_retrying s : core s -> state_ s <> kError -> core (Fail s) /\ retrying (Fail s).
Proof.
  intros [H1 H2 H3 H4 H5] Hne. unfold Fail. rewrite H4, bool_decide_eq_false_2 by done. cbn [orb].
  destruct (CloseRdb_keeps (set_state s kError)) as (E1 & E2 & E3 & E4 & E5 & E6 & E7 & E8 & _).
  set (s1 := CloseRdb _) in *. cbn in E1, E2, E3, E4, E5, E6, E7, E8.
  unfold CloseConn. cbn [conn_ set_flags]. rewrite E7.
  destruct (conn_ s) as [l|] eqn:Ec.
  - destruct (ScheduleReconnect_retrying (set_flags (set_conn (set_flags s1 true (stopping_ s1))
      (Some (mkLink (Close (l_conn l)).2 false false))) false (stopping_ s1))) as [Hco Hre].
    + split; cbn; congruence || (rewrite E5; done).
    + cbn. apply Close_closes.
    + by split.
  - destruct (ScheduleReconnect_retrying (set_flags (set_flags s1 true (stopping_ s1)) false (stopping_ s1)))
      as [Hco Hre].
    + split; cbn; congruence || (rewrite E5; done).
    + cbn. by rewrite E7.
    + by split.
Qed.

Lemma Fail_settled s : core s -> state_ s <> kError -> settled (Fail s).
Proof. intros Hc Hne. destruct (Fail_retrying s Hc Hne). left. split; [done|by right]. Qed.

Lemma Terminate_settled s : is_Some (conn_ s) -> settled (Terminate s).
Proof.
  intros [l Hl]. right. unfold Terminate, CloseConn. rewrite Hl. split; [done|]. split; [done|].
  eexists. split; [done|]. apply Close_closes.
Qed.

(** Nothing of the link has changed. *)
Record same_link (s s' : ReplicationSlave) : Prop := {
  sl_core : core s -> core s';
  sl_timer : reconnect_timer_ s' = reconnect_timer_ s;
  sl_conn : conn_ s' = conn_ s;
  sl_state : state_ s' = state_ s;
  sl_rdb : rdb_remaining_ s' = rdb_remaining_ s;
  sl_backlog : backlog_remaining_ s' = backlog_remaining_ s
}.

Lemma same_link_refl s : same_link s s.
Proof. by split. Qed.

Lemma same_link_trans s1 s2 s3 : same_link s1 s2 -> same_link s2 s3 -> same_link s1 s3.
Proof. intros [] []. split; congruence || auto. Qed.

Lemma same_link_file s fp fs : same_link s (set_file s fp fs).
Proof. split; try done. intros []. by split. Qed.

Lemma same_link_stores s st : same_link s (set_stores s st).
Proof. split; try done. intros []. by split. Qed.

Lemma same_link_buffers s a b : same_link s (set_buffers s a b).
Proof. split; try done. intros []. by split. Qed.

Lemma same_link_offset s a b c : same_link s (set_offset s a b c).
Proof. split; try done. intros []. by split. Qed.

#[local] Hint Resolve same_link_refl same_link_file same_link_stores same_link_buffers same_link_offset : slave.

Lemma same_link_CloseRdb s : same_link s (CloseRdb s).
Proof. unfold CloseRdb. destruct (rdb_fp_ s); auto with slave. Qed.

Lemma same_link_AdvanceOffset s n : same_link s (AdvanceOffset s n).
Proof. unfold AdvanceOffset. destruct (_ =? _)%nat; auto with slave. Qed.

(** A sub-operation succeeds without touching the link, or it has failed. *)
Definition link_result (s : ReplicationSlave) (r : bool * ReplicationSlave) : Prop :=
  if r.1 then same_link s r.2 else settled r.2.

Lemma WriteRdbChunk_link s d : core s -> state_ s <> kError -> link_result s (WriteRdbChunk s d).
Proof.
  intros Hc Hne. unfold WriteRdbChunk.
  assert (forall s1, same_link s s1 -> link_result s
    (match rdb_fp_ s1 with
     | None => (true, s1)
     | Some fp =>
         if is_empty d then (true, s1)
         else
           let '(n, fp) := fwrite d fp in
           let s2 := set_file s1 (Some fp) (disk s1) in
           if (n =? length d)%nat then (true, s2) else (false, Fail s2)
     end)) as Hw.
  { intros s1 H1. destruct (rdb_fp_ s1) as [fp|]; [|exact H1]. destruct (is_empty d); [exact H1|].
    destruct (fwrite d fp) as [n fp']. pose proof (same_link_file s1 (Some fp') (disk s1)) as H2.
    pose proof (same_link_trans _ _ _ H1 H2) as [H3 _ _ H4 _ _]. destruct (n =? length d)%nat.
    - by eapply same_link_trans.
    - apply Fail_settled; [by apply H3|]. by rewrite H4. }
  destruct (rdb_fp_ s) as [fp|] eqn:E; cbn [negb].
  - specialize (Hw s (same_link_refl s)). by rewrite E in Hw |- *.
  - unfold fopen_wb. destruct (can_create _ _); cbn [negb].
    + specialize (Hw (set_file s (Some (mkFile [] 0 (disk_room (disk s)))) (with_files (disk s)
        (<[kInTmpPath := []]> (files (disk s))))) (same_link_file _ _ _)). exact Hw.
    + apply Fail_settled; [|done]. by apply (same_link_file s None (disk s)).
Qed.

Lemma FinishRdbAndLoad_link s :
  core s -> state_ s <> kError -> is_Some (conn_ s) -> link_result s (FinishRdbAndLoad s).
Proof.
  intros Hc Hne Hcn. unfold FinishRdbAndLoad. pose proof (same_link_CloseRdb s) as H1.
  set (s1 := CloseRdb s) in *. destruct (rename _ _ _) as [renamed fs].
  pose proof (same_link_trans _ _ _ H1 (same_link_file s1 (rdb_fp_ s1) fs)) as H2.
  set (s2 := set_file s1 _ _) in *. destruct renamed; cbn [negb].
  - destruct (LoadFromPath _ _ _ _ _) as [st sts].
    pose proof (same_link_trans _ _ _ H2 (same_link_stores s2 sts)) as H3. set (s3 := set_stores _ _) in *.
    destruct st; try exact H3; try (apply Terminate_settled; by rewrite (sl_conn _ _ H3));
      apply Fail_settled; try (by apply H3); by rewrite (sl_state _ _ H3).
  - apply Fail_settled; [by apply H2|]. by rewrite (sl_state _ _ H2).
Qed.

(** What is left of the input. *)
Definition unread_input (s : ReplicationSlave) : bytes := buf_ (InputBuffer s).

Lemma same_link_input s s' : same_link s s' -> unread_input s' = unread_input s.
Proof. intros H. unfold unread_input, InputBuffer. by rewrite (sl_conn _ _ H). Qed.

Lemma same_link_watched s s' : same_link s s' -> watched s -> watched s'.
Proof. intros H. unfold watched. by rewrite (sl_timer _ _ H), (sl_conn _ _ H). Qed.

Lemma same_link_counted s s' : same_link s s' -> counted s -> counted s'.
Proof. intros H. unfold counted. by rewrite (sl_state _ _ H), (sl_rdb _ _ H), (sl_backlog _ _ H). Qed.

Lemma watched_conn s : watched s -> is_Some (conn_ s).
Proof. intros [_ (l & -> & _)]. eauto. Qed.

Lemma Consume_spec s n :
  watched s ->
  (core s -> core (Consume s n)) /\ watched (Consume s n) /\ state_ (Consume s n) = state_ s /\
  rdb_remaining_ (Consume s n) = rdb_remaining_ s /\ backlog_remaining_ (Consume s n) = backlog_remaining_ s /\
  unread_input (Consume s n) = drop n (unread_input s).
Proof.
  intros [Ht (l & Hl & Ho & Hr & Hc)]. unfold Consume, set_input, unread_input, InputBuffer. rewrite Hl.
  split_and!; try done.
  - intros []. by split.
  - split; [done|]. eexists. split_and!; [done|..]; done.
  - cbn. apply ReadCompleted_drop.
Qed.

Lemma GetAllData_spec b : GetAllData b = if is_empty (buf_ b) then None else Some (buf_ b).
Proof. done. Qed.

Lemma find_LF_bound l i : find_LF l = Some i -> (i < length l)%nat.
Proof.
  unfold find_LF. intros ([j c] & H & ->)%fmap_Some. apply list_find_Some in H as (H & _).
  by eapply lookup_lt_Some.
Qed.

(** A line or a header was consumed, or nothing happened, or the link failed. *)
Definition consumed_result {A} (s : ReplicationSlave) (r : option A * ReplicationSlave) : Prop :=
  match r.1 with
  | Some _ => exists n, (0 < n)%nat /\ unread_input s <> [] /\ r.2 = Consume s n
  | None => r.2 = s \/ settled r.2
  end.

Lemma alive_Consume s n : retrying s -> core s -> alive (Consume s n).
Proof.
  intros (Hs & (d & Hd & Hr) & Hc) Hco. unfold Consume, set_input. destruct (conn_ s) as [l|] eqn:E.
  - split; [by destruct Hco|]. right. split_and!; [done|by exists d|done].
  - split; [done|]. right. split_and!; [done|by exists d|by rewrite E].
Qed.

Lemma ConsumeSimpleString_link s :
  core s -> state_ s <> kError -> consumed_result s (ConsumeSimpleString s).
Proof.
  intros Hc Hne. unfold ConsumeSimpleString. rewrite GetAllData_spec. fold (unread_input s).
  destruct (is_empty (unread_input s)) eqn:E; [by left|].
  destruct (_ <? 3)%nat; [by left|]. case_bool_decide.
  - destruct (find_LF _) as [i|]; [|by left]. right. cbn [snd].
    destruct (Fail_retrying s Hc Hne). left. by apply alive_Consume.
  - destruct (negb _); [right; by apply Fail_settled|]. destruct (find_LF _) as [i|]; [|by left].
    destruct (CR_before _ i); [|by left]. exists (i + 1)%nat. split_and!; [lia| |done].
    intros Hz. by rewrite Hz in E.
Qed.

Lemma TryConsumeBulkHeader_link s :
  core s -> state_ s <> kError -> consumed_result s (TryConsumeBulkHeader s).
Proof.
  intros Hc Hne. unfold TryConsumeBulkHeader. rewrite GetAllData_spec. fold (unread_input s).
  destruct (is_empty (unread_input s)) eqn:E; [by left|].
  destruct (_ || _); [by left|]. destruct (find_LF _) as [i|]; [|by left].
  destruct (CR_before _ i); [|by left]. destruct (strtoll _) as [v fin].
  case_bool_decide; [right; by apply Fail_settled|]. exists (i + 1)%nat. split_and!; [lia| |done].
  intros Hz. by rewrite Hz in E.
Qed.

(** The bulk length is a [long long]. *)
Lemma TryConsumeBulkHeader_range s v s' :
  TryConsumeBulkHeader s = (Some v, s') -> v < 2 ^ 63.
Proof.
  unfold TryConsumeBulkHeader. intros H. repeat (case_match; simplify_eq).
  match goal with H : strtoll _ = _ |- _ => unfold strtoll in H end.
  repeat (case_match; simplify_eq); lia.
Qed.

(** Progress of one iteration: the link is settled, and if the loop goes on it
    has consumed input and is still watched. *)
Definition progress (s : ReplicationSlave) (r : option (bool * ReplicationSlave)) : Prop :=
  exists b s', r = Some (b, s') /\ settled s' /\
    (b = true -> core s' /\ watched s' /\ counted s' /\
                 (length (unread_input s') < length (unread_input s))%nat).

Lemma progress_alive s s' : settled s' -> progress s (Some (false, s')).
Proof. intros. by exists false, s'. Qed.

Lemma progress_on s s' :
  core s' -> watched s' -> counted s' -> (length (unread_input s') < length (unread_input s))%nat ->
  progress s (Some (true, s')).
Proof. intros. exists true, s'. split_and!; try done. left. split; [done|]. by left. Qed.

Lemma HandleSyncReply_progress s s1 line :
  core s1 -> watched s1 -> state_ s1 <> kError ->
  (length (unread_input s1) < length (unread_input s))%nat ->
  progress s (Some (HandleSyncReply s1 line)).
Proof.
  intros Hc Hw Hne Hlt. unfold HandleSyncReply. destruct (beq _ _).
  { apply progress_on; try done. destruct Hc. by split. }
  destruct (negb _); [by apply progress_alive, Fail_settled|].
  destruct (list_find _ _) as [[sp ?]|]; [|by apply progress_alive, Fail_settled].
  destruct (_ || _); [by apply progress_alive, Fail_settled|]. destruct (strtoull _) as [cut fin].
  destruct (_ || _).
  - apply progress_alive, Fail_settled; [|done]. by apply (same_link_offset s1).
  - apply progress_on; try done. by destruct Hc.
Qed.

Lemma ConsumeLoop_total fuel buf off applied t :
  (length buf - off < fuel)%nat -> exists r, ConsumeLoop fuel buf off applied t = Some r.
Proof.
  revert off applied t. induction fuel as [|fuel IH]; intros off applied t Hf; [lia|]. cbn [ConsumeLoop].
  destruct (Nat.ltb_spec off (length buf)) as [Hlt|]; [|by eexists].
  destruct (RespDecode.decode (drop off buf)) as [[[] toks] n] eqn:E; try by eexists.
  apply RespDecode.decode_consumed in E. rewrite length_drop in E.
  destruct (FromTokens _ _ _ _) as [[] [ctx|]]; try by eexists.
  destruct (ApplyMutation 1 ctx kAofReplay t) as [[ar t']|] eqn:EA.
  - destruct (negb (ok ar)); [by eexists|]. apply IH. lia.
  - exfalso. revert EA. cbn [ApplyMutation]. destruct (cmd ctx); try done. unfold apply_vset.
    by destruct (t_index t).
Qed.

Lemma ConsumeStreamFrames_total data st : exists r, ConsumeStreamFrames (Some data) st = Some r.
Proof.
  unfold ConsumeStreamFrames. destruct (ConsumeLoop_total (S (length data)) data 0 0
    (mkTargets (s_index st) (s_kv st) None None) ltac:(lia)) as [[[[] ?] ?] ->]; by eexists.
Qed.

Lemma ApplyBacklog_link s data :
  core s -> state_ s <> kError -> is_Some (conn_ s) -> exists r, ApplyBacklog s data = Some r /\ link_result s r.
Proof.
  intros Hc Hne Hcn. unfold ApplyBacklog. destruct (ConsumeStreamFrames_total data (stores s)) as [[[[good buf] n] st] ->].
  pose proof (same_link_stores s st) as H1. destruct good; [destruct (negb _)|..];
    eexists; (split; [reflexivity|]).
  - apply Fail_settled; [by apply H1|done].
  - eapply same_link_trans; [exact H1|apply same_link_AdvanceOffset].
  - apply Fail_settled; [by apply H1|done].
  - by apply Terminate_settled.
Qed.

Lemma DrainStreaming_settled s :
  core s -> watched s -> state_ s = kStreaming ->
  exists b s', DrainStreaming s = Some (b, s') /\ settled s'.
Proof.
  intros Hc Hw Hst. unfold DrainStreaming.
  set (s1 := match GetAllData (InputBuffer s) with None => s | Some data => _ end).
  assert (core s1 /\ watched s1 /\ state_ s1 = kStreaming) as (Hc1 & Hw1 & Hst1).
  { subst s1. destruct (GetAllData _) as [data|]; [|done].
    pose proof (same_link_buffers s (backlog_buf_ s) (stream_buf_ s ++ data)) as H1.
    destruct (Consume_spec _ (length data) (same_link_watched _ _ H1 Hw)) as (H2 & H3 & H4 & _).
    split_and!; [by apply H2, H1|done|]. by rewrite H4. }
  destruct (ConsumeStreamFrames_total (stream_buf_ s1) (stores s1)) as [[[[good buf] n] st] ->].
  pose proof (same_link_trans _ _ _ (same_link_stores s1 st)
    (same_link_buffers (set_stores s1 st) (backlog_buf_ (set_stores s1 st)) (default [] buf))) as H2.
  destruct good; eexists _, _; (split; [reflexivity|]).
  - pose proof (same_link_trans _ _ _ H2 (same_link_AdvanceOffset _ n)) as H3. left. split; [by apply H3|]. left.
    split; [by apply (same_link_watched _ _ H3)|].
    apply (same_link_counted _ _ H3). unfold counted. by rewrite Hst1.
  - apply Fail_settled; [by apply H2|]. change (state_ s1 <> kError). by rewrite Hst1.
  - apply Terminate_settled. change (is_Some (conn_ s1)). by apply watched_conn.
Qed.

(** A body transfer: [n] bytes of the [m] to come are there. *)
Lemma body_take (l : bytes) m :
  l <> [] -> 0 < m < 2 ^ 63 ->
  let n := if size_of l <? u64 m then length l else Z.to_nat (u64 m) in
  (0 < n)%nat /\ (n <= length l)%nat /\ 0 <= m - Z.of_nat n < 2 ^ 63.
Proof.
  intros Hl Hm. rewrite u64_small by lia. unfold size_of. destruct l; [done|]. cbn [length] in *.
  destruct (Z.ltb_spec (Z.of_nat (S (length l))) m); lia.
Qed.

Lemma Loaded_progress s s1 :
  core s1 -> watched s1 -> state_ s1 <> kError -> (length (unread_input s1) < length (unread_input s))%nat ->
  progress s (let '(loaded, s2) := FinishRdbAndLoad s1 in
              if loaded then Some (true, set_state s2 kRecvBacklogHeader) else Some (false, s2)).
Proof.
  intros Hc Hw Hne Hlt. pose proof (FinishRdbAndLoad_link s1 Hc Hne (watched_conn _ Hw)) as HF. unfold link_result in HF.
  destruct (FinishRdbAndLoad s1) as [[] s2]; cbn [fst snd] in HF; [|by apply progress_alive].
  apply progress_on; try done.
  - destruct (sl_core _ _ HF Hc). by split.
  - by apply (same_link_watched s1 s2).
  - change (length (unread_input s2) < length (unread_input s))%nat. by rewrite (same_link_input _ _ HF).
Qed.

Lemma consume_shorter s n :
  watched s -> (0 < n)%nat -> unread_input s <> [] ->
  (length (unread_input (Consume s n)) < length (unread_input s))%nat.
Proof.
  intros Hw Hn Hne. destruct (Consume_spec s n Hw) as (_ & _ & _ & _ & _ & ->). rewrite length_drop.
  destruct (unread_input s); [done|]. cbn [length]. lia.
Qed.

Lemma round_progress s :
  core s -> watched s -> counted s -> progress s (OnReadable_round s).
Proof.
  intros Hc Hw Hn.
  assert (state_ s <> kError) as Hne by (intros Hz; unfold counted in Hn; by rewrite Hz in Hn).
  assert (settled s) as Ha by (left; split; [done|by left]).
  unfold OnReadable_round, counted in *. destruct (state_ s) eqn:Est; try done;
    clear Hne; assert (state_ s <> kError) as Hne by (by rewrite Est).
  - pose proof (ConsumeSimpleString_link s Hc Hne) as HR. unfold consumed_result in HR.
    destruct (ConsumeSimpleString s) as [[line|] s1]; cbn [fst snd] in HR.
    + destruct HR as (n & Hn0 & Hin & ->). destruct (Consume_spec s n Hw) as (H1 & H2 & H3 & _).
      apply HandleSyncReply_progress; auto using consume_shorter. by rewrite H3, Est.
    + apply progress_alive. by destruct HR as [->|].
  - pose proof (TryConsumeBulkHeader_link s Hc Hne) as HR. pose proof (TryConsumeBulkHeader_range s) as Hrg.
    unfold consumed_result in HR.
    destruct (TryConsumeBulkHeader s) as [[len|] s1]; cbn [fst snd] in HR;
      [|apply progress_alive; by destruct HR as [->|]].
    specialize (Hrg _ _ eq_refl). destruct HR as (n & Hn0 & Hin & ->).
    destruct (Consume_spec s n Hw) as (H1 & H2 & H3 & _). pose proof (consume_shorter s n Hw Hn0 Hin) as Hlt.
    destruct (Z.ltb_spec len 0); [apply progress_alive, Fail_settled; [auto|by rewrite H3, Est]|].
    set (s2 := set_state _ kRecvRdbBody).
    assert (core s2) as Hc2 by (destruct (H1 Hc); by split).
    destruct (Z.eqb_spec len 0).
    + by apply Loaded_progress.
    + apply progress_on; try done. unfold counted. cbn. lia.
  - unfold counted in Hn. rewrite GetAllData_spec. fold (unread_input s).
    destruct (is_empty (unread_input s)) eqn:Ee; [by apply progress_alive|].
    assert (unread_input s <> []) as Hin by (intros Hz; by rewrite Hz in Ee).
    pose proof (body_take _ _ Hin Hn) as Hb. cbn zeta in Hb.
    set (n := if size_of _ <? _ then _ else _) in *. destruct Hb as (Hb1 & Hb2 & Hb3).
    pose proof (WriteRdbChunk_link s (take n (unread_input s)) Hc Hne) as HW. unfold link_result in HW.
    destruct (WriteRdbChunk s _) as [[] s1]; cbn [fst snd] in HW; cbn [negb]; [|by apply progress_alive].
    pose proof (same_link_watched _ _ HW Hw) as Hw1. pose proof (same_link_input _ _ HW) as Hi1.
    destruct (Consume_spec s1 n Hw1) as (H1 & H2 & H3 & H4 & _).
    pose proof (consume_shorter s1 n Hw1 Hb1 ltac:(by rewrite Hi1)) as Hlt. rewrite Hi1 in Hlt.
    set (s2 := set_remaining _ _ _).
    assert (core s2) as Hc2 by (destruct (H1 (sl_core _ _ HW Hc)); by split).
    assert (rdb_remaining_ s2 = rdb_remaining_ s - Z.of_nat n) as Er
      by (unfold s2; cbn; by rewrite H4, (sl_rdb _ _ HW)).
    assert (state_ s2 = kRecvRdbBody) as Es by (unfold s2; cbn; by rewrite H3, (sl_state _ _ HW), Est).
    destruct (Z.eqb_spec (rdb_remaining_ s2) 0) as [Hz|Hz].
    + apply Loaded_progress; try done. by rewrite Es.
    + apply progress_on; try done. unfold counted. rewrite Es. lia.
  - pose proof (TryConsumeBulkHeader_link s Hc Hne) as HR. pose proof (TryConsumeBulkHeader_range s) as Hrg.
    unfold consumed_result in HR.
    destruct (TryConsumeBulkHeader s) as [[len|] s1]; cbn [fst snd] in HR;
      [|apply progress_alive; by destruct HR as [->|]].
    specialize (Hrg _ _ eq_refl). destruct HR as (n & Hn0 & Hin & ->).
    destruct (Consume_spec s n Hw) as (H1 & H2 & H3 & _). pose proof (consume_shorter s n Hw Hn0 Hin) as Hlt.
    destruct (Z.ltb_spec len 0); [apply progress_alive, Fail_settled; [auto|by rewrite H3, Est]|].
    destruct (H1 Hc) as [? ? ? ? ?].
    destruct (Z.ltb_spec kMaxString len); [apply progress_alive, Terminate_settled, (watched_conn _ H2)|].
    destruct (Z.eqb_spec len 0); apply progress_on; try done.
    unfold counted. cbn. lia.
  - unfold counted in Hn. rewrite GetAllData_spec. fold (unread_input s).
    destruct (is_empty (unread_input s)) eqn:Ee; [by apply progress_alive|].
    assert (unread_input s <> []) as Hin by (intros Hz; by rewrite Hz in Ee).
    pose proof (body_take _ _ Hin Hn) as Hb. cbn zeta in Hb.
    set (n := if size_of _ <? _ then _ else _) in *. destruct Hb as (Hb1 & Hb2 & Hb3).
    set (s1 := set_buffers s _ _). pose proof (same_link_buffers s (backlog_buf_ s ++ take n (unread_input s))
      (stream_buf_ s)) as HW. fold s1 in HW.
    pose proof (same_link_watched _ _ HW Hw) as Hw1. pose proof (same_link_input _ _ HW) as Hi1.
    destruct (Consume_spec s1 n Hw1) as (H1 & H2 & H3 & _ & H4 & _).
    pose proof (consume_shorter s1 n Hw1 Hb1 ltac:(by rewrite Hi1)) as Hlt. rewrite Hi1 in Hlt.
    set (s2 := set_remaining _ _ _).
    assert (core s2) as Hc2 by (destruct (H1 (sl_core _ _ HW Hc)); by split).
    assert (backlog_remaining_ s2 = backlog_remaining_ s - Z.of_nat n) as Er by (unfold s2; cbn; by rewrite H4).
    assert (state_ s2 = kRecvBacklogBody) as Es by (unfold s2; cbn; by rewrite H3).
    destruct (Z.eqb_spec (backlog_remaining_ s2) 0) as [Hz|Hz].
    + destruct (ApplyBacklog_link s2 (backlog_buf_ s2) Hc2 ltac:(by rewrite Es) (watched_conn _ H2)) as ([[] s3] & -> & HL);
        unfold link_result in HL; cbn [fst snd] in HL; [|by apply progress_alive].
      apply progress_on; try done.
      * destruct (sl_core _ _ HL Hc2). by split.
      * by apply (same_link_watched s2 s3).
      * change (length (unread_input s3) < length (unread_input s))%nat. by rewrite (same_link_input _ _ HL).
    + apply progress_on; try done. unfold counted. rewrite Es. lia.
  - destruct (DrainStreaming_settled s Hc Hw Est) as (b & s' & -> & Ha'). by apply progress_alive.
Qed.

Lemma OnReadable_loop_settled fuel s :
  core s -> watched s -> counted s -> (length (unread_input s) < fuel)%nat ->
  exists s', OnReadable_loop fuel s = Some s' /\ settled s'.
Proof.
  revert s. induction fuel as [|fuel IH]; intros s Hc Hw Hn Hf; [lia|]. cbn [OnReadable_loop].
  destruct (round_progress s Hc Hw Hn) as (b & s' & -> & Ha & Hp). destruct b; [|by exists s'].
  destruct (Hp eq_refl) as (Hc' & Hw' & Hn' & Hlt). apply IH; try done. lia.
Qed.

Lemma OnReadable_settled s : alive s -> exists s', OnReadable s = Some s' /\ settled s'.
Proof.
  intros Ha. unfold OnReadable. destruct (conn_ s) eqn:Ec; [|exists s; split; [done|by left]].
  case_bool_decide; [exists s; split; [done|by left]|]. destruct Ha as [Hc [[Hw Hn]|[? _]]]; [|done].
  apply OnReadable_loop_settled; try done. unfold unread_input. lia.
Qed.

(** Closing and reading a watched link. *)
Lemma set_link_spec c s :
  watched s -> (core s -> core (set_link c s)) /\ link_conn (set_link c s) = c /\
  state_ (set_link c s) = state_ s /\ (counted s -> counted (set_link c s)) /\
  (closed_ c = false -> watched (set_link c s)).
Proof.
  intros [Ht (l & Hl & Ho & Hr & Hc)]. unfold set_link, link_conn. rewrite Hl. cbn. split_and!; try done.
  - intros []. by split.
  - intros Hop. split; [done|]. by eexists.
Qed.

Lemma counted_not_failed s : counted s -> state_ s <> kError.
Proof. unfold counted. intros H E. by rewrite E in H. Qed.

Lemma closing_callbacks es s : closes es -> callbacks on_event es s = on_event Closed s.
Proof. by intros [->| ->]. Qed.

(** The peer, or an error, closes the connection: the link is retried. *)
Lemma closing_alive s c es :
  core s -> watched s -> counted s -> closed_ c = true -> closes es ->
  exists s', callbacks on_event es (set_link c s) = Some s' /\ alive s'.
Proof.
  intros Hc Hw Hn Hcl He. rewrite (closing_callbacks _ _ He). cbn [on_event].
  destruct (set_link_spec c s Hw) as (H1 & _ & H3 & _). pose proof Hw as [_ (l & Hl & _ & _ & Hcb)].
  assert (conn_ (set_link c s) = Some (mkLink c (l_read_cb l) (l_close_cb l))) as Ec
    by (unfold set_link; by rewrite Hl).
  rewrite Ec. cbn. rewrite Hcb. eexists. split; [done|].
  assert (OnClose (set_link c s) = Fail (set_link c s)) as ->
    by (unfold OnClose; destruct (H1 Hc) as [_ _ -> -> _]; done).
  destruct (Fail_retrying (set_link c s)) as [F1 F2]; [by apply H1|rewrite H3; by apply counted_not_failed|].
  split; [done|by right].
Qed.

(** Which connections an alive slave can have. *)
Lemma alive_cases s :
  alive s -> closed_ (link_conn s) = true \/ conn_ s = None \/ core s /\ watched s /\ counted s.
Proof.
  intros [Hc [[Hw Hn]|(_ & _ & Hx)]]; [by right; right|]. unfold link_conn.
  destruct (conn_ s); [by left|by right; left].
Qed.

Lemma HandleWrite_alive s :
  alive s -> closed_ (link_conn s) = false ->
  exists s', HandleWrite link_conn set_link on_event (S (rounds (link_conn s))) s = Some s' /\ alive s'.
Proof.
  intros Ha Hop. destruct (alive_cases s Ha) as [H|[Hn|(Hc & Hw & Hn)]]; [congruence| |].
  { exists s. split; [|done]. unfold link_conn, set_link. rewrite Hn. cbn. unfold set_link. by rewrite Hn. }
  apply (HandleWrite_ends link_conn set_link on_event (fun s => core s /\ watched s /\ counted s) alive);
    [| |done|lia].
  - clear s Ha Hop Hc Hw Hn. intros s again evs c (Hc & Hw & Hn) E.
    assert (closed_ (link_conn s) = false) as Hop
      by (destruct Hw as [_ (l & Hl & Ho & _)]; unfold link_conn; by rewrite Hl).
    destruct (set_link_spec c s Hw) as (H1 & H2 & _ & H4 & H5).
    apply round_outcome in E as [_ [[Hcl He]|(-> & Hcl & He)]]; [| |done].
    + exists (set_link c s). rewrite H2. split; [destruct He as [[-> _]|(_ & _ & ->)]; [done|by destruct (sendfile_done_ _)]|].
      destruct again; [by auto|]. split; [auto|left; auto].
    + by apply closing_alive.
  - intros w (_ & [_ (l & Hl & Ho & _)] & _). unfold link_conn. by rewrite Hl.
Qed.

Lemma inert_closed s : inert s -> closed_ (link_conn s) = true.
Proof. intros [_ (l & Hl & Hc)]. unfold link_conn. by rewrite Hl. Qed.

Lemma OnIO_settled events rs s : alive s -> exists s', OnIO events rs s = Some s' /\ settled s'.
Proof.
  intros Ha. unfold OnIO. destruct (conn_ s) as [l0|] eqn:El; [|exists s; split; [done|by left]]. unfold HandleIO.
  destruct (closed_ (link_conn s)) eqn:Eo; [exists s; split; [done|by left]|].
  assert (exists s', (if has events EPOLLIN then let '(evs, c) := HandleRead rs (l_read_cb l0) (link_conn s) in
    callbacks on_event evs (set_link c s) else Some s) = Some s' /\ settled s') as (s1 & -> & Ha1).
  { destruct (has events EPOLLIN); [|exists s; split; [done|by left]].
    destruct (alive_cases s Ha) as [H|[H|(Hc & Hw & Hn)]]; [congruence..|].
    destruct (HandleRead _ _ _) as [evs c] eqn:E. destruct (set_link_spec c s Hw) as (H1 & H2 & _ & H4 & H5).
    apply HandleRead_outcome in E as [(Hcl & _ & He)|(Hcl & He)]; [| |done].
    - assert (alive (set_link c s)) as Ha' by (split; [auto|left; auto]).
      destruct He as [->|[-> _]]; [exists (set_link c s); split; [done|by left]|]. cbn [callbacks on_event].
      destruct (OnReadable_settled _ Ha') as (s' & -> & Hs'). by exists s'.
    - destruct (closing_alive s c evs) as (s' & Hs' & ?); try done. exists s'. split; [done|by left]. }
  destruct (closed_ (link_conn s1)) eqn:Eo1; [by exists s1|].
  destruct Ha1 as [Ha1|[_ ?%inert_closed]]; [|congruence]. enough (exists s', _ = Some s' /\ alive s') as (s' & Hs' & ?)
    by (exists s'; split; [exact Hs'|by left]).
  assert (exists s', (if has events EPOLLOUT then HandleWrite link_conn set_link on_event
    (S (rounds (link_conn s1))) s1 else Some s1) = Some s' /\ alive s') as (s2 & -> & Ha2).
  { destruct (has events EPOLLOUT); [by apply HandleWrite_alive|by exists s1]. }
  destruct (closed_ (link_conn s2)) eqn:Eo2; [by exists s2|].
  destruct (has events _); [|by exists s2].
  destruct (alive_cases s2 Ha2) as [H|[H|(Hc & Hw & Hn)]]; [congruence| |].
  - exists s2. split; [|done]. unfold link_conn. rewrite H. cbn. unfold set_link. rewrite H. by rewrite H.
  - pose proof (Close_outcome (link_conn s2) Eo2) as HC. destruct (Close (link_conn s2)) as [evs c].
    destruct HC. by apply closing_alive.
Qed.

(** A socket that does not refuse the request at once. *)
Definition accepts (sock : list SendResult) : bool :=
  match sock with SendFailed :: _ => false | _ => true end.

Lemma TryConnect_spec s sock :
  core s ->
  match sock with
  | None => core (TryConnect s sock) /\ retrying (TryConnect s sock)
  | Some q => accepts q = true -> core (TryConnect s sock) /\ watched (TryConnect s sock) /\
                state_ (TryConnect s sock) = kWaitFullresync
  end.
Proof.
  intros [H1 H2 H3 H4 H5]. unfold TryConnect. rewrite H4, H1, H2. cbn [negb orb].
  assert (core (ResetLink s) /\ reconnect_timer_ (ResetLink s) = None /\ conn_ (ResetLink s) = None) as (Hc & Ht & Hn).
  { unfold ResetLink, CloseConn, CloseRdb. cbn. destruct (conn_ s); cbn; destruct (rdb_fp_ s); cbn;
      (split_and!; [split; cbn; congruence|done|done]). }
  destruct sock as [q|]; [|apply ScheduleReconnect_retrying; [done|by rewrite Hn]].
  intros Hq. generalize dependent (ResetLink s). intros r Hc Ht Hn. set (req := psync_request _).
  assert (closed_ (Send (TcpConnection.construct q) (Some req)).2 = false) as Hop.
  { assert (is_empty req = false) as He by (unfold req, psync_request; by destruct (_ && _)).
    unfold Send. cbn. rewrite He. unfold syscall. cbn.
    destruct q as [|[n| |] q]; try done. cbv zeta. by case_match. }
  clearbody req. split_and!; [by destruct Hc| |done]. split; [done|]. by eexists.
Qed.

Lemma TryConnect_refused s sock :
  core s ->
  let s' := TryConnect s (Some (SendFailed :: sock)) in
  state_ s' = kWaitFullresync /\ reconnect_timer_ s' = None /\
  exists l, conn_ s' = Some l /\ closed_ (l_conn l) = true.
Proof.
  intros [H1 H2 H3 H4 H5]. unfold TryConnect. rewrite H4, H1, H2. cbn [negb orb].
  assert (reconnect_timer_ (ResetLink s) = None) as Ht.
  { unfold ResetLink, CloseConn, CloseRdb. cbn. by destruct (conn_ s); cbn; destruct (rdb_fp_ s). }
  generalize dependent (ResetLink s). intros r Ht. set (req := psync_request _).
  assert (closed_ (Send (TcpConnection.construct (SendFailed :: sock)) (Some req)).2 = true) as Hcl.
  { assert (is_empty req = false) as He by (unfold req, psync_request; by destruct (_ && _)).
    unfold Send. cbn. by rewrite He. }
  clearbody req. split_and!; [done|done|]. by eexists.
Qed.

(** What can happen to a slave: its connection's events, and its reconnect
    timer, with the socket the new connection gets. *)
Inductive event := EIO (events : Z) (rs : list RecvResult) | ETimer (sock : option (list SendResult)).

Definition step (s : ReplicationSlave) (e : event) : option ReplicationSlave :=
  match e with
  | EIO events rs => OnIO events rs s
  | ETimer sock => match reconnect_timer_ s with Some _ => Some (OnReconnectTimer s sock) | None => Some s end
  end.

Fixpoint run (s : ReplicationSlave) (es : list event) : option ReplicationSlave :=
  match es with
  | [] => Some s
  | e :: es => match step s e with Some s => run s es | None => None end
  end.

Definition event_ok (e : event) : bool :=
  match e with ETimer (Some sock) => accepts sock | _ => true end.

Lemma OnReconnectTimer_alive s sock :
  core s -> event_ok (ETimer sock) = true -> alive (OnReconnectTimer s sock).
Proof.
  intros Hc Hok. assert (core (set_timer s None (backoff_ms_ s))) as Hc' by (destruct Hc; by split).
  pose proof (TryConnect_spec _ sock Hc') as H. unfold OnReconnectTimer. destruct sock as [q|].
  - destruct (H Hok) as (H1 & H2 & H3). split; [done|]. left. split; [done|]. unfold counted. by rewrite H3.
  - destruct H. split; [done|by right].
Qed.

Lemma OnReconnectTimer_stuck s q :
  core s -> accepts q = false -> stuck (OnReconnectTimer s (Some q)).
Proof.
  intros Hc Hq. assert (core (set_timer s None (backoff_ms_ s))) as Hc' by (destruct Hc; by split).
  destruct q as [|[n| |] q]; try done. destruct (TryConnect_refused _ q Hc') as (H1 & H2 & H3). by split.
Qed.

Lemma inert_run s es : inert s -> run s es = Some s.
Proof.
  intros [Ht (l & Hl & Hcl)]. induction es as [|e es IH]; [done|]. cbn [run].
  enough (step s e = Some s) as -> by done. destruct e as [events rs|q]; cbn [step]; [|by rewrite Ht].
  unfold OnIO, HandleIO, link_conn. by rewrite Hl, Hcl.
Qed.

Lemma settled_not_stuck s : settled s -> ~ stuck s.
Proof.
  intros [[_ [[[Ht (l & Hl & Ho & _)] _]|(_ & (d & Hd & _) & _)]]|[Hs _]] [Hk [Hn (l' & Hl' & Hc)]]; congruence.
Qed.

(** Settled or stuck, a step leaves the slave so; it is stuck only by a refused request. *)
Lemma run_supervised s es :
  settled s \/ stuck s -> exists s', run s es = Some s' /\ (settled s' \/ stuck s') /\
    (settled s -> Forall (fun e => event_ok e = true) es -> settled s').
Proof.
  assert (forall s es, inert s -> settled s \/ stuck s -> exists s', run s es = Some s' /\ (settled s' \/ stuck s') /\
    (settled s -> Forall (fun e => event_ok e = true) es -> settled s')) as Hin
    by (intros s1 es1 Hi Hs; exists s1; by rewrite inert_run).
  revert s. induction es as [|e es IH]; intros s Hs; [by exists s|].
  destruct Hs as [[Ha|Ht]|Hs]; [|by apply Hin; [apply Ht|left; right]|by apply Hin; [apply Hs|right]].
  cbn [run]. assert (exists s1, step s e = Some s1 /\ (settled s1 \/ stuck s1) /\ (event_ok e = true -> settled s1)) as (s1 & -> & H1 & H2).
  { destruct e as [events rs|sock]; cbn [step].
    - destruct (OnIO_settled events rs s Ha) as (s1 & -> & ?). by exists s1; split_and!; [|left|].
    - destruct (reconnect_timer_ s); [|exists s; split_and!; [done|by left; left|by left]].
      eexists. split; [done|]. destruct (event_ok (ETimer sock)) eqn:Eq.
      + assert (settled (OnReconnectTimer s sock)) by (left; apply OnReconnectTimer_alive; [apply Ha|done]). by split; [left|].
      + destruct sock as [q|]; [|done]. split; [|done]. right. apply OnReconnectTimer_stuck; [apply Ha|done]. }
  destruct (IH s1 H1) as (s' & H3 & H4 & H5). exists s'. split_and!; [done|done|].
  intros _ [He Hes]%Forall_cons_iff. auto.
Qed.

Lemma Start_supervised st fs host port sock :
  can_mkdir fs kTmpDir = true -> is_empty host = false -> port <> 0 ->
  exists s, Start (construct true true st fs) host port sock = (true, s) /\ (settled s \/ stuck s) /\
    (event_ok (ETimer sock) = true -> settled s).
Proof.
  intros Hd Hh Hp. unfold Start, EnsureTmpDir, create_directories. cbn [loop_ snapshot_ disk construct negb orb].
  rewrite Hd, Hh. cbn [negb orb]. rewrite (proj2 (Z.eqb_neq port 0) Hp).
  eexists. split; [done|]. set (s0 := set_timer _ _ _).
  assert (core s0) as Hc by (split; cbn; unfold kMinBackoffMs, kMaxBackoffMs; try done; lia).
  pose proof (TryConnect_spec s0 sock Hc) as H. destruct sock as [q|].
  - cbn [event_ok]. destruct (accepts q) eqn:Hq.
    + assert (settled (TryConnect s0 (Some q))) as Hs; [|by split; [left|]]. left. destruct (H eq_refl) as (H1 & H2 & H3).
      split; [done|]. left. split; [done|]. unfold counted. by rewrite H3.
    + split; [right|done]. destruct q as [|[n| |] q]; try done. destruct (TryConnect_refused s0 q Hc) as (H1 & H2 & H3). by split.
  - assert (settled (TryConnect s0 None)) as Hs; [|by split; [left|]]. left. destruct H. split; [done|by right].
Qed.

(** ** Properties *)

(** C18: what becomes of a replica.  From a start, whatever happens to its
    connection and its reconnect timer, and in any order (bytes of any kind from
    the master, torn or malformed, hang-ups, errors, refused connections and
    requests), every handler returns, and afterwards one of three things holds.
    The replica watches an open connection, or is in [kError] with its reconnect
    timer armed, at a delay between the two bounds of the back-off, and no live
    connection; the timer, once it fires and the master can be reached, then brings
    it back to a watched connection with the request sent.  Or it is stuck: it waits
    for a reply on a connection that is closed, without a timer, and nothing will
    ever happen to it again; this takes a PSYNC request whose first [send] fails.
    Or the master has sent a length or an element count beyond what a string or a
    vector can have, and the exception has ended the process. *)
Theorem slave_supervised (st : Stores) (fs : Fs) (host : bytes) (port : Z) (sock : option (list SendResult))
    (es : list event) :
  can_mkdir fs kTmpDir = true -> is_empty host = false -> port <> 0 ->
  exists s0 s, Start (construct true true st fs) host port sock = (true, s0) /\ run s0 es = Some s /\
    (((watched s \/ retrying s) /\
      (retrying s -> forall q, accepts q = true ->
         exists s', step s (ETimer (Some q)) = Some s' /\ watched s' /\ state_ s' = kWaitFullresync)) \/
     ((stuck s \/ terminated s) /\ forall es', run s es' = Some s)) /\
    (Forall (fun e => event_ok e = true) (ETimer sock :: es) -> ~ stuck s).
Proof.
  intros Hd Hh Hp. destruct (Start_supervised st fs host port sock Hd Hh Hp) as (s0 & Hs0 & Ha0 & Hok0).
  destruct (run_supervised s0 es Ha0) as (s & Hr & Ha & Hok). exists s0, s. split_and!; [done|done| |].
  2: { intros [He Hes]%Forall_cons_iff. apply settled_not_stuck. auto. }
  destruct Ha as [[[Hc Ha]|Ht]|Hst]; [left|right|right].
  - split; [tauto|]. intros (_ & (d & Hd' & _) & _) q Hq. cbn [step]. rewrite Hd'. eexists. split; [done|].
    assert (core (set_timer s None (backoff_ms_ s))) as Hc' by (destruct Hc; by split).
    by destruct (TryConnect_spec _ (Some q) Hc' Hq) as (_ & ? & ?).
  - split; [by right|]. intros es'. apply inert_run, Ht.
  - split; [by left|]. intros es'. apply inert_run, Hst.
Qed.

(** A request that cannot be sent is never retried.  [TryConnect] sends the
    request before it sets the close callback, so when that first [send] fails
    the connection is closed with nobody told: the slave reports a successful
    start, stays in [kWaitFullresync] with a closed connection and no timer, and
    no later event changes that. *)
Theorem psync_send_failure_sticks (st : Stores) (fs : Fs) (host : bytes) (port : Z) (sock : list SendResult) :
  can_mkdir fs kTmpDir = true -> is_empty host = false -> port <> 0 ->
  exists s, Start (construct true true st fs) host port (Some (SendFailed :: sock)) = (true, s) /\
    state_ s = kWaitFullresync /\ reconnect_timer_ s = None /\ closed_ (link_conn s) = true /\
    forall es, run s es = Some s.
Proof.
  intros Hd Hh Hp. unfold Start, EnsureTmpDir, create_directories. cbn [loop_ snapshot_ disk construct negb orb].
  rewrite Hd, Hh. cbn [negb orb]. rewrite (proj2 (Z.eqb_neq port 0) Hp).
  set (s0 := set_timer _ _ _).
  assert (core s0) as Hc by (split; cbn; unfold kMinBackoffMs, kMaxBackoffMs; try done; lia).
  destruct (TryConnect_refused s0 sock Hc) as (H1 & H2 & l & Hl & Hcl).
  generalize dependent (TryConnect s0 (Some (SendFailed :: sock))). intros s H1 H2 Hl.
  assert (closed_ (link_conn s) = true) as Hcc by (unfold link_conn; by rewrite Hl).
  exists s. split_and!; [done|done|done|done|]. intros es. apply inert_run. split; [done|by exists l].
Qed.

End ReplicationSlave.

(** ** Witnesses *)

#[local] Existing Instances flat_usearch flat_laws.
#[local] Instance demo_orderZ : IterOrder Z := default_order Z.
#[local] Instance demo_orderB : IterOrder bytes := default_order bytes.

Definition demo_stores : Stores := mkStores (Some (VNodeIndex.construct 8 5)) (Some KvStore.empty).

(** The master's greeting is not a reply: the link fails and is retried. *)
Lemma slave_supervised_witness :
  exists s0 s, Start (construct true true demo_stores demo_fs) (bs "master") 6379 (Some [Sent 3]) = (true, s0) /\
    run true true (fun _ => 0) s0
      [EIO EPOLLOUT []; EIO EPOLLIN [Received (bs "hello"); NotReceived (-1) EAGAIN]; ETimer None] = Some s /\
    (((watched s \/ retrying s) /\
      (retrying s -> forall q, accepts q = true ->
         exists s', step true true (fun _ => 0) s (ETimer (Some q)) = Some s' /\ watched s' /\
           state_ s' = kWaitFullresync)) \/
     ((stuck s \/ terminated s) /\ forall es', run true true (fun _ => 0) s es' = Some s)).
Proof.
  destruct (slave_supervised true true (fun _ => 0) demo_stores demo_fs (bs "master") 6379 (Some [Sent 3])
    [EIO EPOLLOUT []; EIO EPOLLIN [Received (bs "hello"); NotReceived (-1) EAGAIN]; ETimer None]) as (s0 & s & H1 & H2 & H3 & _).
  - reflexivity.
  - reflexivity.
  - discriminate.
  - exists s0, s. split; [exact H1|]. split; [exact H2|exact H3].
Defined.

(** A master that announces a backlog of 2^63 - 1 bytes ends the replica's process. *)
Example demo_terminated :
  let s := (Start (construct true true demo_stores demo_fs) (bs "master") 6379 (Some [])).2 in
  option_map (fun r => state_ r.2) (OnReadable_round true true (fun _ => 0)
    (set_input (set_state s kRecvBacklogHeader) (mkBuffer (bs "$9223372036854775807" ++ CRLF)))) = Some kTerminated.
Proof. vm_compute. reflexivity. Qed.

Lemma psync_send_failure_sticks_witness :
  exists s, Start (construct true true demo_stores demo_fs) (bs "master") 6379 (Some [SendFailed]) = (true, s) /\
    state_ s = kWaitFullresync /\ reconnect_timer_ s = None /\ closed_ (link_conn s) = true /\
    forall es, run true true (fun _ => 0) s es = Some s.
Proof.
  apply (psync_send_failure_sticks true true (fun _ => 0) demo_stores demo_fs (bs "master") 6379 []);
    [reflexivity|reflexivity|discriminate].
Defined.
