(* ===== verification/ReplicationSync.v ===== *)
(** * ReplicationSync: a replica converges to its master

    What ReplicationSlave.v leaves a replica with after a full resynchronisation
    followed by a stream of writes, however the bytes were cut into reads. *)

From S2P Require Import Prelude.
From S2P Require Import Stdio.
From S2P Require Import CLib.
From S2P Require Import CommandType.
From S2P Require Import RequestContext.
From S2P Require RespDecode.
From S2P Require KvStore.
From S2P Require Import Usearch.
From S2P Require Import FlatIndex.
From S2P Require VNodeStorage.
From S2P Require VNodeIndex.
From S2P Require VNodeDump.
From S2P Require Import MutationApply.
From S2P Require Import WalManager.
From S2P Require Import MessageBuffer.
From S2P Require Import FileSystem.
From S2P Require RdbFormat.
From S2P Require Import SnapshotManager.
From S2P Require Import TcpConnection.
From S2P Require Import ReplicationSlave.

#[local] Existing Instances no_wal no_repl.

(** ** What the master sends *)

(** The reply to PSYNC, the header of a bulk, and the whole of a full
    resynchronisation: the snapshot [img], the commands [bk] since it, and the
    live commands [live]. *)
Definition reply_text (replid : bytes) (off : Z) : bytes :=
  bs "FULLRESYNC " ++ replid ++ bs " " ++ print_unsigned off.
Definition simple_string (text : bytes) : bytes := bs "+" ++ text ++ CRLF.
Definition reply_line (replid : bytes) (off : Z) : bytes := simple_string (reply_text replid off).
Definition bulk_header (n : Z) : bytes := bs "$" ++ print_unsigned n ++ CRLF.

Definition transcript (replid : bytes) (off : Z) (img bk live : bytes) : bytes :=
  reply_line replid off ++ bulk_header (size_of img) ++ img ++ bulk_header (size_of bk) ++ bk ++ live.

(** ** Lemmas: lines *)

Lemma list_find_skip {A} (P : A -> Prop) `{forall x, Decision (P x)} (l1 l2 : list A) x :
  Forall (fun y => ~ P y) l1 -> P x -> list_find P (l1 ++ x :: l2) = Some (length l1, x).
Proof.
  intros H1 Hx. rewrite list_find_app_r by (by apply list_find_None). cbn.
  by rewrite decide_True.
Qed.

(** A line [t] arrives: its end is not there yet, or it is found. *)
Lemma line_cases t p q tail :
  LF ∉ t -> p ++ q = t ++ CRLF ++ tail ->
  find_LF p = None /\ (length p < length t + 2)%nat \/
  exists rest, p = t ++ CRLF ++ rest /\ rest ++ q = tail /\ find_LF p = Some (length t + 1)%nat /\
    CR_before p (length t + 1) = true.
Proof.
  intros Ht Heq. assert (Forall (fun c => c <> LF) (t ++ [CR])) as Hno.
  { apply Forall_app. split; [|by repeat constructor]. apply Forall_elem. intros c Hc ->. done. }
  change (CRLF ++ tail) with ([CR] ++ LF :: tail) in Heq. rewrite app_assoc in Heq.
  apply app_eq_inv in Heq as [(k & -> & Hk)|(k & Hk & ->)].
  - destruct k as [|c rest].
    + left. rewrite app_nil_r. split; [|rewrite length_app; cbn; lia].
      unfold find_LF. by rewrite (proj2 (list_find_None _ _) Hno).
    + injection Hk as <- ->. right. exists rest. split_and!; [by rewrite <- app_assoc|done|..].
      * unfold find_LF. rewrite list_find_skip by done. cbn. by rewrite length_app.
      * rewrite Nat.add_1_r. cbn. rewrite <- app_assoc. apply bool_decide_eq_true_2.
        rewrite lookup_app_r by lia. by rewrite Nat.sub_diag.
  - left. rewrite Hk in Hno. apply Forall_app in Hno as [Hno _]. split.
    + unfold find_LF. by rewrite (proj2 (list_find_None _ _) Hno).
    + apply (f_equal length) in Hk. rewrite !length_app in Hk. cbn in Hk. lia.
Qed.

Lemma digits_no_LF n : LF ∉ print_unsigned n.
Proof.
  intros H. pose proof (print_unsigned_isdigit n) as Hd. by apply (proj1 (Forall_elem _ _) Hd) in H.
Qed.

Lemma c_str_cons c s : c <> NUL -> c_str (c :: s) = c :: c_str s.
Proof. intros H. unfold c_str. cbn. by rewrite bool_decide_eq_false_2. Qed.

Lemma c_str_app a b : Forall (fun c => c <> NUL) a -> c_str (a ++ b) = a ++ c_str b.
Proof. induction 1 as [|c a Hc _ IH]; [done|]. cbn [app]. by rewrite c_str_cons, IH. Qed.

Lemma digits_no_NUL n : Forall (fun c => c <> NUL) (print_unsigned n).
Proof. eapply Forall_impl; [apply print_unsigned_isdigit|]. by intros c H ->. Qed.

(** ** Lemmas: the parsers *)

Section Sync.
Context `{U : !Usearch} `{L : !UsearchLaws U} `{OB : !IterOrder bytes} `{OZ : !IterOrder Z}.
Context (mmap_build view : bool) (clock : nat -> Z).

Notation OnReadable_round := (OnReadable_round mmap_build view clock).

(** The header of a bulk of [n] bytes arrives. *)
Lemma header_cases (s : ReplicationSlave) n q tail :
  0 <= n < 2 ^ 63 -> unread_input s ++ q = bulk_header n ++ tail ->
  TryConsumeBulkHeader s = (None, s) /\ (length (unread_input s) < length (bulk_header n))%nat \/
  exists rest, unread_input s = bulk_header n ++ rest /\ rest ++ q = tail /\
    TryConsumeBulkHeader s = (Some n, Consume s (length (bulk_header n))).
Proof.
  intros Hn Heq. unfold TryConsumeBulkHeader. rewrite GetAllData_spec. fold (unread_input s).
  set (p := unread_input s) in *. set (t := "$"%char :: print_unsigned n).
  assert (bulk_header n = t ++ CRLF) as Hb by by done.
  pose proof (print_unsigned_nonempty n) as Hne.
  assert (2 <= length t)%nat as Hlt by (unfold t; destruct (print_unsigned n); [done|cbn; lia]).
  assert (LF ∉ t) as Ht.
  { unfold t. intros [H|H]%elem_of_cons; [done|by apply digits_no_LF in H]. }
  rewrite Hb, <- app_assoc in Heq.
  destruct (line_cases t p q tail Ht Heq) as [[Hf Hl]|(rest & Hp & Hq & Hf & Hcr)].
  - left. split; [|rewrite Hb, length_app; change (length CRLF) with 2%nat; lia].
    destruct (is_empty p); [done|]. rewrite Hf. by destruct (_ || _).
  - right. exists rest. split_and!; [by rewrite Hb, <- app_assoc|done|].
    assert (is_empty p = false) as -> by (by rewrite Hp). rewrite Hf, Hcr.
    assert ((length p <? 4)%nat || negb (bool_decide (p !! 0%nat = Some "$"%char)) = false) as ->.
    { apply orb_false_iff. split.
      - apply Nat.ltb_ge. rewrite Hp, !length_app. change (length CRLF) with 2%nat. lia.
      - rewrite Hp. unfold t. cbn. by rewrite bool_decide_eq_true_2. }
    cbv zeta. assert (drop 1 p = print_unsigned n ++ CRLF ++ rest) as -> by (by rewrite Hp).
    rewrite c_str_app by apply digits_no_NUL. rewrite strtoll_print by done.
    rewrite bool_decide_eq_false_2.
    + do 2 f_equal. rewrite Hb, length_app. change (length CRLF) with 2%nat. lia.
    + intros H. apply (f_equal length) in H. rewrite length_app in H. destruct (print_unsigned n); [done|].
      cbn in H. lia.
Qed.

(** A replication id that can be told apart from the offset. *)
Definition replid_ok (replid : bytes) : Prop := replid <> [] /\ (LF ∉ replid) /\ (" "%char ∉ replid).

Lemma reply_text_no_LF replid off : replid_ok replid -> LF ∉ reply_text replid off.
Proof.
  intros (_ & Hl & _) H. unfold reply_text in H. rewrite !elem_of_app in H.
  destruct H as [H|[H|[H|H]]]; [|done| |by apply digits_no_LF in H].
  - revert H. apply (bool_decide_unpack (LF ∉ bs "FULLRESYNC ")). by vm_compute.
  - revert H. apply (bool_decide_unpack (LF ∉ bs " ")). by vm_compute.
Qed.

(** A simple string arrives. *)
Lemma simple_string_cases (s : ReplicationSlave) u q tail :
  LF ∉ u -> unread_input s ++ q = simple_string u ++ tail ->
  ConsumeSimpleString s = (None, s) /\ (length (unread_input s) < length (simple_string u))%nat \/
  exists rest, unread_input s = simple_string u ++ rest /\ rest ++ q = tail /\
    ConsumeSimpleString s = (Some u, Consume s (length (simple_string u))).
Proof.
  intros Hno Heq. unfold ConsumeSimpleString. rewrite GetAllData_spec. fold (unread_input s).
  set (p := unread_input s) in *. unfold simple_string in *. change (bs "+") with ["+"%char] in *.
  set (t := "+"%char :: u). assert (["+"%char] ++ u ++ CRLF = t ++ CRLF) as Hb by done. rewrite Hb in Heq |- *.
  assert (length (t ++ CRLF) = length u + 3)%nat as Hl3 by (unfold t; rewrite length_app; cbn; lia).
  assert (LF ∉ t) as Ht by (unfold t; intros [H|H]%elem_of_cons; done).
  rewrite <- app_assoc in Heq.
  destruct (line_cases t p q tail Ht Heq) as [[Hf Hl]|(rest & Hp & Hq & Hf & Hcr)].
  - left. assert (length t = length u + 1)%nat by (unfold t; cbn; lia). split; [|lia].
    destruct p as [|c p'] eqn:Ep; [done|]. cbn [is_empty]. destruct (_ <? 3)%nat; [done|].
    assert (c = "+"%char) as ->.
    { unfold t in Heq. by injection Heq. }
    cbn [lookup list_lookup]. rewrite bool_decide_eq_false_2 by done. rewrite bool_decide_eq_true_2 by done.
    cbn [negb]. by rewrite Hf.
  - right. exists rest. split_and!; [by rewrite <- app_assoc|done|].
    assert (is_empty p = false) as -> by (by rewrite Hp). rewrite Hf, Hcr.
    assert (p !! 0%nat = Some "+"%char) as -> by (by rewrite Hp).
    rewrite bool_decide_eq_false_2 by done. rewrite bool_decide_eq_true_2 by done. cbn [negb].
    assert ((length p <? 3)%nat = false) as ->.
    { apply Nat.ltb_ge. rewrite Hp, app_assoc, length_app, Hl3. lia. }
    assert (length t = length u + 1)%nat as Hlt by (unfold t; cbn; lia). rewrite Hlt, Hl3. f_equal.
    + f_equal. rewrite Hp. unfold sub, t. cbn [app drop]. apply take_app_exact. lia.
    + f_equal. lia.
Qed.

Lemma HandleSyncReply_reply (s : ReplicationSlave) replid off :
  replid_ok replid -> 0 <= off < 2 ^ 64 ->
  HandleSyncReply s (reply_text replid off) = (true, set_state (set_offset s replid off true) kRecvRdbHeader).
Proof.
  intros (Hne & _ & Hsp) Hoff. unfold HandleSyncReply. unfold reply_text at 1.
  assert (beq (bs "FULLRESYNC " ++ replid ++ bs " " ++ print_unsigned off) (bs "CONTINUE") = false) as -> by done.
  unfold starts_with, reply_text. rewrite take_app_exact by done. rewrite (proj2 (beq_true _ _) eq_refl). cbn [negb].
  rewrite drop_app_exact by done. change (bs " " ++ print_unsigned off) with (" "%char :: print_unsigned off).
  rewrite list_find_skip; [|apply Forall_elem; by intros c Hc ->|done].
  pose proof (print_unsigned_nonempty off) as Hd.
  assert ((length replid =? 0)%nat
    || (length (replid ++ " "%char :: print_unsigned off) <=? length replid + 1)%nat = false) as ->.
  { apply orb_false_iff. split.
    - apply Nat.eqb_neq. by destruct replid.
    - apply Nat.leb_gt. rewrite length_app. cbn. destruct (print_unsigned off); [done|]. cbn. lia. }
  assert (drop (length replid + 1) (replid ++ " "%char :: print_unsigned off) = print_unsigned off) as ->.
  { change (" "%char :: print_unsigned off) with ([" "%char] ++ print_unsigned off). rewrite app_assoc.
    apply drop_app_exact. rewrite length_app. done. }
  rewrite take_app_exact by done. rewrite <- (app_nil_r (print_unsigned off)), c_str_app by apply digits_no_NUL.
  change (c_str []) with (@nil ascii). rewrite strtoull_print by done. rewrite app_nil_r. cbn [is_empty negb].
  rewrite bool_decide_eq_false_2 by (by intros H; rewrite <- H in Hd). cbn [orb]. by rewrite u64_small.
Qed.

(** ** Lemmas: applying the stream *)

Notation ConsumeLoop := (ConsumeLoop clock).

Lemma Consume_frame fuel c pre rest applied t t' :
  write_ok c -> frame_fits c -> redo1 t c = Some t' ->
  ConsumeLoop (S fuel) (pre ++ frame_of c ++ rest) (length pre) applied t =
  ConsumeLoop fuel (pre ++ frame_of c ++ rest) (length (pre ++ frame_of c)) (S applied) t'.
Proof.
  intros Hok Hf Hr. cbn [ReplicationSlave.ConsumeLoop]. destruct (decode_frame c rest Hf) as (toks & Ht & Hd).
  assert (0 < length (frame_of c))%nat as Hpos by (apply RespDecode.decode_consumed in Hd; lia).
  rewrite (proj2 (Nat.ltb_lt _ _)) by (rewrite !length_app; lia).
  rewrite drop_app_length, Hd, (FromTokens_write _ _ _ _ _ Hok Ht), (replay_view _ _ _ _ Hok).
  unfold redo1 in Hr. destruct (ApplyMutation 1 c kAofReplay t) as [[ar t1]|]; [|done].
  destruct (ok ar); [|done]. injection Hr as ->. cbn [negb]. by rewrite length_app.
Qed.

(** Whole frames are applied in order; a torn frame at the end is left. *)
Lemma Consume_frames cs fuel pre tail applied t u :
  Forall write_ok cs -> Forall frame_fits cs -> redo cs t = Some u ->
  (RespDecode.decode tail).1.1 = RespDecode.kNeedMore -> (length cs < fuel)%nat ->
  ConsumeLoop fuel (pre ++ frames cs ++ tail) (length pre) applied t =
  Some (Good, length (pre ++ frames cs), u).
Proof.
  intros Hok Hf Hr Hd. revert pre applied t fuel Hok Hf Hr.
  induction cs as [|c cs IH]; intros pre applied t fuel Hok Hf Hr Hfu; (destruct fuel as [|fuel]; [cbn in Hfu; lia|]).
  - cbn in Hr. simplify_eq. cbn [frames mjoin list_join fmap list_fmap app ReplicationSlave.ConsumeLoop].
    rewrite app_nil_r. destruct (_ <? _)%nat; [|done]. rewrite drop_app_length.
    destruct (RespDecode.decode tail) as [[st ?] ?]. cbn in Hd. by subst st.
  - apply Forall_cons_iff in Hok as [Hc Hok], Hf as [Hfc Hf]. cbn [redo] in Hr.
    destruct (redo1 t c) as [t1|] eqn:E; [|done].
    change (frames (c :: cs)) with (frame_of c ++ frames cs). rewrite <- app_assoc.
    rewrite (Consume_frame _ _ _ _ _ _ _ Hc Hfc E). cbn in Hfu.
    specialize (IH (pre ++ frame_of c) (S applied) t1 fuel Hok Hf Hr ltac:(lia)).
    rewrite <- !app_assoc in IH. by rewrite IH.
Qed.

(** The stores of a replica as targets. *)
Definition targets_of (st : Stores) : Targets := mkTargets (s_index st) (s_kv st) None None.
Definition stores_of (t : Targets) : Stores := mkStores (t_index t) (t_kv t).

(** A replay on the stores. *)
Definition redo_stores (cs : list RequestContext) (st : Stores) : option Stores :=
  stores_of <$> redo cs (targets_of st).

Lemma ConsumeStreamFrames_frames cs tail st u :
  Forall write_ok cs -> Forall frame_fits cs -> redo cs (targets_of st) = Some u ->
  (RespDecode.decode tail).1.1 = RespDecode.kNeedMore ->
  ConsumeStreamFrames clock (Some (frames cs ++ tail)) st =
  Some (Good, Some tail, length (frames cs), stores_of u).
Proof.
  intros Hok Hf Hr Hd. unfold ConsumeStreamFrames.
  pose proof (frames_count cs Hf) as Hc.
  pose proof (Consume_frames cs (S (length (frames cs ++ tail))) [] tail O (targets_of st) u Hok Hf Hr Hd
    ltac:(rewrite length_app; lia)) as H. cbn [app length] in H. unfold targets_of in H. rewrite H.
  by rewrite drop_app_length.
Qed.

Lemma NeedMore_nil : (RespDecode.decode []).1.1 = RespDecode.kNeedMore.
Proof. by vm_compute. Qed.

Lemma targets_stores u : targets_of (stores_of u) = u.
Proof. by destruct u as [? ? [[]|] [[]|]]. Qed.

(** The part of a body of which [k] bytes were there that a read brings. *)
Lemma portion (l q body tail : bytes) k n :
  (k < length body)%nat -> l <> [] -> l ++ q = drop k body ++ tail -> size_of body < 2 ^ 63 ->
  n = (if size_of l <? u64 (Z.of_nat (length body - k)) then length l
       else Z.to_nat (u64 (Z.of_nat (length body - k)))) ->
  (0 < n)%nat /\ (n <= length l)%nat /\ (k + n <= length body)%nat /\ take n l = take n (drop k body) /\
  take k body ++ take n l = take (k + n) body.
Proof.
  intros Hk Hl Heq Hb. unfold size_of in *. rewrite u64_small by lia. rewrite Nat2Z.id.
  assert (0 < length l)%nat by (destruct l; [done|cbn; lia]). intros Hn0.
  assert (0 < n <= length l /\ k + n <= length body)%nat as (Hn & Hnb)
    by (subst n; destruct (Z.ltb_spec (Z.of_nat (length l)) (Z.of_nat (length body - k))); lia).
  clear Hn0. assert (take n l = take n (drop k body)) as Ht.
  { apply (f_equal (take n)) in Heq. rewrite !take_app_le in Heq by (rewrite ?length_drop; lia). done. }
  split_and!; try lia; [done|]. by rewrite Ht, take_take_drop.
Qed.

(** ** Reading a text in pieces *)

Lemma Consume_conn (s : ReplicationSlave) n :
  watched s -> exists l, Consume s n = set_conn s (Some l) /\ buf_ (input_buffer_ (l_conn l)) = drop n (unread_input s).
Proof.
  intros Hw. destruct (Consume_spec s n Hw) as (_ & _ & _ & _ & _ & Hu). revert Hu.
  destruct Hw as [_ (l & Hl & _)]. unfold Consume, set_input, unread_input, InputBuffer. rewrite Hl. eauto.
Qed.

(** What is in the input joins the stream buffer. *)
Lemma drain_input (s : ReplicationSlave) :
  watched s ->
  exists c, match GetAllData (InputBuffer s) with
            | None => s
            | Some data => Consume (set_buffers s (backlog_buf_ s) (stream_buf_ s ++ data)) (length data)
            end = set_conn (set_buffers s (backlog_buf_ s) (stream_buf_ s ++ unread_input s)) c /\
            match c with Some l => buf_ (input_buffer_ (l_conn l)) = [] | None => True end.
Proof.
  intros Hw. rewrite GetAllData_spec. fold (unread_input s).
  destruct (is_empty (unread_input s)) eqn:E.
  - apply is_empty_true in E. exists (conn_ s). split; [destruct s; cbn in *; by rewrite E, app_nil_r|].
    unfold unread_input, InputBuffer in E. by destruct (conn_ s).
  - set (s1 := set_buffers s _ _).
    destruct (Consume_conn s1 (length (unread_input s))) as (l & -> & Hb);
      [by apply (same_link_watched s s1 (same_link_buffers _ _ _))|].
    exists (Some l). split; [done|]. rewrite Hb. change (unread_input s1) with (unread_input s). by apply drop_all.
Qed.

(** A text that a replica follows: [phase p s] says where it is after the bytes
    [p]; each iteration keeps to it, and stops for want of input, [settled]. *)
Section Pieces.
Context (script : bytes) (phase : bytes -> ReplicationSlave -> Prop) (settled : bytes -> ReplicationSlave -> Prop).

Definition round_ok (p : bytes) (s : ReplicationSlave) : Prop :=
  exists b s', OnReadable_round s = Some (b, s') /\ phase p s' /\ (b = false -> settled p s').

Context (Hround : forall p q s, core s -> watched s -> p ++ q = script -> phase p s -> round_ok p s).
Context (Herror : forall p s, phase p s -> state_ s <> kError /\ state_ s <> kTerminated).
Context (Hmore : forall p d s s', phase p s -> (exists c, s' = set_conn s c) -> unread_input s' = unread_input s ++ d ->
  phase (p ++ d) s').

(** Alive, and in its place in the transcript. *)
Definition following (p : bytes) (s : ReplicationSlave) : Prop :=
  core s /\ watched s /\ counted s /\ phase p s.

Lemma following_settled p s : ReplicationSlave.settled s -> phase p s -> following p s.
Proof. intros [[Hc [[Hw Hn]|(He & _)]]|[He _]] Hp; [done|by destruct (Herror _ _ Hp)..]. Qed.

Lemma loop_phase fuel p q s :
  following p s -> p ++ q = script -> (length (unread_input s) < fuel)%nat ->
  exists s', OnReadable_loop mmap_build view clock fuel s = Some s' /\ following p s' /\ settled p s'.
Proof.
  revert s. induction fuel as [|fuel IH]; intros s (Hc & Hw & Hn & Hp) Hpq Hf; [lia|]. cbn [OnReadable_loop].
  destruct (Hround p q s Hc Hw Hpq Hp) as (b & s' & E & Hp' & Hset).
  destruct (round_progress mmap_build view clock s Hc Hw Hn) as (b' & s'' & E' & Ha & Hgo).
  rewrite E in E'. injection E' as <- <-. rewrite E. destruct b.
  - destruct (Hgo eq_refl) as (Hc' & Hw' & Hn' & Hlt). apply IH; [done|done|lia].
  - exists s'. split_and!; [done|by apply following_settled|by apply Hset].
Qed.

(** A read of [d], all that is there. *)
Definition piece (d : bytes) : event := EIO EPOLLIN [Received d; NotReceived (-1) EAGAIN].

Lemma HandleRead_piece d c cb :
  d <> [] -> HandleRead [Received d; NotReceived (-1) EAGAIN] cb c =
    (if cb then [Readable] else [], with_input c (mkBuffer (buf_ (input_buffer_ c) ++ d))).
Proof.
  intros Hd. unfold HandleRead. cbn [HandleRead_loop Recv].
  destruct (Z.ltb_spec 0 (size_of d)) as [Hlt|Hge]; [|destruct d; [done|]; unfold size_of in Hge; cbn in Hge; lia].
  destruct (Z.ltb_spec 0 (size_of d)); [|lia]. by destruct cb.
Qed.

Lemma step_piece p d q s :
  following p s -> d <> [] -> p ++ d ++ q = script ->
  exists s', step mmap_build view clock s (piece d) = Some s' /\ following (p ++ d) s' /\ settled (p ++ d) s'.
Proof.
  intros (Hc & Hw & Hn & Hp) Hd Hpq. pose proof Hw as [Ht (l & Hl & Ho & Hr & Hcb)].
  cbn [step piece]. unfold OnIO. rewrite Hl. unfold HandleIO.
  assert (link_conn s = l_conn l) as El by (unfold link_conn; by rewrite Hl). rewrite El, Ho, Hr.
  change (has EPOLLIN EPOLLIN) with true. rewrite HandleRead_piece by done. cbn [callbacks on_event].
  set (c := with_input _ _). destruct (set_link_spec c s Hw) as (H1 & H2 & H3 & H4 & H5).
  assert (exists k, set_link c s = set_conn s k) as Hset by (unfold set_link; rewrite Hl; eauto).
  assert (unread_input (set_link c s) = unread_input s ++ d) as Hu
    by (unfold unread_input, InputBuffer, set_link; by rewrite Hl).
  assert (following (p ++ d) (set_link c s)) as Hf by (split_and!; auto; by apply (Hmore p d s)).
  destruct (loop_phase (S (length (unread_input (set_link c s)))) (p ++ d) q _ Hf) as (s' & E & Hf' & Hs');
    [by rewrite <- app_assoc|lia|].
  assert (OnReadable mmap_build view clock (set_link c s) = Some s') as ->.
  { unfold OnReadable. destruct Hset as [k Hk]. assert (is_Some (conn_ (set_link c s))) as [k' Hk']
      by (unfold set_link; by rewrite Hl). rewrite Hk'.
    rewrite bool_decide_eq_false_2; [exact E|]. by apply (Herror (p ++ d)), Hf. }
  destruct Hf' as (Hc' & Hw' & Hn' & Hp'). pose proof Hw' as [_ (l' & Hl' & Ho' & _)].
  assert (link_conn s' = l_conn l') as El' by (unfold link_conn; by rewrite Hl'). rewrite El', Ho'.
  change (has EPOLLIN EPOLLOUT) with false. cbv iota. rewrite El', Ho'.
  change (has EPOLLIN (Z.lor EPOLLERR (Z.lor EPOLLHUP EPOLLRDHUP))) with false. cbv iota. exists s'. done.
Qed.

Lemma run_pieces ds p q s :
  following p s -> settled p s -> Forall (fun d => d <> []) ds -> p ++ mjoin ds ++ q = script ->
  exists s', run mmap_build view clock s (piece <$> ds) = Some s' /\ following (p ++ mjoin ds) s' /\
    settled (p ++ mjoin ds) s'.
Proof.
  revert p s. induction ds as [|d ds IH]; intros p s Hf Hset Hd Hpq.
  - exists s. cbn. by rewrite app_nil_r.
  - apply Forall_cons_iff in Hd as [Hd Hds]. change (mjoin (d :: ds)) with (d ++ mjoin ds) in *.
    rewrite <- app_assoc in Hpq. destruct (step_piece p d (mjoin ds ++ q) s Hf Hd Hpq) as (s1 & E & Hf1 & Hs1).
    cbn [fmap list_fmap run]. rewrite E. rewrite app_assoc in Hpq. rewrite app_assoc.
    by apply IH.
Qed.

End Pieces.

(** ** The stream *)

Section Streaming.
Context (replid : bytes) (off : Z) (cs : list RequestContext) (t u : Targets).

Definition cut_at (s : ReplicationSlave) (n : Z) : Prop :=
  master_replid_ s = replid /\ repl_offset_ s = off + n /\ have_offset_ s = true.

(** [j] commands of the stream have been applied. *)
Record streamed (j : nat) (s : ReplicationSlave) : Prop := {
  st_state : state_ s = kStreaming;
  st_count : (j <= length cs)%nat;
  st_redo : redo (take j cs) t = Some (targets_of (stores s));
  st_cut : cut_at s (size_of (frames (take j cs)))
}.

Lemma AdvanceOffset_cut s a n :
  cut_at s a -> 0 <= off + a -> off + a + Z.of_nat n < 2 ^ 64 ->
  AdvanceOffset s n = set_offset s replid (off + (a + Z.of_nat n)) true.
Proof.
  intros (Hr & Ho & Hh) Ha Hb. unfold AdvanceOffset. destruct (Nat.eqb_spec n 0) as [->|].
  - destruct s. unfold set_offset. cbn in *. subst. f_equal. lia.
  - rewrite Hr, Ho, u64_small by lia. f_equal. lia.
Qed.

(** An iteration of the drain applies what is complete. *)
Lemma stream_round q s j :
  0 <= off -> off + size_of (frames cs) < 2 ^ 63 -> Forall write_ok cs -> Forall frame_fits cs -> redo cs t = Some u ->
  watched s -> streamed j s -> (stream_buf_ s ++ unread_input s) ++ q = frames (drop j cs) ->
  exists b s' k, OnReadable_round s = Some (b, s') /\ streamed (j + k) s' /\
    frames (take j cs) ++ stream_buf_ s ++ unread_input s =
      frames (take (j + k) cs) ++ stream_buf_ s' ++ unread_input s' /\
    (q = [] -> stores s' = stores_of u /\ cut_at s' (size_of (frames cs))).
Proof.
  intros Hoff Hbig Hok Hff Hredo Hw [Hst Hj Hr Hcut] Hq. unfold ReplicationSlave.OnReadable_round, DrainStreaming.
  rewrite Hst. destruct (drain_input s Hw) as (c & -> & Hc0). cbv zeta. set (D := stream_buf_ s ++ unread_input s) in *.
  assert (frames cs = frames (take j cs) ++ frames (drop j cs)) as Hsplit by (by rewrite <- frames_app, take_drop).
  destruct (frames_prefix (drop j cs) (length D)) as (k & tail & Hk & Ht & Hd & Hle & Hnext); [by apply Forall_drop|].
  rewrite <- Hq, take_app_exact in Ht by done. rewrite length_drop in Hk.
  assert (redo (drop j cs) (targets_of (stores s)) = Some u) as Hrd.
  { pose proof (redo_app (take j cs) (drop j cs) t) as Ha. rewrite take_drop, Hredo, Hr in Ha. done. }
  destruct (redo_take _ _ _ k Hrd) as [v Hv].
  assert (stream_buf_ (set_conn (set_buffers s (backlog_buf_ s) D) c) = D) as -> by done.
  assert (stores (set_conn (set_buffers s (backlog_buf_ s) D) c) = stores s) as -> by done.
  rewrite Ht. rewrite (ConsumeStreamFrames_frames _ tail (stores s) v) by (done || by apply Forall_take, Forall_drop).
  cbn [negb default]. set (s1 := set_buffers (set_stores _ _) _ _).
  assert (frames (take (j + k) cs) = frames (take j cs) ++ frames (take k (drop j cs))) as Hjk
    by (by rewrite <- frames_app, take_take_drop).
  assert (size_of (frames (take (j + k) cs)) <= size_of (frames cs)) as Hsz.
  { rewrite <- (take_drop (j + k) cs) at 2. rewrite frames_app, size_of_app.
    pose proof (size_of_nonneg (frames (drop (j + k) cs))). lia. }
  rewrite Hjk, size_of_app in Hsz. pose proof (size_of_nonneg (frames (take j cs))).
  rewrite (AdvanceOffset_cut s1 _ _ Hcut) by (unfold size_of in *; lia).
  eexists _, _, k. split; [done|]. split; [split; [done|lia|..]|split; [|intros ->]].
  - rewrite <- take_take_drop, redo_app, Hr, Hv. cbn [stores set_offset set_stores s1 set_buffers].
    by rewrite targets_stores.
  - split_and!; [done| |done]. cbn [repl_offset_ set_offset]. rewrite Hjk, size_of_app. unfold size_of. lia.
  - rewrite Hjk, <- app_assoc. do 2 f_equal.
    cbn [stream_buf_ set_offset s1 set_buffers]. rewrite <- (app_nil_r tail) at 1. f_equal.
    unfold unread_input, InputBuffer. cbn. by destruct c.
  - rewrite app_nil_r in Hq. assert (k = length (drop j cs)) as Ek.
    { destruct (decide (k < length (drop j cs))%nat) as [Hlt|]; [|rewrite length_drop in *; lia].
      specialize (Hnext Hlt). exfalso. rewrite Hq in Hnext.
      rewrite <- (take_drop (S k) (drop j cs)) in Hnext at 1. rewrite frames_app, length_app in Hnext. lia. }
    rewrite Ek, firstn_all in Hv. rewrite Hrd in Hv. injection Hv as <-. split; [done|]. split_and!; [done| |done].
    cbn [repl_offset_ set_offset]. rewrite Ek, firstn_all, Hsplit, size_of_app. unfold size_of. lia.
Qed.

End Streaming.

(** ** The phases of a full resynchronisation *)

Section phases.
Context (replid : bytes) (off : Z) (vi vi0 loaded : VNodeIndex.VNodeIndex) (kv kv0 : KvStore.KvStore).
Context (cs1 cs2 : list RequestContext) (u1 u : Targets) (fs : Fs).

Definition img : bytes := rdb_image vi kv.
Definition script : bytes := transcript replid off img (frames cs1) (frames cs2).
#[local] Arguments img : simpl never.
#[local] Arguments script : simpl never.
Definition before : Stores := mkStores (Some vi0) (Some kv0).
Definition after : Stores := mkStores (Some loaded) (Some kv).

(** The disk while the snapshot is being received, and once it is there. *)
Definition fs_open : Fs := with_files fs (<[kInTmpPath := []]> (files fs)).
Definition fs_loaded : Fs :=
  (rename kInTmpPath kInPath (fclose kInTmpPath (mkFile img (length img) None) fs_open)).2.

Notation cut := (cut_at replid off).

(** Where a replica is after the bytes [p]. *)
Inductive phase (p : bytes) (s : ReplicationSlave) : Prop :=
| ph_reply :
    state_ s = kWaitFullresync -> rdb_fp_ s = None -> disk s = fs -> stores s = before -> stream_buf_ s = [] ->
    p = unread_input s -> phase p s
| ph_rdb_header :
    state_ s = kRecvRdbHeader -> rdb_fp_ s = None -> disk s = fs -> stores s = before -> stream_buf_ s = [] ->
    cut s 0 -> p = reply_line replid off ++ unread_input s -> phase p s
| ph_rdb_body k :
    state_ s = kRecvRdbBody -> (k < length img)%nat -> rdb_remaining_ s = Z.of_nat (length img - k) ->
    (k = 0%nat /\ rdb_fp_ s = None /\ disk s = fs \/
     rdb_fp_ s = Some (mkFile (take k img) k None) /\ disk s = fs_open) ->
    stores s = before -> stream_buf_ s = [] -> cut s 0 ->
    p = reply_line replid off ++ bulk_header (size_of img) ++ take k img ++ unread_input s -> phase p s
| ph_backlog_header :
    state_ s = kRecvBacklogHeader -> stores s = after -> stream_buf_ s = [] -> cut s 0 ->
    p = reply_line replid off ++ bulk_header (size_of img) ++ img ++ unread_input s -> phase p s
| ph_backlog_body k :
    state_ s = kRecvBacklogBody -> (k < length (frames cs1))%nat ->
    backlog_remaining_ s = Z.of_nat (length (frames cs1) - k) -> backlog_buf_ s = take k (frames cs1) ->
    stores s = after -> stream_buf_ s = [] -> cut s 0 ->
    p = reply_line replid off ++ bulk_header (size_of img) ++ img ++ bulk_header (size_of (frames cs1)) ++
        take k (frames cs1) ++ unread_input s -> phase p s
| ph_streaming j :
    state_ s = kStreaming -> (j <= length cs2)%nat -> redo (take j cs2) u1 = Some (targets_of (stores s)) ->
    cut s (size_of (frames cs1) + size_of (frames (take j cs2))) ->
    p = reply_line replid off ++ bulk_header (size_of img) ++ img ++ bulk_header (size_of (frames cs1)) ++
        frames cs1 ++ frames (take j cs2) ++ stream_buf_ s ++ unread_input s -> phase p s.

(** All of it has been applied. *)
Definition synced (s : ReplicationSlave) : Prop :=
  state_ s = kStreaming /\ stores s = stores_of u /\ cut s (size_of (frames cs1) + size_of (frames cs2)).

Definition settled (p : bytes) (s : ReplicationSlave) : Prop := p = script -> synced s.

Notation phase_round := (round_ok phase settled).

Context (Hid : replid_ok replid) (Hoff : 0 <= off) (Hbig : off + size_of (frames cs1) + size_of (frames cs2) < 2 ^ 63).
Context (Hlen1 : size_of (frames cs1) <= kMaxString).
Context (Hfit : rdb_fits vi kv) (Hok1 : Forall write_ok cs1) (Hok2 : Forall write_ok cs2).
Context (Hff1 : Forall frame_fits cs1) (Hff2 : Forall frame_fits cs2).
Context (Hredo1 : redo cs1 (targets_of after) = Some u1) (Hredo2 : redo cs2 u1 = Some u).
Context (Hcreate : can_create fs kInTmpPath = true) (Hrename : can_rename fs = true) (Hroom : disk_room fs = None).
Context (Hload : LoadFromPath mmap_build before view kInPath fs_loaded = (SnapshotManager.kOk, after)).

Lemma off_range : 0 <= off < 2 ^ 64.
Proof. pose proof (size_of_nonneg (frames cs1)). pose proof (size_of_nonneg (frames cs2)). lia. Qed.

Lemma script_app :
  script = reply_line replid off ++ bulk_header (size_of img) ++ img ++ bulk_header (size_of (frames cs1)) ++
           frames cs1 ++ frames cs2.
Proof. done. Qed.

(** Short of the end of the snapshot, of the backlog, or of the stream. *)
Lemma short_of_script p s : (length p < length script)%nat -> settled p s.
Proof. intros Hl H. subst p. lia. Qed.

Lemma round_reply p q s :
  core s -> watched s -> p ++ q = script -> state_ s = kWaitFullresync -> rdb_fp_ s = None -> disk s = fs ->
  stores s = before -> stream_buf_ s = [] -> p = unread_input s -> phase_round p s.
Proof.
  intros Hc Hw Hpq Hst Hfp Hd Hs Hsb Hp. unfold round_ok, ReplicationSlave.OnReadable_round. rewrite Hst.
  destruct (simple_string_cases s (reply_text replid off) q _ (reply_text_no_LF _ _ Hid) ltac:(rewrite <- Hp, Hpq; reflexivity))
    as [[-> Hl]|(rest & Hu & Hq & ->)]; fold (reply_line replid off) in *.
  - exists false, s. split_and!; [done|by apply ph_reply|]. intros _. apply short_of_script. rewrite script_app, length_app, Hp. lia.
  - destruct (Consume_conn s (length (reply_line replid off)) Hw) as (l & -> & Hb).
    rewrite (HandleSyncReply_reply _ _ _ Hid off_range).
    eexists _, _. split; [done|]. split; [|done]. apply ph_rdb_header; try done.
    + split_and!; [done| |done]. cbn. lia.
    + rewrite Hp, Hu. f_equal. cbn. unfold unread_input, InputBuffer. cbn. by rewrite Hb, Hu, drop_app_length.
Qed.

Lemma img_size : (96 <= length img)%nat /\ size_of img < 2 ^ 63.
Proof.
  split; [|exact Hfit]. pose proof (rdb_image_size vi kv) as H. unfold img.
  pose proof (size_of_nonneg (segments vi kv)). change (Z.of_nat RdbFormat.kHeaderBytes) with 96 in H. unfold size_of in *. lia.
Qed.

Lemma WriteRdbChunk_spec (s : ReplicationSlave) k d :
  (k = 0%nat /\ rdb_fp_ s = None /\ disk s = fs \/
   rdb_fp_ s = Some (mkFile (take k img) k None) /\ disk s = fs_open) ->
  (k <= length img)%nat -> d <> [] ->
  WriteRdbChunk s d = (true, set_file s (Some (mkFile (take k img ++ d) (k + length d) None)) fs_open).
Proof.
  intros Hfp Hk Hd. apply is_empty_false in Hd. unfold WriteRdbChunk.
  assert (forall s', disk s' = fs_open -> rdb_fp_ s' = Some (mkFile (take k img) k None) ->
    (if is_empty d then (true, s') else
       let '(n, fp) := fwrite d (mkFile (take k img) k None) in
       let s2 := set_file s' (Some fp) (disk s') in if (n =? length d)%nat then (true, s2) else (false, Fail s2)) =
    (true, set_file s' (Some (mkFile (take k img ++ d) (k + length d) None)) fs_open)) as Hw.
  { intros s' Hd' _. rewrite Hd. unfold fwrite. cbn [f_room f_pos f_data option_map].
    rewrite Nat.eqb_refl, Hd', firstn_all. do 3 f_equal.
    pose proof (pwrite_end d (take k img)) as Hp. rewrite length_take, Nat.min_l in Hp by lia. by rewrite Hp. }
  destruct Hfp as [(-> & Hf & Hdk)|[Hf Hdk]].
  - rewrite Hf. unfold fopen_wb. rewrite Hdk, Hcreate. cbn [negb rdb_fp_ set_file].
    rewrite Hroom. exact (Hw (set_file s (Some (mkFile [] 0 None)) fs_open) eq_refl eq_refl).
  - rewrite Hf. cbn [negb]. rewrite Hf. by apply Hw.
Qed.

Lemma FinishRdbAndLoad_spec (s : ReplicationSlave) :
  rdb_fp_ s = Some (mkFile img (length img) None) -> disk s = fs_open -> stores s = before ->
  FinishRdbAndLoad mmap_build view s = (true, set_stores (set_file s None fs_loaded) after).
Proof.
  intros Hf Hd Hs. unfold FinishRdbAndLoad, CloseRdb. rewrite Hf, Hd.
  assert (rename kInTmpPath kInPath (fclose kInTmpPath (mkFile img (length img) None) fs_open) =
    (true, fs_loaded)) as E.
  { unfold fs_loaded, rename, fclose, fs_open. cbn [can_rename with_files files f_data]. rewrite Hrename.
    by rewrite lookup_insert_eq. }
  cbn [disk set_file]. rewrite E. cbn [negb rdb_fp_ set_file disk stores]. by rewrite Hs, Hload.
Qed.

Lemma round_rdb_header p q s :
  core s -> watched s -> p ++ q = script -> state_ s = kRecvRdbHeader -> rdb_fp_ s = None -> disk s = fs ->
  stores s = before -> stream_buf_ s = [] -> cut s 0 -> p = reply_line replid off ++ unread_input s ->
  phase_round p s.
Proof.
  intros Hc Hw Hpq Hst Hfp Hd Hs Hsb Hcut Hp. unfold round_ok, ReplicationSlave.OnReadable_round. rewrite Hst.
  destruct img_size as [Hi1 Hi2]. pose proof (size_of_nonneg img) as Hi0.
  assert (unread_input s ++ q = bulk_header (size_of img) ++ img ++ bulk_header (size_of (frames cs1)) ++
    frames cs1 ++ frames cs2) as Hq.
  { rewrite script_app, Hp, <- app_assoc in Hpq. by apply app_inv_head in Hpq. }
  destruct (header_cases s (size_of img) q _ ltac:(lia) Hq) as [[-> Hl]|(rest & Hu & _ & ->)].
  - exists false, s. split_and!; [done|by apply ph_rdb_header|]. intros _. apply short_of_script.
    rewrite script_app, Hp, !length_app. lia.
  - destruct (Consume_conn s (length (bulk_header (size_of img))) Hw) as (l & -> & Hb).
    destruct (Z.ltb_spec (size_of img) 0); [lia|].
    destruct (Z.eqb_spec (size_of img) 0) as [Hz|_]; [unfold size_of in Hz; lia|].
    eexists _, _. split; [done|]. split; [|done]. apply (ph_rdb_body _ _ 0); try done; [lia|by left|].
    rewrite Hp, Hu, take_0. f_equal. cbn. unfold unread_input, InputBuffer. cbn. by rewrite Hb, Hu, drop_app_length.
Qed.

Lemma round_rdb_body p q s k :
  core s -> watched s -> p ++ q = script -> state_ s = kRecvRdbBody -> (k < length img)%nat ->
  rdb_remaining_ s = Z.of_nat (length img - k) ->
  (k = 0%nat /\ rdb_fp_ s = None /\ disk s = fs \/
   rdb_fp_ s = Some (mkFile (take k img) k None) /\ disk s = fs_open) ->
  stores s = before -> stream_buf_ s = [] -> cut s 0 ->
  p = reply_line replid off ++ bulk_header (size_of img) ++ take k img ++ unread_input s ->
  phase_round p s.
Proof.
  intros Hc Hw Hpq Hst Hk Hrem Hfp Hs Hsb Hcut Hp. unfold round_ok, ReplicationSlave.OnReadable_round.
  rewrite Hst, GetAllData_spec. fold (unread_input s). destruct img_size as [Hi1 Hi2].
  destruct (is_empty (unread_input s)) eqn:Ee.
  { exists false, s. split_and!; [done|by apply (ph_rdb_body _ _ k)|]. intros _. apply short_of_script.
    apply is_empty_true in Ee. rewrite script_app, Hp, Ee, !length_app, length_take. cbn [length]. lia. }
  apply is_empty_false in Ee.
  assert (unread_input s ++ q = drop k img ++ bulk_header (size_of (frames cs1)) ++ frames cs1 ++ frames cs2) as Hq.
  { rewrite script_app, Hp, <- (take_drop k img), <- !app_assoc in Hpq.
    rewrite (take_drop k img) in Hpq. by do 3 apply app_inv_head in Hpq. }
  rewrite Hrem. pose proof (portion _ _ _ _ _ _ Hk Ee Hq Hi2 eq_refl) as Hn.
  set (n := if size_of _ <? _ then _ else _) in *. destruct Hn as (Hn0 & Hnl & Hnk & Hne & Hnt).
  rewrite (WriteRdbChunk_spec s k (take n (unread_input s)) Hfp) by (lia || (intros H; apply (f_equal length) in H;
    rewrite length_take in H; cbn in H; lia)).
  rewrite Hnt, length_take, Nat.min_l by lia. cbn [negb]. set (s1 := set_file s _ _).
  destruct (Consume_conn s1 n) as (l & -> & Hb); [by apply (same_link_watched s s1 (same_link_file _ _ _))|].
  change (unread_input s1) with (unread_input s) in Hb.
  assert (unread_input s = take n (drop k img) ++ drop n (unread_input s)) as Hsplit
    by (rewrite <- Hne; by rewrite take_drop).
  cbn [rdb_remaining_ set_remaining set_conn]. change (rdb_remaining_ s1) with (rdb_remaining_ s). rewrite Hrem.
  destruct (Z.eqb_spec (Z.of_nat (length img - k) - Z.of_nat n) 0) as [Hz|Hz].
  - assert (k + n = length img)%nat as Hkn by lia.
    rewrite FinishRdbAndLoad_spec; [|cbn; by rewrite Hkn, firstn_all|done|done].
    eexists _, _. split; [done|]. split; [|done]. apply ph_backlog_header; try done.
    rewrite Hp, Hsplit at 1. rewrite (app_assoc (take k img)), take_take_drop, Hkn, firstn_all.
    do 3 f_equal. unfold unread_input, InputBuffer. cbn. by rewrite Hb.
  - eexists _, _. split; [done|]. split; [|done]. apply (ph_rdb_body _ _ (k + n)); try done; cbn; try lia.
    + by right.
    + rewrite Hp, Hsplit at 1. rewrite (app_assoc (take k img)), take_take_drop.
      do 3 f_equal. unfold unread_input, InputBuffer. cbn. by rewrite Hb.
Qed.

Lemma frames_cs1_small : size_of (frames cs1) < 2 ^ 63.
Proof. pose proof (size_of_nonneg (frames cs2)). lia. Qed.

Lemma round_backlog_header p q s :
  core s -> watched s -> p ++ q = script -> state_ s = kRecvBacklogHeader -> stores s = after ->
  stream_buf_ s = [] -> cut s 0 ->
  p = reply_line replid off ++ bulk_header (size_of img) ++ img ++ unread_input s -> phase_round p s.
Proof.
  intros Hc Hw Hpq Hst Hs Hsb Hcut Hp. unfold round_ok, ReplicationSlave.OnReadable_round. rewrite Hst.
  pose proof frames_cs1_small as Hb1. pose proof (size_of_nonneg (frames cs1)) as Hb0.
  assert (unread_input s ++ q = bulk_header (size_of (frames cs1)) ++ frames cs1 ++ frames cs2) as Hq.
  { rewrite script_app, Hp, <- !app_assoc in Hpq. by do 3 apply app_inv_head in Hpq. }
  destruct (header_cases s (size_of (frames cs1)) q _ ltac:(lia) Hq) as [[-> Hl]|(rest & Hu & _ & ->)].
  - exists false, s. split_and!; [done|by apply ph_backlog_header|]. intros _. apply short_of_script.
    rewrite script_app, Hp, !length_app. lia.
  - destruct (Consume_conn s (length (bulk_header (size_of (frames cs1)))) Hw) as (l & -> & Hb).
    destruct (Z.ltb_spec (size_of (frames cs1)) 0); [lia|].
    destruct (Z.ltb_spec kMaxString (size_of (frames cs1))); [lia|].
    assert (unread_input s = bulk_header (size_of (frames cs1)) ++ buf_ (input_buffer_ (l_conn l))) as Hsplit
      by (by rewrite Hb, Hu, drop_app_length).
    destruct (Z.eqb_spec (size_of (frames cs1)) 0) as [Hz|Hz]; (eexists _, _; split; [done|]); (split; [|done]).
    + pose proof (frames_count cs1 Hff1) as Hn. unfold size_of in Hz.
      assert (frames cs1 = []) as Ef by (apply nil_length_inv; lia).
      assert (u1 = targets_of after) as Eu.
      { assert (cs1 = []) as E by (apply nil_length_inv; lia). rewrite E in Hredo1. by injection Hredo1. }
      apply (ph_streaming _ _ 0); [done|lia|rewrite take_0; cbn [redo]; by rewrite Eu, <- Hs|..]; rewrite take_0, Ef.
      * exact Hcut.
      * cbn. rewrite Hsb, Hp, Hsplit at 1. by rewrite Ef.
    + unfold size_of in Hz. apply (ph_backlog_body _ _ 0); try done; [lia|cbn; unfold size_of; lia|].
      rewrite Hp, take_0, Hsplit at 1. done.
Qed.

Lemma round_backlog_body p q s k :
  core s -> watched s -> p ++ q = script -> state_ s = kRecvBacklogBody -> (k < length (frames cs1))%nat ->
  backlog_remaining_ s = Z.of_nat (length (frames cs1) - k) -> backlog_buf_ s = take k (frames cs1) ->
  stores s = after -> stream_buf_ s = [] -> cut s 0 ->
  p = reply_line replid off ++ bulk_header (size_of img) ++ img ++ bulk_header (size_of (frames cs1)) ++
      take k (frames cs1) ++ unread_input s -> phase_round p s.
Proof.
  intros Hc Hw Hpq Hst Hk Hrem Hbk Hs Hsb Hcut Hp. unfold round_ok, ReplicationSlave.OnReadable_round.
  rewrite Hst, GetAllData_spec. fold (unread_input s). pose proof frames_cs1_small as Hi2.
  destruct (is_empty (unread_input s)) eqn:Ee.
  { exists false, s. split_and!; [done|by apply (ph_backlog_body _ _ k)|]. intros _. apply short_of_script.
    apply is_empty_true in Ee. rewrite script_app, Hp, Ee, !length_app, length_take. cbn [length]. lia. }
  apply is_empty_false in Ee.
  assert (unread_input s ++ q = drop k (frames cs1) ++ frames cs2) as Hq.
  { rewrite script_app, Hp, <- (take_drop k (frames cs1)), <- !app_assoc in Hpq.
    rewrite (take_drop k (frames cs1)) in Hpq. by do 5 apply app_inv_head in Hpq. }
  rewrite Hrem. pose proof (portion _ _ _ _ _ _ Hk Ee Hq Hi2 eq_refl) as Hn.
  set (n := if size_of _ <? _ then _ else _) in *. destruct Hn as (Hn0 & Hnl & Hnk & Hne & Hnt).
  rewrite Hbk, Hnt. set (s1 := set_buffers s _ _).
  destruct (Consume_conn s1 n) as (l & -> & Hb); [by apply (same_link_watched s s1 (same_link_buffers _ _ _))|].
  change (unread_input s1) with (unread_input s) in Hb.
  assert (unread_input s = take n (drop k (frames cs1)) ++ buf_ (input_buffer_ (l_conn l))) as Hsplit
    by (rewrite <- Hne, Hb; by rewrite take_drop).
  assert (p = reply_line replid off ++ bulk_header (size_of img) ++ img ++ bulk_header (size_of (frames cs1)) ++
    take (k + n) (frames cs1) ++ buf_ (input_buffer_ (l_conn l))) as Hp'
    by (rewrite Hp, Hsplit at 1; by rewrite (app_assoc (take k (frames cs1))), take_take_drop).
  cbn [backlog_remaining_ set_remaining set_conn]. change (backlog_remaining_ s1) with (backlog_remaining_ s).
  rewrite Hrem. destruct (Z.eqb_spec (Z.of_nat (length (frames cs1) - k) - Z.of_nat n) 0) as [Hz|Hz].
  - assert (k + n = length (frames cs1))%nat as Hkn by lia. set (s2 := set_remaining _ _ _).
    assert (backlog_buf_ s2 = frames cs1 ++ []) as -> by (cbn; by rewrite Hkn, firstn_all, app_nil_r).
    rewrite Hkn, firstn_all in Hp'. unfold ApplyBacklog.
    assert (stores s2 = after) as -> by done.
    rewrite (ConsumeStreamFrames_frames cs1 [] after u1 Hok1 Hff1 Hredo1 NeedMore_nil). cbn [negb default is_empty].
    rewrite (AdvanceOffset_cut replid off _ 0) by (done || unfold size_of in Hi2; pose proof off_range; revert Hbig;
      pose proof (size_of_nonneg (frames cs2)); unfold size_of; lia).
    eexists _, _. split; [done|]. split; [|done]. apply (ph_streaming _ _ 0); [done|lia|..].
    + rewrite take_0. cbn [redo]. cbn. by rewrite targets_stores.
    + rewrite take_0. split_and!; [done| |done]. cbn. unfold size_of. cbn. lia.
    + rewrite Hp', take_0. cbn. by rewrite Hsb.
  - eexists _, _. split; [done|]. split; [|done]. apply (ph_backlog_body _ _ (k + n)); try done; cbn; lia.
Qed.

Lemma round_streaming p q s j :
  watched s -> p ++ q = script -> state_ s = kStreaming -> (j <= length cs2)%nat ->
  redo (take j cs2) u1 = Some (targets_of (stores s)) ->
  cut s (size_of (frames cs1) + size_of (frames (take j cs2))) ->
  p = reply_line replid off ++ bulk_header (size_of img) ++ img ++ bulk_header (size_of (frames cs1)) ++
      frames cs1 ++ frames (take j cs2) ++ stream_buf_ s ++ unread_input s -> phase_round p s.
Proof.
  intros Hw Hpq Hst Hj Hr Hcut Hp. set (off2 := off + size_of (frames cs1)). pose proof (size_of_nonneg (frames cs1)).
  assert (forall s n, cut_at replid off2 s n <-> cut s (size_of (frames cs1) + n)) as Hoff2.
  { intros s1 n. unfold off2, cut_at. by rewrite Z.add_assoc. }
  destruct (stream_round replid off2 cs2 u1 u q s j) as (b & s' & k & E & [S1 S2 S3 S4] & Hb & He); try done.
  - unfold off2. lia.
  - by split; [..|by apply Hoff2].
  - rewrite script_app, Hp, <- (take_drop j cs2), frames_app, <- !app_assoc in Hpq. rewrite (take_drop j cs2) in Hpq.
    rewrite <- app_assoc. by do 6 apply app_inv_head in Hpq.
  - exists b, s'. split; [done|]. split.
    + apply (ph_streaming _ _ (j + k)); [done|done|done|by apply Hoff2|]. rewrite Hp. by do 5 f_equal.
    + intros _ Hps. destruct He as [H1 H2]; [|split_and!; [done|done|by apply Hoff2]].
      rewrite <- Hpq in Hps. rewrite <- (app_nil_r p) in Hps at 1. by apply app_inv_head in Hps.
Qed.

Lemma round_phase p q s : core s -> watched s -> p ++ q = script -> phase p s -> phase_round p s.
Proof.
  intros Hc Hw Hpq []; eauto using round_reply, round_rdb_header, round_rdb_body, round_backlog_header,
    round_backlog_body, round_streaming.
Qed.

Lemma phase_state p s : phase p s -> state_ s <> kError /\ state_ s <> kTerminated.
Proof. intros []; split; congruence. Qed.

(** More bytes in the input. *)
Lemma phase_more p d s s' :
  phase p s ->
  (exists c, s' = set_conn s c) -> unread_input s' = unread_input s ++ d -> phase (p ++ d) s'.
Proof.
  intros Hp [c ->] Hu. destruct Hp as [? ? ? ? ? H|? ? ? ? ? ? H|k ? ? ? ? ? ? ? H|? ? ? ? H|k ? ? ? ? ? ? ? H|j ? ? ? ? H];
    rewrite H, <- ?app_assoc, <- Hu.
  - by apply ph_reply.
  - by apply ph_rdb_header.
  - by apply (ph_rdb_body _ _ k).
  - by apply ph_backlog_header.
  - by apply (ph_backlog_body _ _ k).
  - by apply (ph_streaming _ _ j).
Qed.

End phases.
Lemma Send_input c d : input_buffer_ (Send c d).2 = input_buffer_ c.
Proof.
  unfold Send, syscall, Close, ClearSendFile. destruct d as [d|]; [|done]. destruct (_ || _); [done|].
  destruct (sendfile_fd_ c); [done|]. destruct (negb _); [done|]. destruct (sock_ c) as [|[n| |] q]; try done;
    cbn; repeat (case_match; simplify_eq/=); done.
Qed.

(** A start with a master that takes the request. *)
Lemma Start_fresh st fs host port q :
  can_mkdir fs kTmpDir = true -> is_empty host = false -> port <> 0 -> accepts q = true ->
  exists s, Start (construct true true st fs) host port (Some q) = (true, s) /\ core s /\ watched s /\
    state_ s = kWaitFullresync /\ rdb_fp_ s = None /\ disk s = fs /\ stores s = st /\ stream_buf_ s = [] /\
    unread_input s = [].
Proof.
  intros Hd Hh Hp Hq. unfold Start, EnsureTmpDir, create_directories. cbn [loop_ snapshot_ disk construct negb orb].
  rewrite Hd, Hh. cbn [negb orb]. rewrite (proj2 (Z.eqb_neq port 0) Hp). eexists. split; [done|].
  set (s0 := set_timer _ _ _).
  assert (core s0) as Hc by (split; cbn; unfold kMinBackoffMs, kMaxBackoffMs; try done; lia).
  destruct (TryConnect_spec s0 (Some q) Hc Hq) as (H1 & H2 & H3).
  split_and!; [done|done|done|..]; unfold TryConnect; cbn [stopping_ loop_ snapshot_ s0 set_timer set_master construct
    orb negb]; try done.
  unfold unread_input, InputBuffer. cbn [conn_ set_conn l_conn]. by rewrite Send_input.
Qed.

(** ** Lemmas: the whole resynchronisation *)

(** Stores that a snapshot carries over to another process. *)
Definition portable (vi : VNodeIndex.VNodeIndex) (kv : KvStore.KvStore) : Prop :=
  savable vi kv /\ rdb_fits vi kv /\ restorable vi.

(** Commands whose frames can be replayed. *)
Definition replayable (cs : list RequestContext) : Prop := Forall write_ok cs /\ Forall frame_fits cs.

(** A replica can start: it can write its files, and reach the master. *)
Definition can_start (fs : Fs) (host : bytes) (port : Z) (sock : list SendResult) : Prop :=
  can_mkdir fs kTmpDir = true /\ can_create fs kInTmpPath = true /\ can_rename fs = true /\ disk_room fs = None /\
  is_empty host = false /\ port <> 0 /\ accepts sock = true.

(** All of a resynchronisation has been read. *)
Lemma resync_followed (replid : bytes) (off : Z) (vi vi0 : VNodeIndex.VNodeIndex) (kv kv0 : KvStore.KvStore)
    (cs1 cs2 : list RequestContext) (fs : Fs) (host : bytes) (port : Z) (sock : list SendResult)
    (ds : list bytes) :
  portable vi kv -> replid_ok replid -> 0 <= off -> off + size_of (frames cs1) + size_of (frames cs2) < 2 ^ 63 ->
  size_of (frames cs1) <= kMaxString -> replayable (cs1 ++ cs2) -> can_start fs host port sock -> Forall (fun d => d <> []) ds ->
  mjoin ds = transcript replid off (rdb_image vi kv) (frames cs1) (frames cs2) ->
  let fsl := fs_loaded vi kv fs in
  exists s0 vi',
    Start (construct true true (mkStores (Some vi0) (Some kv0)) fs) host port (Some sock) = (true, s0) /\
    files fsl !! kInPath = Some (rdb_image vi kv) /\
    LoadFromPath mmap_build (before vi0 kv0) view kInPath fsl = (SnapshotManager.kOk, after vi' kv) /\ restored vi vi0 vi' /\
    forall u1 u, redo cs1 (mkTargets (Some vi') (Some kv) None None) = Some u1 -> redo cs2 u1 = Some u ->
      exists s, run mmap_build view clock s0 (piece <$> ds) = Some s /\
        following (phase replid off vi vi0 vi' kv kv0 cs1 cs2 u1 fs) (mjoin ds) s /\ synced replid off cs1 cs2 u s.
Proof.
  intros (Hsv & Hfit & Hre) Hid Hoff Hbig Hlen1 [Hok Hff] (Hmk & Hcr & Hrn & Hroom & Hh & Hp & Hsock) Hds Hjoin fsl.
  destruct (Start_fresh (mkStores (Some vi0) (Some kv0)) fs host port sock Hmk Hh Hp Hsock)
    as (s0 & Hs0 & Hc & Hw & Hst & Hfp & Hdk & Hsts & Hsb & Hun).
  assert (files fsl !! kInPath = Some (rdb_image vi kv)) as Hfile.
  { unfold fsl, fs_loaded, rename, fclose, fs_open. cbn [can_rename with_files files f_data]. rewrite Hrn.
    rewrite lookup_insert_eq. cbn. by rewrite lookup_insert_eq. }
  destruct (LoadFromPath_image mmap_build view vi kv vi0 kv0 kInPath fsl Hsv Hfit Hre Hfile eq_refl)
    as (vi' & HL & Hres).
  exists s0, vi'. split_and!; [done|done|done|done|]. intros u1 u Hu1 Hu.
  apply Forall_app in Hok as [Hok1 Hok2], Hff as [Hff1 Hff2].
  set (ph := phase replid off vi vi0 vi' kv kv0 cs1 cs2 u1 fs). set (fin := settled replid off vi kv cs1 cs2 u).
  assert (following ph [] s0) as Hf.
  { split_and!; [done|done|by unfold counted; rewrite Hst|]. apply ph_reply; auto. }
  assert (fin [] s0) as Hs.
  { intros Hnil. exfalso. apply (f_equal length) in Hnil. revert Hnil. unfold script, transcript, reply_line.
    rewrite !length_app. cbn. lia. }
  destruct (run_pieces (script replid off vi kv cs1 cs2) ph fin
    (round_phase replid off vi vi0 vi' kv kv0 cs1 cs2 u1 u fs Hid Hoff Hbig Hlen1 Hfit Hok1 Hok2 Hff1 Hff2 Hu1 Hu Hcr Hrn Hroom HL)
    (phase_state _ _ _ _ _ _ _ _ _ _ _) (phase_more _ _ _ _ _ _ _ _ _ _ _) ds [] [] s0 Hf Hs Hds)
    as (s & HR & Hfol & Hset); [by rewrite app_nil_r|].
  exists s. split_and!; [done|done|]. by apply Hset.
Qed.

Lemma resync_converges (replid : bytes) (off : Z) (vi vi0 : VNodeIndex.VNodeIndex) (kv kv0 : KvStore.KvStore)
    (cs1 cs2 : list RequestContext) (fs : Fs) (host : bytes) (port : Z) (sock : list SendResult)
    (ds : list bytes) :
  portable vi kv -> replid_ok replid -> 0 <= off -> off + size_of (frames cs1) + size_of (frames cs2) < 2 ^ 63 ->
  size_of (frames cs1) <= kMaxString -> replayable (cs1 ++ cs2) -> can_start fs host port sock -> Forall (fun d => d <> []) ds ->
  mjoin ds = transcript replid off (rdb_image vi kv) (frames cs1) (frames cs2) ->
  exists s0 vi',
    Start (construct true true (mkStores (Some vi0) (Some kv0)) fs) host port (Some sock) = (true, s0) /\
    restored vi vi0 vi' /\
    forall u, redo (cs1 ++ cs2) (mkTargets (Some vi') (Some kv) None None) = Some u ->
      exists s, run mmap_build view clock s0 (piece <$> ds) = Some s /\ watched s /\ state_ s = kStreaming /\
        stores s = mkStores (t_index u) (t_kv u) /\ master_replid_ s = replid /\ have_offset_ s = true /\
        repl_offset_ s = off + size_of (frames cs1 ++ frames cs2).
Proof.
  intros Hpo Hid Hoff Hbig Hlen1 Hcs Hcan Hds Hjoin.
  destruct (resync_followed replid off vi vi0 kv kv0 cs1 cs2 fs host port sock ds) as (s0 & vi' & Hs0 & _ & _ & Hres & Hrun); try done.
  exists s0, vi'. split_and!; [done|done|]. intros u Hu. rewrite redo_app in Hu.
  destruct (redo cs1 _) as [u1|] eqn:Hu1; [|done].
  destruct (Hrun u1 u eq_refl Hu) as (s & HR & (_ & Hw & _) & H1 & H2 & H3 & H4 & H5). exists s. split_and!; try done.
  by rewrite size_of_app.
Qed.

(** ** Lemmas: a continuation *)

Definition continue_line : bytes := simple_string (bs "CONTINUE").

Section resume.
Context (replid : bytes) (off : Z) (cs : list RequestContext) (st : Stores) (u : Targets).

Definition resume_script : bytes := continue_line ++ frames cs.

(** Where a replica is after the bytes [p]. *)
Inductive resume_phase (p : bytes) (s : ReplicationSlave) : Prop :=
| rp_reply :
    state_ s = kWaitFullresync -> stores s = st -> stream_buf_ s = [] -> cut_at replid off s 0 -> p = unread_input s ->
    resume_phase p s
| rp_streaming j :
    streamed replid off cs (targets_of st) j s ->
    p = continue_line ++ frames (take j cs) ++ stream_buf_ s ++ unread_input s -> resume_phase p s.

Definition resumed (p : bytes) (s : ReplicationSlave) : Prop :=
  p = resume_script -> state_ s = kStreaming /\ stores s = stores_of u /\ cut_at replid off s (size_of (frames cs)).

Lemma resume_round p q s :
  0 <= off -> off + size_of (frames cs) < 2 ^ 63 -> Forall write_ok cs -> Forall frame_fits cs ->
  redo cs (targets_of st) = Some u -> core s -> watched s -> p ++ q = resume_script -> resume_phase p s ->
  round_ok resume_phase resumed p s.
Proof.
  intros Hoff Hbig Hok Hff Hredo Hc Hw Hpq Hp. unfold round_ok. destruct Hp as [Hst Hs Hsb Hcut Hp|j Hs Hp].
  - unfold ReplicationSlave.OnReadable_round. rewrite Hst.
    destruct (simple_string_cases s (bs "CONTINUE") q (frames cs)) as [[-> Hl]|(rest & Hu & Hq & ->)].
    + apply (bool_decide_unpack _). by vm_compute.
    + by rewrite <- Hp, Hpq.
    + exists false, s. split_and!; [done|by apply rp_reply|]. intros _ Hx. exfalso. apply (f_equal length) in Hx.
      unfold resume_script, continue_line in Hx. rewrite length_app in Hx. rewrite <- Hp in Hl. lia.
    + fold continue_line. destruct (Consume_conn s (length continue_line) Hw) as (l & -> & Hb). fold continue_line in Hu.
      eexists _, _. split; [done|]. split; [|done]. apply (rp_streaming _ _ 0).
      * split; [done|lia| |exact Hcut]. rewrite take_0. cbn [redo]. cbn. by rewrite Hs.
      * rewrite take_0, Hp, Hu. f_equal. cbn. rewrite Hsb. unfold unread_input, InputBuffer. cbn.
        by rewrite Hb, Hu, drop_app_length.
  - destruct (stream_round replid off cs (targets_of st) u q s j) as (b & s' & k & E & S' & Hb & He); try done.
    { rewrite Hp in Hpq. unfold resume_script in Hpq. rewrite <- app_assoc in Hpq. apply app_inv_head in Hpq.
      rewrite <- (take_drop j cs) in Hpq at 2. rewrite frames_app, <- !app_assoc in Hpq. rewrite <- app_assoc.
      by apply app_inv_head in Hpq. }
    exists b, s'. split; [done|]. split; [apply (rp_streaming _ _ (j + k)); [done|]; rewrite Hp; by f_equal|].
    intros _ Hps. destruct He as [H1 H2]; [|split_and!; [apply S'|done|done]].
    rewrite <- Hpq in Hps. rewrite <- (app_nil_r p) in Hps at 1. by apply app_inv_head in Hps.
Qed.

Lemma resume_state p s : resume_phase p s -> state_ s <> kError /\ state_ s <> kTerminated.
Proof. intros [H|j H]; [split; congruence|]. by rewrite (st_state _ _ _ _ _ _ H). Qed.

Lemma resume_more p d s s' :
  resume_phase p s -> (exists c, s' = set_conn s c) -> unread_input s' = unread_input s ++ d -> resume_phase (p ++ d) s'.
Proof.
  intros Hp [c ->] Hu. destruct Hp as [? ? ? ? H|j [H1 H2 H3 H4] H]; rewrite H, <- ?app_assoc, <- Hu.
  - by apply rp_reply.
  - by apply (rp_streaming _ _ j).
Qed.

End resume.

(** A connection to the master forgets the link, and nothing else. *)
Lemma OnReconnectTimer_fresh (s : ReplicationSlave) sock :
  core s -> accepts sock = true ->
  let s' := OnReconnectTimer s (Some sock) in
  core s' /\ watched s' /\ state_ s' = kWaitFullresync /\ stores s' = stores s /\ stream_buf_ s' = [] /\
  unread_input s' = [] /\ master_replid_ s' = master_replid_ s /\ repl_offset_ s' = repl_offset_ s /\
  have_offset_ s' = have_offset_ s.
Proof.
  intros Hc Hs. assert (core (set_timer s None (backoff_ms_ s))) as Hc' by (destruct Hc; by split).
  destruct (TryConnect_spec _ (Some sock) Hc' Hs) as (H1 & H2 & H3). cbv zeta. unfold OnReconnectTimer.
  split_and!; [done|done|done|..]; unfold TryConnect; destruct Hc as [C1 C2 C3 C4 C5];
    cbn [stopping_ loop_ snapshot_ set_timer]; rewrite C4, C1, C2; cbn [negb orb]; cbv zeta.
  3: { unfold unread_input, InputBuffer. cbn [conn_ set_conn l_conn]. by rewrite Send_input. }
  all: unfold ResetLink, CloseConn, CloseRdb; cbn; destruct (conn_ s); cbn; by destruct (rdb_fp_ s).
Qed.

Lemma resume_converges (cs : list RequestContext) (s : ReplicationSlave) (sock : list SendResult) (ds : list bytes) (st : Stores) :
  core s -> have_offset_ s = true -> 0 <= repl_offset_ s -> repl_offset_ s + size_of (frames cs) < 2 ^ 63 ->
  replayable cs -> redo_stores cs (stores s) = Some st -> accepts sock = true ->
  Forall (fun d => d <> []) ds -> mjoin ds = continue_line ++ frames cs ->
  exists s', run mmap_build view clock (OnReconnectTimer s (Some sock)) (piece <$> ds) = Some s' /\ watched s' /\
    state_ s' = kStreaming /\ stores s' = st /\ master_replid_ s' = master_replid_ s /\ have_offset_ s' = true /\
    repl_offset_ s' = repl_offset_ s + size_of (frames cs).
Proof.
  intros Hc Hh Hoff Hbig [Hok Hff] Hredo Hs Hds Hjoin. apply fmap_Some in Hredo as (u & Hu & ->).
  destruct (OnReconnectTimer_fresh s sock Hc Hs) as (C1 & C2 & C3 & C4 & C5 & C6 & C7 & C8 & C9). set (s0 := OnReconnectTimer _ _) in *.
  set (replid := master_replid_ s) in *. set (off := repl_offset_ s) in *.
  assert (following (resume_phase replid off cs (stores s)) [] s0) as Hf.
  { split_and!; [done|done|by unfold counted; rewrite C3|]. apply rp_reply; auto. split_and!; [done| |congruence]. rewrite C8. lia. }
  destruct (run_pieces (resume_script cs) (resume_phase replid off cs (stores s)) (resumed replid off cs u)
    ltac:(intros; by eapply resume_round) (resume_state _ _ _ _) (resume_more _ _ _ _) ds [] [] s0 Hf)
    as (s' & HR & (_ & Hw' & _ & _) & Hset); [done|done|by rewrite app_nil_r|].
  destruct (Hset Hjoin) as (H1 & H2 & H3 & H4 & H5). by exists s'.
Qed.

(** ** Properties *)

(** A replica converges to its master.  A master answers PSYNC with
    [+FULLRESYNC id off], its snapshot, the commands since the snapshot as the
    backlog, and then goes on streaming commands.  However these bytes are cut
    into reads, a replica that had any stores before loads the snapshot (it holds
    the master's key-value store and nodes) and applies the commands of the
    backlog and of the stream on top of it, each exactly once and in order; it
    ends up streaming, with the master's replication id and with the offset of
    the last byte, from which it can resume. *)
Theorem slave_converges (replid : bytes) (off : Z) (vi vi0 : VNodeIndex.VNodeIndex) (kv kv0 : KvStore.KvStore)
    (cs1 cs2 : list RequestContext) (fs : Fs) (host : bytes) (port : Z) (sock : list SendResult)
    (ds : list bytes) :
  portable vi kv -> replid_ok replid -> 0 <= off -> off + size_of (frames cs1) + size_of (frames cs2) < 2 ^ 63 ->
  size_of (frames cs1) <= kMaxString -> replayable (cs1 ++ cs2) -> can_start fs host port sock -> Forall (fun d => d <> []) ds ->
  mjoin ds = transcript replid off (rdb_image vi kv) (frames cs1) (frames cs2) ->
  exists s0 vi',
    Start (construct true true (mkStores (Some vi0) (Some kv0)) fs) host port (Some sock) = (true, s0) /\
    restored vi vi0 vi' /\
    forall u, redo (cs1 ++ cs2) (mkTargets (Some vi') (Some kv) None None) = Some u ->
      exists s, run mmap_build view clock s0 (piece <$> ds) = Some s /\ watched s /\ state_ s = kStreaming /\
        stores s = mkStores (t_index u) (t_kv u) /\ master_replid_ s = replid /\ have_offset_ s = true /\
        repl_offset_ s = off + size_of (frames cs1 ++ frames cs2).
Proof.
  intros. by eapply resync_converges.
Qed.

End Sync.

(** ** Witnesses *)

#[local] Existing Instances flat_usearch flat_laws.
#[local] Instance demo_orderZ : IterOrder Z := default_order Z.
#[local] Instance demo_orderB : IterOrder bytes := default_order bytes.

(** Two writes: one in the backlog, one streamed. *)
Definition demo_backlog : list RequestContext := [demo_set].
Definition demo_stream : list RequestContext :=
  [mkCtx 7 kSet [] [] [] [] 0 (bs "name") (bs "vemory") [] (-1) 0].

Definition demo_transcript : bytes :=
  transcript (bs "id") 40 (rdb_image VNodeIndex.demo KvStore.demo) (frames demo_backlog) (frames demo_stream).

(** Cut inside the reply and inside the last command. *)
Definition demo_pieces : list bytes :=
  let n := (length demo_transcript - 5)%nat in
  [take 7 demo_transcript; take (n - 7) (drop 7 demo_transcript); drop (n - 7) (drop 7 demo_transcript)].

Lemma slave_converges_witness :
  exists s0 vi' s,
    Start (construct true true demo_stores demo_fs) (bs "master") 6379 (Some [Sent 100]) = (true, s0) /\
    restored VNodeIndex.demo (VNodeIndex.construct 8 5) vi' /\
    run true true (fun _ => 0) s0 (piece <$> demo_pieces) = Some s /\ state_ s = kStreaming /\
    s_index (stores s) = Some vi' /\
    option_map (fun kv => (KvStore.Get kv (bs "name") (Some [])).2) (s_kv (stores s)) =
      Some (Some (bs "vemory")).
Proof.
  destruct (slave_converges true true (fun _ => 0) (bs "id") 40 VNodeIndex.demo (VNodeIndex.construct 8 5)
    KvStore.demo KvStore.empty demo_backlog demo_stream demo_fs (bs "master") 6379 [Sent 100] demo_pieces)
    as (s0 & vi' & Hs0 & Hres & H).
  - split_and!; [apply demo_savable|vm_compute; reflexivity|].
    split; [vm_compute; discriminate|]. intros _. vm_compute. eauto.
  - split_and!; [discriminate|..]; apply (bool_decide_unpack _); vm_compute; exact I.
  - lia.
  - vm_compute. reflexivity.
  - vm_compute. discriminate.
  - unfold demo_backlog, demo_stream, replayable. cbn [app]. rewrite !Forall_cons_iff.
    split_and!; try done; apply frame_fits_check; vm_compute; reflexivity.
  - split_and!; try reflexivity. discriminate.
  - repeat constructor; vm_compute; discriminate.
  - vm_compute. reflexivity.
  - destruct (H _ eq_refl) as (s & Hr & _ & Hst & Hsts & _).
    exists s0, vi', s. rewrite Hsts. split_and!; [exact Hs0|exact Hres|exact Hr|exact Hst|reflexivity|].
    vm_compute. reflexivity.
Defined.
