(* ===== verification/ReplicaView.v ===== *)
(** * ReplicaView: a replica whose vector index is a view

    Composes Startup's setting [SetUsearchMmapView(cfg.slaveof)] (Vemory.cc),
    SnapshotManager.v, ReplicationSlave.v and ReplicationSync.v.  In a build with
    mapped loading a replica looks at the vectors in the snapshot file instead of
    loading them, and such an index cannot be changed. *)

From S2P Require Import Prelude.
From S2P Require Import Stdio.
From S2P Require Import Usearch.
From S2P Require Import FlatIndex.
From S2P Require USearchEmbedIndex.
From S2P Require VNodeStorage.
From S2P Require VNodeIndex.
From S2P Require KvStore.
From S2P Require Import CommandType.
From S2P Require Import RequestContext.
From S2P Require RespDecode.
From S2P Require Import MutationApply.
From S2P Require Import WalManager.
From S2P Require Import MessageBuffer.
From S2P Require Import FileSystem.
From S2P Require RdbFormat.
From S2P Require Import SnapshotManager.
From S2P Require Import TcpConnection.
From S2P Require Import ReplicationSlave.
From S2P Require Import ReplicationSync.

#[local] Existing Instances no_wal no_repl.

(** What the backend says of views: [add] fails on one, and no call makes it
    anything else. *)
Class UsearchViews `(U : !Usearch) := {
  frozen : index_dense -> Prop;
  view_frozen ix file off ix' : view ix file off = (true, ix') -> frozen ix';
  reserve_frozen ix n : frozen ix -> frozen (try_reserve ix n).2;
  remove_frozen ix i : frozen ix -> frozen (remove ix i).2;
  add_frozen ix i v : frozen ix -> (add ix i v).1 = false /\ frozen (add ix i v).2
}.

Section View.
Context `{U : !Usearch} `{L : !UsearchLaws U} `{V : !UsearchViews U} `{OB : !IterOrder bytes} `{OZ : !IterOrder Z}.

Definition frozen_index (vi : VNodeIndex.VNodeIndex) : Prop :=
  exists ix x, VNodeIndex.index_ vi = Some ix /\ USearchEmbedIndex.impl_ ix = Some x /\ frozen x.

Definition frozen_stores (st : Stores) : Prop := exists vi, s_index st = Some vi /\ frozen_index vi.

(** ** Loading *)

Lemma LoadIndexMapped_frozen fs s path off dim s' :
  VNodeIndex.LoadIndexMapped fs s path off dim true = (VNodeIndex.kOk, s') -> frozen_index s'.
Proof.
  unfold VNodeIndex.LoadIndexMapped, USearchEmbedIndex.ViewMapped. intros H.
  destruct (is_empty path || (dim =? 0)); [done|]. destruct (is_empty path || _); [done|].
  destruct (USearchEmbedIndex.ensure_impl _) as [ix|]; [|done]. destruct (view ix (fs path) off) as [[] x] eqn:Ev; cbn [negb] in H; [|done].
  destruct (negb _); [done|]. injection H as <-. eexists _, x. split_and!; [done|done|by eapply view_frozen].
Qed.

Lemma LoadMappedSegments_frozen h data path fs vi kv vi' kv' :
  LoadMappedSegments h data true path fs vi kv = (kOk, vi', kv') -> 0 < RdbFormat.dim h -> frozen_index vi'.
Proof.
  intros H Hd. unfold LoadMappedSegments in H. destruct (KvStore.LoadFrom _ _ _) as [[] kv1]; try done.
  destruct (negb _); [done|]. destruct (VNodeIndex.LoadNodesFrom _ _ _ _ _) as [[] vi1]; try done. destruct (negb _); [done|].
  destruct (Z.ltb_spec 0 (RdbFormat.dim h)); [|lia]. destruct (_ =? 0); [done|].
  destruct (VNodeIndex.LoadIndexMapped _ _ _ _ _ _) as [[] vi2] eqn:E; try done. injection H as <- _. by eapply LoadIndexMapped_frozen.
Qed.

Lemma LoadFromPath_frozen vi kv s kv0 path fs vi' kv' :
  savable vi kv -> rdb_fits vi kv -> restorable vi -> 0 < VNodeIndex.dim_ vi ->
  files fs !! path = Some (rdb_image vi kv) -> is_empty path = false -> can_map fs path = true ->
  LoadFromPath true (mkStores (Some s) (Some kv0)) true path fs = (kOk, mkStores (Some vi') (Some kv')) -> frozen_index vi'.
Proof.
  intros Hs Hfit Hr Hd Hf Hp Hm H. unfold LoadFromPath, LoadFromMapped, Open in H. cbn [s_index s_kv] in H.
  rewrite Hp, Hf, Hm in H. cbn [negb] in H. pose proof (RdbFormat.header_image_length (saved_header vi kv)) as Hh.
  destruct (Nat.eqb_spec (length (rdb_image vi kv)) 0) as [Hz|_].
  { unfold rdb_image in Hz. rewrite length_app, Hh in Hz. cbn in Hz. lia. }
  cbn [m_data] in H. rewrite ParseHeader_rdb in H by done.
  destruct (LoadMapped_image vi kv s kv0 true path fs Hs Hfit Hr Hf Hp) as (vi2 & E & _). rewrite E in H. injection H as <- _.
  eapply LoadMappedSegments_frozen; [exact E|]. by destruct (saved_header_fields vi kv) as [-> _].
Qed.

(** ** Writing *)

Lemma Add_frozen (ix : USearchEmbedIndex.USearchEmbedIndex) x i d dim :
  USearchEmbedIndex.impl_ ix = Some x -> frozen x ->
  (USearchEmbedIndex.Add ix i d dim).1 <> USearchEmbedIndex.kOk /\
  exists x', USearchEmbedIndex.impl_ (USearchEmbedIndex.Add ix i d dim).2 = Some x' /\ frozen x'.
Proof.
  intros Hi Hx. unfold USearchEmbedIndex.Add. rewrite Hi. destruct (_ =? 0); [split; [done|eauto]|].
  destruct d as [d|]; [|split; [done|eauto]]. destruct (negb _); [split; [done|eauto]|].
  unfold USearchEmbedIndex.usearchAdd. set (r1 := if contains x i then _ else _).
  assert (frozen r1.2) as H1.
  { unfold r1. destruct (contains x i); [|done]. pose proof (remove_frozen x i Hx). by destruct (remove x i). }
  destruct r1 as [ok1 x1]. cbn in H1. destruct ok1; cbn [negb]; [|split; [done|by exists x1]].
  set (r2 := if capacity x1 <=? index_size x1 then _ else _).
  assert (frozen r2.2) as H2 by (unfold r2; destruct (_ <=? _); [by apply reserve_frozen|done]).
  destruct r2 as [ok2 x2]. cbn in H2. destruct ok2; cbn [negb]; [|split; [done|by exists x2]].
  destruct (add_frozen x2 i d H2) as [A1 A2]. destruct (add x2 i d) as [added x3]. cbn in A1, A2. subst added. split; [done|by exists x3].
Qed.

Lemma Set_frozen vi b k q a :
  frozen_index vi -> (VNodeIndex.Set_ vi b k q a).1 <> VNodeIndex.kOk /\ frozen_index (VNodeIndex.Set_ vi b k q a).2.
Proof.
  intros Hf. pose proof Hf as (ix & x & Hi & Hx & Hfx). unfold VNodeIndex.Set_. destruct (is_empty k); [done|].
  destruct (VNodeIndex.ParseFloatBlob b _ _) as [[[] ?] [dim|]]; try done. unfold VNodeIndex.EnsureIndex. rewrite Hi.
  destruct (negb _); [done|]. destruct (VNodeStorage.Put _ _ _) as [[[] i] st]; [destruct i as [i|]|..]; try done.
  cbn [VNodeIndex.with_storage VNodeIndex.index_]. rewrite Hi.
  destruct (Add_frozen ix x i (Some (VNodeIndex.CopyFloats b (Z.to_nat dim))) dim Hx Hfx) as [A1 (x' & A2 & A3)].
  destruct (USearchEmbedIndex.Add _ _ _ _) as [ist ix']. cbn in A1, A2.
  destruct ist; try done; (split; [done|]); by exists ix', x'.
Qed.

(** A VSET is refused. *)
Lemma vset_refused c t vi :
  cmd c = kVset -> t_index t = Some vi -> frozen_index vi ->
  exists r t' vi', ApplyMutation 1 c kAofReplay t = Some (r, t') /\ ok r = false /\ t_index t' = Some vi' /\ frozen_index vi'.
Proof.
  intros Hc Ht Hf. cbn [ApplyMutation]. rewrite Hc. unfold apply_vset. rewrite Ht. unfold apply_vset_set.
  destruct (Set_frozen vi (vector_blob c) (user_key c) (question c) (answer c) Hf) as [H1 H2].
  destruct (VNodeIndex.Set_ vi _ _ _ _) as [st vi']. cbn in H1, H2. destruct st; try done; eexists _, _, vi'; done.
Qed.

Lemma stream_refused clock c rest st :
  cmd c = kVset -> write_ok c -> frame_fits c -> frozen_stores st ->
  exists st', ConsumeStreamFrames clock (Some (frame_of c ++ rest)) st = Some (Malformed, Some (frame_of c ++ rest), O, st') /\ frozen_stores st'.
Proof.
  intros Hc Hok Hf (vi & Hi & Hfz). unfold ConsumeStreamFrames. cbn [ConsumeLoop]. destruct (decode_frame c rest Hf) as (toks & Ht & Hd).
  assert (0 < length (frame_of c))%nat as Hpos by (apply RespDecode.decode_consumed in Hd; lia).
  rewrite (proj2 (Nat.ltb_lt _ _)) by (rewrite length_app; lia).
  rewrite drop_0, Hd, (FromTokens_write _ _ _ _ _ Hok Ht), (replay_view _ _ _ _ Hok).
  destruct (vset_refused c (mkTargets (s_index st) (s_kv st) None None) vi Hc Hi Hfz) as (r & t' & vi' & -> & -> & Hi' & Hf').
  cbn [negb]. eexists. split; [done|]. by exists vi'.
Qed.

(** ** The replica *)

(** What the replica resumes from. *)
Definition resume_point (s : ReplicationSlave) : bytes * Z * bool := (master_replid_ s, repl_offset_ s, have_offset_ s).

Lemma Fail_keeps s : resume_point (Fail s) = resume_point s /\ stores (Fail s) = stores s.
Proof.
  unfold Fail. destruct (_ || _); [done|]. unfold CloseConn, CloseRdb, ScheduleReconnect, resume_point. cbn.
  destruct (rdb_fp_ s); cbn; destruct (conn_ s); cbn; by destruct (stopping_ s).
Qed.

(** A failed link, to be tried again, with the same resume point and an index
    that is still a view. *)
Definition refused (p : bytes * Z * bool) (s : ReplicationSlave) : Prop :=
  core s /\ retrying s /\ resume_point s = p /\ frozen_stores (stores s).

Lemma drain_refused clock c s :
  cmd c = kVset -> write_ok c -> frame_fits c -> core s -> watched s -> state_ s = kStreaming -> stream_buf_ s = [] ->
  unread_input s = frame_of c -> frozen_stores (stores s) ->
  exists s', DrainStreaming clock s = Some (false, s') /\ refused (resume_point s) s'.
Proof.
  intros Hc Hok Hf Hco Hw Hst Hsb Hu Hfz. unfold DrainStreaming. destruct (drain_input s Hw) as (k & -> & Hk). rewrite Hsb, Hu. cbn [app].
  destruct (stream_refused clock c [] (stores s) Hc Hok Hf Hfz) as (st' & E & Hfz'). rewrite app_nil_r in E.
  cbn [stream_buf_ set_conn set_buffers stores]. rewrite E. cbn [negb default].
  set (s1 := set_buffers _ _ _). eexists. split; [done|]. destruct (Fail_keeps s1) as [H1 H2].
  destruct (Fail_retrying s1) as [H3 H4]; [by destruct Hco|cbn; congruence|]. split_and!; [done|done| |].
  - by rewrite H1.
  - by rewrite H2.
Qed.

(** A read of [d] hands all of the input to [OnReadable]. *)
Lemma step_readable mmap_build view clock d s :
  watched s -> core s -> d <> [] ->
  exists s0, (exists k, s0 = set_conn s k) /\ core s0 /\ watched s0 /\ unread_input s0 = unread_input s ++ d /\
    step mmap_build view clock s (piece d) = OnReadable mmap_build view clock s0.
Proof.
  intros Hw Hc Hd. pose proof Hw as [Ht (l & Hl & Ho & Hr & Hcb)]. cbn [step piece]. unfold OnIO. rewrite Hl. unfold HandleIO.
  assert (link_conn s = l_conn l) as El by (unfold link_conn; by rewrite Hl). rewrite El, Ho, Hr.
  change (has EPOLLIN EPOLLIN) with true. rewrite HandleRead_piece by done. cbn [callbacks on_event].
  set (c := with_input _ _). destruct (set_link_spec c s Hw) as (H1 & H2 & H3 & H4 & H5).
  exists (set_link c s). split; [unfold set_link; rewrite Hl; eauto|]. split; [auto|]. split; [auto|].
  split; [unfold unread_input, InputBuffer, set_link; by rewrite Hl|].
  destruct (OnReadable mmap_build view clock (set_link c s)) as [s1|]; [|done].
  change (has EPOLLIN EPOLLOUT) with false. change (has EPOLLIN (Z.lor EPOLLERR (Z.lor EPOLLHUP EPOLLRDHUP))) with false.
  cbv iota. by destruct (closed_ (link_conn s1)).
Qed.

Lemma OnReadable_unfold mmap_build view clock s :
  watched s -> state_ s <> kError ->
  OnReadable mmap_build view clock s = OnReadable_loop mmap_build view clock (S (length (unread_input s))) s.
Proof. intros [_ (l & Hl & _)] Hs. unfold OnReadable. rewrite Hl. by rewrite bool_decide_eq_false_2. Qed.

Lemma read_refused mmap_build view clock c s :
  cmd c = kVset -> write_ok c -> frame_fits c -> core s -> watched s -> state_ s = kStreaming -> stream_buf_ s = [] ->
  unread_input s = frame_of c -> frozen_stores (stores s) ->
  forall fuel, exists s', OnReadable_loop mmap_build view clock (S fuel) s = Some s' /\ refused (resume_point s) s'.
Proof.
  intros Hc Hok Hf Hco Hw Hst Hsb Hu Hfz fuel.
  destruct (drain_refused clock c s Hc Hok Hf Hco Hw Hst Hsb Hu Hfz) as (s' & E & Hr). exists s'. split; [|done].
  cbn [OnReadable_loop]. unfold OnReadable_round. by rewrite Hst, E.
Qed.

(** The answer to a PSYNC from the resume point, and the frame again. *)
Definition again (c : RequestContext) : bytes := bs "+CONTINUE" ++ CRLF ++ frame_of c.

Lemma continue_line s rest :
  unread_input s = bs "+CONTINUE" ++ CRLF ++ rest -> ConsumeSimpleString s = (Some (bs "CONTINUE"), Consume s 11).
Proof. intros H. unfold ConsumeSimpleString. rewrite GetAllData_spec. fold (unread_input s). rewrite H. reflexivity. Qed.

Lemma again_refused mmap_build view clock c s :
  cmd c = kVset -> write_ok c -> frame_fits c -> core s -> watched s -> state_ s = kWaitFullresync -> stream_buf_ s = [] ->
  unread_input s = again c -> frozen_stores (stores s) ->
  exists s', OnReadable mmap_build view clock s = Some s' /\ refused (resume_point s) s'.
Proof.
  intros Hc Hok Hf Hco Hw Hst Hsb Hu Hfz. rewrite OnReadable_unfold by (done || by rewrite Hst). rewrite Hu.
  cbn [OnReadable_loop]. unfold OnReadable_round. rewrite Hst, (continue_line s (frame_of c) Hu).
  change (HandleSyncReply (Consume s 11) (bs "CONTINUE")) with (true, EnterStreaming (Consume s 11)). cbv iota.
  destruct (Consume_conn s 11 Hw) as (l & E & Hb). destruct (Consume_spec s 11 Hw) as (H1 & H2 & _). rewrite E in H1, H2 |- *.
  set (s2 := EnterStreaming _).
  assert (core s2) as Hc2.
  { destruct (H1 Hco). split; try done. }
  assert (length (again c) = S (length (bs "CONTINUE" ++ CRLF ++ frame_of c))) as -> by done.
  apply (read_refused mmap_build view clock c s2); try done. cbn. unfold unread_input, InputBuffer. cbn. rewrite Hb, Hu. done.
Qed.

Lemma TryConnect_fresh s q :
  core s -> accepts q = true ->
  let s' := OnReconnectTimer s (Some q) in
  core s' /\ watched s' /\ state_ s' = kWaitFullresync /\ stream_buf_ s' = [] /\ unread_input s' = [] /\
  stores s' = stores s /\ resume_point s' = resume_point s.
Proof.
  intros Hc Hq. cbv zeta. unfold OnReconnectTimer. set (s1 := set_timer s None (backoff_ms_ s)).
  assert (core s1) as Hc1 by (by destruct Hc). destruct (TryConnect_spec s1 (Some q) Hc1) as (H1 & H2 & H3); [done|].
  split_and!; try done; destruct Hc1 as [A1 A2 A3 A4 A5]; unfold TryConnect; rewrite A1, A2, A4; cbn [orb negb].
  - cbn. unfold ResetLink, CloseRdb, CloseConn. cbn. destruct (conn_ s); cbn; by destruct (rdb_fp_ s).
  - unfold unread_input, InputBuffer. cbn [conn_ set_conn l_conn]. by rewrite Send_input.
  - cbn. unfold ResetLink, CloseRdb, CloseConn. cbn. destruct (conn_ s); cbn; by destruct (rdb_fp_ s).
  - unfold resume_point. cbn. unfold ResetLink, CloseRdb, CloseConn. cbn. destruct (conn_ s); cbn; by destruct (rdb_fp_ s).
Qed.

(** The reconnect timer, a connection, and the master's answer. *)
Definition retry (c : RequestContext) (q : list SendResult) : list event := [ETimer (Some q); piece (again c)].

Lemma retry_refused mmap_build view clock c q p s :
  cmd c = kVset -> write_ok c -> frame_fits c -> accepts q = true -> refused p s ->
  exists s', run mmap_build view clock s (retry c q) = Some s' /\ refused p s'.
Proof.
  intros Hc Hok Hf Hq (Hco & (Hst & (d & Hd & _) & _) & Hp & Hfz). unfold retry. cbn [run]. cbn [step]. rewrite Hd.
  destruct (TryConnect_fresh s q Hco Hq) as (A1 & A2 & A3 & A4 & A5 & A6 & A7). set (s1 := OnReconnectTimer s (Some q)) in *. clearbody s1.
  destruct (step_readable mmap_build view clock (again c) s1 A2 A1) as (s2 & (k & Ek) & B1 & B2 & B3 & ->); [done|].
  rewrite A5 in B3. cbn [app] in B3.
  assert (state_ s2 = kWaitFullresync /\ stream_buf_ s2 = [] /\ stores s2 = stores s /\ resume_point s2 = p) as (C1 & C2 & C3 & C4).
  { subst s2. cbn. rewrite <- Hp, <- A7. by rewrite A3, A4, A6. }
  destruct (again_refused mmap_build view clock c s2 Hc Hok Hf B1 B2 C1 C2 B3) as (s' & -> & Hr); [by rewrite C3|].
  exists s'. split; [done|]. by rewrite <- C4.
Qed.

Lemma run_app mmap_build view clock s es1 es2 :
  run mmap_build view clock s (es1 ++ es2) =
    match run mmap_build view clock s es1 with Some s => run mmap_build view clock s es2 | None => None end.
Proof. revert s. induction es1 as [|e es1 IH]; intros s; [done|]. cbn [run app]. by destruct (step mmap_build view clock s e). Qed.

Lemma retries_refused mmap_build view clock c qs p s :
  cmd c = kVset -> write_ok c -> frame_fits c -> Forall (fun q => accepts q = true) qs -> refused p s ->
  exists s', run mmap_build view clock s (mjoin (retry c <$> qs)) = Some s' /\ refused p s'.
Proof.
  intros Hc Hok Hf Hqs. revert s. induction Hqs as [|q qs Hq _ IH]; intros s Hr; [by exists s|].
  destruct (retry_refused mmap_build view clock c q p s Hc Hok Hf Hq Hr) as (s1 & E & Hr1). destruct (IH s1 Hr1) as (s' & E' & Hr').
  exists s'. split; [|done]. cbn [fmap list_fmap]. change (mjoin (retry c q :: (retry c <$> qs))) with (retry c q ++ mjoin (retry c <$> qs)).
  by rewrite run_app, E.
Qed.

End View.

(** ** Properties *)

Section Properties.
Context `{U : !Usearch} `{L : !UsearchLaws U} `{OB : !IterOrder bytes} `{OZ : !IterOrder Z}.

(** Received in full, with nothing left to read. *)
Lemma resync_received clock replid off vi vi0 kv kv0 fs host port sock ds :
  portable vi kv -> replid_ok replid -> 0 <= off < 2 ^ 63 -> can_start fs host port sock ->
  Forall (fun d => d <> []) ds -> mjoin ds = transcript replid off (rdb_image vi kv) [] [] ->
  let fsl := fs_loaded vi kv fs in
  exists s0 vi',
    Start (construct true true (mkStores (Some vi0) (Some kv0)) fs) host port (Some sock) = (true, s0) /\
    files fsl !! kInPath = Some (rdb_image vi kv) /\
    LoadFromPath true (mkStores (Some vi0) (Some kv0)) true kInPath fsl = (SnapshotManager.kOk, mkStores (Some vi') (Some kv)) /\
    exists s, run true true clock s0 (piece <$> ds) = Some s /\ core s /\ watched s /\ state_ s = kStreaming /\
      stores s = mkStores (Some vi') (Some kv) /\ resume_point s = (replid, off, true) /\ stream_buf_ s = [] /\ unread_input s = [].
Proof.
  intros Hpo Hid Hoff Hcan Hds Hjoin fsl. assert (size_of (frames []) = 0) as Hz by done.
  destruct (resync_followed true true clock replid off vi vi0 kv kv0 [] [] fs host port sock ds)
    as (s0 & vi' & Hs0 & Hfile & HL & _ & Hrun); try done; [lia|lia|].
  exists s0, vi'. split_and!; [done|done|done|].
  destruct (Hrun _ _ eq_refl eq_refl) as (s & HR & (Hc & Hw & _ & Hph) & H1 & H2 & H3 & H4 & H5).
  assert (stream_buf_ s ++ unread_input s = []) as [Hb Hi]%app_nil.
  { destruct Hph as [| | | | |j _ _ _ _ Hpre]; [congruence..|]. cbn [app] in Hpre. rewrite Hjoin, take_nil in Hpre. unfold transcript in Hpre.
    apply app_inv_head in Hpre. apply app_inv_head in Hpre. apply app_inv_head in Hpre. by apply app_inv_head in Hpre. }
  exists s. split_and!; try done. unfold resume_point. rewrite H3, H4, H5. by rewrite Hz, !Z.add_0_r.
Qed.

(** C40: a replica with a view cannot follow a cache.  In a build with mapped
    loading [main] lets a replica view the index in the snapshot it received.
    Take a replica that has received a snapshot with vectors, and let the master
    then stream a VSET, any VSET.  The replica cannot apply it and drops the
    link; it comes back, is told to continue, gets the same command again, and
    fails again, however often it reconnects: its offset never moves past the
    command. *)
Theorem viewed_replica_stuck (V : UsearchViews U) (clock : nat -> Z) replid off vi vi0 kv kv0 fs host port sock ds c qs :
  savable vi kv -> rdb_fits vi kv -> restorable vi -> replid_ok replid -> 0 <= off < 2 ^ 63 ->
  can_mkdir fs kTmpDir = true -> can_create fs kInTmpPath = true -> can_rename fs = true -> disk_room fs = None ->
  is_empty host = false -> port <> 0 -> accepts sock = true ->
  Forall (fun d => d <> []) ds -> mjoin ds = transcript replid off (rdb_image vi kv) [] [] ->
  can_map fs kInPath = true -> 0 < VNodeIndex.dim_ vi ->
  cmd c = kVset -> write_ok c -> frame_fits c -> Forall (fun q => accepts q = true) qs ->
  exists s0, Start (construct true true (mkStores (Some vi0) (Some kv0)) fs) host port (Some sock) = (true, s0) /\
    exists s, run true true clock s0 ((piece <$> ds) ++ piece (frame_of c) :: mjoin (retry c <$> qs)) = Some s /\
      retrying s /\ resume_point s = (replid, off, true).
Proof.
  intros Hsv Hfit Hre Hid Hoff Hmk Hcr Hrn Hroom Hh Hp Hsock Hds Hjoin Hmap Hdim Hc Hok Hf Hqs.
  destruct (resync_received clock replid off vi vi0 kv kv0 fs host port sock ds)
    as (s0 & vi' & Hs0 & Hfile & HL & s & HR & Hco & Hw & Hst & Hsts & Hres & Hsb & Hun); try done.
  exists s0. split; [done|]. rewrite run_app, HR. cbn [run].
  assert (frozen_stores (stores s)) as Hfz.
  { rewrite Hsts. exists vi'. split; [done|].
    apply (LoadFromPath_frozen vi kv vi0 kv0 kInPath _ vi' kv Hsv Hfit Hre Hdim Hfile); [done| |done].
    unfold fs_loaded, rename, fclose. cbn. by repeat case_match. }
  destruct (step_readable true true clock (frame_of c) s Hw Hco) as (s1 & (k & Ek) & B1 & B2 & B3 & ->).
  { destruct (decode_frame c [] Hf) as (toks & _ & Hd). apply RespDecode.decode_consumed in Hd. by destruct (frame_of c); [cbn in Hd; lia|]. }
  rewrite Hun in B3. cbn [app] in B3.
  assert (state_ s1 = kStreaming /\ stream_buf_ s1 = [] /\ stores s1 = stores s /\ resume_point s1 = (replid, off, true)) as (C1 & C2 & C3 & C4).
  { subst s1. cbn. by rewrite <- Hres. }
  rewrite OnReadable_unfold by (done || by rewrite C1).
  destruct (read_refused true true clock c s1 Hc Hok Hf B1 B2 C1 C2 B3 ltac:(by rewrite C3) (length (unread_input s1))) as (s2 & -> & Hr2).
  rewrite C4 in Hr2. destruct (retries_refused true true clock c qs _ s2 Hc Hok Hf Hqs Hr2) as (s3 & E3 & (_ & H1 & H2 & _)).
  by exists s3.
Qed.

End Properties.

(** ** Witnesses *)

#[local] Existing Instances flat_usearch flat_laws.
#[local] Instance demo_orderZ : IterOrder Z := default_order Z.
#[local] Instance demo_orderB : IterOrder bytes := default_order bytes.

#[local] Instance flat_views : UsearchViews flat_usearch.
Proof.
  refine {| frozen := (fun ix => flat_ro ix = true) : @index_dense flat_usearch -> Prop |}; cbn; try done.
  - intros ix file off ix'. unfold flat_view. destruct (flat_map ix file off) as [ok ix1]. by intros [= -> <-].
  - intros ix i H. by rewrite H.
  - intros ix i v H. by rewrite H.
Defined.

Definition demo_view_text : bytes := transcript (bs "id") 40 (rdb_image VNodeIndex.demo KvStore.demo) [] [].

Lemma viewed_replica_stuck_witness :
  exists s0, Start (construct true true demo_stores demo_fs) (bs "master") 6379 (Some [Sent 100]) = (true, s0) /\
    exists s, run true true (fun _ => 0) s0
        ((piece <$> [demo_view_text]) ++ piece (frame_of (demo_vset "k9")) :: mjoin (retry (demo_vset "k9") <$> [[Sent 100]; [Sent 100]])) = Some s /\
      retrying s /\ resume_point s = (bs "id", 40, true).
Proof.
  apply (viewed_replica_stuck flat_views (fun _ => 0) (bs "id") 40 VNodeIndex.demo (VNodeIndex.construct 8 5)
    KvStore.demo KvStore.empty demo_fs (bs "master") 6379 [Sent 100] [demo_view_text] (demo_vset "k9") [[Sent 100]; [Sent 100]]).
  - apply demo_savable.
  - vm_compute. reflexivity.
  - split; [vm_compute; discriminate|]. intros _. vm_compute. eauto.
  - split_and!; [discriminate|..]; apply (bool_decide_unpack _); vm_compute; exact I.
  - lia.
  - reflexivity.
  - reflexivity.
  - reflexivity.
  - reflexivity.
  - reflexivity.
  - discriminate.
  - reflexivity.
  - repeat constructor; vm_compute; discriminate.
  - unfold demo_view_text. apply app_nil_r.
  - reflexivity.
  - vm_compute. reflexivity.
  - reflexivity.
  - done.
  - apply frame_fits_check. vm_compute. reflexivity.
  - repeat constructor.
Defined.
