(* ===== verification/ReplicationMaster.v ===== *)
(** * ReplicationMaster: the replicas of a master

    Models include/vemory/replication/ReplicationMaster.h and
    src/replication/ReplicationMaster.cc over TcpConnection, ReplicationBacklog
    and SnapshotManager.  A connection is named by its file descriptor; [net]
    holds the connections themselves, which outlive their entry in [conns_]
    (their read callback holds a reference to them).  Sending can close a
    connection, and its close callback erases the slave: an operation that goes
    on to use the erased entry has undefined behaviour, [None]. *)

From S2P Require Import Prelude.
From S2P Require Import Stdio.
From S2P Require Import CLib.
From S2P Require Import RespEncode.
From S2P Require Import ReplicationBacklog.
From S2P Require Import Usearch.
From S2P Require Import MutationApply.
From S2P Require Import FileSystem.
From S2P Require Import SnapshotManager.
From S2P Require Import TcpConnection.
From S2P Require CommandHandler.

Definition kTmpDir : bytes := bs "tmp".
Definition kFullsyncPath : bytes := bs "tmp/repl-fullsync.rdb".
Definition kReplicaOutputLimit : Z := 32 * 1024 * 1024.
Definition kReplidLen : nat := 40.

Inductive SlaveState := kWaitRdb | kSendingRdb | kSendingBacklog | kSynced.

#[export] Instance SlaveState_eq_dec : EqDecision SlaveState.
Proof. solve_decision. Defined.

Record Slave := mkSlave { conn : Z; state : SlaveState; backlog_start : Z }.

Definition WantsFullsync (replid : bytes) (offset : Z) : bool :=
  if offset <? 0 then true else is_empty replid || beq replid (bs "?").

Definition kHex : bytes := bs "0123456789abcdef".

(** [rd] gives the values drawn from [std::random_device]. *)
Definition GenerateReplid (rd : nat -> Z) : bytes :=
  (fun i => nth (Z.to_nat (Z.land (rd i) 15)) kHex NUL) <$> seq 0 kReplidLen.

(** The members except [snapshot_], which is passed where it is used, and the
    connections of the process. *)
Record ReplicationMaster := mkMaster {
  backlog_ : ReplicationBacklog;
  replid_ : bytes;
  conns_ : gset Z;
  slaves_ : gmap Z Slave;
  fullsync_active_ : bool;
  fullsync_backlog_start_ : Z;
  save_started_for_fullsync_ : bool;
  net : gmap Z TcpConn
}.

(** The constructor, with the capacity of the backlog (a default argument). *)
Definition construct (capacity : Z) (rd : nat -> Z) (net : gmap Z TcpConn) : ReplicationMaster :=
  mkMaster (ReplicationBacklog.construct capacity) (GenerateReplid rd) ∅ ∅ false 0 false net.

(** Assignments to members. *)
Definition set_backlog m x := mkMaster x (replid_ m) (conns_ m) (slaves_ m) (fullsync_active_ m)
  (fullsync_backlog_start_ m) (save_started_for_fullsync_ m) (net m).
Definition set_conns m x := mkMaster (backlog_ m) (replid_ m) x (slaves_ m) (fullsync_active_ m)
  (fullsync_backlog_start_ m) (save_started_for_fullsync_ m) (net m).
Definition set_slaves m x := mkMaster (backlog_ m) (replid_ m) (conns_ m) x (fullsync_active_ m)
  (fullsync_backlog_start_ m) (save_started_for_fullsync_ m) (net m).
Definition set_fullsync m active start := mkMaster (backlog_ m) (replid_ m) (conns_ m) (slaves_ m) active
  start (save_started_for_fullsync_ m) (net m).
Definition set_save_started m x := mkMaster (backlog_ m) (replid_ m) (conns_ m) (slaves_ m) (fullsync_active_ m)
  (fullsync_backlog_start_ m) x (net m).
Definition set_net m x := mkMaster (backlog_ m) (replid_ m) (conns_ m) (slaves_ m) (fullsync_active_ m)
  (fullsync_backlog_start_ m) (save_started_for_fullsync_ m) x.

Definition has_slaves (m : ReplicationMaster) : bool := bool_decide (slaves_ m <> ∅).

(** The connection behind a descriptor. *)
Definition conn_of (fd : Z) (m : ReplicationMaster) : TcpConn :=
  default (TcpConnection.construct []) (net m !! fd).
Definition set_conn (fd : Z) (c : TcpConn) (m : ReplicationMaster) : ReplicationMaster :=
  set_net m (<[fd := c]> (net m)).

(** [slave->state = st]. *)
Definition set_state (fd : Z) (st : SlaveState) (m : ReplicationMaster) : ReplicationMaster :=
  set_slaves m (alter (fun s => mkSlave (conn s) st (backlog_start s)) fd (slaves_ m)).

(** A use of a reference to the slave [fd]. *)
Definition deref (fd : Z) (m : ReplicationMaster) : option Slave := slaves_ m !! fd.

(** ** Removing slaves *)

Definition any_active (m : ReplicationMaster) : bool :=
  existsb (fun p => negb (bool_decide (state p.2 = kSynced))) (map_to_list (slaves_ m)).

Definition RemoveSlave (fd : Z) (m : ReplicationMaster) : ReplicationMaster :=
  let m := set_slaves m (delete fd (slaves_ m)) in
  if negb (any_active m) && negb (save_started_for_fullsync_ m)
  then set_fullsync m false (fullsync_backlog_start_ m) else m.

Definition FindSlave (fd : Z) (m : ReplicationMaster) : option Slave := slaves_ m !! fd.

(** The close callback of [OnConnection]. *)
Definition close_cb (fd : Z) (m : ReplicationMaster) : ReplicationMaster :=
  let m := RemoveSlave fd m in set_conns m (conns_ m ∖ {[fd]}).

Definition OnConnection (fd : Z) (m : ReplicationMaster) : ReplicationMaster :=
  set_conns m ({[fd]} ∪ conns_ m).

(** ** Sending *)

(** The callbacks that [Send] and [Close] can run: they never report a file as
    sent and never read. *)
Definition closing_event (fd : Z) (m : ReplicationMaster) (e : Event) : ReplicationMaster :=
  match e with
  | SendFileDone false => match FindSlave fd m with None => m | Some _ => RemoveSlave fd m end
  | Closed => close_cb fd m
  | SendFileDone true | Readable => m
  end.

(** [conn->Send(data)] and [conn->ForceClose()]. *)
Definition SendTo (fd : Z) (data : bytes) (m : ReplicationMaster) : ReplicationMaster :=
  let '(_, evs, c) := Send (conn_of fd m) (Some data) in
  fold_left (closing_event fd) evs (set_conn fd c m).

Definition ForceClose (fd : Z) (m : ReplicationMaster) : ReplicationMaster :=
  let '(evs, c) := TcpConnection.Close (conn_of fd m) in
  fold_left (closing_event fd) evs (set_conn fd c m).

(** After an error reply: [RemoveSlave(slave->conn->Fd())]. *)
Definition refuse (fd : Z) (msg : string) (m : ReplicationMaster) : option ReplicationMaster :=
  let m := SendTo fd (bs msg ++ CRLF) m in
  match deref fd m with
  | None => None
  | Some s => Some (RemoveSlave (conn s) m)
  end.

Definition bulk_len (n : Z) : bytes := bs "$" ++ print_signed n ++ CRLF.

Definition SendBacklogToSlave (fd : Z) (m : ReplicationMaster) : option ReplicationMaster :=
  match slaves_ m !! fd with
  | None => Some m
  | Some s =>
      if closed_ (conn_of (conn s) m) then Some m
      else
        let m := set_state fd kSendingBacklog m in
        if negb (Contains (backlog_ m) (backlog_start s)) then refuse fd "-ERR backlog lost" m
        else
          match CopyRange (backlog_ m) (backlog_start s) (tip_ (backlog_ m)) (Some []) with
          | Some (true, Some payload) =>
              let m := SendTo (conn s) (bulk_len (size_of payload)) m in
              match (if is_empty payload then Some m
                     else match deref fd m with
                          | None => None
                          | Some s => Some (SendTo (conn s) payload m)
                          end) with
              | None => None
              | Some m =>
                  match deref fd m with
                  | None => None
                  | Some _ =>
                      let m := set_state fd kSynced m in
                      Some (if any_active m then m else set_fullsync m false (fullsync_backlog_start_ m))
                  end
              end
          | Some _ => refuse fd "-ERR backlog copy failed" m
          | None => None
          end
  end.

(** All callbacks of a connection; its read callback runs commands, which are
    not the master's. *)
Definition on_event (fd : Z) (e : Event) (m : ReplicationMaster) : option ReplicationMaster :=
  match e with
  | SendFileDone true => match FindSlave fd m with None => Some m | Some _ => SendBacklogToSlave fd m end
  | _ => Some (closing_event fd m e)
  end.

(** The write events of a connection. *)
Definition OnWritable (fd : Z) (m : ReplicationMaster) : option ReplicationMaster :=
  if closed_ (conn_of fd m) then Some m
  else HandleWrite (conn_of fd) (set_conn fd) (on_event fd) (S (rounds (conn_of fd m))) m.

(** [rdb]: the content of the file at [kFullsyncPath]. *)
Definition SendRdbToSlave (fd : Z) (rdb : option bytes) (m : ReplicationMaster) : option ReplicationMaster :=
  match slaves_ m !! fd with
  | None => Some m
  | Some s =>
      if closed_ (conn_of (conn s) m) then Some m
      else
        match rdb with
        | None => refuse fd "-ERR fullsync rdb missing" m
        | Some content =>
            let m := set_state fd kSendingRdb m in
            let fr_line := bs "FULLRESYNC " ++ c_str (replid_ m) ++ bs " " ++ print_unsigned (backlog_start s) in
            let hdr := AppendSimpleString [] fr_line ++ bulk_len (size_of content) in
            let m := SendTo (conn s) hdr m in
            match deref fd m with
            | None => None
            | Some s =>
                let '(ok, c) := SendFile (conn_of (conn s) m) kFullsyncPath rdb true in
                if ok then
                  HandleWrite (conn_of (conn s)) (set_conn (conn s)) (on_event (conn s)) (S (rounds c))
                    (set_conn (conn s) c m)
                else Some (RemoveSlave (conn s) (SendTo (conn s) (bs "-ERR sendfile failed" ++ CRLF) m))
            end
        end
  end.

(** ** Full resynchronisation *)

(** The slaves in the order in which the map is iterated. *)
Definition slave_fds `{OZ : !IterOrder Z} (m : ReplicationMaster) : list Z := (iter_order (slaves_ m)).*1.

Definition waiting (m : ReplicationMaster) (fd : Z) : bool :=
  match slaves_ m !! fd with Some s => bool_decide (state s = kWaitRdb) | None => false end.

Section Master.
Context `{U : !Usearch} `{OZ : !IterOrder Z}.

(** The loop that tells the waiting slaves of a failed save; the erasing of the
    entries follows it. *)
Fixpoint refuse_waiting (fds : list Z) (m : ReplicationMaster) (drop : list Z)
    : option (ReplicationMaster * list Z) :=
  match fds with
  | [] => Some (m, drop)
  | fd :: fds =>
      match deref fd m with
      | None => None
      | Some s =>
          if bool_decide (state s = kWaitRdb) then
            let m := SendTo (conn s) (bs "-ERR fullsync save failed" ++ CRLF) m in
            match deref fd m with
            | None => None
            | Some _ => refuse_waiting fds m (drop ++ [fd])
            end
          else refuse_waiting fds m drop
      end
  end.

Definition erase_all (fds : list Z) (m : ReplicationMaster) : ReplicationMaster :=
  set_slaves m (fold_left (fun sl fd => delete fd sl) fds (slaves_ m)).

(** The slaves that wait are told that the save failed. *)
Definition fail_fullsync (m : ReplicationMaster) : option ReplicationMaster :=
  match refuse_waiting (slave_fds m) m [] with
  | None => None
  | Some (m, drop) =>
      let m := erase_all drop m in Some (set_fullsync m false (fullsync_backlog_start_ m))
  end.

(** [slave.backlog_start = fullsync_backlog_start_] for the slaves that wait. *)
Definition align_waiting (m : ReplicationMaster) : ReplicationMaster :=
  set_slaves m ((fun s => if bool_decide (state s = kWaitRdb)
                          then mkSlave (conn s) (state s) (fullsync_backlog_start_ m) else s) <$> slaves_ m).

(** [pid] is what [fork] would return; the directory is created or the save
    fails in its child. *)
Definition StartFullsyncIfNeeded (m : ReplicationMaster) (sn : SnapshotManager) (st : Stores) (pid : Z)
    : option (ReplicationMaster * SnapshotManager) :=
  if save_started_for_fullsync_ m then Some (m, sn)
  else if negb (existsb (waiting m) (slave_fds m)) then Some (m, sn)
  else
    let m := if fullsync_active_ m then m else set_fullsync m true (tip_ (backlog_ m)) in
    let m := align_waiting m in
    if 0 <? child_pid_ sn then Some (m, sn)
    else
      match BackgroundSaveToPath sn st kFullsyncPath pid with
      | (SnapshotManager.kOk, sn) => Some (set_save_started m true, sn)
      | (SnapshotManager.kInProgress, sn) => Some (m, sn)
      | (_, sn) => match fail_fullsync m with Some m => Some (m, sn) | None => None end
      end.

Fixpoint send_rdb_all (fds : list Z) (rdb : option bytes) (m : ReplicationMaster) : option ReplicationMaster :=
  match fds with
  | [] => Some m
  | fd :: fds =>
      match (match FindSlave fd m with Some _ => SendRdbToSlave fd rdb m | None => Some m end) with
      | None => None
      | Some m => send_rdb_all fds rdb m
      end
  end.

Definition BeginSendToWaiters (m : ReplicationMaster) (rdb : option bytes) : option ReplicationMaster :=
  send_rdb_all (filter (fun fd => waiting m fd = true) (slave_fds m)) rdb m.

(** The callback of the snapshot manager. *)
Definition OnSaveDone (ok : bool) (path : bytes) (m : ReplicationMaster) (sn : SnapshotManager) (st : Stores)
    (pid : Z) (fs : Fs) : option (ReplicationMaster * SnapshotManager) :=
  let was_fullsync := save_started_for_fullsync_ m && beq path kFullsyncPath in
  let m := set_save_started m false in
  if was_fullsync then
    match (if ok then BeginSendToWaiters m (files fs !! kFullsyncPath) else fail_fullsync m) with
    | Some m => Some (m, sn)
    | None => None
    end
  else StartFullsyncIfNeeded m sn st pid.

(** ** PSYNC *)

(** Whether it succeeds, and [*reply]; [conn] is not null and [reply] neither. *)
Definition TryPartialResync (client_fd : Z) (offset : Z) (m : ReplicationMaster)
    : option (bool * ReplicationMaster) :=
  if closed_ (conn_of client_fd m) then Some (false, m)
  else if negb (Contains (backlog_ m) offset) then Some (false, m)
  else
    match CopyRange (backlog_ m) offset (tip_ (backlog_ m)) (Some []) with
    | Some (true, Some payload) =>
        let m := set_slaves m (<[client_fd := mkSlave client_fd kSynced offset]> (slaves_ m)) in
        let m := SendTo client_fd (AppendSimpleString [] (bs "CONTINUE")) m in
        Some (true, if is_empty payload then m else SendTo client_fd payload m)
    | Some _ => Some (false, m)
    | None => None
    end.

(** [reply] is not null: the reply, the master and the snapshots. *)
Definition OnPsync (client_fd : Z) (replid : bytes) (offset : Z) (m : ReplicationMaster)
    (sn : ptr SnapshotManager) (st : Stores) (pid : Z)
    : option (bytes * ReplicationMaster * ptr SnapshotManager) :=
  match sn with
  | None => Some (AppendError [] (bs "replication not available"), m, sn)
  | Some sn =>
      if negb (bool_decide (client_fd ∈ conns_ m)) || closed_ (conn_of client_fd m)
      then Some (AppendError [] (bs "unknown connection"), m, Some sn)
      else
        let m := RemoveSlave client_fd m in
        match (if negb (WantsFullsync replid offset) && beq replid (replid_ m) && (0 <=? offset)
               then TryPartialResync client_fd (u64 offset) m else Some (false, m)) with
        | None => None
        | Some (true, m) => Some ([], m, Some sn)
        | Some (false, m) =>
            let m := set_slaves m (<[client_fd := mkSlave client_fd kWaitRdb (tip_ (backlog_ m))]> (slaves_ m)) in
            match StartFullsyncIfNeeded m sn st pid with
            | None => None
            | Some (m, sn) => Some ([], m, Some sn)
            end
        end
  end.

(** ** The stream *)

(** The loop over the slaves, and the slaves it wants to drop. *)
Fixpoint feed_loop (fds : list Z) (frame : bytes) (m : ReplicationMaster) (drop : list Z)
    : option (ReplicationMaster * list Z) :=
  match fds with
  | [] => Some (m, drop)
  | fd :: fds =>
      match deref fd m with
      | None => None
      | Some s =>
          if bool_decide (state s = kSynced) then
            if closed_ (conn_of (conn s) m) then feed_loop fds frame m (drop ++ [fd])
            else
              let m := SendTo (conn s) frame m in
              match deref fd m with
              | None => None
              | Some s =>
                  feed_loop fds frame m
                    (if kReplicaOutputLimit <? Z.of_nat (OutputBufferedBytes (conn_of (conn s) m))
                     then drop ++ [fd] else drop)
              end
          else feed_loop fds frame m (if Contains (backlog_ m) (backlog_start s) then drop else drop ++ [fd])
      end
  end.

Fixpoint drop_loop (fds : list Z) (m : ReplicationMaster) : option ReplicationMaster :=
  match fds with
  | [] => Some m
  | fd :: fds =>
      match FindSlave fd m with
      | Some s =>
          if closed_ (conn_of (conn s) m) then drop_loop fds (set_slaves m (delete fd (slaves_ m)))
          else
            let m := if bool_decide (state s = kSynced) then m
                     else SendTo (conn s) (bs "-ERR backlog overflow" ++ CRLF) m in
            match deref fd m with
            | None => None
            | Some s => drop_loop fds (ForceClose (conn s) m)
            end
      | None => drop_loop fds (set_slaves m (delete fd (slaves_ m)))
      end
  end.

Definition FeedEncodedFrame (frame : bytes) (m : ReplicationMaster) : option ReplicationMaster :=
  match FeedEncoded (backlog_ m) frame with
  | None => None
  | Some (false, b) => Some (set_backlog m b)
  | Some (true, b) =>
      match feed_loop (slave_fds m) frame (set_backlog m b) [] with
      | None => None
      | Some (m, drop) => drop_loop drop m
      end
  end.

End Master.

(** ** The master behind the mutation layer and the dispatcher *)

#[export] Instance master_repl `{OZ : !IterOrder Z} : Repl := {|
  repl_state := option ReplicationMaster;
  MutationApply.has_slaves o := match o with Some m => has_slaves m | None => false end;
  feed_frame o f := match o with Some m => FeedEncodedFrame f m | None => None end
|}.

#[export] Instance master_psync `{U : !Usearch} `{OZ : !IterOrder Z} : CommandHandler.Psync master_repl := {|
  CommandHandler.on_psync fd replid offset pid st sn o :=
    match o with
    | None => ([], sn, None)
    | Some m =>
        match OnPsync fd replid offset m sn st pid with
        | Some (reply, m, sn) => (reply, sn, Some m)
        | None => ([], sn, None)
        end
    end
|}.
