(* ===== verification/ReplicationStream.v ===== *)
(** * ReplicationStream: what a master sends to its replicas

    The connections of ReplicationMaster.v along every run of the master: what a
    replica in sync has been sent is a full resynchronisation or a continuation
    that reaches up to the last write, without a gap and without a repetition. *)

From S2P Require Import Prelude.
From S2P Require Import Stdio.
From S2P Require Import CLib.
From S2P Require Import RespEncode.
From S2P Require Import ReplicationBacklog.
From S2P Require Import Usearch.
From S2P Require Import CommandType.
From S2P Require Import RequestContext.
From S2P Require Import FlatIndex.
From S2P Require Import MutationApply.
From S2P Require Import FileSystem.
From S2P Require Import SnapshotManager.
From S2P Require Import TcpConnection.
From S2P Require Import ReplicationSync.
From S2P Require Import ReplicationMaster.

Create HintDb stream.

(** ** What a connection has been given *)

(** All the bytes handed to an open connection: sent, or still to be sent. *)
Definition sent (c : TcpConn) : bytes := wire c ++ pending c.

Definition conn_ok (c : TcpConn) : Prop := closed_ c = false -> TcpConnection.inv (sent c) c.

(** ** Lemmas: connections *)

Lemma sent_given given c : TcpConnection.inv given c -> closed_ c = false -> sent c = given.
Proof. intros Hi Hc. unfold sent. symmetry. by apply (inv_pending _ _ Hi). Qed.

Lemma conn_ok_given given c : TcpConnection.inv given c -> conn_ok c.
Proof. intros Hi Hc. by rewrite (sent_given _ _ Hi Hc). Qed.

Lemma conn_ok_construct sock : conn_ok (TcpConnection.construct sock).
Proof. intros _. apply inv_construct. Qed.

Lemma conn_ok_closed c : closed_ c = true -> conn_ok c.
Proof. intros H1 H2. congruence. Qed.

#[local] Hint Resolve conn_ok_construct conn_ok_closed : stream.

Lemma Send_cases c data :
  conn_ok c -> closed_ c = false -> data <> [] ->
  let '(_, evs, c') := Send c (Some data) in
  closed_ c' = false /\ evs = [] /\ sent c' = sent c ++ data /\ conn_ok c' /\
    sendfile_fd_ c' = sendfile_fd_ c /\ sendfile_done_ c' = sendfile_done_ c \/
  closed_ c' = true /\ closes evs.
Proof.
  intros Hok Hc Hd. pose proof (inv_Send (sent c) c (Some data) (Hok Hc)) as Hi. rewrite Hc in Hi. cbn [default orb] in Hi.
  unfold id in Hi. apply is_empty_false in Hd. rewrite Hd in Hi.
  assert (forall c', TcpConnection.inv (sent c ++ data) c' -> closed_ c' = false ->
    sent c' = sent c ++ data /\ conn_ok c') as Hs.
  { intros c' Hi' Ho. split; [by apply sent_given|by eapply conn_ok_given]. }
  unfold Send in *. rewrite Hc, Hd in Hi |- *. cbn [orb] in Hi |- *. destruct (sendfile_fd_ c) eqn:Ef.
  { left. cbn in *. destruct (Hs _ Hi Hc). by rewrite Ef. }
  destruct (negb (is_empty (output_buffer_ c))).
  { left. cbn in *. destruct (Hs _ Hi Hc). by rewrite Ef. }
  destruct (syscall data c) as [r d] eqn:E. apply syscall_rounds in E as (E1 & E2 & E3 & _). destruct r as [n| |].
  - assert (closed_ d = false) as Hd' by congruence.
    left. cbn [snd] in Hi. destruct (n <? length data)%nat; (destruct (Hs _ Hi Hd'));
      split_and!; done || (cbn; congruence).
  - left. cbn [snd] in Hi. destruct (Hs _ Hi ltac:(cbn; congruence)). split_and!; done || (cbn; congruence).
  - pose proof (Close_outcome d ltac:(congruence)) as HC. destruct (TcpConnection.Close d). by right.
Qed.

(** A round of [HandleWrite] gives the connection nothing. *)
Lemma round_cases c again evs c' :
  conn_ok c -> closed_ c = false -> HandleWrite_round c = (again, evs, c') ->
  closed_ c' = false /\ sent c' = sent c /\ conn_ok c' /\
    (evs = [] /\ sendfile_fd_ c' = sendfile_fd_ c /\ sendfile_done_ c' = sendfile_done_ c \/
     is_Some (sendfile_fd_ c) /\ sendfile_fd_ c' = None /\
       evs = if sendfile_done_ c then [SendFileDone true] else []) \/
  closed_ c' = true /\ closes evs.
Proof.
  intros Hok Hc E. pose proof (inv_round (sent c) c (Hok Hc) Hc) as Hi. rewrite E in Hi. cbn in Hi.
  apply round_outcome in E as [_ [[Ho He]|(_ & Ho & He)]]; [|by right|done].
  left. split_and!; [done|by apply sent_given|by eapply conn_ok_given|done].
Qed.

(** ** Lemmas: operations on one connection *)

(** Only the slave and the connection [fd] have changed. *)
Record others (fd : Z) (m m' : ReplicationMaster) : Prop := {
  ot_backlog : backlog_ m' = backlog_ m;
  ot_replid : replid_ m' = replid_ m;
  ot_start : fullsync_backlog_start_ m' = fullsync_backlog_start_ m;
  ot_slave : forall fd', fd' <> fd -> slaves_ m' !! fd' = slaves_ m !! fd';
  ot_conn : forall fd', fd' <> fd -> conn_of fd' m' = conn_of fd' m;
  ot_conns : forall fd', fd' <> fd -> (fd' ∈ conns_ m' <-> fd' ∈ conns_ m)
}.

Lemma others_refl fd m : others fd m m.
Proof. by split. Qed.

Lemma others_trans fd m1 m2 m3 : others fd m1 m2 -> others fd m2 m3 -> others fd m1 m3.
Proof.
  intros [A1 A2 A3 A4 A5 A6] [B1 B2 B3 B4 B5 B6]. split; try congruence; intros fd' Hne.
  - by rewrite B4, A4.
  - by rewrite B5, A5.
  - by rewrite B6, A6.
Qed.

#[export] Instance others_preorder fd : PreOrder (others fd).
Proof. split; [intros m; apply others_refl|intros m1 m2 m3; apply others_trans]. Qed.

Lemma others_set_conn fd c m : others fd m (set_conn fd c m).
Proof.
  split; try done. intros fd' Hne. unfold conn_of, set_conn. cbn. by rewrite lookup_insert_ne.
Qed.

Lemma others_set_state fd st m : others fd m (set_state fd st m).
Proof. split; try done. intros fd' Hne. cbn. by rewrite lookup_alter_ne. Qed.

Lemma others_RemoveSlave fd m : others fd m (RemoveSlave fd m).
Proof. unfold RemoveSlave. destruct (_ && _); (split; try done; intros fd' Hne; cbn; by rewrite lookup_delete_ne). Qed.

Lemma others_set_fullsync fd a m : others fd m (set_fullsync m a (fullsync_backlog_start_ m)).
Proof. by split. Qed.

#[local] Hint Resolve others_refl others_set_conn others_set_state others_RemoveSlave others_set_fullsync : stream.

Lemma others_close_cb fd m : others fd m (close_cb fd m).
Proof.
  unfold close_cb. etrans; [apply others_RemoveSlave|]. split; try done. intros fd' Hne. cbn. set_solver.
Qed.

#[local] Hint Resolve others_close_cb : stream.

Lemma others_closing fd e m : others fd m (closing_event fd m e).
Proof. destruct e as [[]| |]; cbn; auto with stream. destruct (FindSlave fd m); auto with stream. Qed.

#[local] Hint Resolve others_closing : stream.

Lemma others_events fd evs m : others fd m (fold_left (closing_event fd) evs m).
Proof.
  revert m. induction evs as [|e evs IH]; intros m; cbn; [auto with stream|].
  etrans; [apply others_closing|apply IH].
Qed.

Lemma others_SendTo fd data m : others fd m (SendTo fd data m).
Proof.
  unfold SendTo. destruct (Send _ _) as [[? evs] c]. etrans; [apply others_set_conn|apply others_events].
Qed.

Lemma others_ForceClose fd m : others fd m (ForceClose fd m).
Proof.
  unfold ForceClose. destruct (TcpConnection.Close _) as [evs c]. etrans; [apply others_set_conn|apply others_events].
Qed.

#[local] Hint Resolve others_SendTo others_ForceClose : stream.

(** ** The invariant *)

(** What the slave [s], whose connection had been given [given] when PSYNC
    arrived, has been told since, when the frames [hs] have been fed: nothing
    yet; a snapshot with [P]; or, in sync, everything.  [C]: it may have been told to
    continue. *)
Definition told (hs : list bytes) (P : bytes -> Prop) (C : Prop) (given replid : bytes) (s : Slave) (c : TcpConn) : Prop :=
  match state s with
  | kWaitRdb =>
      sendfile_fd_ c = None /\ sent c = given /\
      exists pre post, hs = pre ++ post /\ backlog_start s = size_of (mjoin pre)
  | kSendingRdb =>
      is_Some (sendfile_fd_ c) /\ sendfile_done_ c = true /\
      exists pre post img, hs = pre ++ post /\ backlog_start s = size_of (mjoin pre) /\ P img /\
        sent c = given ++ reply_line replid (backlog_start s) ++ bulk_header (size_of img) ++ img
  | kSendingBacklog => False
  | kSynced =>
      sendfile_fd_ c = None /\
      ((exists pre mid live img, hs = pre ++ mid ++ live /\ backlog_start s = size_of (mjoin pre) /\ P img /\
          sent c = given ++ transcript replid (backlog_start s) img (mjoin mid) (mjoin live)) \/
       (C /\ 0 <= backlog_start s <= size_of (mjoin hs) /\
        sent c = given ++ bs "+CONTINUE" ++ CRLF ++ drop (Z.to_nat (backlog_start s)) (mjoin hs)))
  end.

Definition replid_good (replid : bytes) : Prop := Forall (fun c => c ∈ kHex) replid /\ length replid = kReplidLen.

Lemma replid_good_not c replid : c ∉ kHex -> replid_good replid -> c ∉ replid.
Proof. intros Hc [Hr _] H. by apply Hc, (proj1 (Forall_elem _ _) Hr). Qed.

Lemma replid_good_ok replid : replid_good replid -> replid_ok replid.
Proof.
  intros H. split_and!; [by destruct H, replid|..]; (eapply replid_good_not; [|exact H]); apply (bool_decide_unpack _); by vm_compute.
Qed.

(** [given fd] is what the connection [fd] had been given when PSYNC arrived, and
    [pic fd] holds of the snapshots that may be sent on it; [cont fd]: it may have
    been told to continue. *)
Section Given.
Context (given : Z -> bytes) (pic : Z -> bytes -> Prop) (cont : Z -> Prop).

Definition slave_ok (hs : list bytes) (m : ReplicationMaster) (fd : Z) : Prop :=
  forall s, slaves_ m !! fd = Some s ->
    conn s = fd /\ fd ∈ conns_ m /\ closed_ (conn_of fd m) = false /\ told hs (pic fd) (cont fd) (given fd) (replid_ m) s (conn_of fd m).

Record master_ok (hs : list bytes) (m : ReplicationMaster) : Prop := {
  mo_backlog : holds (backlog_ m) (mjoin hs);
  mo_replid : replid_good (replid_ m);
  mo_conns : forall fd, conn_ok (conn_of fd m);
  mo_slaves : forall fd, slave_ok hs m fd;
  mo_start : exists pre post, hs = pre ++ post /\ fullsync_backlog_start_ m = size_of (mjoin pre)
}.

(** ** Lemmas: the invariant *)

Lemma slave_ok_gone hs m fd : slaves_ m !! fd = None -> slave_ok hs m fd.
Proof. intros H s Hs. congruence. Qed.

Lemma slave_ok_others hs m m' fd fd' :
  others fd m m' -> fd' <> fd -> slave_ok hs m fd' -> slave_ok hs m' fd'.
Proof.
  intros Ho Hne Hs s E. rewrite (ot_slave _ _ _ Ho fd' Hne) in E. destruct (Hs s E) as (H1 & H2 & H3 & H4).
  rewrite (ot_conn _ _ _ Ho fd' Hne), (ot_replid _ _ _ Ho), (ot_conns _ _ _ Ho fd' Hne). done.
Qed.

(** An operation on [fd] keeps the invariant if it does so for [fd]. *)
Lemma master_ok_others hs m m' fd :
  master_ok hs m -> others fd m m' -> conn_ok (conn_of fd m') -> slave_ok hs m' fd -> master_ok hs m'.
Proof.
  intros [H1 H2 H3 H4 H5] Ho Hc Hs. split.
  - by rewrite (ot_backlog _ _ _ Ho).
  - by rewrite (ot_replid _ _ _ Ho).
  - intros fd'. destruct (decide (fd' = fd)) as [->|Hne]; [done|]. by rewrite (ot_conn _ _ _ Ho fd' Hne).
  - intros fd'. destruct (decide (fd' = fd)) as [->|Hne]; [done|]. by apply (slave_ok_others hs m m' fd).
  - by rewrite (ot_start _ _ _ Ho).
Qed.

Lemma conn_of_set_conn fd c m : conn_of fd (set_conn fd c m) = c.
Proof. unfold conn_of, set_conn. cbn. by rewrite lookup_insert_eq. Qed.

Lemma net_closing fd m e : net (closing_event fd m e) = net m.
Proof.
  assert (forall fd m, net (RemoveSlave fd m) = net m) as Hr by (intros; unfold RemoveSlave; by destruct (_ && _)).
  destruct e as [[]| |]; try done; [|apply Hr]. cbn. destruct (FindSlave fd m); [apply Hr|done].
Qed.

Lemma RemoveSlave_gone fd m : slaves_ (RemoveSlave fd m) !! fd = None.
Proof. unfold RemoveSlave. destruct (_ && _); cbn; by rewrite lookup_delete_eq. Qed.

Lemma closing_gone fd m e : slaves_ m !! fd = None -> slaves_ (closing_event fd m e) !! fd = None.
Proof.
  intros H. destruct e as [[]| |]; cbn; try done.
  - unfold FindSlave. by rewrite H.
  - apply RemoveSlave_gone.
Qed.

(** A closing connection loses its slave. *)
Lemma closes_gone fd evs m : closes evs -> slaves_ (fold_left (closing_event fd) evs m) !! fd = None.
Proof. intros [->| ->]; cbn; apply RemoveSlave_gone. Qed.

Lemma net_events fd evs m : net (fold_left (closing_event fd) evs m) = net m.
Proof. revert m. induction evs as [|e evs IH]; intros m; cbn; [done|]. by rewrite IH, net_closing. Qed.

Lemma conn_of_net fd m m' : net m' = net m -> conn_of fd m' = conn_of fd m.
Proof. unfold conn_of. by intros ->. Qed.

(** Sending on an open connection: it has been given the data, or it is closed
    and its slave gone. *)
Lemma SendTo_cases fd data m :
  conn_ok (conn_of fd m) -> closed_ (conn_of fd m) = false -> data <> [] ->
  let m' := SendTo fd data m in
  closed_ (conn_of fd m') = false /\ slaves_ m' = slaves_ m /\ conns_ m' = conns_ m /\
    sent (conn_of fd m') = sent (conn_of fd m) ++ data /\ conn_ok (conn_of fd m') /\
    sendfile_fd_ (conn_of fd m') = sendfile_fd_ (conn_of fd m) /\
    sendfile_done_ (conn_of fd m') = sendfile_done_ (conn_of fd m) \/
  closed_ (conn_of fd m') = true /\ slaves_ m' !! fd = None.
Proof.
  intros Hok Hc Hd. unfold SendTo. pose proof (Send_cases _ data Hok Hc Hd) as HS.
  destruct (Send (conn_of fd m) (Some data)) as [[? evs] c]. cbv zeta.
  destruct HS as [(H1 & -> & H2 & H3 & H4 & H5)|[H1 H2]].
  - left. cbn [fold_left]. by rewrite conn_of_set_conn.
  - right. rewrite (conn_of_net _ _ _ (net_events fd evs _)), conn_of_set_conn. split; [done|by apply closes_gone].
Qed.

(** A slave that is gone stays gone, whatever is sent. *)
Lemma SendTo_gone fd data m : slaves_ m !! fd = None -> slaves_ (SendTo fd data m) !! fd = None.
Proof.
  intros H. unfold SendTo. destruct (Send _ _) as [[? evs] c].
  assert (slaves_ (set_conn fd c m) !! fd = None) as H' by done. revert H'. generalize (set_conn fd c m).
  induction evs as [|e evs IH]; intros m' H'; cbn; [done|]. by apply IH, closing_gone.
Qed.

Lemma SendTo_conn_ok fd data m : conn_ok (conn_of fd m) -> conn_ok (conn_of fd (SendTo fd data m)).
Proof.
  intros Hok. destruct (closed_ (conn_of fd m)) eqn:Hc; [|destruct (decide (data = [])) as [->|Hd]].
  - unfold SendTo, Send. rewrite Hc. cbn. rewrite conn_of_set_conn. auto with stream.
  - unfold SendTo, Send. rewrite Hc. cbn. by rewrite conn_of_set_conn.
  - pose proof (SendTo_cases fd data m Hok Hc Hd) as HS. cbv zeta in HS.
    destruct HS as [HS|[HS _]]; [apply HS|auto with stream].
Qed.

Lemma closing_slave fd m e s : slaves_ (closing_event fd m e) !! fd = Some s -> slaves_ m !! fd = Some s.
Proof.
  destruct e as [[]| |]; try done; cbn.
  - destruct (FindSlave fd m) eqn:E; [|done]. by rewrite RemoveSlave_gone.
  - by rewrite RemoveSlave_gone.
Qed.

Lemma events_slave fd evs m s :
  slaves_ (fold_left (closing_event fd) evs m) !! fd = Some s -> slaves_ m !! fd = Some s.
Proof.
  revert m. induction evs as [|e evs IH]; intros m H; cbn in H; [done|]. by apply IH, closing_slave in H.
Qed.

Lemma SendTo_slave fd data m s : slaves_ (SendTo fd data m) !! fd = Some s -> slaves_ m !! fd = Some s.
Proof. unfold SendTo. destruct (Send _ _) as [[? evs] c]. intros H. by apply events_slave in H. Qed.

(** The outcome of an operation on the slave [fd]. *)
Definition kept (hs : list bytes) (fd : Z) (m m' : ReplicationMaster) : Prop :=
  others fd m m' /\ conn_ok (conn_of fd m') /\ slave_ok hs m' fd.

Lemma conn_of_RemoveSlave fd fd' m : conn_of fd' (RemoveSlave fd m) = conn_of fd' m.
Proof. unfold RemoveSlave. by destruct (_ && _). Qed.

Lemma conns_RemoveSlave fd m : conns_ (RemoveSlave fd m) = conns_ m.
Proof. unfold RemoveSlave. by destruct (_ && _). Qed.

Lemma kept_removed hs fd m m' : others fd m m' -> conn_ok (conn_of fd m') -> kept hs fd m (RemoveSlave fd m').
Proof.
  intros Ho Hc. split_and!.
  - etrans; [exact Ho|apply others_RemoveSlave].
  - by rewrite conn_of_RemoveSlave.
  - apply slave_ok_gone, RemoveSlave_gone.
Qed.

(** A slave that is still there after a send has an open connection. *)
Lemma SendTo_open fd data m s :
  conn_ok (conn_of fd m) -> closed_ (conn_of fd m) = false -> slaves_ (SendTo fd data m) !! fd = Some s ->
  closed_ (conn_of fd (SendTo fd data m)) = false.
Proof.
  intros Hok Hc Hs. destruct (decide (data = [])) as [->|Hd].
  - unfold SendTo, Send. rewrite Hc. cbn. by rewrite conn_of_set_conn.
  - pose proof (SendTo_cases fd data m Hok Hc Hd) as HS. cbv zeta in HS.
    destruct HS as [HS|[_ HS]]; [apply HS|congruence].
Qed.

Lemma refuse_kept hs fd msg m m' :
  (forall s, slaves_ m !! fd = Some s -> conn s = fd) -> conn_ok (conn_of fd m) -> closed_ (conn_of fd m) = false ->
  refuse fd msg m = Some m' -> kept hs fd m m' /\ closed_ (conn_of fd m') = false.
Proof.
  intros Hs Hok Hc H. unfold refuse, deref in H. destruct (slaves_ (SendTo _ _ _) !! fd) as [s|] eqn:E; [|done].
  injection H as <-. rewrite (Hs s (SendTo_slave _ _ _ _ E)). split; [|rewrite conn_of_RemoveSlave].
  - apply kept_removed; [apply others_SendTo|by apply SendTo_conn_ok].
  - by eapply SendTo_open.
Qed.

Lemma print_signed_size (l : bytes) : print_signed (size_of l) = print_unsigned (size_of l).
Proof. unfold print_signed, size_of. destruct (Z.ltb_spec (Z.of_nat (length l)) 0); [lia|done]. Qed.

Lemma bulk_len_header (l : bytes) : bulk_len (size_of l) = bulk_header (size_of l).
Proof. unfold bulk_len, bulk_header. by rewrite print_signed_size. Qed.

Lemma bulk_len_nonempty n : bulk_len n <> [].
Proof. done. Qed.

(** From the offset of a frame on, the backlog holds the frames after it. *)
Lemma CopyRange_frames b pre post :
  holds b (mjoin (pre ++ post)) -> Contains b (size_of (mjoin pre)) = true ->
  CopyRange b (size_of (mjoin pre)) (tip_ b) (Some []) = Some (true, Some (mjoin post)).
Proof.
  intros Hh Hc. rewrite (CopyRange_holds b _ _ _ _ Hh) by apply size_of_nonneg. rewrite Hc.
  pose proof (holds_tip _ _ Hh) as Ht. rewrite join_app, size_of_app in Ht. pose proof (size_of_nonneg (mjoin post)).
  rewrite !(proj2 (Z.leb_le _ _)) by lia. cbn [andb]. do 3 f_equal. rewrite join_app, Ht.
  replace (size_of (mjoin pre) + size_of (mjoin post) - size_of (mjoin pre)) with (size_of (mjoin post)) by lia.
  unfold size_of. rewrite !Nat2Z.id. rewrite <- (app_nil_r (mjoin post)) at 2. apply sub_app_exact.
Qed.

Lemma SendBacklog_kept hs fd m m' s pre post img :
  holds (backlog_ m) (mjoin hs) -> conn_ok (conn_of fd m) -> slaves_ m !! fd = Some s -> conn s = fd ->
  fd ∈ conns_ m -> closed_ (conn_of fd m) = false -> sendfile_fd_ (conn_of fd m) = None ->
  hs = pre ++ post -> backlog_start s = size_of (mjoin pre) -> pic fd img ->
  sent (conn_of fd m) = given fd ++ reply_line (replid_ m) (backlog_start s) ++ bulk_header (size_of img) ++ img ->
  SendBacklogToSlave fd m = Some m' -> kept hs fd m m' /\ closed_ (conn_of fd m') = false.
Proof.
  intros Hh Hok Hs Hcs Hin Hc Hf Hhs Hbs Hpic Hsent H. unfold SendBacklogToSlave in H. rewrite Hs, Hcs in H.
  rewrite Hc in H. set (m1 := set_state fd kSendingBacklog m) in *.
  assert (slaves_ m1 !! fd = Some (mkSlave fd kSendingBacklog (backlog_start s))) as Hs1
    by (cbn; rewrite lookup_alter_eq, Hs; cbn; by rewrite Hcs).
  assert (others fd m m1) as Ho1 by apply others_set_state.
  assert (forall s', slaves_ m1 !! fd = Some s' -> conn s' = fd) as Hconn by (intros s'; rewrite Hs1; by intros [= <-]).
  assert (forall msg m2, refuse fd msg m1 = Some m2 -> kept hs fd m m2 /\ closed_ (conn_of fd m2) = false) as Hrefuse.
  { intros msg m2 H2. destruct (refuse_kept hs fd msg m1 m2 Hconn Hok Hc H2) as ((H3 & H4 & H5) & H6).
    split; [split_and!; [by etrans|done|done]|done]. }
  change (backlog_ m1) with (backlog_ m) in H. rewrite Hhs in Hh. rewrite Hbs in H, Hs1.
  destruct (Contains (backlog_ m) _) eqn:Hcon; cbn [negb] in H; [|by eapply Hrefuse].
  rewrite (CopyRange_frames _ _ _ Hh Hcon), bulk_len_header in H.
  set (m2 := SendTo fd (bulk_header _) m1) in *.
  pose proof (SendTo_cases fd (bulk_header (size_of (mjoin post))) m1 Hok Hc ltac:(done)) as HC.
  cbv zeta in HC. fold m2 in HC. unfold deref in H.
  destruct HC as [(A1 & A2 & A3 & A4 & A5 & A6 & A7)|[B1 B2]]; cycle 1.
  { destruct (is_empty _); by rewrite B2 in H. }
  assert (exists m3, (if is_empty (mjoin post) then Some m2
    else match slaves_ m2 !! fd with None => None | Some s => Some (SendTo (conn s) (mjoin post) m2) end) = Some m3 /\
    others fd m2 m3 /\
    (closed_ (conn_of fd m3) = false /\ slaves_ m3 = slaves_ m2 /\ conns_ m3 = conns_ m2 /\
       sent (conn_of fd m3) = sent (conn_of fd m2) ++ mjoin post /\ conn_ok (conn_of fd m3) /\
       sendfile_fd_ (conn_of fd m3) = None \/ slaves_ m3 !! fd = None)) as (m3 & E3 & Ho3 & Hm3).
  { destruct (is_empty (mjoin post)) eqn:Ee.
    - exists m2. apply is_empty_true in Ee. rewrite Ee, app_nil_r. split_and!; [done|done|]. left. by rewrite A6.
    - apply is_empty_false in Ee. rewrite <- A2 in Hs1. rewrite Hs1. cbn [conn]. eexists. split_and!; [done|apply others_SendTo|].
      destruct (SendTo_cases fd (mjoin post) m2 A5 A1 Ee) as [(D1 & D2 & D3 & D4 & D5 & D6 & D7)|[_ D2]]; [left|by right].
      split_and!; try done. rewrite D6, A6. exact Hf. }
  rewrite E3 in H. destruct Hm3 as [(D1 & D2 & D3 & D4 & D5 & D6)|D2]; [|by rewrite D2 in H].
  rewrite D2, A2, Hs1 in H. cbv beta iota in H.
  assert (others fd m m3) as Ho by (etrans; [exact Ho1|]; etrans; [apply others_SendTo|exact Ho3]).
  assert (kept hs fd m (set_state fd kSynced m3)) as Hk.
  { split_and!; [etrans; [exact Ho|apply others_set_state]|done|].
    intros s' Hs'. cbn in Hs'. rewrite lookup_alter_eq, D2, A2, Hs1 in Hs'. injection Hs' as <-. cbn.
    split_and!; [done|by rewrite D3, A3|done|done|]. left. exists pre, post, [], img.
    rewrite app_nil_r. split_and!; [done|done|done|].
    change (sent (conn_of fd m3) = given fd ++ transcript (replid_ m3) (size_of (mjoin pre)) img (mjoin post) []).
    rewrite D4, A4. change (conn_of fd m1) with (conn_of fd m). rewrite Hsent, Hbs, (ot_replid _ _ _ Ho).
    unfold transcript. by rewrite app_nil_r, <- !app_assoc. }
  injection H as <-. destruct (any_active _); [done|]. destruct Hk as (H1 & H2 & H3). split; [|exact D1].
  split_and!; [etrans; [exact H1|exact (others_set_fullsync fd false (set_state fd kSynced m3))]|done|exact H3].
Qed.

(** ** Lemmas: files *)

Lemma callbacks_closes {World} (cb : Event -> World -> option World) (f : World -> Event -> World) evs w :
  closes evs -> (forall w, cb (SendFileDone false) w = Some (f w (SendFileDone false))) ->
  (forall w, cb Closed w = Some (f w Closed)) -> callbacks cb evs w = Some (fold_left f evs w).
Proof. intros [->| ->] H1 H2; cbn; [by rewrite H2|by rewrite H1, H2]. Qed.

(** One round of [HandleWrite], with the callbacks of the master. *)
Lemma round_kept hs fd m again evs c m' :
  holds (backlog_ m) (mjoin hs) -> conn_ok (conn_of fd m) -> slave_ok hs m fd -> closed_ (conn_of fd m) = false ->
  HandleWrite_round (conn_of fd m) = (again, evs, c) ->
  callbacks (on_event fd) evs (set_conn fd c m) = Some m' ->
  kept hs fd m m' /\ (again = true -> closed_ (conn_of fd m') = false).
Proof.
  intros Hh Hok Hsl Hc E H. pose proof (round_cases _ _ _ _ Hok Hc E) as [(Ho & Hs & Hok' & He)|[Ho He]]; cycle 1.
  { rewrite (callbacks_closes _ (closing_event fd)) in H by done. injection H as <-.
    apply round_outcome in E as [_ [[E _]|[-> _]]]; [congruence| |done]. split; [|done].
    split_and!; [etrans; [apply others_set_conn|apply others_events]|..].
    + rewrite (conn_of_net _ _ _ (net_events fd evs _)), conn_of_set_conn. auto with stream.
    + apply slave_ok_gone. by apply closes_gone. }
  destruct He as [(-> & Hf & Hd)|(Hf & Hf' & ->)].
    + cbn in H. injection H as <-. split; [|by rewrite conn_of_set_conn].
      split_and!; [apply others_set_conn|by rewrite conn_of_set_conn|].
      intros s Es. destruct (Hsl s Es) as (H1 & H2 & H3 & H4). rewrite conn_of_set_conn.
      split_and!; [done|done|done|]. unfold told in *. rewrite Hf, Hs, Hd. exact H4.
    + assert (forall m1, others fd m m1 -> conn_ok (conn_of fd m1) -> slaves_ m1 !! fd = None -> kept hs fd m m1) as Hgone
        by (intros; split_and!; auto using slave_ok_gone).
      destruct (slaves_ m !! fd) as [s|] eqn:Es.
      * destruct (Hsl s Es) as (H1 & H2 & H3 & H4). unfold told in H4.
        destruct (state s) eqn:Est; try done; try (destruct H4 as [H4 _]; rewrite H4 in Hf; by destruct Hf).
        destruct H4 as (_ & Hd & pre & post & img & Hhs & Hbs & Hpic & Hsent). rewrite Hd in H. cbn in H.
        unfold FindSlave in H. cbn in H. rewrite Es in H.
        destruct (SendBacklogToSlave fd (set_conn fd c m)) as [m1|] eqn:EB; [|done]. injection H as <-.
        destruct (SendBacklog_kept hs fd (set_conn fd c m) m1 s pre post img) as ((K1 & K2 & K3) & K4);
          rewrite ?conn_of_set_conn; try done.
        { by rewrite Hs. }
        split; [|done]. split_and!; [|done|done]. etrans; [apply others_set_conn|exact K1].
      * assert (m' = set_conn fd c m) as ->.
        { destruct (sendfile_done_ (conn_of fd m)); cbn in H; [|by injection H].
          unfold FindSlave in H. cbn in H. rewrite Es in H. by injection H. }
        split; [|by rewrite conn_of_set_conn]. apply Hgone; [apply others_set_conn|by rewrite conn_of_set_conn|done].
Qed.

Lemma kept_refl hs fd m : conn_ok (conn_of fd m) -> slave_ok hs m fd -> kept hs fd m m.
Proof. intros. by split_and!. Qed.

Lemma kept_trans hs fd m1 m2 m3 : kept hs fd m1 m2 -> kept hs fd m2 m3 -> kept hs fd m1 m3.
Proof. intros (A1 & A2 & A3) (B1 & B2 & B3). split_and!; [by etrans|done|done]. Qed.

Lemma HandleWrite_kept hs fd fuel m m' :
  holds (backlog_ m) (mjoin hs) -> conn_ok (conn_of fd m) -> slave_ok hs m fd -> closed_ (conn_of fd m) = false ->
  HandleWrite (conn_of fd) (set_conn fd) (on_event fd) fuel m = Some m' -> kept hs fd m m'.
Proof.
  revert m. induction fuel as [|fuel IH]; intros m Hh Hok Hsl Hc H; [done|]. cbn [HandleWrite] in H.
  destruct (HandleWrite_round (conn_of fd m)) as [[again evs] c] eqn:E.
  destruct (callbacks (on_event fd) evs (set_conn fd c m)) as [m1|] eqn:EC; [|done].
  destruct (round_kept hs fd m again evs c m1 Hh Hok Hsl Hc E EC) as [Hk Ho].
  destruct again; [|by injection H as <-]. eapply kept_trans; [exact Hk|]. destruct Hk as (H1 & H2 & H3).
  apply IH; auto. by rewrite (ot_backlog _ _ _ H1).
Qed.

Lemma SendFile_cases c path content :
  conn_ok c -> closed_ c = false -> sendfile_fd_ c = None -> is_empty path = false ->
  let '(ok, c') := SendFile c path (Some content) true in
  ok = true /\ closed_ c' = false /\ sent c' = sent c ++ content /\ conn_ok c' /\ is_Some (sendfile_fd_ c') /\
  sendfile_done_ c' = true.
Proof.
  intros Hok Hc Hf Hp. pose proof (inv_SendFile (sent c) c path (Some content) true (Hok Hc)) as Hi.
  unfold SendFile in *. rewrite Hc, Hp, Hf in Hi |- *. cbn [orb default] in Hi |- *. unfold id in Hi.
  destruct Hi as [Hi _].
  split_and!; [done|done| | |by eexists|done].
  - apply (sent_given (sent c ++ content)); [exact Hi|exact Hc].
  - by eapply conn_ok_given.
Qed.

Lemma c_str_id (s : bytes) : NUL ∉ s -> c_str s = s.
Proof.
  intros H. rewrite <- (app_nil_r s) at 1. rewrite c_str_app; [by rewrite app_nil_r|].
  apply Forall_elem. by intros c Hc ->.
Qed.

Lemma SendRdb_kept hs fd rdb m m' s :
  master_ok hs m -> slaves_ m !! fd = Some s -> state s = kWaitRdb -> (forall img, rdb = Some img -> pic fd img) -> SendRdbToSlave fd rdb m = Some m' ->
  kept hs fd m m'.
Proof.
  intros [Hh Hn%(replid_good_not NUL) Hcs Hsl _] Hs Hst Hpic H; [|apply (bool_decide_unpack _); by vm_compute]. destruct (Hsl fd s Hs) as (Hconn & Hin & Hc & Ht). unfold told in Ht.
  rewrite Hst in Ht. destruct Ht as (Hf & Hgv & pre & post & Hhs & Hbs). unfold SendRdbToSlave in H.
  rewrite Hs, Hconn, Hc in H. destruct rdb as [img|]; cycle 1.
  { apply (refuse_kept hs) in H as [H _]; [done| |done|done]. intros s' Hs'. congruence. }
  set (m1 := set_state fd kSendingRdb m) in *.
  assert (slaves_ m1 !! fd = Some (mkSlave fd kSendingRdb (backlog_start s))) as Hs1
    by (cbn; rewrite lookup_alter_eq, Hs; cbn; by rewrite Hconn).
  change (replid_ m1) with (replid_ m) in H. rewrite (c_str_id _ Hn), bulk_len_header in H.
  set (hdr := AppendSimpleString [] _ ++ bulk_header _) in *.
  assert (hdr = reply_line (replid_ m) (backlog_start s) ++ bulk_header (size_of img)) as Hhdr by done.
  clearbody hdr. pose proof (SendTo_cases fd hdr m1 (Hcs fd) Hc ltac:(by rewrite Hhdr)) as HC.
  cbv zeta in HC. set (m2 := SendTo fd hdr m1) in *. unfold deref in H.
  assert (others fd m m2) as Ho2 by (etrans; [apply (others_set_state fd kSendingRdb)|apply others_SendTo]).
  destruct HC as [(A1 & A2 & A3 & A4 & A5 & A6 & A7)|[_ B2]]; [|by rewrite B2 in H].
  assert (slaves_ m2 !! fd = Some (mkSlave fd kSendingRdb (backlog_start s))) as Hs2 by (by rewrite A2).
  rewrite Hs2 in H. cbn [conn] in H.
  pose proof (SendFile_cases (conn_of fd m2) kFullsyncPath img A5 A1 ltac:(by rewrite A6) eq_refl) as HF.
  destruct (SendFile _ _ _ _) as [ok c]. destruct HF as (-> & F1 & F2 & F3 & F4 & F5).
  assert (slave_ok hs (set_conn fd c m2) fd) as Hsl3.
  { intros s' Hs'. cbn in Hs'. rewrite Hs2 in Hs'. injection Hs' as <-. rewrite conn_of_set_conn. cbn.
    split_and!; [done|by rewrite A3|done|done|done|]. exists pre, post, img.
    split_and!; [done|done|by apply Hpic|]. rewrite F2, A4, <- Hgv, Hhdr, (ot_replid _ _ _ Ho2). cbn [backlog_start].
    change (conn_of fd m1) with (conn_of fd m).
    unfold reply_line, simple_string, reply_text, bulk_header. by rewrite <- !app_assoc. }
  eapply kept_trans; [|apply (HandleWrite_kept hs) in H; [exact H|..]]; rewrite ?conn_of_set_conn; try done.
  - split_and!; [etrans; [exact Ho2|apply others_set_conn]|by rewrite conn_of_set_conn|done].
  - cbn. by rewrite (ot_backlog _ _ _ Ho2).
Qed.

(** ** Lemmas: operations on all slaves *)

Lemma master_ok_kept hs fd m m' : master_ok hs m -> kept hs fd m m' -> master_ok hs m'.
Proof. intros Hm (H1 & H2 & H3). by apply (master_ok_others hs m m' fd). Qed.

(** Changes that no slave can observe. *)
Lemma master_ok_flags hs m m' :
  master_ok hs m -> backlog_ m' = backlog_ m -> replid_ m' = replid_ m -> slaves_ m' = slaves_ m ->
  conns_ m' = conns_ m -> net m' = net m ->
  (exists pre post, hs = pre ++ post /\ fullsync_backlog_start_ m' = size_of (mjoin pre)) -> master_ok hs m'.
Proof.
  intros [H1 H2 H3 H4 H5] E1 E2 E3 E4 E5 E6. split; rewrite ?E1, ?E2; try done.
  - intros fd. by rewrite (conn_of_net fd _ _ E5).
  - intros fd s Hs. rewrite E3 in Hs. rewrite E2, E4, (conn_of_net fd _ _ E5). by apply H4.
Qed.

Lemma lookup_erase_all fds m fd :
  slaves_ (erase_all fds m) !! fd = if decide (fd ∈ fds) then None else slaves_ m !! fd.
Proof.
  unfold erase_all. cbn. generalize (slaves_ m). induction fds as [|f fds IH]; intros sl; cbn; [done|].
  rewrite IH. destruct (decide (fd = f)) as [->|Hne].
  - rewrite lookup_delete_eq, (decide_True (P := f ∈ f :: fds)) by (by left). by destruct (decide _).
  - rewrite lookup_delete_ne by done. destruct (decide (fd ∈ fds)) as [H|H].
    + by rewrite decide_True by (by right).
    + rewrite decide_False; [done|]. by intros [?|?]%elem_of_cons.
Qed.

Lemma master_ok_erase hs fds m : master_ok hs m -> master_ok hs (erase_all fds m).
Proof.
  intros [H1 H2 H3 H4 H5]. split; try done. intros fd s Hs. rewrite lookup_erase_all in Hs.
  destruct (decide _); [done|]. by apply H4.
Qed.

(** The slaves that have been refused are as good as erased. *)
Lemma refuse_waiting_ok hs fds m drop m' drop' :
  NoDup fds -> (forall fd, fd ∈ fds -> fd ∉ drop) -> master_ok hs (erase_all drop m) ->
  refuse_waiting fds m drop = Some (m', drop') -> master_ok hs (erase_all drop' m').
Proof.
  revert m drop. induction fds as [|fd fds IH]; intros m drop Hnd Hdj Hm H; cbn [refuse_waiting] in H;
    [by injection H as <- <-|].
  apply NoDup_cons in Hnd as [Hni Hnd]. assert (fd ∉ drop) as Hnin by (apply Hdj; by left).
  unfold deref in H. destruct (slaves_ m !! fd) as [s|] eqn:Es; [|done].
  case_bool_decide as Hst; [|apply IH in H; [done|done| |done]; intros; apply Hdj; by right].
  destruct (mo_slaves _ _ Hm fd s) as (Hc & _); [by rewrite lookup_erase_all, decide_False|]. rewrite Hc in H.
  destruct (slaves_ (SendTo _ _ _) !! fd) as [s'|] eqn:Es'; [|done].
  set (m1 := SendTo fd _ m) in *. assert (others fd m m1) as Ho by apply others_SendTo.
  apply IH in H; [done|done| |].
  - intros x Hx [Hx'|Hx'%list_elem_of_singleton]%elem_of_app; [|by subst]. revert Hx'. apply Hdj. by right.
  - assert (forall x, x <> fd -> x ∈ drop ++ [fd] <-> x ∈ drop) as Hdr by (intros; set_solver).
    apply (master_ok_others hs (erase_all drop m) _ fd Hm); [destruct Ho; split; try done| |].
    + intros x Hne. rewrite !lookup_erase_all, (decide_ext (x ∈ drop ++ [fd]) (x ∈ drop)) by auto.
      by rewrite ot_slave0.
    + apply SendTo_conn_ok. exact (mo_conns _ _ Hm fd).
    + apply slave_ok_gone. rewrite lookup_erase_all, decide_True; [done|]. set_solver.
Qed.

Lemma start_end hs m : master_ok hs m -> exists pre post, hs = pre ++ post /\ tip_ (backlog_ m) = size_of (mjoin pre).
Proof. intros Hm. exists hs, []. rewrite app_nil_r. split; [done|]. apply (holds_tip _ _ (mo_backlog _ _ Hm)). Qed.

Lemma master_ok_align hs m : master_ok hs m -> master_ok hs (align_waiting m).
Proof.
  intros [H1 H2 H3 H4 H5]. split; try done. intros fd s Hs. cbn in Hs.
  apply lookup_fmap_Some in Hs as (s0 & <- & Hs0). destruct (H4 fd s0 Hs0) as (A1 & A2 & A3 & A4).
  case_bool_decide as Hst; [|done]. split_and!; [done|done|done|]. unfold told in *. cbn. rewrite Hst in A4 |- *.
  destruct A4 as (A4 & A5 & _). by split_and!.
Qed.

Context `{U : !Usearch} `{OZ : !IterOrder Z}.

Lemma slave_fds_NoDup m : NoDup (slave_fds m).
Proof. apply iter_order_NoDup_fst. Qed.

Lemma slave_fds_elem m fd : fd ∈ slave_fds m <-> is_Some (slaves_ m !! fd).
Proof.
  unfold slave_fds. rewrite list_elem_of_fmap. split.
  - intros ([fd' s] & -> & H). apply iter_order_lookup in H. by eexists.
  - intros [s H]. exists (fd, s). split; [done|]. by apply iter_order_lookup.
Qed.

Lemma fail_fullsync_ok hs m m' : master_ok hs m -> fail_fullsync m = Some m' -> master_ok hs m'.
Proof.
  intros Hm H. unfold fail_fullsync in H. destruct (refuse_waiting _ _ _) as [[m1 drop]|] eqn:E; [|done].
  injection H as <-. apply (refuse_waiting_ok hs) in E as Hm1; [|apply slave_fds_NoDup|by intros ? _ ?%not_elem_of_nil|by apply master_ok_erase].
  apply (master_ok_flags hs _ _ Hm1); try done. apply Hm1.
Qed.

Lemma StartFullsync_ok hs m sn st pid m' sn' :
  master_ok hs m -> StartFullsyncIfNeeded m sn st pid = Some (m', sn') -> master_ok hs m'.
Proof.
  intros Hm H. unfold StartFullsyncIfNeeded in H. destruct (save_started_for_fullsync_ m); [by injection H as <- <-|].
  destruct (negb _); [by injection H as <- <-|].
  set (m1 := if fullsync_active_ m then m else _) in *.
  assert (master_ok hs m1) as Hm1.
  { unfold m1. destruct (fullsync_active_ m); [done|]. apply (master_ok_flags hs m); try done. by apply start_end. }
  pose proof (master_ok_align hs m1 Hm1) as Hm2. set (m2 := align_waiting m1) in *. clearbody m2.
  destruct (0 <? _); [by injection H as <- <-|].
  assert (forall (sn : SnapshotManager) m3 sn3, match fail_fullsync m2 with Some m => Some (m, sn) | None => None end = Some (m3, sn3) ->
    master_ok hs m3) as Hfail.
  { intros sn0 m3 sn3 H3. destruct (fail_fullsync m2) eqn:E; [|done]. injection H3 as <- <-.
    by apply (fail_fullsync_ok hs m2). }
  destruct (BackgroundSaveToPath _ _ _ _) as [[] sn1]; try (by apply Hfail in H); injection H as <- <-; [|done].
  apply (master_ok_flags hs m2); try done. apply Hm2.
Qed.

Lemma send_rdb_all_ok hs fds rdb m m' :
  master_ok hs m -> NoDup fds -> (forall fd s, fd ∈ fds -> slaves_ m !! fd = Some s -> state s = kWaitRdb) ->
  (forall fd img, fd ∈ fds -> rdb = Some img -> pic fd img) ->
  send_rdb_all fds rdb m = Some m' -> master_ok hs m'.
Proof.
  revert m. induction fds as [|fd fds IH]; intros m Hm Hnd Hw Hpic H; cbn in H; [by injection H as <-|].
  assert (forall fd img, fd ∈ fds -> rdb = Some img -> pic fd img) as Hpics by (intros; apply Hpic; [by right|done]).
  apply NoDup_cons in Hnd as [Hni Hnd]. unfold FindSlave in H. destruct (slaves_ m !! fd) as [s|] eqn:Es.
  - destruct (SendRdbToSlave fd rdb m) as [m1|] eqn:E1; [|done].
    assert (kept hs fd m m1) as Hk
      by (eapply SendRdb_kept; [done|exact Es|apply (Hw fd); [by left|done]|intros; apply Hpic; [by left|done]|exact E1]).
    apply IH in H; [done|by apply (master_ok_kept hs fd m)|done| |done]. intros fd' s' Hin Hs'.
    destruct (decide (fd' = fd)) as [->|Hne]; [done|]. destruct Hk as (Ho & _).
    rewrite (ot_slave _ _ _ Ho fd' Hne) in Hs'. apply (Hw fd'); [by right|done].
  - apply IH in H; [done|done|done| |done]. intros fd' s' Hin. apply Hw. by right.
Qed.

Lemma OnSaveDone_ok hs m ok path sn st pid fs m' sn' :
  master_ok hs m -> (ok = true -> forall fd img, waiting m fd = true -> files fs !! kFullsyncPath = Some img -> pic fd img) ->
  OnSaveDone ok path m sn st pid fs = Some (m', sn') -> master_ok hs m'.
Proof.
  intros Hm Hpic H. unfold OnSaveDone in H. set (m1 := set_save_started m false) in *.
  assert (master_ok hs m1) as Hm1 by (apply (master_ok_flags hs m); try done; apply Hm).
  destruct (_ && _); [|by apply (StartFullsync_ok hs) in H].
  destruct ok.
  - unfold BeginSendToWaiters in H. destruct (send_rdb_all _ _ m1) as [m2|] eqn:E; [|done]. injection H as <- <-.
    apply (send_rdb_all_ok hs) in E; [done|done|apply NoDup_filter, slave_fds_NoDup| |];
      [|by intros fd img [Hw _]%list_elem_of_filter ?; apply Hpic].
    intros fd s [Hw _]%list_elem_of_filter Hs. unfold waiting in Hw. rewrite Hs in Hw. by apply bool_decide_eq_true in Hw.
  - destruct (fail_fullsync m1) as [m2|] eqn:E; [|done]. injection H as <- <-. by apply (fail_fullsync_ok hs m1).
Qed.

Lemma sub_drop {A} (l : list A) n k : (length l <= n + k)%nat -> sub n k l = drop n l.
Proof. intros H. unfold sub. apply take_ge. rewrite length_drop. lia. Qed.

Lemma TryPartialResync_kept hs fd off m ok m' :
  master_ok hs m -> fd ∈ conns_ m -> slaves_ m !! fd = None -> sendfile_fd_ (conn_of fd m) = None ->
  given fd = sent (conn_of fd m) -> 0 <= off -> cont fd ->
  TryPartialResync fd off m = Some (ok, m') -> kept hs fd m m' /\ (ok = false -> m' = m).
Proof.
  intros Hm Hin Hg Hf Hgv Hoff Hcont H. pose proof (mo_conns _ _ Hm fd) as Hok. unfold TryPartialResync in H.
  assert (kept hs fd m m) as Hk by (apply kept_refl; [done|by apply slave_ok_gone]).
  destruct (closed_ (conn_of fd m)) eqn:Hc; [by injection H as <- <-|].
  rewrite (CopyRange_holds _ _ _ _ _ (mo_backlog _ _ Hm) Hoff) in H.
  destruct (Contains (backlog_ m) off) eqn:Hcon; cbn [negb andb] in H; [|by injection H as <- <-].
  destruct (mo_backlog _ _ Hm) as [_ _ Ht _ Hb _ _]. unfold Contains in Hcon.
  apply andb_true_iff in Hcon as [Hc1%Z.leb_le Hc2%Z.leb_le].
  rewrite (proj2 (Z.leb_le off (tip_ (backlog_ m))) Hc2), Z.leb_refl in H. cbn [andb] in H.
  rewrite sub_drop in H by (rewrite Ht in *; unfold size_of in *; lia).
  set (m1 := set_slaves m _) in *. set (text := AppendSimpleString [] _) in *.
  assert (text = bs "+CONTINUE" ++ CRLF) as Htext by done. clearbody text.
  set (data := drop _ _) in *. set (m2 := SendTo fd text m1) in *.
  assert (slaves_ m1 !! fd = Some (mkSlave fd kSynced off)) as Hs1 by (cbn; by rewrite lookup_insert_eq).
  assert (others fd m m1) as Ho1 by (split; try done; intros; cbn; by rewrite lookup_insert_ne).
  assert (others fd m m2) as Ho2 by (etrans; [exact Ho1|apply others_SendTo]).
  assert (forall m3, others fd m m3 -> conn_ok (conn_of fd m3) -> slaves_ m3 !! fd = None -> kept hs fd m m3) as Hgone
    by (intros; split_and!; auto using slave_ok_gone).
  assert (forall m3, others fd m m3 -> conn_ok (conn_of fd m3) -> closed_ (conn_of fd m3) = false ->
    slaves_ m3 = slaves_ m1 -> conns_ m3 = conns_ m1 -> sendfile_fd_ (conn_of fd m3) = None ->
    sent (conn_of fd m3) = sent (conn_of fd m) ++ bs "+CONTINUE" ++ CRLF ++ data -> kept hs fd m m3) as Hsync.
  { intros m3 A1 A2 A3 A4 A5 A6 A7. split_and!; [done|done|]. intros s Hs. rewrite A4, Hs1 in Hs. injection Hs as <-.
    split_and!; [done|by rewrite A5|done|]. split; [exact A6|]. right. cbn. split_and!; [done|lia|lia|]. by rewrite Hgv. }
  pose proof (SendTo_cases fd text m1 Hok Hc ltac:(by rewrite Htext)) as HC. cbv zeta in HC. fold m2 in HC.
  change (conn_of fd m1) with (conn_of fd m) in HC.
  destruct HC as [(A1 & A2 & A3 & A4 & A5 & A6 & A7)|[_ B]]; cycle 1.
  { destruct (is_empty data); injection H as <- <-; (split; [|done]); apply Hgone; auto.
    - apply SendTo_conn_ok. apply Hok.
    - etrans; [exact Ho2|apply others_SendTo].
    - do 2 apply SendTo_conn_ok. apply Hok.
    - by apply SendTo_gone. }
  destruct (is_empty data) eqn:Ed; injection H as <- <-; (split; [|done]).
  - apply is_empty_true in Ed. apply Hsync; try done; [by rewrite A6|]. by rewrite A4, Htext, Ed, app_nil_r.
  - apply is_empty_false in Ed. assert (others fd m (SendTo fd data m2)) as Ho3 by (etrans; [exact Ho2|apply others_SendTo]).
    destruct (SendTo_cases fd data m2 A5 A1 Ed) as [(D1 & D2 & D3 & D4 & D5 & D6 & D7)|[_ D]].
    + apply Hsync; try done; [by rewrite D2|by rewrite D3|by rewrite D6, A6|].
      by rewrite D4, A4, Htext, <- !app_assoc.
    + apply Hgone; [done| |done]. apply SendTo_conn_ok. exact A5.
Qed.

(** ** Lemmas: the stream *)

Lemma told_grow hs f P C g replid s c :
  state s <> kSynced -> told hs P C g replid s c -> told (hs ++ [f]) P C g replid s c.
Proof.
  unfold told. destruct (state s); try done; intros _.
  - intros (H1 & H2 & pre & post & -> & H3). split_and!; [done|done|]. exists pre, (post ++ [f]). by rewrite app_assoc.
  - intros (H1 & H2 & pre & post & img & -> & H3 & HP & H4). split_and!; [done|done|].
    exists pre, (post ++ [f]), img. by rewrite app_assoc.
Qed.

Lemma mjoin_snoc (hs : list bytes) f : mjoin (hs ++ [f]) = mjoin hs ++ f.
Proof. rewrite join_app. cbn. by rewrite app_nil_r. Qed.

Lemma told_stream hs f P C g replid s c c' :
  state s = kSynced -> told hs P C g replid s c -> sent c' = sent c ++ f -> sendfile_fd_ c' = sendfile_fd_ c ->
  told (hs ++ [f]) P C g replid s c'.
Proof.
  unfold told. intros -> (H1 & H2) Hs Hf. split; [congruence|]. rewrite mjoin_snoc, size_of_app.
  pose proof (size_of_nonneg f). destruct H2 as [(pre & mid & live & img & -> & H2 & HP & H3)|(HC & H2 & H3)].
  - left. exists pre, mid, (live ++ [f]), img. rewrite mjoin_snoc, <- !app_assoc. split_and!; [done|done|done|].
    rewrite Hs, H3. unfold transcript. by rewrite <- !app_assoc.
  - right. split_and!; [done|lia|lia|]. rewrite Hs, H3, drop_app_le by (unfold size_of in H2; lia).
    by rewrite <- !app_assoc.
Qed.

(** While the loop runs, the slaves still to come have not got the frame. *)
Record feeding (hs : list bytes) (f : bytes) (fds : list Z) (m : ReplicationMaster) : Prop := {
  fe_backlog : holds (backlog_ m) (mjoin (hs ++ [f]));
  fe_replid : replid_good (replid_ m);
  fe_conns : forall fd, conn_ok (conn_of fd m);
  fe_todo : forall fd, fd ∈ fds -> slave_ok hs m fd;
  fe_done : forall fd, fd ∉ fds -> slave_ok (hs ++ [f]) m fd;
  fe_start : exists pre post, hs ++ [f] = pre ++ post /\ fullsync_backlog_start_ m = size_of (mjoin pre)
}.

Lemma feeding_others hs f fd fds m m' :
  fd ∉ fds -> feeding hs f (fd :: fds) m -> others fd m m' -> conn_ok (conn_of fd m') ->
  slave_ok (hs ++ [f]) m' fd -> feeding hs f fds m'.
Proof.
  intros Hni [H1 H2 H3 H4 H5 H6] Ho Hc Hs. split.
  - by rewrite (ot_backlog _ _ _ Ho).
  - by rewrite (ot_replid _ _ _ Ho).
  - intros fd'. destruct (decide (fd' = fd)) as [->|Hne]; [done|]. by rewrite (ot_conn _ _ _ Ho fd' Hne).
  - intros fd' Hin. assert (fd' <> fd) by (by intros ->). apply (slave_ok_others hs m m' fd); [done|done|].
    apply H4. by right.
  - intros fd' Hin. destruct (decide (fd' = fd)) as [->|Hne]; [done|].
    apply (slave_ok_others _ m m' fd); [done|done|]. apply H5. by intros [?|?]%elem_of_cons.
  - by rewrite (ot_start _ _ _ Ho).
Qed.

Lemma feed_loop_ok hs f fds m drop m' drop' :
  f <> [] -> NoDup fds -> feeding hs f fds m -> feed_loop fds f m drop = Some (m', drop') -> master_ok (hs ++ [f]) m'.
Proof.
  intros Hf. revert m drop. induction fds as [|fd fds IH]; intros m drop Hnd Hm H; cbn [feed_loop] in H.
  { injection H as <- <-. destruct Hm as [H1 H2 H3 _ H5 H6]. split; try done. intros fd. apply H5. by apply not_elem_of_nil. }
  apply NoDup_cons in Hnd as [Hni Hnd]. unfold deref in H. destruct (slaves_ m !! fd) as [s|] eqn:Es; [|done].
  destruct (fe_todo _ _ _ _ Hm fd ltac:(by left) s Es) as (Hc & Hin & Ho & Ht). rewrite Hc in H.
  case_bool_decide as Hst.
  - rewrite Ho in H. set (m1 := SendTo fd f m) in *. destruct (slaves_ m1 !! fd) as [s1|] eqn:Es1; [|done].
    apply IH in H; [done|done|]. pose proof (SendTo_cases fd f m (fe_conns _ _ _ _ Hm fd) Ho Hf) as HC.
    cbv zeta in HC. fold m1 in HC. destruct HC as [(A1 & A2 & A3 & A4 & A5 & A6 & A7)|[_ B]]; [|congruence].
    assert (others fd m m1) as Hot by apply others_SendTo.
    apply (feeding_others hs f fd fds m); [done|done|done|done|]. intros s2 Hs2. rewrite A2, Es in Hs2.
    injection Hs2 as <-. split_and!; [done|by rewrite A3|done|]. rewrite (ot_replid _ _ _ Hot).
    by apply (told_stream hs f _ _ _ _ s (conn_of fd m)).
  - apply IH in H; [done|done|]. apply (feeding_others hs f fd fds m); [done|done|reflexivity|apply Hm|].
    intros s1 Hs1. assert (s1 = s) as -> by congruence. split_and!; try done. by apply told_grow.
Qed.

Lemma ForceClose_cases fd m :
  closed_ (conn_of fd m) = false ->
  closed_ (conn_of fd (ForceClose fd m)) = true /\ slaves_ (ForceClose fd m) !! fd = None.
Proof.
  intros Hc. unfold ForceClose. pose proof (Close_outcome _ Hc) as H. destruct (TcpConnection.Close _) as [evs c].
  destruct H as [H1 H2]. rewrite (conn_of_net _ _ _ (net_events fd evs _)), conn_of_set_conn.
  split; [done|by apply closes_gone].
Qed.

Lemma ForceClose_closed fd m : closed_ (conn_of fd m) = true -> conn_of fd (ForceClose fd m) = conn_of fd m /\
  slaves_ (ForceClose fd m) = slaves_ m.
Proof.
  intros Hc. unfold ForceClose, TcpConnection.Close. rewrite Hc. cbn. by rewrite conn_of_set_conn.
Qed.

Lemma ForceClose_ok hs fd m : master_ok hs m -> master_ok hs (ForceClose fd m).
Proof.
  intros Hm. destruct (closed_ (conn_of fd m)) eqn:Hc.
  - destruct (ForceClose_closed fd m Hc) as [H1 H2].
    apply (master_ok_others hs m _ fd Hm); [apply others_ForceClose|rewrite H1; apply Hm|].
    intros s Hs. rewrite H2 in Hs. destruct (mo_slaves _ _ Hm fd s Hs) as (_ & _ & H & _). congruence.
  - destruct (ForceClose_cases fd m Hc) as [H1 H2].
    apply (master_ok_others hs m _ fd Hm); [apply others_ForceClose|auto with stream|by apply slave_ok_gone].
Qed.

Lemma master_ok_delete hs fd m : master_ok hs m -> master_ok hs (set_slaves m (delete fd (slaves_ m))).
Proof. exact (master_ok_erase hs [fd] m). Qed.

Lemma drop_loop_ok hs fds m m' : master_ok hs m -> drop_loop fds m = Some m' -> master_ok hs m'.
Proof.
  revert m. induction fds as [|fd fds IH]; intros m Hm H; cbn [drop_loop] in H; [by injection H as <-|].
  unfold FindSlave in H. destruct (slaves_ m !! fd) as [s|] eqn:Es; [|by apply IH in H; [|apply master_ok_delete]].
  destruct (mo_slaves _ _ Hm fd s Es) as (Hc & Hin & Ho & Ht). rewrite Hc, Ho in H.
  set (m1 := if bool_decide _ then m else _) in *. unfold deref in H.
  destruct (slaves_ m1 !! fd) as [s1|] eqn:Es1; [|done].
  assert (others fd m m1 /\ conn_ok (conn_of fd m1) /\ closed_ (conn_of fd m1) = false /\ conn s1 = fd) as (H1 & H2 & H3 & H4).
  { unfold m1 in *. case_bool_decide; [split_and!; [done|apply Hm|done|congruence]|].
    split_and!; [apply others_SendTo|apply SendTo_conn_ok, Hm|by eapply SendTo_open; [apply Hm|..]|].
    apply SendTo_slave in Es1. congruence. }
  rewrite H4 in H. apply IH in H; [done|]. destruct (ForceClose_cases fd m1 H3) as [H5 H6].
  apply (master_ok_others hs m _ fd Hm); [etrans; [exact H1|apply others_ForceClose]|auto with stream|by apply slave_ok_gone].
Qed.

Lemma feeding_start hs f m b :
  master_ok hs m -> holds b (mjoin hs ++ f) -> feeding hs f (slave_fds m) (set_backlog m b).
Proof.
  intros [H1 H2 H3 H4 (pre & post & Hp & Hs)] Hb. split; try done.
  - by rewrite mjoin_snoc.
  - intros fd _. exact (H4 fd).
  - intros fd Hni. apply slave_ok_gone. cbn. apply eq_None_not_Some. intros Hsome. apply Hni, slave_fds_elem. exact Hsome.
  - exists pre, (post ++ [f]). by rewrite Hp, app_assoc.
Qed.

Lemma FeedEncodedFrame_ok hs f m m' :
  master_ok hs m -> f <> [] -> size_of (mjoin hs) + size_of f < 2 ^ 64 -> FeedEncodedFrame f m = Some m' ->
  master_ok (hs ++ [f]) m'.
Proof.
  intros Hm Hf Hsz H. unfold FeedEncodedFrame in H.
  destruct (FeedEncoded_holds _ _ f (mo_backlog _ _ Hm) Hsz) as (b & E & Hb & _). rewrite E in H.
  destruct (feed_loop _ _ _ _) as [[m1 drop]|] eqn:EF; [|done]. apply (drop_loop_ok (hs ++ [f])) in H; [done|].
  apply (feed_loop_ok hs) in EF; [done|done|apply slave_fds_NoDup|by apply feeding_start].
Qed.

End Given.

Section Runs.
Context `{U : !Usearch} `{OZ : !IterOrder Z} (pic : Z -> bytes -> Prop).

(** Every connection may be told to continue. *)
Definition anyone (_ : Z) : Prop := True.

(** ** Lemmas: PSYNC *)

Definition at_psync (fd : Z) (bs : bytes) (given : Z -> bytes) : Z -> bytes :=
  fun x => if decide (x = fd) then bs else given x.

Lemma master_ok_psync given cont hs m fd bs :
  master_ok given pic cont hs m -> slaves_ m !! fd = None -> master_ok (at_psync fd bs given) pic cont hs m.
Proof.
  intros [H1 H2 H3 H4 H5] Hs. split; try done. intros x s Hx. unfold at_psync.
  rewrite decide_False; [by apply H4|]. by intros ->; congruence.
Qed.

Lemma OnPsync_ok given cont hs fd replid off m sn st pid reply m' sn' :
  master_ok given pic cont hs m -> sendfile_fd_ (conn_of fd m) = None -> cont fd ->
  OnPsync fd replid off m (Some sn) st pid = Some (reply, m', sn') ->
  master_ok (at_psync fd (sent (conn_of fd m)) given) pic cont hs m'.
Proof.
  intros Hm Hf Hcont H. unfold OnPsync in H. set (given' := at_psync _ _ _).
  assert (slaves_ m !! fd = None -> master_ok given' pic cont hs m) as Hsame by (by apply master_ok_psync).
  assert (forall s, slaves_ m !! fd = Some s -> fd ∈ conns_ m /\ closed_ (conn_of fd m) = false) as Hsl.
  { intros s Hs. by destruct (mo_slaves _ _ _ _ _ Hm fd s Hs) as (_ & ? & ? & _). }
  case_bool_decide as Hin; cbn [negb orb] in H; cycle 1.
  { injection H as <- <- <-. apply Hsame, eq_None_not_Some. by intros [s [? _]%Hsl]. }
  destruct (closed_ (conn_of fd m)) eqn:Hc.
  { injection H as <- <- <-. apply Hsame, eq_None_not_Some. by intros [s [_ ?]%Hsl]. }
  set (m1 := RemoveSlave fd m) in *.
  assert (conn_of fd m1 = conn_of fd m) as Ec by apply conn_of_RemoveSlave.
  assert (given' fd = sent (conn_of fd m1)) as Hgv by (unfold given', at_psync; by rewrite decide_True, Ec).
  assert (master_ok given' pic cont hs m1) as Hm1.
  { apply master_ok_psync; [|apply RemoveSlave_gone].
    apply (master_ok_others _ pic cont hs m m1 fd); [done|apply others_RemoveSlave|rewrite Ec; apply Hm|].
    apply slave_ok_gone, RemoveSlave_gone. }
  assert (fd ∈ conns_ m1) as Hin1 by (unfold m1; by rewrite conns_RemoveSlave).
  clearbody given'. clear Hsame.
  assert (forall m2, m2 = set_slaves m1 (<[fd := mkSlave fd kWaitRdb (tip_ (backlog_ m1))]> (slaves_ m1)) ->
    forall r, match StartFullsyncIfNeeded m2 sn st pid with
      None => None | Some (m3, sn3) => Some (@nil ascii, m3, Some sn3) end = Some r -> master_ok given' pic cont hs r.1.2) as Hfull.
  { intros m2 -> r H2. destruct (StartFullsyncIfNeeded _ _ _ _) as [[m3 sn3]|] eqn:E; [|done]. injection H2 as <-.
    apply (StartFullsync_ok given' pic cont hs) in E; [done|].
    apply (master_ok_others _ pic cont hs m1 _ fd Hm1); [|rewrite <- Ec in Hc; apply Hm1|].
    - split; try done; intros; cbn; by rewrite lookup_insert_ne.
    - intros s Hs. cbn in Hs. rewrite lookup_insert_eq in Hs. injection Hs as <-. split_and!; [done|done| |].
      + change (closed_ (conn_of fd m1) = false). by rewrite Ec.
      + split_and!; [change (sendfile_fd_ (conn_of fd m1) = None); by rewrite Ec|by rewrite Hgv|].
        by apply (start_end given' pic cont). }
  destruct (_ && _ && (0 <=? off)).
  - destruct (TryPartialResync fd (u64 off) m1) as [[[] m2]|] eqn:E; [| |done];
      destruct (TryPartialResync_kept given' pic cont hs fd (u64 off) m1 _ m2 Hm1 Hin1 (RemoveSlave_gone fd m)
        ltac:(by rewrite Ec) Hgv ltac:(apply Z.mod_pos_bound; lia) Hcont E) as [Hk Hs].
    + injection H as <- <- <-. by apply (master_ok_kept _ pic cont hs fd m1).
    + rewrite (Hs eq_refl) in H. exact (Hfull _ eq_refl _ H).
  - exact (Hfull _ eq_refl _ H).
Qed.

(** ** The runs of a master *)

(** The masters that can be reached, with the frames they have been fed and, for
    each connection, what it had been given when its last PSYNC arrived.  A
    client connects; a client that is no replica gets a reply; PSYNC arrives on a
    connection with no file in flight; a write is streamed; a connection is
    writable, or is closed; the snapshot manager reports a save, whose file has
    [pic] for the replicas that wait for it.  What the snapshot manager, the file
    system and the sockets answer is not constrained otherwise. *)
Inductive mrun : list bytes -> (Z -> bytes) -> ReplicationMaster -> Prop :=
| run_start c rd : 0 <= c < 2 ^ 63 -> mrun [] (fun _ => []) (ReplicationMaster.construct c rd ∅)
| run_accept hs g m fd sock :
    mrun hs g m -> fd ∉ conns_ m -> mrun hs g (OnConnection fd (set_conn fd (TcpConnection.construct sock) m))
| run_reply hs g m fd data : mrun hs g m -> slaves_ m !! fd = None -> mrun hs g (SendTo fd data m)
| run_psync hs g m fd replid offset sn st pid reply m' sn' :
    mrun hs g m -> sendfile_fd_ (conn_of fd m) = None ->
    OnPsync fd replid offset m (Some sn) st pid = Some (reply, m', sn') ->
    mrun hs (at_psync fd (wire (conn_of fd m) ++ pending (conn_of fd m)) g) m'
| run_feed hs g m f m' :
    mrun hs g m -> f <> [] -> size_of (mjoin hs) + size_of f < 2 ^ 64 ->
    FeedEncodedFrame f m = Some m' -> mrun (hs ++ [f]) g m'
| run_writable hs g m fd m' : mrun hs g m -> OnWritable fd m = Some m' -> mrun hs g m'
| run_hangup hs g m fd : mrun hs g m -> mrun hs g (ForceClose fd m)
| run_saved hs g m ok path sn st pid fs m' sn' :
    mrun hs g m -> (ok = true -> forall fd img, waiting m fd = true -> files fs !! kFullsyncPath = Some img -> pic fd img) ->
    OnSaveDone ok path m sn st pid fs = Some (m', sn') -> mrun hs g m'.

Lemma GenerateReplid_good rd : replid_good (GenerateReplid rd).
Proof.
  split; [|done]. unfold GenerateReplid. apply Forall_fmap, Forall_true. intros i. unfold compose.
  assert (0 <= Z.land (rd i) 15 < 16) as H.
  { change 15 with (Z.ones 4). rewrite Z.land_ones by lia. apply Z.mod_pos_bound. lia. }
  apply list_elem_of_In, nth_In. change (length kHex) with 16%nat. lia.
Qed.

Lemma construct_ok g cont c rd : 0 <= c < 2 ^ 63 -> master_ok g pic cont [] (ReplicationMaster.construct c rd ∅).
Proof.
  intros Hc. split; cbn.
  - by apply holds_construct.
  - apply GenerateReplid_good.
  - intros fd. unfold conn_of. cbn. rewrite lookup_empty. apply conn_ok_construct.
  - intros fd. apply slave_ok_gone. apply lookup_empty.
  - by exists [], [].
Qed.

Lemma OnConnection_ok g cont hs m fd sock :
  master_ok g pic cont hs m -> fd ∉ conns_ m -> master_ok g pic cont hs (OnConnection fd (set_conn fd (TcpConnection.construct sock) m)).
Proof.
  intros Hm Hni. assert (slaves_ m !! fd = None) as Hs.
  { destruct (slaves_ m !! fd) as [s|] eqn:E; [|done]. by destruct (mo_slaves _ _ _ _ _ Hm fd s E) as (_ & ? & _). }
  apply (master_ok_others g pic cont hs m _ fd Hm).
  - etrans; [apply others_set_conn|]. split; try done. intros fd' Hne. cbn. set_solver.
  - change (conn_ok (conn_of fd (set_conn fd (TcpConnection.construct sock) m))). rewrite conn_of_set_conn.
    apply conn_ok_construct.
  - by apply slave_ok_gone.
Qed.

Lemma OnWritable_ok g cont hs m fd m' : master_ok g pic cont hs m -> OnWritable fd m = Some m' -> master_ok g pic cont hs m'.
Proof.
  intros Hm H. unfold OnWritable in H. destruct (closed_ (conn_of fd m)) eqn:Hc; [by injection H as <-|].
  apply (master_ok_kept g pic cont hs fd m); [done|]. eapply HandleWrite_kept; [apply Hm..|done|exact H].
Qed.

Lemma mrun_ok hs g m : mrun hs g m -> master_ok g pic anyone hs m.
Proof.
  induction 1 as [c rd|hs g m fd sock _ IH Hni|hs g m fd data _ IH Hs
    |hs g m fd replid offset sn st pid reply m' sn' _ IH Hf H|hs g m f m' _ IH Hf Hsz H|hs g m fd m' _ IH H
    |hs g m fd _ IH|hs g m ok path sn st pid fs m' sn' _ IH Hpic H].
  - by apply construct_ok.
  - by apply OnConnection_ok.
  - apply (master_ok_others _ pic anyone hs m _ fd IH); [apply others_SendTo|apply SendTo_conn_ok, IH|].
    by apply slave_ok_gone, SendTo_gone.
  - by eapply OnPsync_ok.
  - by apply (FeedEncodedFrame_ok g pic anyone hs f m).
  - by eapply OnWritable_ok.
  - by apply ForceClose_ok.
  - by eapply OnSaveDone_ok.
Qed.

(** ** Properties *)

(** C6: a replica in sync has the whole stream.  In every run of a master, a
    replica that the master counts as in sync has an open connection, and what
    it has been given on it since its PSYNC (what the socket took, and what is
    still to be written, in this order) is one of two: a full resynchronisation
    at an offset where one of the frames starts, whose snapshot is followed by
    exactly the frames from that offset up to the moment it ended, and by all the
    frames since (and whatever [pic] all saves sent to the replica have, its
    snapshot has); or, for a continuation, [+CONTINUE] and all the bytes of the
    history from the offset it asked for.  No frame is missing, repeated or out
    of order. *)
Theorem replica_stream (hs : list bytes) (given : Z -> bytes) (m : ReplicationMaster) (fd : Z) (s : Slave) :
  mrun hs given m -> slaves_ m !! fd = Some s -> state s = kSynced ->
  conn s = fd /\ fd ∈ conns_ m /\ closed_ (conn_of fd m) = false /\
  ((exists pre mid live img, hs = pre ++ mid ++ live /\ backlog_start s = size_of (mjoin pre) /\ pic fd img /\
      wire (conn_of fd m) ++ pending (conn_of fd m) =
        given fd ++ transcript (replid_ m) (backlog_start s) img (mjoin mid) (mjoin live)) \/
   0 <= backlog_start s <= size_of (mjoin hs) /\
   wire (conn_of fd m) ++ pending (conn_of fd m) =
     given fd ++ bs "+CONTINUE" ++ CRLF ++ drop (Z.to_nat (backlog_start s)) (mjoin hs)).
Proof.
  intros Hr Hs Hst. destruct (mo_slaves _ _ _ _ _ (mrun_ok _ _ _ Hr) fd s Hs) as (H1 & H2 & H3 & H4).
  unfold told in H4. rewrite Hst in H4. destruct H4 as [_ [H4|[_ H4]]]; split_and!; auto.
Qed.

(** ** Defects *)

(** Sending to a slave whose socket fails erases the slave. *)
Lemma SendTo_fails fd data m rs :
  closed_ (conn_of fd m) = false -> data <> [] -> output_buffer_ (conn_of fd m) = [] ->
  sendfile_fd_ (conn_of fd m) = None -> sock_ (conn_of fd m) = SendFailed :: rs ->
  slaves_ (SendTo fd data m) !! fd = None.
Proof.
  intros Hc Hd Ho Hf Hs. unfold SendTo, Send. apply is_empty_false in Hd. rewrite Hc, Hd, Ho, Hf. cbn [orb is_empty negb].
  unfold syscall. rewrite Hs.
  match goal with |- context [TcpConnection.Close ?d] => pose proof (Close_outcome d Hc) as HC; destruct (TcpConnection.Close d) end.
  by apply closes_gone, HC.
Qed.

Lemma feed_loop_erased hs f fds m drop given fd s rs :
  f <> [] -> NoDup fds -> feeding given pic anyone hs f fds m -> fd ∈ fds -> slaves_ m !! fd = Some s -> state s = kSynced ->
  output_buffer_ (conn_of fd m) = [] -> sendfile_fd_ (conn_of fd m) = None -> sock_ (conn_of fd m) = SendFailed :: rs ->
  feed_loop fds f m drop = None.
Proof.
  intros Hf. revert m drop. induction fds as [|x fds IH]; intros m drop Hnd Hm Hin Hs Hst Hout Hfile Hsock;
    [by apply not_elem_of_nil in Hin|].
  apply NoDup_cons in Hnd as [Hni Hnd]. cbn [feed_loop]. unfold deref.
  destruct (slaves_ m !! x) as [sx|] eqn:Ex; [|done].
  destruct (fe_todo _ _ _ _ _ _ _ Hm x ltac:(by left) sx Ex) as (Hcx & Hinx & Hox & Htx). rewrite Hcx, Hox.
  destruct (decide (x = fd)) as [->|Hne].
  - assert (sx = s) as -> by congruence. rewrite bool_decide_true by done. by rewrite (SendTo_fails fd f m rs).
  - assert (fd ∈ fds) as Hin' by (by apply elem_of_cons in Hin as [?|?]).
    case_bool_decide as Hstx.
    + set (m1 := SendTo x f m). assert (others x m m1) as Hot by apply others_SendTo.
      destruct (slaves_ m1 !! x) as [s1|] eqn:Es1; [|done].
      apply IH; rewrite ?(ot_slave _ _ _ Hot), ?(ot_conn _ _ _ Hot) by done; try done.
      pose proof (SendTo_cases x f m (fe_conns _ _ _ _ _ _ _ Hm x) Hox Hf) as HC.
      cbv zeta in HC. fold m1 in HC. destruct HC as [(A1 & A2 & A3 & A4 & A5 & A6 & A7)|[_ B]]; [|congruence].
      apply (feeding_others given pic anyone hs f x fds m); [done|done|done|done|]. intros s2 Hs2. rewrite A2, Ex in Hs2.
      injection Hs2 as <-. split_and!; [done|by rewrite A3|done|]. rewrite (ot_replid _ _ _ Hot).
      by apply (told_stream hs f _ _ _ _ sx (conn_of x m)).
    + apply IH; try done. apply (feeding_others given pic anyone hs f x fds m); [done|done|reflexivity|apply Hm|].
      intros s2 Hs2. assert (s2 = sx) as -> by congruence. split_and!; try done. by apply told_grow.
Qed.

(** C29: streaming a write is undefined as soon as one replica's socket fails.
    In every run of a master, with a replica in sync, all sent, whose socket
    refuses the next write: the failed send closes the connection, and its close
    callback erases the entry that the loop over the replicas is still using, and
    which it also needs to go on. *)
Theorem feed_uses_erased_slave (hs : list bytes) (given : Z -> bytes) (m : ReplicationMaster) (fd : Z) (s : Slave)
    (rs : list SendResult) (f : bytes) :
  mrun hs given m -> slaves_ m !! fd = Some s -> state s = kSynced -> output_buffer_ (conn_of fd m) = [] ->
  sock_ (conn_of fd m) = SendFailed :: rs -> f <> [] -> size_of (mjoin hs) + size_of f < 2 ^ 64 ->
  FeedEncodedFrame f m = None.
Proof.
  intros Hr Hs Hst Hout Hsock Hf Hsz. pose proof (mrun_ok _ _ _ Hr) as Hm.
  destruct (mo_slaves _ _ _ _ _ Hm fd s Hs) as (_ & _ & _ & Ht). unfold told in Ht. rewrite Hst in Ht. destruct Ht as [Hfile _].
  unfold FeedEncodedFrame. destruct (FeedEncoded_holds _ _ f (mo_backlog _ _ _ _ _ Hm) Hsz) as (b & E & Hb & _). rewrite E.
  rewrite (feed_loop_erased hs f _ _ [] given fd s rs); try done.
  - apply slave_fds_NoDup.
  - by apply feeding_start.
  - apply slave_fds_elem. by exists s.
Qed.

Context `{W : !Wal} `{UL : !UsearchLaws U} `{WL : !WalLaws W}.
#[local] Existing Instance master_repl.

(** Feeding replicas that are not there does nothing. *)
Lemma feed_nobody (m : ReplicationMaster) fs : slaves_ m = ∅ -> fold_left feed1 fs (Some m) = Some m.
Proof.
  intros He. induction fs as [|f fs IH]; [done|]. cbn [fold_left]. unfold feed1 at 2. cbn. unfold has_slaves.
  by rewrite bool_decide_false by (by intros ?).
Qed.

(** C28: a write made while no replica is connected is lost to a replica that
    comes back.  In every run of a master that has no replicas, a client's write
    that succeeds leaves the master as it is: the backlog does not record it.  A
    replica that had the whole history up to the last frame, and now asks for the
    rest with the master's id and that offset, is told to continue (and is
    counted as in sync) with nothing to catch up -- unless its connection fails
    while it is told. *)
Theorem unreplicated_writes_lost (hs : list bytes) (given : Z -> bytes) (m : ReplicationMaster) (fd : Z)
    (fuel : nat) (ctx : RequestContext) (t t' : Targets) (r : ApplyResult) :
  mrun hs given m -> slaves_ m = ∅ -> t_repl t = Some (Some m) ->
  targets_wf t -> (nodes t + 2 <= fuel)%nat ->
  ApplyMutation fuel ctx kClient t = Some (r, t') -> ok r = true ->
  fd ∈ conns_ m -> closed_ (conn_of fd m) = false -> size_of (mjoin hs) < 2 ^ 63 ->
  t_repl t' = Some (Some m) /\
  exists m', (forall sn st pid,
    OnPsync fd (replid_ m) (size_of (mjoin hs)) m (Some sn) st pid = Some ([], m', Some sn)) /\
    (closed_ (conn_of fd m') = true \/
     slaves_ m' !! fd = Some (mkSlave fd kSynced (size_of (mjoin hs))) /\
     wire (conn_of fd m') ++ pending (conn_of fd m') =
       wire (conn_of fd m) ++ pending (conn_of fd m) ++ bs "+CONTINUE" ++ CRLF).
Proof.
  intros Hr He Ht Hwf Hfuel HA Hok Hin Hc Hsz. pose proof (mrun_ok _ _ _ Hr) as Hm. split.
  - destruct (ApplyMutation_effect fuel ctx t Hwf Hfuel) as (r2 & t2 & HA2 & _ & HJ).
    assert (r2 = r /\ t2 = t') as [-> ->] by (split; congruence).
    destruct (HJ (ok_in_step _ Hok)) as (vs & cs & _ & _ & [_ _ _ Hf]). unfold fed in Hf. rewrite Ht in Hf.
    rewrite Hf. cbn [fmap option_fmap option_map]. by rewrite feed_nobody.
  - destruct (mo_replid _ _ _ _ _ Hm) as [_ Hlen]. pose proof (size_of_nonneg (mjoin hs)) as Hnn.
    set (off := size_of (mjoin hs)) in *. set (m1 := RemoveSlave fd m).
    assert (conn_of fd m1 = conn_of fd m) as Ec by apply conn_of_RemoveSlave.
    assert (backlog_ m1 = backlog_ m /\ replid_ m1 = replid_ m) as [Eb Er]
      by (split; [apply (ot_backlog fd)|apply (ot_replid fd)]; apply others_RemoveSlave).
    assert (WantsFullsync (replid_ m) off = false) as Hw.
    { unfold WantsFullsync. rewrite (proj2 (Z.ltb_ge off 0) Hnn). destruct (replid_ m) as [|c0 [|c1 l]]; try done.
      cbn. unfold beq. apply bool_decide_false. congruence. }
    assert (u64 off = off) as Hu by (apply Z.mod_small; lia).
    destruct (mo_backlog _ _ _ _ _ Hm) as [_ _ Htip _ Hb _ _]. fold off in Htip.
    set (m2 := set_slaves m1 (<[fd := mkSlave fd kSynced off]> (slaves_ m1))).
    exists (SendTo fd (AppendSimpleString [] (bs "CONTINUE")) m2). split.
    + intros sn st pid. unfold OnPsync. rewrite bool_decide_true by done. rewrite Hc. cbn [negb orb].
      fold m1. rewrite Hw, Er. unfold beq. rewrite bool_decide_true by done. cbn [negb andb].
      rewrite (proj2 (Z.leb_le 0 off) Hnn), Hu. unfold TryPartialResync. rewrite Ec, Hc, Eb.
      assert (Contains (backlog_ m) off = true) as Hcon by (apply andb_true_iff; rewrite !Z.leb_le; lia).
      rewrite (CopyRange_holds _ _ _ _ _ (mo_backlog _ _ _ _ _ Hm) Hnn), Hcon, Htip, Z.leb_refl. cbn [negb andb].
      rewrite Z.sub_diag. unfold sub. change (Z.to_nat 0) with 0%nat. rewrite take_0. cbn [is_empty].
      by fold m2.
    + assert (slaves_ m2 !! fd = Some (mkSlave fd kSynced off)) as Hs2 by (cbn; by rewrite lookup_insert_eq).
      destruct (SendTo_cases fd (AppendSimpleString [] (bs "CONTINUE")) m2) as [(A1 & A2 & A3 & A4 & _)|[B _]];
        [change (conn_ok (conn_of fd m1)); rewrite Ec; apply Hm|change (closed_ (conn_of fd m1) = false); by rewrite Ec
        |done| |by left].
      right. split; [by rewrite A2|]. etrans; [exact A4|]. change (conn_of fd m2) with (conn_of fd m1). rewrite Ec.
      unfold sent. by rewrite <- !app_assoc.
Qed.

End Runs.

(** ** Witnesses *)

#[local] Existing Instances flat_usearch flat_laws list_wal list_wal_laws.
#[local] Instance demo_orderZ : IterOrder Z := default_order Z.
#[local] Existing Instance master_repl.

(** Any snapshot will do. *)
Definition no_pic (_ : Z) (_ : bytes) : Prop := True.

Definition demo_stores : Stores := mkStores (Some (VNodeIndex.construct 8 5)) (Some KvStore.empty).

Definition demo_rdb : Fs :=
  mkFs {[kFullsyncPath := bs "RDB!"]} (fun _ => true) (fun _ => true) (fun _ => true) true true None.

Definition demo_master : ReplicationMaster := ReplicationMaster.construct 64 (fun _ => 10) ∅.

(** A client connects, asks for a full resynchronisation; the save is started. *)
Definition demo_accept (fd : Z) (sock : list SendResult) (m : ReplicationMaster) : ReplicationMaster :=
  OnConnection fd (set_conn fd (TcpConnection.construct sock) m).

Definition demo_psync (fd : Z) (o : option ReplicationMaster) : option ReplicationMaster :=
  match o with
  | Some m =>
      match OnPsync fd (bs "?") (-1) m (Some (SnapshotManager.construct (bs "d"))) demo_stores 77 with
      | Some (_, m, _) => Some m
      | None => None
      end
  | None => None
  end.

Definition demo_feed (f : string) (o : option ReplicationMaster) : option ReplicationMaster :=
  match o with Some m => FeedEncodedFrame (bs f) m | None => None end.

Definition demo_saved (o : option ReplicationMaster) : option ReplicationMaster :=
  match o with
  | Some m =>
      match OnSaveDone true kFullsyncPath m (SnapshotManager.construct (bs "d")) demo_stores 78 demo_rdb with
      | Some (m, _) => Some m
      | None => None
      end
  | None => None
  end.

Lemma demo_psync_run hs g m m' fd :
  mrun no_pic hs g m -> sendfile_fd_ (conn_of fd m) = None -> demo_psync fd (Some m) = Some m' ->
  mrun no_pic hs (at_psync fd (wire (conn_of fd m) ++ pending (conn_of fd m)) g) m'.
Proof.
  unfold demo_psync. intros Hr Hf H. destruct (OnPsync _ _ _ _ _ _ _) as [[[? m1] ?]|] eqn:E; [|done].
  injection H as <-. by eapply run_psync.
Qed.

Lemma demo_saved_run hs g m m' : mrun no_pic hs g m -> demo_saved (Some m) = Some m' -> mrun no_pic hs g m'.
Proof.
  unfold demo_saved. intros Hr H. destruct (OnSaveDone _ _ _ _ _ _ _) as [[m1 ?]|] eqn:E; [|done].
  injection H as <-. by eapply run_saved.
Qed.

Lemma demo_feed_run hs g m m' f :
  mrun no_pic hs g m -> bs f <> [] -> size_of (mjoin hs) + size_of (bs f) < 2 ^ 64 -> demo_feed f (Some m) = Some m' ->
  mrun no_pic (hs ++ [bs f]) g m'.
Proof. intros. by eapply run_feed. Qed.

(** One write before the snapshot arrives, one after it. *)
Definition demo_synced (sock : list SendResult) : option ReplicationMaster :=
  demo_saved (demo_feed "SET1" (demo_psync 5 (Some (demo_accept 5 sock demo_master)))).

Lemma demo_accept_run fd sock : mrun no_pic [] (fun _ => []) (demo_accept fd sock demo_master).
Proof. apply run_accept; [apply run_start; lia|]. apply not_elem_of_empty. Qed.

Lemma demo_synced_run sock m : demo_synced sock = Some m -> mrun no_pic [bs "SET1"] (at_psync 5 [] (fun _ => [])) m.
Proof.
  intros H. unfold demo_synced in H. pose proof (demo_accept_run 5 sock) as H1.
  destruct (demo_psync 5 _) as [m2|] eqn:E2; [|done]. destruct (demo_feed _ _) as [m3|] eqn:E3; [|done].
  apply (demo_saved_run _ _ m3); [|exact H]. apply (demo_feed_run [] _ m2); [|discriminate|reflexivity|exact E3].
  exact (demo_psync_run _ _ _ _ 5 H1 ltac:(vm_compute; reflexivity) E2).
Qed.

Lemma replica_stream_witness :
  exists m s, demo_feed "SET2" (demo_synced [Sent 60; Sent 100; Sent 100; Sent 100; Sent 100]) = Some m /\
    slaves_ m !! 5 = Some s /\ state s = kSynced /\ closed_ (conn_of 5 m) = false /\
    wire (conn_of 5 m) ++ pending (conn_of 5 m) = transcript (replid_ m) 0 (bs "RDB!") (bs "SET1") (bs "SET2").
Proof.
  destruct (demo_synced [Sent 60; Sent 100; Sent 100; Sent 100; Sent 100]) as [m0|] eqn:E0; [|exfalso; vm_compute in E0; discriminate].
  destruct (demo_feed "SET2" (Some m0)) as [m|] eqn:E1.
  2: { exfalso. vm_compute in E0. injection E0 as <-. vm_compute in E1. discriminate. }
  assert (mrun no_pic [bs "SET1"; bs "SET2"] (at_psync 5 [] (fun _ => [])) m) as Hr.
  { apply (demo_feed_run [bs "SET1"] _ m0); [by apply (demo_synced_run _ _ E0)|discriminate|vm_compute; reflexivity|exact E1]. }
  assert (slaves_ m !! 5 = Some (mkSlave 5 kSynced 0) /\
    wire (conn_of 5 m) ++ pending (conn_of 5 m) = transcript (replid_ m) 0 (bs "RDB!") (bs "SET1") (bs "SET2")) as [Hs Hw].
  { vm_compute in E0. injection E0 as <-. vm_compute in E1. injection E1 as <-. vm_compute. by split. }
  destruct (replica_stream no_pic _ _ m 5 _ Hr Hs eq_refl) as (_ & _ & Hc & _).
  exists m, (mkSlave 5 kSynced 0). by split_and!.
Defined.

(** The socket fails on the write after the resynchronisation. *)
Lemma feed_uses_erased_slave_witness :
  demo_feed "SET2" (demo_synced [Sent 100; Sent 100; Sent 100; Sent 100; SendFailed]) = None.
Proof.
  destruct (demo_synced [Sent 100; Sent 100; Sent 100; Sent 100; SendFailed]) as [m0|] eqn:E0; [|reflexivity].
  assert (slaves_ m0 !! 5 = Some (mkSlave 5 kSynced 0) /\ output_buffer_ (conn_of 5 m0) = [] /\
    sock_ (conn_of 5 m0) = [SendFailed]) as (Hs & Ho & Hk).
  { vm_compute in E0. injection E0 as <-. vm_compute. by split_and!. }
  apply (feed_uses_erased_slave no_pic [bs "SET1"] (at_psync 5 [] (fun _ => [])) m0 5 _ [] (bs "SET2")
    (demo_synced_run _ _ E0) Hs eq_refl Ho Hk); [discriminate|vm_compute; reflexivity].
Defined.

(** Replica 5 has had the first write and goes away; 6 is a new connection. *)
Definition demo_gone (sock : list SendResult) : option ReplicationMaster :=
  match demo_synced sock with
  | Some m => Some (demo_accept 6 [Sent 100] (ForceClose 5 m))
  | None => None
  end.

Definition demo_write : RequestContext := mkCtx 7 kSet [] [] [] [] 0 (bs "name") (bs "vemory") [] (-1) 0.

Definition demo_targets (o : @repl_state master_repl) : Targets := mkTargets None (Some KvStore.empty) None (Some o).

Lemma unreplicated_writes_lost_witness :
  exists m r t' m', demo_gone [Sent 60; Sent 100; Sent 100; Sent 100] = Some m /\
    ApplyMutation 20 demo_write kClient (demo_targets (Some m)) = Some (r, t') /\
    ok r = true /\ t_repl t' = Some (Some m) /\
    (forall sn st pid, OnPsync 6 (replid_ m) 4 m (Some sn) st pid = Some ([], m', Some sn)).
Proof.
  destruct (demo_synced [Sent 60; Sent 100; Sent 100; Sent 100]) as [m0|] eqn:E0; [|exfalso; vm_compute in E0; discriminate].
  pose proof (demo_synced_run _ _ E0) as Hr.
  assert (slaves_ (ForceClose 5 m0) = ∅ /\ (6 ∉ conns_ (ForceClose 5 m0))) as [Hs Hn].
  { vm_compute in E0. injection E0 as <-. split; [vm_compute; reflexivity|]. apply (bool_decide_unpack _). vm_compute. exact I. }
  pose proof (run_accept no_pic _ _ _ 6 [Sent 100] (run_hangup no_pic _ _ _ 5 Hr) Hn) as Hr2.
  set (m := OnConnection _ _) in Hr2.
  destruct (ApplyMutation 20 demo_write kClient (demo_targets (Some m))) as [[r t']|] eqn:EA;
    [|exfalso; cbn in EA; discriminate].
  assert (ok r = true) as Hok by (cbn in EA; unfold has_slaves, m in EA; cbn in EA; rewrite Hs in EA; injection EA as <- _; reflexivity).
  destruct (unreplicated_writes_lost no_pic _ _ m 6 20 demo_write (demo_targets (Some m)) t' r Hr2 Hs eq_refl I ltac:(vm_compute; lia) EA Hok)
    as (H1 & m' & H2 & _).
  - apply elem_of_union_l, elem_of_singleton. reflexivity.
  - unfold m, OnConnection. change (closed_ (conn_of 6 (set_conn 6 (TcpConnection.construct [Sent 100]) (ForceClose 5 m0))) = false).
    by rewrite conn_of_set_conn.
  - vm_compute. reflexivity.
  - exists m, r, t', m'. unfold demo_gone. rewrite E0. split_and!; [reflexivity|exact EA|exact Hok|exact H1|].
    intros. apply H2.
Defined.

(** A replica that asks while a save is in flight is registered at the tip, but
    gets the older snapshot: replica 6 asks after the first write and never gets
    it, neither in the snapshot, which is older, nor in the backlog. *)
Example late_joiner_misses_write :
  let o := demo_saved (demo_psync 6 (demo_feed "SET1" (demo_psync 5
    (Some (demo_accept 6 [Sent 100; Sent 100; Sent 100] (demo_accept 5 [Sent 100; Sent 100; Sent 100; Sent 100] demo_master)))))) in
  exists m, o = Some m /\ slaves_ m !! 5 = Some (mkSlave 5 kSynced 0) /\ slaves_ m !! 6 = Some (mkSlave 6 kSynced 4) /\
    wire (conn_of 5 m) = transcript (replid_ m) 0 (bs "RDB!") (bs "SET1") [] /\
    wire (conn_of 6 m) = transcript (replid_ m) 4 (bs "RDB!") [] [].
Proof. vm_compute. eexists. split; [reflexivity|]. by split_and!. Qed.
