(* ===== verification/Serving.v ===== *)
(** * Serving: the server and its clients

    Composes TcpConnection.v, MessageBuffer.v, ProtocolExecutor.v and
    CommandHandler.v the way the accept callback of main (src/Vemory.cc) does:
    every connection gets a ProtocolExecutor whose dispatcher is the one
    CommandHandler, and whose write and error callbacks send on the connection.
    The event loop is a sequence of steps: a connection is accepted, a connection
    has I/O, or something else happens to the server (timers, the log).  The
    connections that a replication master holds are in its own model; those that
    never send PSYNC are not touched by it. *)

From S2P Require Import Prelude.
From S2P Require Import Stdio CommandType RequestContext RespEncode.
From S2P Require RespDecode.
From S2P Require Import MessageBuffer TcpConnection ProtocolExecutor.
From S2P Require KvStore.
From S2P Require VNodeIndex SnapshotManager.
From S2P Require Import Usearch FlatIndex MutationApply CommandHandler.
From S2P Require ReplicationMaster ReplicationStream.

(** What the accept callback uses of [ReplicationMaster]: [OnConnection], and the
    close callback it leaves on the connection. *)
Class Accepts `(R : !Repl) := {
  on_connection : Z -> repl_state -> repl_state;
  on_close : Z -> repl_state -> repl_state
}.

#[export] Instance master_accepts `{OZ : !IterOrder Z} : Accepts ReplicationMaster.master_repl := {|
  on_connection fd (m : @repl_state ReplicationMaster.master_repl) := ReplicationMaster.OnConnection fd <$> m;
  on_close fd (m : @repl_state ReplicationMaster.master_repl) := ReplicationMaster.close_cb fd <$> m
|}.

Section Serving.
Context `{U : !Usearch} `{W : !Wal} `{R : !Repl} `{P : !Psync R} `{A : !Accepts R}.

(** The handler, and what the n-th request finds: the result of [fork] and the
    reading of the steady clock. *)
Context (commands : CommandHandler) (fork_pid steady : nat -> Z).

Record Client := mkClient { fd_ : Z; conn_ : TcpConn }.

(** [server] is [None] after undefined behaviour; [tick] counts the requests. *)
Record World := mkWorld { server : option Server; clients : list Client; tick : nat }.

Definition conn_of (i : nat) (w : World) : TcpConn :=
  match clients w !! i with Some k => conn_ k | None => TcpConnection.construct [] end.

Definition fd_of (i : nat) (w : World) : Z := match clients w !! i with Some k => fd_ k | None => -1 end.

Definition set_conn (i : nat) (c : TcpConn) (w : World) : World :=
  mkWorld (server w) (alter (fun k => mkClient (fd_ k) c) i (clients w)) (tick w).

(** A call of the master, if there is one. *)
Definition with_master (f : repl_state -> repl_state) (w : World) : World :=
  mkWorld ((fun s => mkServer (index s) (kv s) (snapshot s) (wal s) (f <$> repl s)) <$> server w) (clients w) (tick w).

(** The dispatch callback: [commands.Dispatch(ctx, reply)] with an empty reply. *)
Definition dispatch (ctx : RequestContext) (w : World) : bytes * World :=
  match server w with
  | Some s =>
      match Dispatch commands ctx (Some []) (fork_pid (tick w)) s with
      | Some (Some reply, s) => (reply, mkWorld (Some s) (clients w) (S (tick w)))
      | _ => ([], mkWorld None (clients w) (S (tick w)))
      end
  | None => ([], w)
  end.

(** The callbacks of connection [i] other than the read callback. *)
Definition event (i : nat) (w : World) (e : Event) : World :=
  match e with Closed => with_master (on_close (fd_of i w)) w | SendFileDone _ | Readable => w end.

(** The write callback. *)
Definition write (i : nat) (data : bytes) (w : World) : World :=
  if is_empty data then w
  else
    let '(_, evs, c) := Send (conn_of i w) (Some data) in
    foldl (event i) (set_conn i c w) evs.

Definition error_line : bytes := bs "-ERR protocol error" ++ CRLF.

Definition executor (i : nat) : ProtocolExecutor :=
  mkExecutor (Some tt) (Some dispatch) (Some (write i)) (Some (write i error_line)) (fun w => steady (tick w)).

(** The read callback runs the executor on the connection's input buffer. *)
Definition callback (i : nat) (e : Event) (w : World) : option World :=
  match e with
  | Readable =>
      match OnBufferReadable (executor i) (fd_of i w) (input_buffer_ (conn_of i w)) w with
      | Some (buf, w) => Some (set_conn i (with_input (conn_of i w) buf) w)
      | None => None
      end
  | e => Some (event i w e)
  end.

(** The accept callback, for a new connection [fd] with its kernel's answers. *)
Definition accept (fd : Z) (sock : list SendResult) (w : World) : World :=
  let w := with_master (on_connection fd) w in
  mkWorld (server w) (clients w ++ [mkClient fd (TcpConnection.construct sock)]) (tick w).

(** The event loop reports [events] for connection [i], where [recv] will give [rs].
    [None]: an exception of the decoder ends the process. *)
Definition io (i : nat) (events : Z) (rs : list RecvResult) (w : World) : option World :=
  HandleIO (conn_of i) (set_conn i) (callback i) events rs true w.

(** ** Runs *)

Inductive stimulus :=
| Accept (fd : Z) (sock : list SendResult)
| Io (i : nat) (events : Z) (rs : list RecvResult)
| Background.

(** What [recv] can return: data, or no more than zero. *)
Definition recv_answer (r : RecvResult) : Prop := match r with Received _ => True | NotReceived n _ => n <= 0 end.

(** The other handlers of the event loop leave the stores alone. *)
Inductive step (w : World) : stimulus -> World -> Prop :=
| step_accept fd sock : step w (Accept fd sock) (accept fd sock w)
| step_io i events rs w' :
    (i < length (clients w))%nat -> Forall recv_answer rs -> io i events rs w = Some w' -> step w (Io i events rs) w'
| step_background s s' :
    server w = Some s -> index s' = index s -> kv s' = kv s -> server_shape s' = server_shape s ->
    step w Background (mkWorld (Some s') (clients w) (tick w)).

Inductive run (w0 : World) : list stimulus -> World -> Prop :=
| run_nil : run w0 [] w0
| run_snoc sts w st w' : run w0 sts w -> step w st w' -> run w0 (sts ++ [st]) w'.

(** ** The specification *)

(** The commands at the front of what a client sent: their tokens, the bytes left,
    and whether these are the start of a command, are none, or make the decoder throw. *)
Fixpoint parse (fuel : nat) (data : bytes) : list (list bytes) * bytes * Stop :=
  match fuel with
  | O => ([], data, Waits)
  | S fuel =>
      match RespDecode.decode data with
      | (RespDecode.kNeedMore, _, _) => ([], data, Waits)
      | (RespDecode.kError, _, _) => ([], data, Bad)
      | (RespDecode.thrown, _, _) => ([], data, Throws)
      | (RespDecode.kOk, toks, n) =>
          let '(cmds, rest, stop) := parse fuel (drop n data) in (toks :: cmds, rest, stop)
      end
  end.

Definition requests (data : bytes) : list (list bytes) * bytes * Stop := parse (S (length data)) data.

(** The request of a command. *)
Definition request (fd now : Z) (toks : list bytes) : RequestContext :=
  default default_ctx (FromTokens fd now toks (Some default_ctx)).2.

(** One request that was served: whose it was and the reply. *)
Record Turn := mkTurn { who : nat; req : RequestContext; reply : bytes }.

Definition turns_of (i : nat) (h : list Turn) : list Turn := filter (fun t => who t = i) h.

(** The turns of a map that is accessed by one request at a time. *)
Inductive map_ran (logged : bool) (m : gmap bytes bytes) : list Turn -> gmap bytes bytes -> Prop :=
| map_ran_nil : map_ran logged m [] m
| map_ran_snoc h m1 t m2 :
    map_ran logged m h m1 ->
    map_call m1 (req t) (reply t) m2 (logged = true /\ reply t = AppendError [] (bs "ERR aof append failed")) ->
    one_reply (reply t) -> map_ran logged m (h ++ [t]) m2.

(** What [recv] gives in a round, up to the answer that ends it. *)
Fixpoint arrives (rs : list RecvResult) : bytes :=
  match rs with
  | Received d :: rs => if is_empty d then [] else d ++ arrives rs
  | _ => []
  end.

(** What has arrived for connection [i]. *)
Definition received (i : nat) (sts : list stimulus) : bytes :=
  mjoin ((fun st => match st with
                    | Io j events rs => if decide (i = j) then if has events EPOLLIN then arrives rs else [] else []
                    | _ => []
                    end) <$> sts).

(** [n] error lines have been written after the requests stopped at [stop]. *)
Definition error_lines (stop : Stop) (n : nat) : Prop :=
  match stop with Waits => n = 0%nat | Bad => (1 <= n)%nat | Throws => False end.

(** The client's view: [input] has been read and served.  [n] error lines. *)
Definition served (h : list Turn) (recvd : bytes) (i : nat) (k : Client) : Prop :=
  exists input n,
    let '(cmds, rest, stop) := requests input in
    let given := mjoin (reply <$> turns_of i h) ++ mjoin (replicate n error_line) in
    Forall2 (fun toks t => exists now, req t = request (fd_ k) now toks) cmds (turns_of i h) /\
    error_lines stop n /\
    (exists later, recvd = input ++ later) /\ (exists later, given = wire (conn_ k) ++ later) /\
    (closed_ (conn_ k) = false ->
       recvd = input /\ buf_ (input_buffer_ (conn_ k)) = rest /\ given = wire (conn_ k) ++ pending (conn_ k) /\
       (pending (conn_ k) <> [] -> epollout (conn_ k) = true)).

(** No client asks the master of the server to become its replica. *)
Definition no_psync (toks : list bytes) : Prop := forall fd now, cmd (request fd now toks) <> kPsync.

Definition ordinary (s : Server) (sts : list stimulus) : Prop :=
  repl s = None \/ forall i, Forall no_psync (requests (received i sts)).1.1.

(** ** Lemmas: the stream of requests *)

Lemma parse_fuel f1 f2 data : (length data < f1)%nat -> (length data < f2)%nat -> parse f1 data = parse f2 data.
Proof.
  revert f2 data. induction f1 as [|f1 IH]; intros [|f2] data H1 H2; try lia. cbn [parse].
  destruct (RespDecode.decode data) as [[[] toks] n] eqn:E; try done.
  apply decode_progress in E. by rewrite (IH f2) by lia.
Qed.

Lemma requests_step data toks n :
  RespDecode.decode data = (RespDecode.kOk, toks, n) ->
  requests data = let '(cmds, rest, bad) := requests (drop n data) in (toks :: cmds, rest, bad).
Proof.
  intros E. pose proof (decode_progress _ _ _ E). unfold requests. cbn [parse]. rewrite E.
  by rewrite (parse_fuel (length data) (S (length (drop n data)))) by lia.
Qed.

(** A stream that arrives in two pieces. *)
Lemma requests_app a b :
  requests (a ++ b) =
    let '(c1, rest, _) := requests a in
    let '(c2, rest2, bad2) := requests (rest ++ b) in (c1 ++ c2, rest2, bad2).
Proof.
  remember (length a) as k eqn:Hk. revert a Hk. induction (lt_wf k) as [k _ IH]. intros a ->.
  destruct (RespDecode.decode a) as [[st toks] n] eqn:E. destruct st.
  - assert (RespDecode.decode (a ++ b) = (RespDecode.kOk, toks, n)) as E' by (rewrite RespDecode.decode_app; by rewrite E).
    rewrite (requests_step _ _ _ E), (requests_step _ _ _ E').
    pose proof (RespDecode.decode_consumed _ _ _ E) as Hn. rewrite drop_app_le by lia.
    rewrite (IH (length (drop n a)) ltac:(by apply decode_progress in E) (drop n a) eq_refl).
    destruct (requests (drop n a)) as [[c1 rest] bad]. by destruct (requests (rest ++ b)) as [[c2 rest2] bad2].
  - unfold requests at 2. cbn [parse]. rewrite E. by destruct (requests (a ++ b)) as [[? ?] ?].
  - unfold requests at 2. cbn [parse]. rewrite E. by destruct (requests (a ++ b)) as [[? ?] ?].
  - unfold requests at 2. cbn [parse]. rewrite E. by destruct (requests (a ++ b)) as [[? ?] ?].
Qed.

Lemma requests_bad a c rest :
  requests a = (c, rest, Bad) -> forall b, requests (rest ++ b) = ([], rest ++ b, Bad).
Proof.
  remember (length a) as k eqn:Hk. revert a c Hk. induction (lt_wf k) as [k _ IH]. intros a c -> H b.
  destruct (RespDecode.decode a) as [[st toks] n] eqn:E. destruct st.
  - rewrite (requests_step _ _ _ E) in H. destruct (requests (drop n a)) as [[c1 r1] bad] eqn:Er. simplify_eq.
    eapply (IH (length (drop n a))); [by apply decode_progress in E|reflexivity|exact Er].
  - unfold requests in H. cbn [parse] in H. by rewrite E in H.
  - unfold requests in H. cbn [parse] in H. rewrite E in H. simplify_eq. unfold requests. cbn [parse].
    rewrite RespDecode.decode_app; by rewrite E.
  - unfold requests in H. cbn [parse] in H. by rewrite E in H.
Qed.

End Serving.

Arguments Client : clear implicits.

(** ** Lemmas: a connection without a file *)

(** No file is being sent; clients never start one. *)
Definition plain (c : TcpConn) : Prop := sendfile_fd_ c = None /\ sendfile_done_ c = false.

(** Only the output of [c'] differs from that of [c]. *)
Definition outputs (c c' : TcpConn) : Prop :=
  plain c' /\ input_buffer_ c' = input_buffer_ c /\ (closed_ c = true -> closed_ c' = true).

Lemma inv_extend given more c : closed_ c = true -> TcpConnection.inv given c -> TcpConnection.inv (given ++ more) c.
Proof.
  intros Hc [[rest Hw] Hp Hf Ha]. split; try done; [|by rewrite Hc].
  exists (rest ++ more). by rewrite Hw, app_assoc.
Qed.

Lemma Close_plain c : plain c -> let '(evs, c') := Close c in outputs c c' /\ Forall (fun e => e = Closed) evs.
Proof.
  intros [H1 H2]. unfold Close, ClearSendFile, outputs, plain. destruct (closed_ c) eqn:E; cbn; [by rewrite E|].
  rewrite H2. cbn. split_and!; try done. by repeat constructor.
Qed.

Lemma syscall_plain data c r c' : syscall data c = (r, c') -> plain c -> outputs c c' /\ closed_ c' = closed_ c.
Proof.
  unfold syscall, outputs, plain. intros H [H1 H2]. destruct (sock_ c) as [|[n| |] sock]; simplify_eq; by split_and!.
Qed.

Lemma Send_plain given c data :
  TcpConnection.inv given c -> plain c ->
  let '(_, evs, c') := Send c (Some data) in
  TcpConnection.inv (given ++ data) c' /\ outputs c c' /\ Forall (fun e => e = Closed) evs.
Proof.
  intros Hi Hp. pose proof (inv_Send given c (Some data) Hi) as HS. cbn [default] in HS. unfold id in HS.
  assert (TcpConnection.inv (given ++ data) (Send c (Some data)).2) as HI.
  { destruct (closed_ c) eqn:Ec; cbn [orb] in HS.
    - apply inv_extend; [|done]. unfold Send. by rewrite Ec.
    - destruct (is_empty data) eqn:Ed; [|done]. apply is_empty_true in Ed as ->. by rewrite app_nil_r. }
  clear HS. revert HI. unfold Send. destruct (closed_ c || is_empty data) eqn:E0; [done|]. rewrite orb_false_iff in E0.
  destruct E0 as [Ec _]. pose proof Hp as [H1 H2]. rewrite H1.
  destruct (negb (is_empty (output_buffer_ c))); [by intros ?|].
  destruct (syscall data c) as [[n| |] c'] eqn:E; apply syscall_plain in E as [Ho Hc']; try done.
  - destruct (n <? length data)%nat; by intros ?.
  - pose proof (Close_plain c' (proj1 Ho)) as HC. destruct (Close c') as [evs c2]. intros ?. destruct HC as [HC1 HC2].
    split_and!; try done. destruct Ho as (? & Hb & ?), HC1 as (? & Hb' & ?). split_and!; try done; [congruence|tauto].
Qed.

Lemma round_plain c :
  plain c -> closed_ c = false ->
  let '(_, evs, c') := HandleWrite_round c in outputs c c' /\ Forall (fun e => e = Closed) evs.
Proof.
  intros Hp Hc. unfold HandleWrite_round. pose proof Hp as [H1 H2]. rewrite H1.
  destruct (negb (is_empty (output_buffer_ c))); [|by split_and!].
  assert (forall c', outputs c c' -> let '(_, evs, c2) := (let '(e1, c1) := ClearSendFile false c' in
    let '(e2, c2) := Close c1 in (false, e1 ++ e2, c2)) in outputs c c2 /\ Forall (fun e => e = Closed) evs) as Hfail.
  { intros c' (Hp' & Hb & Hcl). unfold ClearSendFile. rewrite (proj2 Hp').
    cbn [andb app]. pose proof (Close_plain (with_post (with_file c' None 0 0 false) []) ltac:(done)) as HC.
    destruct (Close _) as [e2 c2]. destruct HC as [(? & Hb' & ?) ?]. split; [|done].
    split_and!; [done|by rewrite Hb'|by rewrite Hc]. }
  destruct (syscall (output_buffer_ c) c) as [[[|n]| |] c'] eqn:E; apply syscall_plain in E as [Ho Hc']; try done;
    by apply Hfail.
Qed.

(** What reading does to an open connection. *)
Lemma HandleRead_loop_data rs hd c :
  plain c -> closed_ c = false -> Forall recv_answer rs ->
  let '(hd', evs, c') := HandleRead_loop rs hd c in
  (closed_ c' = false /\ c' = with_input c (mkBuffer (buf_ (input_buffer_ c) ++ arrives rs)) /\ evs = [] /\
     hd' = hd || negb (is_empty (arrives rs))) \/
  (hd' = false /\ closed_ c' = true /\ plain c' /\ exists c1, c' = (Close (with_input c c1)).2 /\ evs = [Closed]).
Proof.
  intros Hp Hc Hrs. revert hd c Hp Hc. induction Hrs as [|r rs Hr _ IH]; intros hd c Hp Hc; cbn [HandleRead_loop arrives].
  { left. rewrite app_nil_r, orb_false_r. split_and!; try done. by destruct c as [? ? []]. }
  assert (forall b, let '(evs, c') := Close (with_input c b) in closed_ c' = true /\ plain c' /\ evs = [Closed]) as HC.
  { intros b. unfold Close, ClearSendFile. cbn. rewrite Hc. cbn. by rewrite (proj2 Hp). }
  destruct r as [d|n e]; cbn [Recv].
  - destruct d as [|x d]; cbn [is_empty].
    + change (0 <? size_of []) with false. cbv iota. change (0 <? 0) with false. change (0 =? 0) with true. cbv iota.
      specialize (HC (input_buffer_ c)). destruct (Close _) as [evs c'] eqn:E. destruct HC as (H1 & H2 & ->).
      right. split_and!; try done. exists (input_buffer_ c). by rewrite E.
    + assert (0 < size_of (x :: d)) as Hs by (unfold size_of; cbn; lia). destruct (Z.ltb_spec 0 (size_of (x :: d))); [|lia].
      destruct (Z.ltb_spec 0 (size_of (x :: d))); [|lia].
      specialize (IH true (with_input c (mkBuffer (buf_ (input_buffer_ c) ++ x :: d))) Hp Hc).
      destruct (HandleRead_loop rs true _) as [[hd' evs] c']. destruct IH as [(H1 & -> & -> & ->)|(H1 & H2 & H3 & b & -> & ->)].
      * left. split_and!; try done; [|by rewrite orb_true_r]. cbn. by rewrite <- app_assoc.
      * right. split_and!; try done. by exists b.
  - cbn in Hr. destruct (Z.ltb_spec 0 n); [lia|]. rewrite app_nil_r, orb_false_r.
    specialize (HC (input_buffer_ c)). destruct (n =? 0).
    + destruct (Close _) as [evs c'] eqn:E. destruct HC as (H1 & H2 & ->).
      right. split_and!; try done. exists (input_buffer_ c). by rewrite E.
    + case_bool_decide.
      * left. split_and!; try done. by destruct c as [? ? []].
      * destruct (Close _) as [evs c'] eqn:E. destruct HC as (H1 & H2 & ->).
        right. split_and!; try done. exists (input_buffer_ c). by rewrite E.
Qed.

(** ** Lemmas: serving *)

Section Serves.
Context `{U : !Usearch} `{UL : !UsearchLaws U} `{W : !Wal} `{WL : !WalLaws W} `{R : !Repl} `{P : !Psync R} `{A : !Accepts R}.
Context (s0 : Server) (m0 : gmap bytes bytes) (fork_pid steady : nat -> Z).

#[local] Abbreviation commands := (construct s0 false).
#[local] Abbreviation dispatch := (dispatch commands fork_pid).
#[local] Abbreviation executor := (executor commands fork_pid steady).
#[local] Abbreviation callback := (callback commands fork_pid steady).

(** The server after the turns [h]. *)
Definition server_ok (h : list Turn) (w : World) : Prop :=
  exists s store, server w = Some s /\ server_wf s /\ server_shape s = server_shape s0 /\ kv s = Some store /\
    map_ran (is_set (wal s0)) m0 h (KvStore.map_ store).

Lemma server_ok_same h w w' : server w' = server w -> server_ok h w -> server_ok h w'.
Proof. unfold server_ok. by intros ->. Qed.

Lemma server_ok_master h f w : server_ok h w -> server_ok h (with_master f w).
Proof.
  intros (s & store & H1 & H2 & H3 & H4 & H5). unfold server_ok, with_master. cbn. rewrite H1. cbn.
  eexists _, store. split_and!; [done|exact H2| |exact H4|done]. unfold server_shape in *. cbn. rewrite <- H3.
  by destruct (repl s).
Qed.

Lemma events_ok h i evs w :
  server_ok h w -> Forall (fun e => e = Closed) evs ->
  server_ok h (foldl (event i) w evs) /\ clients (foldl (event i) w evs) = clients w.
Proof.
  intros Hs He. revert w Hs. induction He as [|e evs -> _ IH]; intros w Hs; [done|]. cbn [foldl event].
  destruct (IH (with_master (on_close (fd_of i w)) w) (server_ok_master _ _ _ Hs)) as [H1 H2]. by rewrite H2.
Qed.

Lemma dispatch_ok i fd now toks h w :
  server_ok h w -> repl s0 = None \/ no_psync toks ->
  let '(r, w') := dispatch (request fd now toks) w in
  clients w' = clients w /\ server_ok (h ++ [mkTurn i (request fd now toks) r]) w'.
Proof.
  intros (s & store & H1 & H2 & H3 & H4 & H5) Hp. unfold Serving.dispatch. rewrite H1.
  destruct (dispatch_answers s0 s false (request fd now toks) (fork_pid (tick w)) [] H3 H2) as (r & s' & HD & Hwf & Hsh & Hone).
  { destruct Hp as [?|Hp]; [by right|left; apply Hp]. }
  destruct (Dispatch_map s0 s (request fd now toks) (fork_pid (tick w)) [] store H3 H2 H4) as (r' & s1 & store' & HD' & Hkv & Hm).
  rewrite HD in HD'. injection HD' as <- <-. rewrite HD. split; [done|]. exists s', store'. split_and!; try done.
  apply map_ran_snoc with (KvStore.map_ store); [done| |done]. cbn [req reply].
  unfold map_call in *. unfold log_failed in Hm. unfold server_shape in H3.
  assert (match wal s with Some w => wal_enabled w = true | None => False end -> is_set (wal s0) = true) as Hw.
  { injection H3 as _ _ _ <- _. by destruct (wal s). }
  destruct (cmd (request fd now toks)); try done; destruct (is_empty _); try done; naive_solver.
Qed.

(** The commands of a read round. *)
Lemma serve_ok fuel i fd data h w :
  server_ok h w -> repl s0 = None \/ Forall no_psync (parse fuel data).1.1 ->
  let '(r, w', rest, bad) := serve fuel dispatch (fun w => steady (tick w)) fd data w in
  let '(cmds, rest', bad') := parse fuel data in
  rest = rest' /\ bad = bad' /\ clients w' = clients w /\
  exists new, Forall (fun t => who t = i) new /\ r = mjoin (reply <$> new) /\ server_ok (h ++ new) w' /\
    Forall2 (fun toks t => exists now, req t = request fd now toks) cmds new.
Proof.
  revert data h w. induction fuel as [|fuel IH]; intros data h w Hs Hp.
  { cbn. split_and!; try done. exists []. by rewrite app_nil_r. }
  cbn [serve parse] in *. destruct (RespDecode.decode data) as [[st toks] n]; destruct st.
  - change (default default_ctx _) with (request fd (steady (tick w)) toks).
    assert (repl s0 = None \/ no_psync toks) as Hp1.
    { destruct Hp as [?|Hp]; [by left|right]. destruct (parse fuel (drop n data)) as [[? ?] ?]. by inversion Hp. }
    pose proof (dispatch_ok i fd (steady (tick w)) toks h w Hs Hp1) as HD.
    destruct (dispatch _ w) as [r1 w1]. destruct HD as [Hc1 Hs1]. specialize (IH (drop n data) _ w1 Hs1).
    destruct (serve fuel _ _ _ _ w1) as [[[r w2] rest] bad]. destruct (parse fuel (drop n data)) as [[cmds rest'] bad'].
    destruct IH as (-> & -> & Hc2 & new & F1 & -> & Hs2 & F2).
    { destruct Hp as [?|Hp]; [by left|right]. by inversion Hp. }
    split_and!; [done|done|congruence|]. exists (mkTurn i (request fd (steady (tick w)) toks) r1 :: new).
    split_and!; [by constructor|done|by rewrite <- app_assoc in Hs2|]. constructor; [|done]. by eexists.
  - split_and!; try done. exists []. by rewrite app_nil_r.
  - split_and!; try done. exists []. by rewrite app_nil_r.
  - split_and!; try done. exists []. by rewrite app_nil_r.
Qed.

(** ** Lemmas: the invariant *)

(** [served], with the invariant of the connection. *)
Definition client_ok (h : list Turn) (recvd : bytes) (i : nat) (k : Client) : Prop :=
  exists input n,
    let '(cmds, rest, bad) := requests input in
    plain (conn_ k) /\
    TcpConnection.inv (mjoin (reply <$> turns_of i h) ++ mjoin (replicate n error_line)) (conn_ k) /\
    Forall2 (fun toks t => exists now, req t = request (fd_ k) now toks) cmds (turns_of i h) /\
    error_lines bad n /\
    (exists later, recvd = input ++ later) /\
    (closed_ (conn_ k) = false -> recvd = input /\ buf_ (input_buffer_ (conn_ k)) = rest).

Lemma client_ok_served h recvd i k : client_ok h recvd i k -> served h recvd i k.
Proof.
  intros (input & n & H). exists input, n. destruct (requests input) as [[cmds rest] bad].
  destruct H as (_ & Hi & H1 & H2 & H3 & H4). split_and!; try done; [apply Hi|]. intros Hc. destruct (H4 Hc) as [-> ?].
  split_and!; try done; [by apply Hi|]. intros Hp. apply Hi; [done|by left].
Qed.

Lemma turns_of_app i h new : turns_of i (h ++ new) = turns_of i h ++ turns_of i new.
Proof. apply filter_app. Qed.

Lemma turns_of_all i new : Forall (fun t => who t = i) new -> turns_of i new = new.
Proof.
  unfold turns_of. induction 1 as [|t new Ht _ IH]; [done|]. by rewrite filter_cons_True, IH.
Qed.

Lemma turns_of_none i new : Forall (fun t => who t <> i) new -> turns_of i new = [].
Proof.
  unfold turns_of. induction 1 as [|t new Ht _ IH]; [done|]. by rewrite filter_cons_False.
Qed.

(** The turns of other clients do not matter. *)
Lemma client_ok_frame h new recvd i j k :
  Forall (fun t => who t = i) new -> j <> i -> client_ok h recvd j k -> client_ok (h ++ new) recvd j k.
Proof.
  intros Hn Hji. unfold client_ok. rewrite turns_of_app, (turns_of_none j new), app_nil_r; [done|].
  eapply Forall_impl; [exact Hn|]. cbn. congruence.
Qed.

Lemma client_ok_outputs h recvd i fd c c' :
  client_ok h recvd i (mkClient fd c) -> (forall g, TcpConnection.inv g c -> TcpConnection.inv g c') -> outputs c c' ->
  client_ok h recvd i (mkClient fd c').
Proof.
  intros (input & n & H) Hg (Hp & Hb & Hc). exists input, n. destruct (requests input) as [[cmds rest] bad]. cbn in *.
  destruct H as (_ & Hi & H1 & H2 & H3 & H4). split_and!; try done; [by apply Hg|]. intros Ho. rewrite Hb. apply H4.
  destruct (closed_ c); [|done]. by rewrite Hc in Ho.
Qed.

(** What arrives at a connection that is closed is lost. *)
Lemma client_ok_closed h recvd more i fd c c' :
  client_ok h recvd i (mkClient fd c) -> (forall g, TcpConnection.inv g c -> TcpConnection.inv g c') ->
  plain c' -> closed_ c' = true -> client_ok h (recvd ++ more) i (mkClient fd c').
Proof.
  intros (input & n & H) Hg Hp Hc. exists input, n. destruct (requests input) as [[cmds rest] bad]. cbn in *.
  destruct H as (_ & Hi & H1 & H2 & (later & ->) & _). split_and!; try done; [by apply Hg| |by rewrite Hc].
  exists (later ++ more). by rewrite app_assoc.
Qed.

Record world_ok (h : list Turn) (recvd : nat -> bytes) (w : World) : Prop := {
  wo_server : server_ok h w;
  wo_clients : forall i k, clients w !! i = Some k -> client_ok h (recvd i) i k;
  wo_turns : Forall (fun t => (who t < length (clients w))%nat) h
}.

Lemma conn_of_lookup i k w : clients w !! i = Some k -> conn_of i w = conn_ k.
Proof. unfold conn_of. by intros ->. Qed.

Lemma set_conn_clients i fd c c' w :
  clients w !! i = Some (mkClient fd c) -> clients (set_conn i c' w) = <[i := mkClient fd c']> (clients w).
Proof.
  intros H. cbn. apply list_eq. intros j. rewrite list_lookup_alter, list_lookup_insert. rewrite H. cbn.
  pose proof (lookup_lt_Some _ _ _ H). repeat case_decide; try done; naive_solver.
Qed.

Lemma world_ok_ext h recvd recvd' w : (forall j, recvd' j = recvd j) -> world_ok h recvd w -> world_ok h recvd' w.
Proof. intros He [H1 H2 H3]. split; try done. intros i k Hk. rewrite He. auto. Qed.

(** A change of one client, whose turns are [new]. *)
Lemma world_ok_client h new recvd recvd' w w' i k :
  world_ok h recvd w -> (i < length (clients w))%nat -> Forall (fun t => who t = i) new ->
  server_ok (h ++ new) w' -> clients w' = <[i := k]> (clients w) ->
  (forall j, j <> i -> recvd' j = recvd j) -> client_ok (h ++ new) (recvd' i) i k -> world_ok (h ++ new) recvd' w'.
Proof.
  intros [_ H2 H3] Hi Hn Hs Hc Hr Hk. split; [done| |].
  - intros j k' Hj. rewrite Hc in Hj. destruct (decide (j = i)) as [->|Hne].
    + apply list_lookup_insert_Some in Hj as [(_ & -> & _)|[? _]]; done.
    + rewrite list_lookup_insert_ne in Hj by done. rewrite Hr by done. apply (client_ok_frame _ _ _ i); auto.
  - rewrite Hc, length_insert. apply Forall_app. split; [done|]. eapply Forall_impl; [exact Hn|]. by intros t ->.
Qed.

(** ** Lemmas: the steps of a connection *)

Lemma write_ok h i fd c given data w :
  server_ok h w -> clients w !! i = Some (mkClient fd c) -> TcpConnection.inv given c -> plain c ->
  server_ok h (write i data w) /\
  exists c', clients (write i data w) = <[i := mkClient fd c']> (clients w) /\
    TcpConnection.inv (given ++ data) c' /\ outputs c c'.
Proof.
  intros Hs Hi Hinv Hp. unfold write. destruct (is_empty data) eqn:Ed.
  { apply is_empty_true in Ed as ->. rewrite app_nil_r. split; [done|]. exists c. by rewrite list_insert_id. }
  rewrite (conn_of_lookup _ _ _ Hi). cbn [conn_]. pose proof (Send_plain given c data Hinv Hp) as HS.
  destruct (Send c (Some data)) as [[n evs] c']. destruct HS as (H1 & H2 & H3).
  destruct (events_ok h i evs (set_conn i c' w) (server_ok_same _ w _ eq_refl Hs) H3) as [H4 H5].
  split; [done|]. exists c'. by rewrite H5, (set_conn_clients _ _ _ _ _ Hi).
Qed.

Lemma callbacks_closed i evs w :
  Forall (fun e => e = Closed) evs -> callbacks (callback i) evs w = Some (foldl (event i) w evs).
Proof. intros H. revert w. induction H as [|e evs -> _ IH]; intros w; [done|]. cbn. apply IH. Qed.

(** The replies of a round, and the error line after them. *)
Lemma answer_ok h i fd c given data (bad : Stop) w :
  server_ok h w -> clients w !! i = Some (mkClient fd c) -> TcpConnection.inv given c -> plain c ->
  let w1 := write i data w in
  let w' := match bad with Bad => write i error_line w1 | _ => w1 end in
  server_ok h w' /\
  exists c', clients w' = <[i := mkClient fd c']> (clients w) /\
    TcpConnection.inv (given ++ data ++ match bad with Bad => error_line | _ => [] end) c' /\ outputs c c'.
Proof.
  intros Hs Hi Hinv Hp. destruct (write_ok h i fd c given data w Hs Hi Hinv Hp) as (Hs1 & c1 & H1 & H2 & H3).
  cbv zeta. destruct bad; [rewrite app_nil_r; eauto| |rewrite app_nil_r; eauto].
  pose proof (lookup_lt_Some _ _ _ Hi) as Hlt.
  destruct (write_ok h i fd c1 _ error_line (write i data w) Hs1 ltac:(rewrite H1; by apply list_lookup_insert_eq) H2 (proj1 H3))
    as (Hs2 & c2 & H4 & H5 & H6).
  split; [done|]. exists c2. rewrite H4, H1, list_insert_insert_eq, app_assoc. split_and!; try done.
  destruct H3 as (_ & Hb & Hc), H6 as (Hp' & Hb' & Hc'). split_and!; [done|congruence|tauto].
Qed.

(** The client's view after the replies to the turns [new]. *)
Lemma client_ok_read h new recvd i fd c d c3 rest2 cmds rest cmds2 bad bad2 input n :
  requests input = (cmds, rest, bad) -> requests (rest ++ d) = (cmds2, rest2, bad2) ->
  Forall2 (fun toks t => exists now, req t = request fd now toks) cmds (turns_of i h) ->
  Forall2 (fun toks t => exists now, req t = request fd now toks) cmds2 new ->
  Forall (fun t => who t = i) new -> error_lines bad n -> bad2 <> Throws -> recvd = input ++ d ->
  outputs c c3 ->
  TcpConnection.inv ((mjoin (reply <$> turns_of i h) ++ mjoin (replicate n error_line)) ++
    mjoin (reply <$> new) ++ match bad2 with Bad => error_line | _ => [] end) c3 ->
  client_ok (h ++ new) recvd i (mkClient fd (with_input c3 (mkBuffer rest2))).
Proof.
  intros Eq Eq2 Hcmds Hnew Hwho Hn Hnt -> Ho Hinv. pose proof (requests_app input d) as HA. rewrite Eq, Eq2 in HA.
  exists (input ++ d), (match bad2 with Bad => S n | _ => n end)%nat. rewrite HA. cbn [conn_ fd_].
  rewrite turns_of_app, (turns_of_all i new Hwho).
  assert (TcpConnection.inv (mjoin (reply <$> turns_of i h ++ new) ++
    mjoin (replicate (match bad2 with Bad => S n | _ => n end) error_line)) c3) as Hinv'.
  { rewrite fmap_app, join_app. destruct bad; [| |done].
    - cbn in Hn. subst n. cbn [replicate mjoin list_join] in *. rewrite app_nil_r in Hinv. rewrite <- app_assoc.
      destruct bad2; cbn [replicate mjoin list_join]; by rewrite ?app_nil_r in *.
    - rewrite (requests_bad _ _ _ Eq d) in Eq2. simplify_eq. apply Forall2_nil_inv_l in Hnew as ->.
      cbn [fmap list_fmap mjoin list_join] in *. rewrite app_nil_r. change (S n) with (1 + n)%nat. rewrite Nat.add_comm, replicate_add, join_app.
      cbn [replicate mjoin list_join] in *. rewrite app_nil_r. by rewrite app_assoc. }
  split_and!; [apply Ho|by apply inv_with_input|by apply Forall2_app| |by exists []; rewrite app_nil_r|done].
  destruct bad2; [|cbn; lia|done]. destruct bad; [done| |done]. rewrite (requests_bad _ _ _ Eq d) in Eq2. simplify_eq.
Qed.

(** The read callback, after [d] has been appended to the buffer of client [i]. *)
Lemma read_round h recvd recvd' w i fd c d :
  world_ok h recvd w -> clients w !! i = Some (mkClient fd c) -> closed_ c = false ->
  recvd' i = recvd i ++ d -> (forall j, j <> i -> recvd' j = recvd j) ->
  repl s0 = None \/ Forall no_psync (requests (recvd' i)).1.1 ->
  let res := callback i Readable (set_conn i (with_input c (mkBuffer (buf_ (input_buffer_ c) ++ d))) w) in
  (res = None /\ (requests (recvd' i)).2 = Throws) \/
  exists w' h', res = Some w' /\ world_ok h' recvd' w' /\ length (clients w') = length (clients w).
Proof.
  intros Hw Hi Hc Hr Hr' Hps. cbv zeta. pose proof (lookup_lt_Some _ _ _ Hi) as Hlt.
  set (c1 := with_input c _). set (w1 := set_conn i c1 w).
  assert (clients w1 = <[i := mkClient fd c1]> (clients w)) as Hc1 by apply (set_conn_clients _ _ _ _ _ Hi).
  assert (clients w1 !! i = Some (mkClient fd c1)) as Hi1 by (rewrite Hc1; by apply list_lookup_insert_eq).
  destruct (wo_clients _ _ _ Hw i _ Hi) as (input & n & HI). cbn [conn_ fd_] in HI.
  pose proof (requests_app input d) as HA. rewrite Hr in Hps |- *.
  destruct (requests input) as [[cmds rest] bad] eqn:Eq. destruct HI as (Hp & Hinv & Hcmds & Hn & _ & Hopen).
  destruct (Hopen Hc) as [Hin Hbuf]. rewrite Hin in Hps, Hr |- *.
  cbn [Serving.callback]. rewrite (conn_of_lookup _ _ _ Hi1). cbn [conn_].
  unfold OnBufferReadable. cbn [handler_ on_ok_ Serving.executor]. cbn [c1 with_input input_buffer_ buf_].
  rewrite Hbuf, loop_serve by (cbn; lia). cbn [buf_ clock Serving.executor app].
  unfold requests in HA at 2. destruct (parse (S (length (rest ++ d))) (rest ++ d)) as [[cmds2 rest2] bad2] eqn:Ep.
  pose proof (serve_ok (S (length (rest ++ d))) i (fd_of i w1) (rest ++ d) h w1
    (server_ok_same _ w _ eq_refl (wo_server _ _ _ Hw))) as HS. rewrite Ep in HS.
  destruct (serve _ _ _ _ _ w1) as [[[r w2] rest'] bad']. destruct HS as (-> & -> & Hcl2 & new & Hwho & -> & Hs2 & Hnew).
  { destruct Hps as [?|Hps]; [by left|right]. rewrite HA in Hps. by apply Forall_app in Hps as [_ ?]. }
  assert (clients w2 !! i = Some (mkClient fd c1)) as Hi2 by (by rewrite Hcl2).
  destruct (answer_ok (h ++ new) i fd c1 _ (mjoin (reply <$> new)) bad2 w2 Hs2 Hi2 (inv_with_input _ _ _ Hinv) Hp)
    as (Hs3 & c3 & Hc3 & Hinv3 & Ho3).
  assert ((flush (executor i) (mjoin (reply <$> new)) w2).2 = write i (mjoin (reply <$> new)) w2) as ->.
  { unfold flush. cbn [on_write_ Serving.executor]. unfold write. by destruct (is_empty _). }
  destruct (decide (bad2 = Throws)) as [->|Hnt]; [left; split; [done|by rewrite HA]|right].
  cbn [on_error_ Serving.executor]. set (w3 := match bad2 with Bad => _ | _ => _ end) in *.
  match goal with |- context [match bad2 with Waits => ?a | Bad => ?b | Throws => None end] =>
    assert (match bad2 with Waits => a | Bad => b | Throws => None end = Some (mkBuffer rest2, w3)) as -> by (by destruct bad2) end.
  assert (clients w3 !! i = Some (mkClient fd c3)) as Hi3 by (rewrite Hc3; apply list_lookup_insert_eq; by rewrite Hcl2, Hc1, length_insert).
  rewrite (conn_of_lookup _ _ _ Hi3). cbn [conn_].
  assert (clients (set_conn i (with_input c3 (mkBuffer rest2)) w3) = <[i := mkClient fd (with_input c3 (mkBuffer rest2))]> (clients w)) as Hcl.
  { by rewrite (set_conn_clients _ _ _ _ _ Hi3), Hc3, Hcl2, Hc1, !list_insert_insert_eq. }
  eexists _, (h ++ new). split; [reflexivity|]. split; [|by rewrite Hcl, length_insert].
  assert (fd_of i w1 = fd) as Hfd by (unfold fd_of; by rewrite Hi1). rewrite Hfd in Hnew.
  eapply (world_ok_client h new recvd recvd' w _ i _ Hw Hlt Hwho); [exact (server_ok_same _ w3 _ eq_refl Hs3)|exact Hcl|done|].
  by apply (client_ok_read h new _ i fd c1 d c3 rest2 cmds rest cmds2 bad bad2 input n).
Qed.

Lemma client_at i w : (i < length (clients w))%nat -> exists fd, clients w !! i = Some (mkClient fd (conn_of i w)).
Proof. intros [[fd c] Hk]%lookup_lt_is_Some. exists fd. unfold conn_of. by rewrite Hk. Qed.

(** A step that only moves output, and the close callback if it closed. *)
Lemma world_ok_outputs h recvd w i c' evs :
  world_ok h recvd w -> (i < length (clients w))%nat ->
  (forall g, TcpConnection.inv g (conn_of i w) -> TcpConnection.inv g c') -> outputs (conn_of i w) c' ->
  Forall (fun e => e = Closed) evs ->
  let w' := foldl (event i) (set_conn i c' w) evs in
  world_ok h recvd w' /\ length (clients w') = length (clients w) /\ conn_of i w' = c'.
Proof.
  intros Hw Hlt Hg Ho He w'. destruct (client_at i w Hlt) as [fd Hi].
  destruct (events_ok h i evs (set_conn i c' w) (server_ok_same _ w _ eq_refl (wo_server _ _ _ Hw)) He) as [Hs Hc].
  assert (clients w' = <[i := mkClient fd c']> (clients w)) as Hcl by (unfold w'; by rewrite Hc, (set_conn_clients _ _ _ _ _ Hi)).
  split_and!.
  - rewrite <- (app_nil_r h). eapply (world_ok_client h [] recvd recvd w w' i _ Hw Hlt); rewrite ?app_nil_r; try done.
    eapply client_ok_outputs; [by apply (wo_clients _ _ _ Hw)|done|done].
  - by rewrite Hcl, length_insert.
  - rewrite (conn_of_lookup i (mkClient fd c')); [done|]. rewrite Hcl. by apply list_lookup_insert_eq.
Qed.

Lemma conn_plain h recvd w i : world_ok h recvd w -> (i < length (clients w))%nat -> plain (conn_of i w).
Proof.
  intros Hw Hlt. destruct (client_at i w Hlt) as [fd Hi]. destruct (wo_clients _ _ _ Hw i _ Hi) as (input & n & H).
  destruct (requests input) as [[cmds rest] bad]. apply H.
Qed.

Lemma write_rounds h recvd w i :
  world_ok h recvd w -> (i < length (clients w))%nat -> closed_ (conn_of i w) = false ->
  exists w', HandleWrite (conn_of i) (set_conn i) (callback i) (S (rounds (conn_of i w))) w = Some w' /\
    world_ok h recvd w' /\ length (clients w') = length (clients w).
Proof.
  intros Hw Hlt Hc. remember (length (clients w)) as L eqn:HL.
  apply (HandleWrite_ends (conn_of i) (set_conn i) (callback i)
    (fun w => (world_ok h recvd w /\ length (clients w) = L) /\ closed_ (conn_of i w) = false)
    (fun w => world_ok h recvd w /\ length (clients w) = L)); [|by intros ? []|by subst L|lia].
  assert (i < L)%nat as HiL by (by subst L). clear w Hw Hlt Hc HL. intros w again evs c [[Hw HL] Hc] E.
  assert (i < length (clients w))%nat as Hlt by (by subst L). pose proof (conn_plain _ _ _ _ Hw Hlt) as Hp.
  pose proof (round_plain _ Hp Hc) as HR. destruct (round_outcome _ _ _ _ Hc E) as [_ Ho].
  assert (forall g, TcpConnection.inv g (conn_of i w) -> TcpConnection.inv g c) as Hg.
  { intros g Hg. pose proof (inv_round g _ Hg Hc) as H. by rewrite E in H. }
  rewrite E in HR. destruct HR as [HR He]. rewrite (callbacks_closed _ _ _ He). eexists. split; [reflexivity|].
  destruct (world_ok_outputs _ _ _ _ _ _ Hw Hlt Hg HR He) as (H1 & H2 & H3). rewrite H3, H2.
  destruct again; [|by split]. destruct Ho as [[Ho _]|[? _]]; [|done]. by split_and!.
Qed.

(** The phases of [HandleIO] after the reading. *)
Lemma io_rest h recvd w i events :
  world_ok h recvd w -> (i < length (clients w))%nat ->
  exists w', (if closed_ (conn_of i w) then Some w
              else match (if has events EPOLLOUT then HandleWrite (conn_of i) (set_conn i) (callback i) (S (rounds (conn_of i w))) w
                          else Some w) with
                   | None => None
                   | Some w =>
                       if closed_ (conn_of i w) then Some w
                       else if has events (Z.lor EPOLLERR (Z.lor EPOLLHUP EPOLLRDHUP)) then
                         let '(evs, c) := Close (conn_of i w) in callbacks (callback i) evs (set_conn i c w)
                       else Some w
                   end) = Some w' /\
    world_ok h recvd w' /\ length (clients w') = length (clients w).
Proof.
  intros Hw Hlt. destruct (closed_ (conn_of i w)) eqn:Hc; [eauto|].
  assert (exists w1, (if has events EPOLLOUT then HandleWrite (conn_of i) (set_conn i) (callback i) (S (rounds (conn_of i w))) w
                      else Some w) = Some w1 /\ world_ok h recvd w1 /\ length (clients w1) = length (clients w)) as (w1 & -> & Hw1 & Hl1).
  { destruct (has events EPOLLOUT); [by apply write_rounds|eauto]. }
  destruct (closed_ (conn_of i w1)); [eauto|]. destruct (has events _); [|eauto].
  assert (i < length (clients w1))%nat as Hlt1 by lia.
  pose proof (Close_plain _ (conn_plain _ _ _ _ Hw1 Hlt1)) as HC. pose proof (fun g => inv_Close g (conn_of i w1)) as Hg.
  destruct (Close (conn_of i w1)) as [evs c]. destruct HC as [Ho He]. rewrite (callbacks_closed _ _ _ He).
  destruct (world_ok_outputs _ _ _ _ c evs Hw1 Hlt1 Hg Ho He) as (H1 & H2 & _). eexists. split; [reflexivity|]. split; [exact H1|]. by rewrite H2.
Qed.

Lemma io_ok h recvd recvd' w i events rs :
  world_ok h recvd w -> (i < length (clients w))%nat -> Forall recv_answer rs ->
  recvd' i = recvd i ++ (if has events EPOLLIN then arrives rs else []) -> (forall j, j <> i -> recvd' j = recvd j) ->
  repl s0 = None \/ Forall no_psync (requests (recvd' i)).1.1 ->
  let res := io commands fork_pid steady i events rs w in
  (res = None /\ (requests (recvd' i)).2 = Throws) \/
  exists w' h', res = Some w' /\ world_ok h' recvd' w' /\ length (clients w') = length (clients w).
Proof.
  intros Hw Hlt Hrs Hr Hr' Hps. cbv zeta. unfold io, HandleIO. destruct (client_at i w Hlt) as [fd Hi].
  assert (forall c' w', plain c' -> closed_ c' = true -> (forall g, TcpConnection.inv g (conn_of i w) -> TcpConnection.inv g c') ->
    server_ok h w' -> clients w' = <[i := mkClient fd c']> (clients w) -> world_ok h recvd' w') as Hclosed.
  { intros c' w' H1 H2 H3 H4 H5. rewrite <- (app_nil_r h).
    eapply (world_ok_client h [] recvd recvd' w w' i _ Hw Hlt); rewrite ?app_nil_r; try done. rewrite Hr.
    by apply (client_ok_closed _ _ _ _ _ (conn_of i w)); [apply (wo_clients _ _ _ Hw)|..]. }
  destruct (closed_ (conn_of i w)) eqn:Hc.
  { right. exists w, h. split_and!; [done| |done]. apply (Hclosed (conn_of i w) w); try done; [by eapply conn_plain|apply Hw|].
    by rewrite list_insert_id. }
  destruct (has events EPOLLIN) eqn:Hin.
  - unfold HandleRead. pose proof (HandleRead_loop_data rs false _ (conn_plain _ _ _ _ Hw Hlt) Hc Hrs) as HL.
    destruct (HandleRead_loop rs false (conn_of i w)) as [[hd evs] c'].
    destruct HL as [(H1 & -> & -> & ->)|(-> & H1 & H2 & b & H3 & ->)]; cbn [app orb andb].
    + destruct (is_empty (arrives rs)) eqn:Hd; cbn [negb andb orb app callbacks].
      * apply is_empty_true in Hd. rewrite Hd in *. rewrite app_nil_r in *.
        destruct (world_ok_outputs h recvd w i (with_input (conn_of i w) (mkBuffer (buf_ (input_buffer_ (conn_of i w))))) [] Hw Hlt)
          as (Hw1 & Hl1 & _); [by intros; apply inv_with_input| |constructor|].
        { split_and!; [by eapply conn_plain|cbn; by destruct (input_buffer_ _)|done]. }
        assert (forall j, recvd' j = recvd j) as Heq by (intros j; destruct (decide (j = i)) as [->|]; auto).
        cbn [foldl] in *. pose proof (world_ok_ext h recvd recvd' _ Heq Hw1) as Hw2.
        destruct (io_rest h recvd' _ i events Hw2 ltac:(by rewrite Hl1)) as (w' & E & H2 & H3).
        right. exists w', h. split_and!; [exact E|done|congruence].
      * destruct (read_round h recvd recvd' w i fd _ (arrives rs) Hw Hi Hc Hr Hr' Hps) as [[E ?]|(w1 & h' & E & Hw1 & Hl1)].
        { left. by rewrite E. }
        right. rewrite E. destruct (io_rest h' recvd' w1 i events Hw1 ltac:(by rewrite Hl1)) as (w' & E' & H2 & H3).
        exists w', h'. split_and!; [exact E'|done|congruence].
    + rewrite (callbacks_closed i [Closed]) by (by repeat constructor).
      destruct (events_ok h i [Closed] (set_conn i c' w) (server_ok_same _ w _ eq_refl (wo_server _ _ _ Hw)) ltac:(by repeat constructor))
        as [Hs He]. set (w1 := foldl _ _ _) in *. rewrite (set_conn_clients _ _ _ _ _ Hi) in He.
      assert (conn_of i w1 = c') as ->.
      { rewrite (conn_of_lookup i (mkClient fd c')); [done|]. rewrite He. by apply list_lookup_insert_eq. }
      right. rewrite H1. exists w1, h. split_and!; [done| |by rewrite He, length_insert].
      apply (Hclosed c' w1); try done. intros g Hg. rewrite H3. by apply inv_Close, inv_with_input.
  - rewrite app_nil_r in Hr. assert (forall j, recvd' j = recvd j) as Heq by (intros j; destruct (decide (j = i)) as [->|]; auto).
    destruct (io_rest h recvd' w i events (world_ok_ext h recvd recvd' _ Heq Hw) Hlt) as (w' & E & H2 & H3).
    right. rewrite Hc. rewrite Hc in E. exists w', h. split_and!; [exact E|done|done].
Qed.



(** ** Lemmas: runs *)

Definition start : World := mkWorld (Some s0) [] 0.

Lemma received_snoc i sts st : received i (sts ++ [st]) = received i sts ++ received i [st].
Proof. unfold received. by rewrite fmap_app, join_app. Qed.

Lemma ordinary_prefix sts st : ordinary s0 (sts ++ [st]) -> ordinary s0 sts.
Proof.
  intros [?|H]; [by left|right]. intros i. specialize (H i). rewrite received_snoc, requests_app in H.
  destruct (requests (received i sts)) as [[c1 rest] bad]. destruct (requests (rest ++ _)) as [[c2 ?] ?].
  by apply Forall_app in H as [? _].
Qed.

Lemma io_step h sts w i events rs :
  world_ok h (fun j => received j sts) w -> (i < length (clients w))%nat -> Forall recv_answer rs ->
  ordinary s0 (sts ++ [Io i events rs]) ->
  let res := io commands fork_pid steady i events rs w in
  (res = None /\ (requests (received i (sts ++ [Io i events rs]))).2 = Throws) \/
  exists w' h', res = Some w' /\
    world_ok h' (fun j => received j (sts ++ [Io i events rs])) w' /\ length (clients w') = length (clients w).
Proof.
  intros Hw Hlt Hrs Ho. apply (io_ok h (fun j => received j sts) (fun j => received j (sts ++ [Io i events rs]))); try done.
  - rewrite received_snoc. f_equal. unfold received. cbn. rewrite decide_True by done. by rewrite app_nil_r.
  - intros j Hj. rewrite received_snoc. unfold received at 2. cbn. by rewrite decide_False, app_nil_r by done.
  - destruct Ho as [?|Ho]; [by left|right; apply Ho].
Qed.

Lemma world_ok_accept h recvd fd sock w :
  world_ok h recvd w -> recvd (length (clients w)) = [] -> world_ok h recvd (accept fd sock w).
Proof.
  intros [H1 H2 H3] Hnew. split.
  - apply (server_ok_same _ (with_master (on_connection fd) w)); [done|]. by apply server_ok_master.
  - intros i k Hk. cbn in Hk. apply lookup_app_Some in Hk as [Hk|[Hge Hk]]; [by apply H2|].
    apply list_lookup_singleton_Some in Hk as [Hi <-]. assert (i = length (clients w)) as -> by lia.
    exists [], 0%nat. cbn [requests parse length]. rewrite Hnew, turns_of_none.
    + cbn. split_and!; try done; [apply inv_construct|by exists []].
    + eapply Forall_impl; [exact H3|]. cbn. lia.
  - cbn. rewrite length_app. eapply Forall_impl; [exact H3|]. cbn. lia.
Qed.

Lemma run_ok sts w store :
  server_wf s0 -> kv s0 = Some store -> m0 = KvStore.map_ store -> ordinary s0 sts ->
  run commands fork_pid steady start sts w ->
  exists h, world_ok h (fun j => received j sts) w /\
    forall j, (length (clients w) <= j)%nat -> received j sts = [].
Proof.
  intros Hwf Hkv Hm Ho Hr. induction Hr as [|sts w st w' _ IH Hst].
  - exists []. split; [|done]. split; [|done|constructor]. exists s0, store. split_and!; try done. rewrite Hm. constructor.
  - destruct (IH (ordinary_prefix _ _ Ho)) as (h & Hw & Hr). destruct Hst as [fd sock|i events rs w' Hlt Hrs Hio|s s' H1 H2 H3 H4].
    + exists h. assert (forall j, received j (sts ++ [Accept fd sock]) = received j sts) as Heq
        by (intros j; rewrite received_snoc; cbn; by rewrite app_nil_r).
      split; [apply (world_ok_ext h (fun j => received j sts)); [done|]; apply world_ok_accept; auto|].
      intros j Hj. rewrite Heq. apply Hr. cbn in Hj. rewrite length_app in Hj. lia.
    + destruct (io_step h sts w i events rs Hw Hlt Hrs Ho) as [[E _]|(w1 & h' & E & Hw1 & Hl)]; [congruence|]. rewrite Hio in E. injection E as <-.
      exists h'. split; [done|]. intros j Hj. rewrite received_snoc, Hr by lia. unfold received. cbn.
      by rewrite decide_False by lia.
    + exists h. assert (forall j, received j (sts ++ [Background]) = received j sts) as Heq
        by (intros j; rewrite received_snoc; cbn; by rewrite app_nil_r).
      split; [|intros j Hj; rewrite Heq; by apply Hr]. apply (world_ok_ext h (fun j => received j sts)); [done|].
      destruct Hw as [(s1 & st & E & G1 & G2 & G3 & G4) W2 W3]. split; [|done|done]. rewrite H1 in E. injection E as <-.
      exists s', st. split_and!; try done; [|congruence|congruence].
      unfold server_wf, server_targets, targets_wf in *. cbn in *. by rewrite H2.
Qed.

(** ** Properties *)

(** C2: the server is a map to all its clients at once.  Clients connect, their bytes
    arrive in any pieces and in any interleaving, the kernel takes as much of the
    output as it likes, connections break, and other handlers of the loop run in
    between.  Then there is one order of all the requests that were served, in which
    each finds the map that the one before left: SET, DEL and GET act on that map,
    no other request changes it, and each reply is one RESP reply, that of the map
    for these commands -- or, for a write whose log record was refused, the
    error that says so.  Every client sees its own part of that order: its commands,
    in the order in which it sent them, each once; what it gets are their replies
    in that order, followed by error lines if and only if it sent something that
    is no command.  While its connection is open all its complete commands are
    served and what the kernel has not taken of the replies is kept and will be
    offered.  And the server goes on serving: whatever happens next on a connection
    is handled, unless the bytes that have arrived then contain, after the complete
    commands, a header that makes the decoder throw, which ends the process.  Left
    out are clients of a master that ask with PSYNC to become replicas ([ordinary]);
    Replication.v is about those. *)
Theorem clients_served (sts : list stimulus) (w : World) (store : KvStore.KvStore) :
  server_wf s0 -> kv s0 = Some store -> m0 = KvStore.map_ store -> ordinary s0 sts ->
  run commands fork_pid steady start sts w ->
  exists (h : list Turn) (s : Server) (store' : KvStore.KvStore), server w = Some s /\ kv s = Some store' /\
    map_ran (is_set (wal s0)) m0 h (KvStore.map_ store') /\
    (forall i k, clients w !! i = Some k -> served h (received i sts) i k) /\
    (forall i events rs, (i < length (clients w))%nat -> Forall recv_answer rs ->
       ordinary s0 (sts ++ [Io i events rs]) -> (requests (received i (sts ++ [Io i events rs]))).2 <> Throws ->
       is_Some (io commands fork_pid steady i events rs w)).
Proof.
  intros Hwf Hkv Hm Ho Hr. destruct (run_ok sts w store Hwf Hkv Hm Ho Hr) as (h & Hw & _).
  pose proof (wo_server _ _ _ Hw) as (s & st & H1 & _ & _ & H2 & H3). exists h, s, st. split_and!; try done.
  - intros i k Hk. apply client_ok_served. by apply (wo_clients _ _ _ Hw).
  - intros i events rs Hi Hrs Hnext Hnt. destruct (io_step h sts w i events rs Hw Hi Hrs Hnext) as [[_ ?]|(w' & _ & -> & _)]; [done|eauto].
Qed.

End Serves.

(** ** Witnesses *)

#[local] Existing Instances flat_usearch flat_laws list_wal list_wal_laws.
#[local] Instance demo_orderZ : IterOrder Z := default_order Z.
#[local] Existing Instances ReplicationMaster.master_repl ReplicationMaster.master_psync.

(** A master with a store and a log. *)
Definition demo_server : Server :=
  mkServer (Some VNodeIndex.demo) (Some KvStore.demo) (Some (SnapshotManager.construct (bs "d"))) (Some [])
    (Some (Some ReplicationStream.demo_master)).

Definition demo_step (w : World) (st : stimulus) : option World :=
  match st with
  | Accept fd sock => Some (accept fd sock w)
  | Io i events rs =>
      if (i <? length (clients w))%nat && forallb (fun r => match r with Received _ => true | NotReceived n _ => n <=? 0 end) rs
      then io (construct demo_server false) (fun _ => 77) Z.of_nat i events rs w else None
  | Background => None
  end.

Fixpoint demo_play (sts : list stimulus) (w : World) : option World :=
  match sts with
  | [] => Some w
  | st :: sts => match demo_step w st with Some w => demo_play sts w | None => None end
  end.

Lemma demo_play_run w0 sts0 sts w w' :
  run (construct demo_server false) (fun _ => 77) Z.of_nat w0 sts0 w -> demo_play sts w = Some w' ->
  run (construct demo_server false) (fun _ => 77) Z.of_nat w0 (sts0 ++ sts) w'.
Proof.
  revert sts0 w. induction sts as [|st sts IH]; cbn; intros sts0 w Hr H; [injection H as <-; by rewrite app_nil_r|].
  destruct (demo_step w st) as [w1|] eqn:E; [|done]. change (st :: sts) with ([st] ++ sts). rewrite app_assoc.
  apply (IH _ w1); [|done]. apply run_snoc with w; [done|]. destruct st as [fd sock|i events rs|]; cbn in E; [| |done].
  - injection E as <-. constructor.
  - destruct (_ && _) eqn:Eb; [|done]. apply andb_prop in Eb as [E1 E2]. constructor; [by apply Nat.ltb_lt| |done].
    clear E. induction rs as [|r rs IHr]; [constructor|]. cbn in E2. apply andb_prop in E2 as [E2 E3].
    constructor; [|by apply IHr]. destruct r; [done|]. by apply Z.leb_le.
Qed.

(** Two clients: the second asks for the key before and after the first has bound
    it, with a request that arrives in two pieces; then it sends what is no command. *)
Definition demo_command (toks : list string) : bytes :=
  foldl (fun out t => AppendBulkString out (bs t)) (AppendArrayHeader [] (Z.of_nat (length toks))) toks.

Definition demo_stimuli : list stimulus :=
  [Accept 5 [Sent 999; Sent 999]; Accept 6 [Sent 3; Sent 999; Sent 999];
   Io 1 EPOLLIN [Received (demo_command ["GET"; "a"]); NotReceived (-1) EAGAIN];
   Io 0 EPOLLIN [Received (take 12 (demo_command ["SET"; "a"; "1"])); NotReceived (-1) EAGAIN];
   Io 0 EPOLLIN [Received (drop 12 (demo_command ["SET"; "a"; "1"])); NotReceived (-1) EAGAIN];
   Io 1 EPOLLIN [Received (demo_command ["GET"; "a"] ++ bs "?"); NotReceived (-1) EAGAIN];
   Io 1 EPOLLOUT []].

(** What the clients have got, and the value of the key. *)
Definition demo_view (w : World) : list (bool * bytes) * option bytes :=
  ((fun k => (closed_ (conn_ k), wire (conn_ k))) <$> clients w,
   s ← server w; st ← kv s; KvStore.map_ st !! bs "a").

Example demo_played :
  demo_view <$> demo_play demo_stimuli (start demo_server) =
    Some ([(false, bs "+OK" ++ CRLF);
           (false, bs "$-1" ++ CRLF ++ bs "$1" ++ CRLF ++ bs "1" ++ CRLF ++ error_line)], Some (bs "1")).
Proof. vm_compute. reflexivity. Qed.

(** A header with a huge element count kills the server, whoever sends it. *)
Example demo_killed :
  match demo_play demo_stimuli (start demo_server) with
  | Some w =>
      match io (construct demo_server false) (fun _ => 77) Z.of_nat 0 EPOLLIN
              [Received (bs "*9223372036854775807" ++ CRLF); NotReceived (-1) EAGAIN] w with
      | None => true
      | Some _ => false
      end
  | None => false
  end = true.
Proof. vm_compute. reflexivity. Qed.

Lemma clients_served_witness :
  exists w h s store, demo_play demo_stimuli (start demo_server) = Some w /\ server w = Some s /\ kv s = Some store /\
    map_ran true (KvStore.map_ KvStore.demo) h (KvStore.map_ store) /\
    (forall i k, clients w !! i = Some k -> served h (received i demo_stimuli) i k).
Proof.
  pose proof demo_played as HV. destruct (demo_play demo_stimuli (start demo_server)) as [w|] eqn:Hw; [|discriminate HV]. clear HV.
  destruct (clients_served demo_server (KvStore.map_ KvStore.demo) (fun _ => 77) Z.of_nat demo_stimuli w KvStore.demo)
    as (h & s & store & H1 & H2 & H3 & H4 & _).
  - split_and!; [apply VNodeIndex.demo_ok|apply VNodeIndex.demo_ok|]. vm_compute. discriminate.
  - reflexivity.
  - reflexivity.
  - right. intros [|[|i]]; [..|constructor]; repeat (constructor; [intros fd now; vm_compute; discriminate|]); constructor.
  - apply (demo_play_run _ [] _ (start demo_server)); [constructor|done].
  - exists w, h, s, store. split_and!; done.
Defined.
