(* ===== verification/Startup.v ===== *)
(** * Startup: the command line and the construction of the server

    Models src/Vemory.cc: the arguments, the configuration, the objects that
    [main] makes and the recovery of their contents, up to the event loop.
    Allocations within the size limit of their type and the logging library are
    taken to succeed; a listening socket that cannot be opened is only logged by
    the code. *)

From S2P Require Import Prelude.
From S2P Require Import Stdio.
From S2P Require Import CLib.
From S2P Require Import Config.
From S2P Require Import Usearch.
From S2P Require Import FlatIndex.
From S2P Require Import RequestContext.
From S2P Require Import MutationApply.
From S2P Require Import WalManager.
From S2P Require Import FileSystem.
From S2P Require Import SnapshotManager.
From S2P Require CommandHandler.
From S2P Require ReplicationSlave.
From S2P Require ReplicationMaster.
From S2P Require Import TcpConnection.

(** ** The command line *)

(** A C string: no character of it is NUL. *)
Definition ParsePortArg (text : bytes) : option Z :=
  let '(port, rest) := strtoll text in
  if beq rest text || negb (is_empty rest) || (port <=? 0) || (65535 <? port) then None else Some (u16 port).

(** The output parameters of [ParseArgs]. *)
Record Args := mkArgs {
  config_path : bytes;
  port_override : bool;
  cli_port : Z;
  a_slaveof : bool;
  a_slaveof_host : bytes;
  a_slaveof_port : Z
}.

Definition no_args : Args := mkArgs [] false 8888 false [] 0.

(** Parsed, refused, or [exit(EXIT_SUCCESS)] after the usage. *)
Inductive ArgResult := Parsed (a : Args) | Refused (a : Args) | ExitSuccess.

Fixpoint ParseArgs (argv : list bytes) (a : Args) : ArgResult :=
  match argv with
  | [] => Parsed a
  | arg :: argv =>
      if beq arg (bs "-c") then
        match argv with
        | path :: argv =>
            ParseArgs argv (mkArgs path (port_override a) (cli_port a) (a_slaveof a) (a_slaveof_host a)
                              (a_slaveof_port a))
        | [] => Refused a
        end
      else if beq arg (bs "--slaveof") then
        match argv with
        | host :: port :: argv =>
            match ParsePortArg port with
            | Some p => ParseArgs argv (mkArgs (config_path a) (port_override a) (cli_port a) true host p)
            | None => Refused (mkArgs (config_path a) (port_override a) (cli_port a) true host (a_slaveof_port a))
            end
        | _ => Refused a
        end
      else if beq arg (bs "-h") || beq arg (bs "--help") then ExitSuccess
      else if bool_decide (head arg = Some "-"%char) then Refused a
      else if port_override a then Refused a
      else
        match ParsePortArg arg with
        | Some p => ParseArgs argv (mkArgs (config_path a) true p (a_slaveof a) (a_slaveof_host a) (a_slaveof_port a))
        | None => Refused a
        end
  end.

(** ** [main] *)

Section Startup.
Context `{A : !AofWriter} `{U : !Usearch} `{OB : !IterOrder bytes} `{OZ : !IterOrder Z}.
#[local] Existing Instances ReplicationMaster.master_repl ReplicationMaster.master_psync.

(** The local variables of [main] when the event loop starts. *)
Record Process := mkProcess {
  p_cfg : Config;
  p_stores : Stores;
  p_snapshot : SnapshotManager;
  p_wal : WalManager;
  p_master : ptr ReplicationMaster.ReplicationMaster;
  p_commands : CommandHandler.CommandHandler;
  p_slave : ptr ReplicationSlave.ReplicationSlave;
  p_idle : bool     (** the loop polls the log when it is idle *)
}.

(** [Terminated]: an exception of the decoder (see [RespDecode.Status]) has ended
    the process. *)
Inductive Outcome := ExitFailure | ExitHelp | Terminated | Running (p : Process).

(** How one part of the recovery ends: with stores, with [EXIT_FAILURE], or with
    an exception. *)
Inductive Recovered := Recovery (st : Stores) | Failure | Exception.

(** What the process finds: the files, the build option [VEMORY_RDB_MMAP], how
    log writers are made from the configuration, the clock, the random device,
    and the first connection attempt of a replica. *)
Record World := mkWorld {
  w_fs : Fs;
  w_mmap : bool;
  w_make : Config -> bytes -> writer;
  w_clock : nat -> Z;
  w_random : nat -> Z;
  w_connect : option (list SendResult)
}.

Definition read_config (w : World) (a : Args) : option Config :=
  let cfg := if is_empty (config_path a) then Some default_config
             else match LoadConfig (config_path a) (files (w_fs w) !! config_path a) (Some default_config) (Some []) with
                  | (true, out, _) => out
                  | (false, _, _) => None
                  end in
  match cfg with
  | None => None
  | Some cfg =>
      let cfg := if port_override a then set_port cfg (cli_port a) else cfg in
      Some (set_slaveof cfg (a_slaveof a) (a_slaveof_host a) (a_slaveof_port a))
  end.

(** The stores after the snapshot; an unusable file is no failure. *)
Definition load_snapshot (w : World) (cfg : Config) (view : bool) (st : Stores) : Recovered :=
  if load_on_startup cfg && negb (is_empty (persistence_dir cfg)) then
    match SnapshotManager.Load (w_mmap w) (persistence_dir cfg) st view (w_fs w) with
    | (SnapshotManager.kOk, st) | (SnapshotManager.kIoError, st) => Recovery st
    | (SnapshotManager.thrown, _) => Exception
    | _ => Failure
    end
  else Recovery st.

(** The stores after the log; [None]: out of fuel. *)
Definition replay_log (w : World) (wal : WalManager) (st : Stores) : option Recovered :=
  if enabled_ wal then
    match Replay wal (files (w_fs w) !! path_ wal) (w_clock w) (mkTargets (s_index st) (s_kv st) None None) with
    | Some (WalManager.kOk, _, t) | Some (WalManager.kNotConfigured, _, t) => Some (Recovery (mkStores (t_index t) (t_kv t)))
    | Some (WalManager.thrown, _, _) => Some Exception
    | Some (_, _, _) => Some Failure
    | None => None
    end
  else Some (Recovery st).

Definition main (argv : list bytes) (w : World) : option Outcome :=
  match ParseArgs (tail argv) no_args with
  | ExitSuccess => Some ExitHelp
  | Refused _ => Some ExitFailure
  | Parsed a =>
      match read_config w a with
      | None => Some ExitFailure
      | Some cfg =>
          let st := mkStores (Some (VNodeIndex.construct (default_capacity cfg) (max_entries cfg)))
                      (Some (KvStore.Reserve KvStore.empty (kv_reserve cfg))) in
          let view := w_mmap w && slaveof cfg in
          let snapshot := SetUsearchMmapView (SnapshotManager.construct (persistence_dir cfg)) view in
          let wal := WalManager.construct (w_make w cfg) (persistence_dir cfg) (aof cfg) in
          match load_snapshot w cfg view st with
          | Failure => Some ExitFailure
          | Exception => Some Terminated
          | Recovery st =>
              match replay_log w wal st with
              | None => None
              | Some Failure => Some ExitFailure
              | Some Exception => Some Terminated
              | Some (Recovery st) =>
                  let master := if slaveof cfg then None
                                else Some (ReplicationMaster.construct ReplicationBacklog.kDefaultCapacity (w_random w) ∅) in
                  let server := CommandHandler.mkServer (s_index st) (s_kv st) (Some snapshot) (Some wal)
                                  (match master with Some m => Some (Some m) | None => None end) in
                  let commands := CommandHandler.construct server (slaveof cfg) in
                  if slaveof cfg then
                    let '(ok, slave) :=
                      ReplicationSlave.Start (ReplicationSlave.construct true true st (w_fs w))
                        (slaveof_host cfg) (slaveof_port cfg) (w_connect w) in
                    if ok then Some (Running (mkProcess cfg st snapshot wal master commands (Some slave) (enabled_ wal)))
                    else Some ExitFailure
                  else Some (Running (mkProcess cfg st snapshot wal master commands None (enabled_ wal)))
              end
          end
      end
  end.

(** ** Lemmas *)

Context `{AL : !AofWriterLaws A} `{L : !UsearchLaws U}.

(** The stores of a new process, and those of a running one behind its log. *)
Definition fresh (cfg : Config) : Targets :=
  mkTargets (Some (VNodeIndex.construct (default_capacity cfg) (max_entries cfg))) (Some KvStore.empty) None None.

Definition serving (p : Process) (r : ptr repl_state) : Targets :=
  mkTargets (s_index (p_stores p)) (s_kv (p_stores p)) (Some (p_wal p)) r.

(** The commands [cs] can have been logged: replayed on the stores of a new
    process, they give [u]. *)
Record history (cfg : Config) (cs : list RequestContext) (u : Targets) : Prop := {
  hi_writes : Forall write_ok cs;
  hi_fit : Forall frame_fits cs;
  hi_redo : redo cs (fresh cfg) = Some u
}.

Lemma frames_nil cs : Forall frame_fits cs -> frames cs = [] -> cs = [].
Proof. intros Hf H. apply frames_count in Hf. rewrite H in Hf. destruct cs; [done|]. cbn in Hf. lia. Qed.

(** The log is replayed when the process starts. *)
Lemma replay_log_history w wal cfg cs u :
  enabled_ wal = true -> default [] (files (w_fs w) !! path_ wal) = frames cs -> history cfg cs u ->
  replay_log w wal (mkStores (Some (VNodeIndex.construct (default_capacity cfg) (max_entries cfg))) (Some KvStore.empty)) =
    Some (Recovery (mkStores (t_index u) (t_kv u))).
Proof.
  intros He Hfile [Hw Hf Hr]. unfold replay_log. rewrite He. cbn [s_index s_kv]. fold (fresh cfg).
  destruct (files (w_fs w) !! path_ wal) as [data|]; cbn in Hfile.
  - rewrite Hfile. by rewrite (Replay_whole wal cs (fresh cfg) u) by (done || by eexists).
  - symmetry in Hfile. apply (frames_nil _ Hf) in Hfile. subst cs. injection Hr as <-.
    unfold Replay. rewrite He. done.
Qed.

(** What a run of [main] as a master with a log and no snapshot amounts to. *)
Definition started (cfg : Config) (w : World) (u : Targets) : Process :=
  let view := w_mmap w && slaveof cfg in
  let snapshot := SetUsearchMmapView (SnapshotManager.construct (persistence_dir cfg)) view in
  let wal := WalManager.construct (w_make w cfg) (persistence_dir cfg) (aof cfg) in
  let master := ReplicationMaster.construct ReplicationBacklog.kDefaultCapacity (w_random w) ∅ in
  let server := CommandHandler.mkServer (t_index u) (t_kv u) (Some snapshot) (Some wal) (Some (Some master)) in
  mkProcess cfg (mkStores (t_index u) (t_kv u)) snapshot wal (Some master)
    (CommandHandler.construct server false) None (enabled_ wal).

Definition log_of (cfg : Config) : bytes := persistence_dir cfg ++ bs "/" ++ kFileName.

Definition logs_only (cfg : Config) : Prop :=
  slaveof cfg = false /\ aof cfg = true /\ persistence_dir cfg <> [] /\ load_on_startup cfg = false.

(** The log manager that [main] makes for such a configuration. *)
Definition wal_of (cfg : Config) (w : World) : WalManager := WalManager.construct (w_make w cfg) (persistence_dir cfg) true.

Lemma wal_of_on cfg w : logs_only cfg -> enabled_ (wal_of cfg w) = true /\ path_ (wal_of cfg w) = log_of cfg.
Proof. intros (_ & _ & H3%is_empty_false & _). unfold wal_of, WalManager.construct. rewrite H3. by split. Qed.

Lemma main_replayed argv w a cfg u :
  ParseArgs (tail argv) no_args = Parsed a -> read_config w a = Some cfg -> logs_only cfg ->
  replay_log w (wal_of cfg w) (mkStores (Some (VNodeIndex.construct (default_capacity cfg) (max_entries cfg))) (Some KvStore.empty)) =
    Some (Recovery (mkStores (t_index u) (t_kv u))) ->
  main argv w = Some (Running (started cfg w u)).
Proof.
  intros Ha Hc (H1 & H2 & H3 & H4) Hr. unfold main, started. rewrite Ha, Hc. unfold load_snapshot.
  rewrite H1, H2, H4. cbn [andb]. fold (wal_of cfg w). unfold KvStore.Reserve. rewrite Hr. by rewrite andb_false_r.
Qed.

Lemma main_logs argv w a cfg cs u :
  ParseArgs (tail argv) no_args = Parsed a -> read_config w a = Some cfg -> logs_only cfg ->
  default [] (files (w_fs w) !! log_of cfg) = frames cs -> history cfg cs u ->
  main argv w = Some (Running (started cfg w u)).
Proof.
  intros Ha Hc Hl Hfile Hh. destruct (wal_of_on cfg w Hl) as [He Hp]. apply (main_replayed argv w a); try done.
  apply (replay_log_history w _ cfg cs u He); [by rewrite Hp|done].
Qed.

(** [main] has read its configuration if it runs. *)
Lemma main_config argv w p :
  main argv w = Some (Running p) -> exists a, ParseArgs (tail argv) no_args = Parsed a /\ read_config w a = Some (p_cfg p).
Proof.
  unfold main. destruct (ParseArgs _ _) as [a| |]; try done. intros H. exists a. split; [done|].
  destruct (read_config w a) as [cfg|]; [|done]. destruct (load_snapshot _ _ _ _); [|done|done].
  destruct (replay_log _ _ _) as [[st1| |]|]; try done. destruct (slaveof cfg).
  - destruct (ReplicationSlave.Start _ _ _ _) as [[] ?]; [|done]. by injection H as <-.
  - by injection H as <-.
Qed.

(** Other files are not read for the configuration. *)
Lemma read_config_files w w' a :
  files (w_fs w') !! config_path a = files (w_fs w) !! config_path a -> read_config w' a = read_config w a.
Proof. intros H. unfold read_config. by rewrite H. Qed.

Lemma read_config_capacity w a cfg : read_config w a = Some cfg -> 0 <= max_entries cfg.
Proof.
  unfold read_config. intros H.
  assert (forall c, config_ok c -> 0 <= max_entries (if port_override a then set_port c (cli_port a) else c)) as Hc.
  { intros c [_ _ _ _ _ Hm _]. destruct (port_override a); cbn; lia. }
  destruct (is_empty (config_path a)).
  - injection H as <-. apply (Hc _ default_ok).
  - destruct (LoadConfig _ _ _ _) as [[[] out] err] eqn:E; [|done].
    destruct out as [c|]; [|done]. injection H as <-. apply Hc. unfold LoadConfig in E.
    destruct (files (w_fs w) !! config_path a) as [text|]; [|done].
    pose proof (LoadLines_ok (getlines [] text) 0 (Some []) (mkParser default_config [] ∅) default_ok) as Hl.
    destruct (LoadLines _ _ _ _) as [q|e]; [|done]. by injection E as <- _.
Qed.

Lemma fresh_wf cfg : 0 <= max_entries cfg -> targets_wf (fresh cfg).
Proof. intros H. destruct (VNodeIndex.wf_construct (default_capacity cfg) (max_entries cfg)) as [H1 H2]. by split_and!. Qed.

(** The journal of a run of the server, from its start. *)
Lemma served_started cfg w r cs0 u0 t2 es :
  0 <= max_entries cfg -> logs_only cfg -> history cfg cs0 u0 -> runs (serving (started cfg w u0) r) es t2 ->
  exists cs wal2 u, t_wal t2 = Some wal2 /\ wal_log wal2 = wal_log (p_wal (started cfg w u0)) ++ (frame_of <$> cs) /\
    Forall write_ok cs /\ (Forall frame_fits cs -> history cfg (cs0 ++ cs) u) /\ eqv_targets u (strip t2).
Proof.
  intros Hmax Hl [Hw0 Hf0 Hr0] Hr. destruct (redo_frame _ _ _ Hr0) as (F1 & F2 & F3 & F4 & F5).
  assert (strip (serving (started cfg w u0) r) = u0) as Hstrip.
  { destruct u0 as [ui uk uw ur]. cbn in F1, F2. by subst. }
  assert (targets_wf (serving (started cfg w u0) r)) as Hwf.
  { pose proof (F3 (fresh_wf cfg Hmax)) as H. rewrite <- Hstrip in H. exact H. }
  destruct (runs_journal _ _ _ Hr Hwf) as (cs & Ho & Hlog & _ & u & Hu & Heq).
  unfold logged in Hlog. destruct Hlog as (wal2 & Hw2 & _ & Hlog).
  assert (enabled_ (p_wal (started cfg w u0)) = true) as He.
  { pose proof (wal_of_on cfg w Hl) as [He _]. destruct Hl as (_ & H2 & _). unfold started. cbn [p_wal]. by rewrite H2. }
  cbn [t_wal serving wal_enabled manager_wal] in Hlog. rewrite He in Hlog.
  exists cs, wal2, u. split_and!; try done. intros Hf.
  split; [by apply Forall_app|by apply Forall_app|]. by rewrite redo_app, Hr0, <- Hstrip.
Qed.

Lemma served_journal argv w p r cs0 u0 t2 es :
  main argv w = Some (Running p) -> logs_only (p_cfg p) ->
  default [] (files (w_fs w) !! log_of (p_cfg p)) = frames cs0 -> history (p_cfg p) cs0 u0 -> runs (serving p r) es t2 ->
  exists a cs wal2 u, ParseArgs (tail argv) no_args = Parsed a /\ read_config w a = Some (p_cfg p) /\
    p = started (p_cfg p) w u0 /\ t_wal t2 = Some wal2 /\ wal_log wal2 = wal_log (p_wal p) ++ (frame_of <$> cs) /\
    (Forall frame_fits cs -> history (p_cfg p) (cs0 ++ cs) u) /\ eqv_targets u (strip t2).
Proof.
  intros Hm Hl Hfile Hh Hr. destruct (main_config _ _ _ Hm) as (a & Ha & Hc).
  set (cfg := p_cfg p) in *. clearbody cfg. pose proof (main_logs argv w a cfg cs0 u0 Ha Hc Hl Hfile Hh) as Hm0.
  rewrite Hm in Hm0. injection Hm0 as ->.
  destruct (served_started cfg w r cs0 u0 t2 es (read_config_capacity _ _ _ Hc) Hl Hh Hr) as (cs & wal2 & u & H1 & H2 & _ & H3 & H4).
  by exists a, cs, wal2, u.
Qed.

(** ** Properties *)

(** C7: a restarted server has the state it had.  Let a master with a log (and
    no snapshot to load) have started on a log file with the commands [cs0] of
    earlier runs, and have served lookups and client commands, done or refused --
    with any answer but "aof append failed" and "vset failed" (after which memory
    may differ from the log, see [MutationApply.write_journal]), unless such a
    refusal changed nothing.  There are
    commands [cs] such that the log has taken their frames, and when the process
    is started again, with the same command line and with these frames appended
    to its log file, it runs with the same configuration and with the stores it
    had when it stopped, up to the access order of the cache (which lookups change,
    and which decides what is evicted next).  The longer log is again one to
    start on, so this holds for any number of restarts. *)
Theorem restart_recovers (argv : list bytes) (w : World) (p : Process) (r : ptr repl_state)
    (cs0 : list RequestContext) (u0 t2 : Targets) (es : list WalManager.event) :
  main argv w = Some (Running p) -> logs_only (p_cfg p) ->
  (forall a, ParseArgs (tail argv) no_args = Parsed a -> config_path a <> log_of (p_cfg p)) ->
  default [] (files (w_fs w) !! log_of (p_cfg p)) = frames cs0 -> history (p_cfg p) cs0 u0 ->
  runs (serving p r) es t2 ->
  exists cs wal2, t_wal t2 = Some wal2 /\ wal_log wal2 = wal_log (p_wal p) ++ (frame_of <$> cs) /\
    (Forall frame_fits cs -> forall w',
       w' = mkWorld (with_files (w_fs w) (<[log_of (p_cfg p) := frames (cs0 ++ cs)]> (files (w_fs w))))
              (w_mmap w) (w_make w) (w_clock w) (w_random w) (w_connect w) ->
       exists p' u', main argv w' = Some (Running p') /\ p_cfg p' = p_cfg p /\
         history (p_cfg p) (cs0 ++ cs) u' /\ p_stores p' = mkStores (t_index u') (t_kv u') /\
         eqv_targets u' (strip t2)).
Proof.
  intros Hm Hl Hpath Hfile Hh Hr.
  destruct (served_journal _ _ _ _ _ _ _ _ Hm Hl Hfile Hh Hr) as (a & cs & wal2 & u & Ha & Hc & _ & Hw2 & Hlog & Hh' & Heq).
  exists cs, wal2. split_and!; [done|done|]. intros Hf w' ->. specialize (Hh' Hf). set (cfg := p_cfg p) in *. clearbody cfg.
  eexists (started cfg _ u), u. split_and!; try done. apply (main_logs argv _ a cfg (cs0 ++ cs) u Ha); try done.
  - rewrite <- Hc. apply read_config_files. cbn. by rewrite lookup_insert_ne by (intros H; by apply (Hpath a Ha)).
  - cbn. by rewrite lookup_insert_eq.
Qed.

End Startup.

(** ** The command line *)

(** A command line for [a]: a path, a replica's master and a port, if it has them. *)
Definition command_line (a : Args) : list bytes :=
  (if is_empty (config_path a) then [] else [bs "-c"; config_path a]) ++
  (if a_slaveof a then [bs "--slaveof"; a_slaveof_host a; print_unsigned (a_slaveof_port a)] else []) ++
  (if port_override a then [print_unsigned (cli_port a)] else []).

Definition args_ok (a : Args) : Prop :=
  (if port_override a then 0 < cli_port a <= 65535 else cli_port a = 8888) /\
  (if a_slaveof a then 0 < a_slaveof_port a <= 65535 else a_slaveof_host a = [] /\ a_slaveof_port a = 0).

Lemma ParsePortArg_print n : 0 < n <= 65535 -> ParsePortArg (print_unsigned n) = Some n.
Proof.
  intros Hn. unfold ParsePortArg. pose proof (strtoll_print n [] ltac:(lia) I) as H. rewrite app_nil_r in H. rewrite H.
  pose proof (print_unsigned_nonempty n) as Hne. unfold beq. rewrite bool_decide_false by congruence. cbn [is_empty negb orb].
  destruct (Z.leb_spec n 0), (Z.ltb_spec 65535 n); try lia. cbn. unfold u16. by rewrite Z.mod_small by lia.
Qed.

Lemma ParsePortArg_range s n : ParsePortArg s = Some n -> 0 < n <= 65535.
Proof.
  unfold ParsePortArg. destruct (strtoll s) as [v rest].
  destruct (_ || _ || (v <=? 0)) eqn:E1; [done|]. destruct (Z.ltb_spec 65535 v); [done|]. cbn.
  apply orb_false_iff in E1 as [_ E%Z.leb_gt]. intros [= <-]. unfold u16. rewrite Z.mod_small; lia.
Qed.

(** A port is no option. *)
Lemma port_arg n (argv : list bytes) a :
  0 < n <= 65535 -> port_override a = false ->
  ParseArgs (print_unsigned n :: argv) a =
    ParseArgs argv (mkArgs (config_path a) true n (a_slaveof a) (a_slaveof_host a) (a_slaveof_port a)).
Proof.
  intros Hn Hp. cbn [ParseArgs]. rewrite (ParsePortArg_print n Hn), Hp.
  pose proof (print_unsigned_isdigit n) as Hd. pose proof (print_unsigned_nonempty n) as Hne.
  destruct (print_unsigned n) as [|c l]; [done|]. apply Forall_cons_iff in Hd as [Hc _].
  assert (c <> "-"%char) as Hm by (by intros ->). unfold beq.
  rewrite !(bool_decide_false (c :: l = _)) by (intros [= -> _]; done). cbn [orb head].
  by rewrite bool_decide_false by congruence.
Qed.

(** Every combination of arguments can be given on the command line, and
    what is parsed is in range: the arguments of [command_line a] are parsed as
    [a]; and whatever the arguments are, parsed ports are from 1 to 65535. *)
Theorem ParseArgs_complete (a : Args) (argv : list bytes) :
  (args_ok a -> ParseArgs (command_line a) no_args = Parsed a) /\
  match ParseArgs argv no_args with Parsed b => args_ok b | Refused _ | ExitSuccess => True end.
Proof.
  split.
  - destruct a as [path ov p so host sp]. intros [Hp Hs]. unfold command_line. cbn in *.
    assert (forall b, port_override b = false -> cli_port b = 8888 ->
      ParseArgs (if ov then [print_unsigned p] else []) b =
        Parsed (mkArgs (config_path b) ov p (a_slaveof b) (a_slaveof_host b) (a_slaveof_port b))) as Hport.
    { intros [] Hb1 Hb2. cbn in *. subst. destruct ov; [by rewrite port_arg|]. cbn. by rewrite Hp. }
    assert (forall b, port_override b = false -> cli_port b = 8888 -> a_slaveof b = false -> a_slaveof_host b = [] ->
      a_slaveof_port b = 0 ->
      ParseArgs ((if so then [bs "--slaveof"; host; print_unsigned sp] else []) ++ (if ov then [print_unsigned p] else [])) b =
        Parsed (mkArgs (config_path b) ov p so host sp)) as Hslave.
    { intros b Hb1 Hb2 Hb3 Hb4 Hb5. destruct so.
      - cbn [app ParseArgs]. change (beq (bs "--slaveof") (bs "-c")) with false.
        change (beq (bs "--slaveof") (bs "--slaveof")) with true. cbv iota.
        rewrite ParsePortArg_print by done. by rewrite Hport.
      - destruct Hs as [-> ->]. cbn [app]. rewrite Hport by done. by rewrite Hb3, Hb4, Hb5. }
    destruct (is_empty path) eqn:E.
    + apply is_empty_true in E. subst path. cbn [app]. by rewrite Hslave.
    + cbn [app ParseArgs]. change (beq (bs "-c") (bs "-c")) with true. cbv iota. by rewrite Hslave.
  - assert (args_ok no_args) as H0 by done. revert H0. generalize no_args as b.
    remember (length argv) as n eqn:Hn. revert argv Hn. induction (lt_wf n) as [n _ IH]. intros argv Hn b Hb.
    destruct argv as [|arg argv]; [done|]. cbn [ParseArgs]. destruct Hb as [Hb1 Hb2].
    destruct (beq arg _).
    { destruct argv as [|path argv]; [done|]. eapply IH; [|done|done]. cbn in Hn. lia. }
    destruct (beq arg _).
    { destruct argv as [|host [|port argv]]; [done|done|]. destruct (ParsePortArg port) as [q|] eqn:E; [|done].
      apply ParsePortArg_range in E. eapply IH; [|done|done]. cbn in Hn. lia. }
    destruct (_ || _); [done|]. case_bool_decide; [done|]. destruct (port_override b); [done|].
    destruct (ParsePortArg arg) as [q|] eqn:E; [|done]. apply ParsePortArg_range in E.
    eapply IH; [|done|done]. cbn in Hn. lia.
Qed.

(** ** Witnesses *)

#[local] Existing Instances flat_usearch flat_laws list_writer list_writer_laws.
#[local] Instance demo_orderZ : IterOrder Z := default_order Z.
#[local] Instance demo_orderB : IterOrder bytes := default_order bytes.
#[local] Existing Instances ReplicationMaster.master_repl ReplicationMaster.master_psync.

Definition demo_args : Args := mkArgs (bs "v.ini") true 7000 true (bs "10.0.0.1") 6379.

Lemma ParseArgs_complete_witness :
  ParseArgs [bs "-c"; bs "v.ini"; bs "--slaveof"; bs "10.0.0.1"; bs "6379"; bs "7000"] no_args = Parsed demo_args.
Proof. apply (ParseArgs_complete demo_args []). by split. Defined.

Definition demo_argv : list bytes := [bs "vemory"; bs "-c"; bs "v.ini"].

Definition demo_world : World :=
  mkWorld (mkFs {[bs "v.ini" := text_of [bs "[persistence]"; bs "aof = on"]]} (fun _ => true) (fun _ => true)
             (fun _ => true) true true None)
    true (fun _ _ => [] : @writer list_writer) (fun _ => 0) (fun _ => 0) None.

Definition demo_cfg : Config := set_aof default_config true.

Definition demo_process : Process := started demo_cfg demo_world (fresh demo_cfg).

Definition demo_set : RequestContext := mkCtx 7 CommandType.kSet [] [] [] [] 0 (bs "k") (bs "v") [] (-1) 0.

Lemma demo_main : main demo_argv demo_world = Some (Running demo_process).
Proof.
  apply (main_logs demo_argv demo_world (mkArgs (bs "v.ini") false 8888 false [] 0) demo_cfg []).
  - reflexivity.
  - vm_compute. reflexivity.
  - by split_and!.
  - vm_compute. reflexivity.
  - by split.
Qed.

Definition demo_serving : Targets :=
  mkTargets (Some (VNodeIndex.construct 1024 0)) (Some KvStore.empty)
    (Some (WalManager.construct (fun _ => [] : @writer list_writer) (bs "data") true)) None.

Definition value_of (t : Targets) : option (option bytes) :=
  (fun kv => (KvStore.Get kv (bs "k") (Some [])).2) <$> t_kv t.

Lemma demo_runs : exists t2, runs (serving demo_process None) [EWrite demo_set] t2 /\
  value_of t2 = Some (Some (bs "v")).
Proof.
  assert (serving demo_process None = demo_serving) as -> by reflexivity.
  assert (match ApplyMutation 2 demo_set kClient demo_serving with
          | Some (r, t1) => ok r && bool_decide (value_of t1 = Some (Some (bs "v")))
          | None => false end = true) as H by (vm_compute; reflexivity).
  destruct (ApplyMutation 2 demo_set kClient demo_serving) as [[r t1]|] eqn:HA; [|discriminate].
  apply andb_true_iff in H as [Hok Hk%bool_decide_eq_true].
  exists t1. split; [|exact Hk]. eapply runs_write; [exact HA|by apply ok_in_step| |constructor]. apply Nat.leb_le. vm_compute. reflexivity.
Qed.

Lemma restart_recovers_witness :
  exists t2, runs (serving demo_process None) [EWrite demo_set] t2 /\
    value_of t2 = Some (Some (bs "v")) /\
  exists cs wal2, t_wal t2 = Some wal2 /\ wal_log wal2 = wal_log (p_wal demo_process) ++ (frame_of <$> cs) /\
    (Forall frame_fits cs -> exists p' u',
      main demo_argv
        (mkWorld (with_files (w_fs demo_world) (<[log_of demo_cfg := frames ([] ++ cs)]> (files (w_fs demo_world))))
           true (fun _ _ => [] : @writer list_writer) (fun _ => 0) (fun _ => 0) None) = Some (Running p') /\
      p_stores p' = mkStores (t_index u') (t_kv u') /\ eqv_targets u' (strip t2)).
Proof.
  destruct demo_runs as (t2 & Hr & Hk). exists t2. split; [exact Hr|]. split; [exact Hk|].
  destruct (restart_recovers demo_argv demo_world demo_process None [] (fresh demo_cfg) t2 [EWrite demo_set] demo_main)
    as (cs & wal2 & H1 & H2 & H3).
  - by split_and!.
  - intros a [= <-]. discriminate.
  - vm_compute. reflexivity.
  - by split.
  - exact Hr.
  - exists cs, wal2. split; [exact H1|]. split; [exact H2|]. intros Hf.
    destruct (H3 Hf _ eq_refl) as (p' & u' & A1 & _ & _ & A2 & A3). exists p', u'. by split_and!.
Defined.
