(* ===== verification/BlockingQueue.v ===== *)
(** * BlockingQueue: a bounded queue between two threads

    Models include/vemory/util/BlockingQueue.h.  Every operation holds the mutex
    from its wake-up to its end, so it is one step of its thread: a function of
    the queue, which is [None] while the wait condition keeps the thread asleep. *)

From S2P Require Import Prelude.

Section BlockingQueue.
Context {T : Type}.

Record BlockingQueue := mkQueue { capacity_ : nat; cancelled_ : bool; queue_ : list T }.

Definition construct (capacity : nat) : BlockingQueue :=
  mkQueue (if (capacity <? 1)%nat then 1 else capacity) false [].

(** Whether the value was enqueued. *)
Definition Push (q : BlockingQueue) (value : T) : option (bool * BlockingQueue) :=
  if (length (queue_ q) <? capacity_ q)%nat || cancelled_ q then
    if cancelled_ q then Some (false, q)
    else Some (true, mkQueue (capacity_ q) (cancelled_ q) (queue_ q ++ [value]))
  else None.

(** [value] is not null: what is moved into it, if anything. *)
Definition Pop (q : BlockingQueue) : option (option T * BlockingQueue) :=
  match queue_ q with
  | x :: l => Some (Some x, mkQueue (capacity_ q) (cancelled_ q) l)
  | [] => if cancelled_ q then Some (None, q) else None
  end.

(** When it returns: with an item, or with nothing because the time is over or
    the queue is cancelled. *)
Definition PopWaitFor (q : BlockingQueue) : option T * BlockingQueue :=
  match queue_ q with
  | x :: l => (Some x, mkQueue (capacity_ q) (cancelled_ q) l)
  | [] => (None, q)
  end.

Definition Cancel (q : BlockingQueue) : BlockingQueue := mkQueue (capacity_ q) true (queue_ q).
Definition cancelled (q : BlockingQueue) : bool := cancelled_ q.
Definition size (q : BlockingQueue) : nat := length (queue_ q).
Definition capacity (q : BlockingQueue) : nat := capacity_ q.

End BlockingQueue.

Arguments BlockingQueue : clear implicits.
