(* ===== verification/ThreadPool.v ===== *)
(** * ThreadPool: threads that run the tasks of a queue

    Models include/vemory/util/ThreadPool.h over BlockingQueue.v.  A task is a
    value of [T]; what its body does to the pool is the parameter [posts], the
    tasks it posts in order (the body ends otherwise: a task that loops for ever
    is not of this model).  A call of the queue is one step of its thread, and a
    thread asleep in it has no step. *)

From S2P Require Import Prelude BlockingQueue.

Section ThreadPool.
Context {T : Type} (posts : T -> list T).

(** Where the loop of Worker stands: in Pop, in a task with the posts that are
    left, or returned. *)
Inductive Worker := kPopping | kRunning (task : T) (todo : list T) | kReturned.

Record ThreadPool := mkPool { task_queue_ : BlockingQueue T; workers_ : list Worker }.

Definition kDefaultQueueCapacity : nat := 1024.

Definition construct (num_threads : Z) : ThreadPool :=
  mkPool (BlockingQueue.construct kDefaultQueueCapacity)
         (replicate (Z.to_nat (if num_threads <? 1 then 1 else num_threads)) kPopping).

(** What a step does: a task is queued, dropped (the result of Push is ignored),
    taken by a worker, finished; or a worker returns. *)
Inductive event := ePosted (task : T) | eDropped (task : T) | eTaken (task : T) | eDone (task : T) | eReturned.

Definition Post (task : T) (p : ThreadPool) : option (event * ThreadPool) :=
  match Push (task_queue_ p) task with
  | Some (ok, q) => Some (if (ok : bool) then ePosted task else eDropped task, mkPool q (workers_ p))
  | None => None
  end.

Definition set_worker (w : nat) (x : Worker) (p : ThreadPool) : ThreadPool :=
  mkPool (task_queue_ p) (<[w := x]> (workers_ p)).

(** The next step of worker [w]; none while it is asleep or when it returned. *)
Definition worker_step (w : nat) (p : ThreadPool) : option (event * ThreadPool) :=
  match workers_ p !! w with
  | Some kPopping =>
      match Pop (task_queue_ p) with
      | Some (Some task, q) =>
          Some (eTaken task, set_worker w (kRunning task (posts task)) (mkPool q (workers_ p)))
      | Some (None, q) => Some (eReturned, set_worker w kReturned (mkPool q (workers_ p)))
      | None => None
      end
  | Some (kRunning task []) => Some (eDone task, set_worker w kPopping p)
  | Some (kRunning task (t :: todo)) =>
      match Post t p with
      | Some (e, p) => Some (e, set_worker w (kRunning task todo) p)
      | None => None
      end
  | Some kReturned | None => None
  end.

(** The destructor: Cancel, then the joins wait until every worker returned. *)
Definition begin_destroy (p : ThreadPool) : ThreadPool :=
  mkPool (Cancel (task_queue_ p)) (workers_ p).

Definition joined (p : ThreadPool) : Prop := Forall (fun x => x = kReturned) (workers_ p).

(** ** Runs *)

(** A worker moves, or a thread outside the pool posts. *)
Inductive step : ThreadPool -> event -> ThreadPool -> Prop :=
| step_worker w p e p' : worker_step w p = Some (e, p') -> step p e p'
| step_post t p e p' : Post t p = Some (e, p') -> step p e p'.

Inductive steps (R : ThreadPool -> event -> ThreadPool -> Prop) : ThreadPool -> list event -> ThreadPool -> Prop :=
| steps_nil p : steps R p [] p
| steps_cons p e p1 es p' : R p e p1 -> steps R p1 es p' -> steps R p (e :: es) p'.

Definition wstep (p : ThreadPool) (e : event) (p' : ThreadPool) : Prop :=
  exists w, worker_step w p = Some (e, p').

(** ** What a run says of its tasks *)

Definition posted (es : list event) : list T := omap (fun e => match e with ePosted t => Some t | _ => None end) es.
Definition taken (es : list event) : list T := omap (fun e => match e with eTaken t => Some t | _ => None end) es.
Definition finished (es : list event) : list T := omap (fun e => match e with eDone t => Some t | _ => None end) es.
Definition dropped (es : list event) : list T := omap (fun e => match e with eDropped t => Some t | _ => None end) es.

(** The tasks that are running. *)
Definition running (p : ThreadPool) : list T :=
  omap (fun x => match x with kRunning t _ => Some t | _ => None end) (workers_ p).

(** The steps a worker has left once the queue is cancelled, when it takes nothing more. *)
Definition left_of (x : Worker) : nat :=
  match x with kPopping => 1 | kRunning _ todo => S (S (length todo)) | kReturned => 0 end.

Definition remaining (p : ThreadPool) : nat :=
  (sum_list (left_of <$> workers_ p) + sum_list ((fun t => S (S (length (posts t)))) <$> queue_ (task_queue_ p)))%nat.

(** ** Lemmas *)

Lemma set_worker_split (ws : list Worker) w x :
  ws !! w = Some x -> exists l1 l2, ws = l1 ++ x :: l2 /\ forall y, <[w := y]> ws = l1 ++ y :: l2.
Proof.
  intros Hw. exists (take w ws), (drop (S w) ws). pose proof (lookup_lt_Some _ _ _ Hw) as Hlt. split; [by rewrite take_drop_middle|].
  intros y. by rewrite insert_take_drop.
Qed.

(** What the queue and the workers keep of a task over a step. *)
Definition keeps (p : ThreadPool) (es : list event) (p' : ThreadPool) : Prop :=
  queue_ (task_queue_ p) ++ posted es = taken es ++ queue_ (task_queue_ p') /\
  running p ++ taken es ≡ₚ finished es ++ running p' /\
  cancelled_ (task_queue_ p') = cancelled_ (task_queue_ p) /\
  capacity_ (task_queue_ p') = capacity_ (task_queue_ p) /\
  length (workers_ p') = length (workers_ p).

Lemma Push_cases (q q' : BlockingQueue T) t ok :
  Push q t = Some (ok, q') ->
  (cancelled_ q = true /\ ok = false /\ q' = q) \/
  (cancelled_ q = false /\ ok = true /\ (length (queue_ q) < capacity_ q)%nat /\ q' = mkQueue (capacity_ q) false (queue_ q ++ [t])).
Proof.
  unfold Push. destruct (cancelled_ q) eqn:Ec; [rewrite orb_true_r; intros [= <- <-]; by left|].
  rewrite orb_false_r. destruct (Nat.ltb_spec (length (queue_ q)) (capacity_ q)); [|done]. intros [= <- <-]. by right.
Qed.

Lemma Pop_cases (q q' : BlockingQueue T) item :
  Pop q = Some (item, q') ->
  (exists t l, queue_ q = t :: l /\ item = Some t /\ q' = mkQueue (capacity_ q) (cancelled_ q) l) \/
  (queue_ q = [] /\ cancelled_ q = true /\ item = None /\ q' = q).
Proof.
  unfold Pop. destruct (queue_ q) as [|t l]; [|intros [= <- <-]; left; eauto].
  destruct (cancelled_ q); [|done]. intros [= <- <-]. by right.
Qed.

(** The steps of a worker, one by one. *)
Lemma worker_step_cases w p e p' :
  worker_step w p = Some (e, p') ->
  exists l1 x x' l2, workers_ p = l1 ++ x :: l2 /\ workers_ p' = l1 ++ x' :: l2 /\
    ((exists t l, x = kPopping /\ e = eTaken t /\ x' = kRunning t (posts t) /\ queue_ (task_queue_ p) = t :: l /\
        task_queue_ p' = mkQueue (capacity_ (task_queue_ p)) (cancelled_ (task_queue_ p)) l) \/
     (x = kPopping /\ e = eReturned /\ x' = kReturned /\ queue_ (task_queue_ p) = [] /\
        cancelled_ (task_queue_ p) = true /\ task_queue_ p' = task_queue_ p) \/
     (exists t, x = kRunning t [] /\ e = eDone t /\ x' = kPopping /\ task_queue_ p' = task_queue_ p) \/
     (exists t u todo, x = kRunning t (u :: todo) /\ x' = kRunning t todo /\
        ((cancelled_ (task_queue_ p) = true /\ e = eDropped u /\ task_queue_ p' = task_queue_ p) \/
         (cancelled_ (task_queue_ p) = false /\ e = ePosted u /\
            (length (queue_ (task_queue_ p)) < capacity_ (task_queue_ p))%nat /\
            task_queue_ p' = mkQueue (capacity_ (task_queue_ p)) false (queue_ (task_queue_ p) ++ [u]))))).
Proof.
  unfold worker_step. destruct (workers_ p !! w) as [x|] eqn:Hw; [|done].
  destruct (set_worker_split _ _ _ Hw) as (l1 & l2 & H1 & H2). destruct x as [|t [|u todo]|]; [| | |done].
  - destruct (Pop (task_queue_ p)) as [[item q]|] eqn:HP; [|done].
    destruct (Pop_cases _ _ _ HP) as [(t & l & Hq & -> & ->)|(Hq & Hc & -> & ->)]; intros [= <- <-].
    + exists l1, kPopping, (kRunning t (posts t)), l2. cbn. rewrite H2. split_and!; try done. left. eauto 10.
    + exists l1, kPopping, kReturned, l2. cbn. rewrite H2. split_and!; try done. right. left. eauto 10.
  - intros [= <- <-]. exists l1, (kRunning t []), kPopping, l2. cbn. rewrite H2. split_and!; try done. right. right. left. eauto.
  - unfold Post. destruct (Push (task_queue_ p) u) as [[ok q]|] eqn:HP; [|done]. intros [= <- <-].
    exists l1, (kRunning t (u :: todo)), (kRunning t todo), l2. cbn. rewrite H2. split_and!; try done.
    right. right. right. exists t, u, todo. split_and!; try done.
    destruct (Push_cases _ _ _ _ HP) as [(? & -> & ->)|(? & -> & ? & ->)]; [by left|by right].
Qed.

Lemma running_middle l1 x l2 q :
  running (mkPool q (l1 ++ x :: l2)) ≡ₚ match x with kRunning t _ => [t] | _ => [] end ++ running (mkPool q (l1 ++ l2)).
Proof.
  unfold running. cbn. rewrite !omap_app. cbn. destruct x; cbn; try done. by rewrite Permutation_middle.
Qed.

Lemma worker_keeps w p e p' : worker_step w p = Some (e, p') -> keeps p [e] p'.
Proof.
  intros Hs. destruct (worker_step_cases _ _ _ _ Hs) as (l1 & x & x' & l2 & Hw & Hw' & HC).
  destruct p as [q ws], p' as [q' ws']. cbn in *. subst ws ws'. unfold keeps. cbn [task_queue_ workers_].
  rewrite !length_app. cbn [length].
  destruct HC as [(t & l & -> & -> & -> & Hq & ->)|[(-> & -> & -> & Hq & Hc & ->)|[(t & -> & -> & -> & ->)|
    (t & u & todo & -> & -> & [(Hc & -> & ->)|(Hc & -> & Hl & ->)])]]]; cbn [posted taken finished omap list_omap];
    rewrite !running_middle; cbn; rewrite ?app_nil_r; split_and!; try done.
  all: try by rewrite Hq. all: try by rewrite Hc.
  by rewrite (Permutation_app_comm _ [t]).
Qed.

Lemma post_keeps t p e p' : Post t p = Some (e, p') -> keeps p [e] p'.
Proof.
  unfold Post. destruct (Push (task_queue_ p) t) as [[ok q]|] eqn:HP; [|done]. intros [= <- <-]. unfold keeps. cbn.
  destruct (Push_cases _ _ _ _ HP) as [(Hc & -> & ->)|(Hc & -> & _ & ->)]; cbn; rewrite ?app_nil_r; by split_and!.
Qed.

Lemma step_keeps p e p' : step p e p' -> keeps p [e] p'.
Proof. intros [w ? ? ? H|t ? ? ? H]; [by eapply worker_keeps|by eapply post_keeps]. Qed.

Lemma steps_keep R p es p' : (forall p e p', R p e p' -> keeps p [e] p') -> steps R p es p' -> keeps p es p'.
Proof.
  intros HR. induction 1 as [p|p e p1 es p' H1 _ IH]; [unfold keeps; cbn; by rewrite !app_nil_r|].
  destruct (HR _ _ _ H1) as (A1 & A2 & A3 & A4 & A5), IH as (B1 & B2 & B3 & B4 & B5). change (e :: es) with ([e] ++ es).
  unfold keeps, posted, taken, finished in *. rewrite !omap_app. split_and!; try congruence.
  - by rewrite app_assoc, A1, <- app_assoc, B1, app_assoc.
  - by rewrite app_assoc, A2, <- app_assoc, B2, app_assoc.
Qed.

(** ** Lemmas: before and after the destructor begins *)

Record open_ (p : ThreadPool) : Prop := {
  op_open : cancelled_ (task_queue_ p) = false;
  op_capacity : capacity_ (task_queue_ p) = kDefaultQueueCapacity;
  op_bound : (length (queue_ (task_queue_ p)) <= kDefaultQueueCapacity)%nat;
  op_working : kReturned ∉ workers_ p;
  op_workers : workers_ p <> []
}.

Lemma construct_open n : open_ (construct n).
Proof.
  split; cbn; try done; [unfold kDefaultQueueCapacity; lia|by intros [? _]%elem_of_replicate|].
  unfold construct. cbn [workers_]. destruct (Z.ltb_spec n 1); [done|]. destruct (Z.to_nat n) eqn:E; [lia|done].
Qed.

Lemma step_open p e p' : open_ p -> step p e p' -> open_ p' /\ dropped [e] = [].
Proof.
  intros [H1 H2 H3 H4 H5] HS. destruct (step_keeps _ _ _ HS) as (_ & _ & K1 & K2 & K3).
  assert (workers_ p' <> []) as Hne by (intros E; apply H5, length_zero_iff_nil; by rewrite <- K3, E).
  destruct HS as [w p e p' H|t p e p' H].
  - destruct (worker_step_cases _ _ _ _ H) as (l1 & x & x' & l2 & Hw & Hw' & HC). rewrite Hw in H4.
    destruct HC as [(t & l & -> & -> & -> & Hq & E)|[(-> & -> & -> & Hq & Hc & E)|[(t & -> & -> & -> & E)|
      (t & u & todo & -> & -> & [(Hc & -> & E)|(Hc & -> & Hl & E)])]]]; try congruence; (split; [|done]);
      (split; [congruence|congruence| |rewrite Hw'; set_solver|done]); rewrite E; cbn; try done.
    + rewrite Hq in H3. cbn in H3. lia.
    + rewrite length_app. cbn. lia.
  - unfold Post in H. destruct (Push (task_queue_ p) t) as [[ok q]|] eqn:HP; [|done]. injection H as <- <-.
    destruct (Push_cases _ _ _ _ HP) as [(Hc & -> & ->)|(Hc & -> & Hl & ->)]; [congruence|]. split; [|done]. split; cbn; try done.
    rewrite length_app. cbn. lia.
Qed.

Lemma steps_open p es p' : open_ p -> steps step p es p' -> open_ p' /\ dropped es = [].
Proof.
  intros HO. induction 1 as [p|p e p1 es p' H1 _ IH]; [done|]. destruct (step_open _ _ _ HO H1) as [H2 H3].
  destruct (IH H2) as [H4 H5]. split; [done|]. change (e :: es) with ([e] ++ es). unfold dropped in *. by rewrite omap_app, H3, H5.
Qed.

(** The queue is cancelled, and nobody returned before it was empty. *)
Record closing (p : ThreadPool) : Prop := {
  cl_cancelled : cancelled_ (task_queue_ p) = true;
  cl_drained : kReturned ∈ workers_ p -> queue_ (task_queue_ p) = []
}.

Lemma closing_step p e p' :
  closing p -> wstep p e p' -> closing p' /\ posted [e] = [] /\ remaining p = S (remaining p').
Proof.
  intros [H1 H2] [w H]. destruct (worker_step_cases _ _ _ _ H) as (l1 & x & x' & l2 & Hw & Hw' & HC).
  unfold remaining. rewrite Hw, Hw', !fmap_app, !fmap_cons, !sum_list_with_app.
  destruct HC as [(t & l & -> & -> & -> & Hq & E)|[(-> & -> & -> & Hq & Hc & E)|[(t & -> & -> & -> & E)|
      (t & u & todo & -> & -> & [(Hc & -> & E)|(Hc & -> & Hl & E)])]]]; try congruence; rewrite E; cbn.
  all: split_and!; try done; try (rewrite ?Hq; cbn; lia).
  all: split; rewrite E; cbn; try done; rewrite ?Hw'; intros Hin; try done.
  all: rewrite Hw in H2; try (rewrite <- H2; [try done|]; set_solver).
  rewrite H2 in Hq; [done|set_solver].
Qed.

Lemma closing_steps p es p' :
  closing p -> steps wstep p es p' -> closing p' /\ posted es = [] /\ (length es + remaining p')%nat = remaining p.
Proof.
  intros HC. induction 1 as [p|p e p1 es p' H1 _ IH]; [done|]. destruct (closing_step _ _ _ HC H1) as (H2 & H3 & H4).
  destruct (IH H2) as (I1 & I2 & I3). split_and!; [done| |cbn; lia].
  change (e :: es) with ([e] ++ es). unfold posted in *. by rewrite omap_app, H3, I2.
Qed.

Lemma open_closing p : open_ p -> closing (begin_destroy p).
Proof. intros [H1 H2 H3 H4 H5]. split; cbn; [done|]. by intros. Qed.

(** ** Lemmas: where no worker can move *)

Lemma asleep w p x :
  worker_step w p = None -> workers_ p !! w = Some x ->
  x = kReturned \/
  (x = kPopping /\ queue_ (task_queue_ p) = [] /\ cancelled_ (task_queue_ p) = false) \/
  (exists t u todo, x = kRunning t (u :: todo) /\ cancelled_ (task_queue_ p) = false /\
     (capacity_ (task_queue_ p) <= length (queue_ (task_queue_ p)))%nat).
Proof.
  unfold worker_step. intros H Hw. rewrite Hw in H. destruct x as [|t [|u todo]|]; [| | |by left].
  - right. left. unfold Pop in H. destruct (queue_ (task_queue_ p)); [|done]. by destruct (cancelled_ (task_queue_ p)).
  - done.
  - right. right. exists t, u, todo. unfold Post, Push in H. destruct (cancelled_ (task_queue_ p)).
    + by rewrite orb_true_r in H.
    + destruct (Nat.ltb_spec (length (queue_ (task_queue_ p))) (capacity_ (task_queue_ p))); [done|]. by split_and!.
Qed.

(** All the tasks it was given are done, or every worker waits for room in the queue. *)
Lemma open_asleep p :
  open_ p -> (forall w, worker_step w p = None) ->
  (queue_ (task_queue_ p) = [] /\ running p = []) \/
  (length (queue_ (task_queue_ p)) = kDefaultQueueCapacity /\
   Forall (fun x => exists t u todo, x = kRunning t (u :: todo)) (workers_ p)).
Proof.
  intros [H1 H2 H3 H4 H5] Hno.
  assert (forall x, x ∈ workers_ p -> (x = kPopping /\ queue_ (task_queue_ p) = []) \/
    ((exists t u todo, x = kRunning t (u :: todo)) /\ length (queue_ (task_queue_ p)) = kDefaultQueueCapacity)) as HA.
  { intros x Hx. pose proof Hx as [w Hw]%list_elem_of_lookup.
    destruct (asleep w p x (Hno w) Hw) as [->|[(-> & ? & _)|(t & u & todo & -> & _ & Hle)]]; [done|by left|].
    right. split; [eauto|]. lia. }
  destruct (decide (queue_ (task_queue_ p) = [])) as [Hq|Hq].
  - left. split; [done|]. unfold running.
    assert (forall x, x ∈ workers_ p -> x = kPopping) as HP.
    { intros x Hx. destruct (HA x Hx) as [[-> _]|[_ Hl]]; [done|]. by rewrite Hq in Hl. }
    clear - HP. induction (workers_ p) as [|x ws IH]; [done|]. cbn. rewrite (HP x) by by left. apply IH.
    intros. apply HP. by right.
  - right. assert (Forall (fun x => exists t u todo, x = kRunning t (u :: todo)) (workers_ p)) as HF.
    { apply Forall_forall. intros x Hx. destruct (HA x Hx) as [[_ ?]|[? _]]; done. }
    split; [|done]. destruct (workers_ p) as [|x ws] eqn:E; [done|].
    destruct (HA x ltac:(by left)) as [[_ ?]|[_ ?]]; done.
Qed.

Lemma closing_asleep p :
  closing p -> workers_ p <> [] -> (forall w, worker_step w p = None) ->
  joined p /\ queue_ (task_queue_ p) = [] /\ running p = [].
Proof.
  intros [H1 H2] Hne Hno.
  assert (joined p) as HJ.
  { apply Forall_forall. intros x [w Hw]%list_elem_of_lookup.
    destruct (asleep w p x (Hno w) Hw) as [->|[(_ & _ & ?)|(? & ? & ? & _ & ? & _)]]; congruence. }
  split_and!; [done| |].
  - apply H2. destruct (workers_ p) as [|x ws] eqn:E; [done|]. unfold joined in HJ. rewrite E in HJ.
    inversion HJ; subst. by left.
  - unfold running, joined in *. clear - HJ. induction HJ as [|x ws -> _ IH]; [done|]. exact IH.
Qed.

Lemma wstep_step p e p' : wstep p e p' -> step p e p'.
Proof. intros [w H]. by eapply step_worker. Qed.

(** ** Properties *)

(** C26: the pool runs what it is given.  Threads post tasks to a new pool while its
    workers run, in any interleaving: the tasks are taken in the order they were
    accepted, each by one worker, none is dropped, and the queue never holds more
    than 1024 of them.  When no worker can move, either every accepted task is done,
    or each worker is itself posting to the full queue, and the pool hangs.  Once the
    destructor has cancelled the queue nothing more is accepted, the workers have a
    fixed number of steps left however they are scheduled, and when these are made
    every worker has returned, so that the joins return, and every task that was ever
    accepted is done. *)
Theorem pool_runs_tasks (num_threads : Z) (es es' : list event) (p p' : ThreadPool) :
  steps step (construct num_threads) es p -> steps wstep (begin_destroy p) es' p' ->
  posted es = taken es ++ queue_ (task_queue_ p) /\ taken es ≡ₚ finished es ++ running p /\ dropped es = [] /\
  (length (queue_ (task_queue_ p)) <= kDefaultQueueCapacity)%nat /\
  ((forall w, worker_step w p = None) ->
     finished es ≡ₚ posted es \/
     (length (queue_ (task_queue_ p)) = kDefaultQueueCapacity /\
      Forall (fun x => exists t u todo, x = kRunning t (u :: todo)) (workers_ p))) /\
  posted es' = [] /\ (length es' + remaining p')%nat = remaining (begin_destroy p) /\
  posted es = taken (es ++ es') ++ queue_ (task_queue_ p') /\
  ((forall w, worker_step w p' = None) -> joined p' /\ finished (es ++ es') ≡ₚ posted es).
Proof.
  intros HS HD. destruct (steps_open _ _ _ (construct_open num_threads) HS) as [HO Hd].
  destruct (steps_keep _ _ _ _ step_keeps HS) as (A1 & A2 & _).
  destruct (steps_keep _ _ _ _ (fun p e p' H => step_keeps _ _ _ (wstep_step p e p' H)) HD) as (B1 & B2 & _ & _ & B5).
  destruct (closing_steps _ _ _ (open_closing _ HO) HD) as (HC & Hp & Hr).
  change (queue_ (task_queue_ (construct num_threads))) with (@nil T) in A1. cbn in B1, B2, B5. rewrite Hp, app_nil_r in B1.
  assert (running (construct num_threads) = []) as HR0.
  { unfold running, construct. cbn. induction (Z.to_nat _); [done|]. exact IHn. }
  rewrite HR0 in A2. cbn in A1, A2. change (running (begin_destroy p)) with (running p) in B2.
  split_and!; try done; [apply HO| | |].
  - intros Hno. destruct (open_asleep _ HO Hno) as [[Hq Hrun]|Hfull]; [left|by right].
    by rewrite A1, A2, Hq, Hrun, !app_nil_r.
  - unfold taken in *. by rewrite omap_app, <- app_assoc, <- B1.
  - intros Hno. destruct (closing_asleep _ HC ltac:(intros E; rewrite E in B5; apply (op_workers _ HO), length_zero_iff_nil; done) Hno)
      as (HJ & Hq & Hrun). split; [done|].
    rewrite Hq, app_nil_r in B1. rewrite Hrun, app_nil_r in B2. unfold finished in *. rewrite omap_app.
    by rewrite <- B2, app_assoc, <- A2, A1, B1.
Qed.

End ThreadPool.

Arguments ThreadPool : clear implicits.
Arguments Worker : clear implicits.
Arguments event : clear implicits.

(** ** Witnesses *)

(** A schedule: which worker moves, or what is posted from outside. *)
Fixpoint play {T} (posts : T -> list T) (moves : list (nat + T)) (p : ThreadPool T) : option (list (event T) * ThreadPool T) :=
  match moves with
  | [] => Some ([], p)
  | mv :: moves =>
      match (match mv with inl w => worker_step posts w p | inr t => Post t p end) with
      | Some (e, p) => match play posts moves p with Some (es, p) => Some (e :: es, p) | None => None end
      | None => None
      end
  end.

Lemma play_steps {T} (posts : T -> list T) moves p es p' :
  play posts moves p = Some (es, p') -> steps (step posts) p es p'.
Proof.
  revert p es p'. induction moves as [|mv moves IH]; cbn; intros p es p' H; [injection H as <- <-; constructor|].
  destruct (match mv with inl w => worker_step posts w p | inr t => Post t p end) as [[e p1]|] eqn:E; [|done].
  destruct (play posts moves p1) as [[es1 p2]|] eqn:E2; [|done]. injection H as <- <-.
  eapply steps_cons; [|by eapply IH]. destruct mv; [by eapply step_worker|by eapply step_post].
Qed.

Lemma play_wsteps {T} (posts : T -> list T) ws p es p' :
  play posts (inl <$> ws) p = Some (es, p') -> steps (wstep posts) p es p'.
Proof.
  revert p es p'. induction ws as [|w ws IH]; cbn; intros p es p' H; [injection H as <- <-; constructor|].
  destruct (worker_step posts w p) as [[e p1]|] eqn:E; [|done].
  destruct (play posts (inl <$> ws) p1) as [[es1 p2]|] eqn:E2; [|done]. injection H as <- <-.
  eapply steps_cons; [|by eapply IH]. by exists w.
Qed.

(** Task 2 posts task 5. *)
Definition demo_posts (t : Z) : list Z := if t =? 2 then [5] else [].

(** Two workers; four tasks are posted, and the destructor begins while task 2
    is about to post. *)
Definition demo_moves : list (nat + Z) := [inr 1; inr 2; inl 0%nat; inl 1%nat; inr 3; inr 4; inl 0%nat].

Definition demo_joins : list nat := [1; 1; 0; 1; 0; 0; 1; 1]%nat.

Lemma pool_runs_tasks_witness :
  exists es p es' p', play demo_posts demo_moves (construct 2) = Some (es, p) /\
    play demo_posts (inl <$> demo_joins) (begin_destroy p) = Some (es', p') /\
    posted es = [1; 2; 3; 4] /\ dropped es' = [5] /\ joined p' /\ finished (es ++ es') ≡ₚ [1; 2; 3; 4].
Proof.
  destruct (play demo_posts demo_moves (construct 2)) as [[es p]|] eqn:E1; [|vm_compute in E1; discriminate].
  destruct (play demo_posts (inl <$> demo_joins) (begin_destroy p)) as [[es' p']|] eqn:E2;
    [|exfalso; vm_compute in E1; injection E1 as <- <-; vm_compute in E2; discriminate].
  destruct (pool_runs_tasks demo_posts 2 es es' p p' (play_steps _ _ _ _ _ E1) (play_wsteps _ _ _ _ _ E2))
    as (_ & _ & _ & _ & _ & _ & _ & _ & H).
  pose proof E1 as V1. vm_compute in V1. injection V1 as <- <-. pose proof E2 as V2. vm_compute in V2. injection V2 as <- <-.
  eexists _, _, _, _. split_and!; [reflexivity|exact E2|reflexivity|reflexivity|apply H|apply H];
    intros [|[|w]]; reflexivity.
Defined.

(** One worker whose task posts 1025 tasks: it sleeps in Post, and no thread is
    left to take a task. *)
Example pool_hangs :
  (fun r => (worker_step (fun t => replicate t 0%nat) 0 r.2, length (queue_ (task_queue_ r.2)))) <$>
    play (fun t => replicate t 0%nat) (inr 1025%nat :: replicate 1025 (inl 0%nat)) (construct 1) = Some (None, 1024%nat).
Proof. vm_compute. reflexivity. Qed.
