(* ===== verification/ThreadAofWriter.v ===== *)
(** * ThreadAofWriter: the log writer with a flush thread

    Models include/vemory/persist/ThreadAofWriter.h and
    src/persist/ThreadAofWriter.cc as two threads over one state: the reactor,
    which calls [Enqueue], [Flush] and [Stop], and the flush thread.  A step is
    what a thread does between two points where the other can see it: an atomic
    read or write, or a critical section ([drain_mu_], the queue's mutex, and
    [file_mu_], which guards the stream, [dirty_] and [last_fsync_]). *)

From S2P Require Import Prelude.
From S2P Require Import Stdio.
From S2P Require Import FileSystem.
From S2P Require Import Config.
From S2P Require Import BlockingQueue.
From S2P Require WalManager.

Definition kQueueCapacity : nat := 1024.
Definition kMaxBatch : nat := 32.

(** What the system answers during a step: whether the directory and the file
    can be had, how many more bytes the device takes, whether [fflush] and
    [fdatasync] succeed, and the clock in milliseconds. *)
Record Answers := mkAnswers {
  a_mkdir : bool;
  a_open : bool;
  a_room : option nat;
  a_flush : bool;
  a_sync : bool;
  a_now : Z
}.

(** Where the flush thread is: waiting for a frame; with a batch that may grow,
    or that is complete; about to report [n] frames as done; after a wait without
    a frame, or after such a wait with a failed sync; on the way out after a
    failure, with [n] frames to report, about to cancel, draining the queue, with
    a frame drained; ended. *)
Inductive FlushPc :=
| AtPop | Filling (batch : list bytes) | Filled (batch : list bytes) | Finishing (n : nat)
| TimedOut | SyncFailed | Failing (n : nat) | Cancelling | Draining | Drained | Exited.

(** Where the reactor is: in [Enqueue]: at its checks, about to count the frame,
    in [Push], refused by it; in [Flush]: waiting, past the wait, or past the check
    for a failure; in [Stop]: at its start, about to cancel, joining; outside, with the last result.
    [Flush] is called by [Stop] when its flag is set. *)
Inductive ReactorPc :=
| EnqStart (frame : bytes) | EnqInc (frame : bytes) | EnqPush (frame : bytes) | EnqRefused
| FlushWait (stop : bool) | FlushSync (stop : bool) | FlushChecked (stop : bool)
| StopStart | StopCancel | StopJoin | Returned (r : bool).

(** The members, the program counters, and two records of the past that the
    program does not keep: the frames that [Enqueue] has taken, and how much of
    the file was in it at the last [fdatasync]. *)
Record Writer := mkWriter {
  path_ : bytes;
  fsync_ : AofFsyncPolicy;
  disk : bytes;               (** the file's content while it is not open *)
  fp_ : option File;
  queue_ : BlockingQueue bytes;
  io_failed_ : bool;
  stopped_ : bool;
  dirty_ : bool;
  last_fsync_ : Z;
  pending_ : nat;
  pc : FlushPc;
  rpc : ReactorPc;
  accepted : list bytes;
  synced : nat
}.

(** The constructor: the thread starts. *)
Definition construct (path : bytes) (fsync : AofFsyncPolicy) (disk : bytes) (now : Z) : Writer :=
  mkWriter path fsync disk None (BlockingQueue.construct kQueueCapacity) false false false now 0 AtPop
    (Returned true) [] (length disk).

(** Assignments to members. *)
Definition set_pc w x := mkWriter (path_ w) (fsync_ w) (disk w) (fp_ w) (queue_ w) (io_failed_ w) (stopped_ w)
  (dirty_ w) (last_fsync_ w) (pending_ w) x (rpc w) (accepted w) (synced w).
Definition set_rpc w x := mkWriter (path_ w) (fsync_ w) (disk w) (fp_ w) (queue_ w) (io_failed_ w) (stopped_ w)
  (dirty_ w) (last_fsync_ w) (pending_ w) (pc w) x (accepted w) (synced w).
Definition set_queue w x := mkWriter (path_ w) (fsync_ w) (disk w) (fp_ w) x (io_failed_ w) (stopped_ w)
  (dirty_ w) (last_fsync_ w) (pending_ w) (pc w) (rpc w) (accepted w) (synced w).
Definition set_failed w := mkWriter (path_ w) (fsync_ w) (disk w) (fp_ w) (queue_ w) true (stopped_ w)
  (dirty_ w) (last_fsync_ w) (pending_ w) (pc w) (rpc w) (accepted w) (synced w).
Definition set_stopped w := mkWriter (path_ w) (fsync_ w) (disk w) (fp_ w) (queue_ w) (io_failed_ w) true
  (dirty_ w) (last_fsync_ w) (pending_ w) (pc w) (rpc w) (accepted w) (synced w).
Definition set_pending w x := mkWriter (path_ w) (fsync_ w) (disk w) (fp_ w) (queue_ w) (io_failed_ w) (stopped_ w)
  (dirty_ w) (last_fsync_ w) x (pc w) (rpc w) (accepted w) (synced w).
Definition set_file w d x dirty := mkWriter (path_ w) (fsync_ w) d x (queue_ w) (io_failed_ w) (stopped_ w)
  dirty (last_fsync_ w) (pending_ w) (pc w) (rpc w) (accepted w) (synced w).
Definition set_synced w now n := mkWriter (path_ w) (fsync_ w) (disk w) (fp_ w) (queue_ w) (io_failed_ w) (stopped_ w)
  false now (pending_ w) (pc w) (rpc w) (accepted w) n.
Definition accept w f := mkWriter (path_ w) (fsync_ w) (disk w) (fp_ w) (queue_ w) (io_failed_ w) (stopped_ w)
  (dirty_ w) (last_fsync_ w) (pending_ w) (pc w) (rpc w) (accepted w ++ [f]) (synced w).

(** The content of the log file. *)
Definition content (w : Writer) : bytes := match fp_ w with Some fp => f_data fp | None => disk w end.

Definition IncPending (w : Writer) : Writer := set_pending w (S (pending_ w)).
Definition DecPendingN (n : nat) (w : Writer) : Writer :=
  set_pending w (if (pending_ w <=? n)%nat then 0 else pending_ w - n)%nat.
Definition DecPending (w : Writer) : Writer := DecPendingN 1 w.

(** ** The file *)

Definition EnsureOpen (a : Answers) (w : Writer) : bool * Writer :=
  match fp_ w with
  | Some _ => (true, w)
  | None =>
      match parent_path (path_ w) with
      | Some _ => if a_mkdir a then
                    if a_open a then (true, set_file w (disk w) (Some (mkFile (disk w) (length (disk w)) None)) (dirty_ w))
                    else (false, w)
                  else (false, w)
      | None => if a_open a then (true, set_file w (disk w) (Some (mkFile (disk w) (length (disk w)) None)) (dirty_ w))
                else (false, w)
      end
  end.

(** The loop of [WriteBatch]. *)
Fixpoint write_frames (frames : list bytes) (fp : File) : bool * File :=
  match frames with
  | [] => (true, fp)
  | f :: frames =>
      if is_empty f then (false, fp)
      else
        let '(ok, fp) := WriteExact f fp in
        if ok then write_frames frames fp else (false, fp)
  end.

(** The stream is open. *)
Definition WriteBatch (a : Answers) (frames : list bytes) (w : Writer) : bool * Writer :=
  match frames, fp_ w with
  | [], _ | _, None => (false, w)
  | _, Some fp =>
      let '(ok, fp) := write_frames frames (mkFile (f_data fp) (f_pos fp) (a_room a)) in
      let w := set_file w (disk w) (Some fp) (dirty_ w) in
      if negb ok then (false, w)
      else if negb (a_flush a) then (false, w)
      else (true, set_file w (disk w) (fp_ w) true)
  end.

Definition SyncFile (a : Answers) (w : Writer) : bool * Writer :=
  if bool_decide (fsync_ w = kNo) then (true, w)
  else
    match fp_ w with
    | None => (true, w)
    | Some fp =>
        if negb (dirty_ w) then (true, w)
        else if negb (a_sync a) then (false, w)
        else (true, set_synced w (a_now a) (length (f_data fp)))
    end.

(** [SyncFile], and [io_failed_] if it fails. *)
Definition sync_or_fail (a : Answers) (w : Writer) : Writer :=
  let '(ok, w) := SyncFile a w in if ok then w else set_failed w.

Definition MaybeSyncAfterBatch (a : Answers) (w : Writer) : Writer :=
  match fsync_ w with
  | kAlways => sync_or_fail a w
  | kEverySec => if a_now a - last_fsync_ w <? 1000 then w else sync_or_fail a w
  | kNo => w
  end.

(** ** The flush thread *)

(** A complete batch: the critical section of [FlushLoop]. *)
Definition flush_batch (a : Answers) (batch : list bytes) (w : Writer) : Writer :=
  let n := length batch in
  let fail w := set_pc (set_failed w) (Failing n) in
  let '(ok, w) := EnsureOpen a w in
  if negb ok then fail w
  else
    let '(ok, w) := WriteBatch a batch w in
    if negb ok then fail w
    else
      let w := MaybeSyncAfterBatch a w in
      if io_failed_ w then set_pc w (Failing n) else set_pc w (Finishing n).

Definition fstep (a : Answers) (w : Writer) : option Writer :=
  match pc w with
  | AtPop =>
      match PopWaitFor (queue_ w) with
      | (Some f, q) => Some (set_pc (set_queue w q) (Filling [f]))
      | (None, q) => Some (set_pc (set_queue w q) TimedOut)
      end
  | TimedOut =>
      if cancelled (queue_ w) then Some (set_pc w Exited)
      else if bool_decide (fsync_ w = kEverySec) && negb (io_failed_ w) then
        let '(ok, w) := SyncFile a w in
        Some (if ok then set_pc w AtPop else set_pc (set_failed w) SyncFailed)
      else Some (set_pc w AtPop)
  | SyncFailed => Some (set_pc (set_queue w (Cancel (queue_ w))) AtPop)
  | Filling batch =>
      if (length batch <? kMaxBatch)%nat then
        match PopWaitFor (queue_ w) with
        | (Some f, q) => Some (set_pc (set_queue w q) (Filling (batch ++ [f])))
        | (None, q) => Some (set_pc (set_queue w q) (Filled batch))
        end
      else Some (set_pc w (Filled batch))
  | Filled batch =>
      if io_failed_ w then Some (set_pc w (Finishing (length batch))) else Some (flush_batch a batch w)
  | Finishing n => Some (set_pc (DecPendingN n w) AtPop)
  | Failing n => Some (set_pc (DecPendingN n w) Cancelling)
  | Cancelling => Some (set_pc (set_queue w (Cancel (queue_ w))) Draining)
  | Draining =>
      match Pop (queue_ w) with
      | Some (Some _, q) => Some (set_pc (set_queue w q) Drained)
      | Some (None, q) => Some (set_pc (set_queue w q) Exited)
      | None => None
      end
  | Drained => Some (set_pc (DecPending w) Draining)
  | Exited => None
  end.

(** ** The reactor *)

(** The end of [Flush], in [Stop] or in its caller. *)
Definition flushed (stop : bool) (r : bool) (w : Writer) : Writer :=
  set_rpc w (if stop then StopCancel else Returned r).

(** [None]: the thread waits, or is not in a call. *)
Definition rstep (a : Answers) (w : Writer) : option Writer :=
  match rpc w with
  | EnqStart f =>
      if stopped_ w || io_failed_ w || cancelled (queue_ w) then Some (set_rpc w (Returned false))
      else Some (set_rpc w (EnqInc f))
  | EnqInc f => Some (set_rpc (IncPending w) (EnqPush f))
  | EnqPush f =>
      match Push (queue_ w) f with
      | Some (true, q) => Some (set_rpc (accept (set_queue w q) f) (Returned true))
      | Some (false, q) => Some (set_rpc (set_queue w q) EnqRefused)
      | None => None
      end
  | EnqRefused => Some (set_rpc (DecPending w) (Returned false))
  | FlushWait stop => if (pending_ w =? 0)%nat then Some (set_rpc w (FlushSync stop)) else None
  | FlushSync stop =>
      if io_failed_ w then Some (flushed stop false w) else Some (set_rpc w (FlushChecked stop))
  | FlushChecked stop =>
      if bool_decide (fsync_ w = kNo) then Some (flushed stop (negb (io_failed_ w)) w)
      else
        let '(ok, w) := SyncFile a w in
        if negb ok then Some (flushed stop false (set_failed w))
        else Some (flushed stop (negb (io_failed_ w)) w)
  | StopStart =>
      if stopped_ w then Some (set_rpc w (Returned true)) else Some (set_rpc (set_stopped w) (FlushWait true))
  | StopCancel => Some (set_rpc (set_queue w (Cancel (queue_ w))) StopJoin)
  | StopJoin =>
      match pc w with
      | Exited => Some (set_rpc (set_file w (content w) None (dirty_ w)) (Returned true))
      | _ => None
      end
  | Returned _ => None
  end.

Inductive Call := Enqueue (frame : bytes) | Flush | Stop.

Definition call (c : Call) (w : Writer) : Writer :=
  set_rpc w (match c with Enqueue f => EnqStart f | Flush => FlushWait false | Stop => StopStart end).

Definition failed (w : Writer) : bool := io_failed_ w.

(** One step of either thread, or the reactor's next call. *)
Inductive step : Writer -> Writer -> Prop :=
| step_flush a w w' : fstep a w = Some w' -> step w w'
| step_reactor a w w' : rstep a w = Some w' -> step w w'
| step_call c r w : rpc w = Returned r -> step w (call c w).

(** The writers that are reached from a new one on a file with content [d0]. *)
Inductive reached (d0 : bytes) : Writer -> Prop :=
| reached_new path fsync now : reached d0 (construct path fsync d0 now)
| reached_step w w' : reached d0 w -> step w w' -> reached d0 w'.

(** ** The invariant: control *)

(** The frames that the flush thread has taken and not reported as done. *)
Definition in_flight (p : FlushPc) : nat :=
  match p with
  | Filling b | Filled b => length b
  | Finishing n | Failing n => n
  | Drained => 1
  | _ => 0
  end.

(** A frame that the reactor has counted and that is not in the queue. *)
Definition counted (p : ReactorPc) : nat := match p with EnqPush _ | EnqRefused => 1 | _ => 0 end.

(** The frames of the batch that are not written yet. *)
Definition batch_of (p : FlushPc) : list bytes := match p with Filling b | Filled b => b | _ => [] end.

Record control (w : Writer) : Prop := {
  c_capacity : (0 < capacity_ (queue_ w))%nat;
  c_pending : pending_ w = (in_flight (pc w) + size (queue_ w) + counted (rpc w))%nat;
  c_failing : match pc w with Failing _ | Cancelling | Draining | Drained => io_failed_ w = true | _ => True end;
  c_cancelled : match pc w with Draining | Drained | Exited => cancelled (queue_ w) = true | _ => True end;
  c_empty : match pc w with TimedOut | Exited => cancelled (queue_ w) = true -> BlockingQueue.queue_ (queue_ w) = []
            | _ => True end;
  c_batch : match pc w with Filling b | Filled b => b <> [] | Finishing n | Failing n => (0 < n)%nat | _ => True end;
  c_quiet : match rpc w with FlushSync _ | FlushChecked _ | StopCancel | StopJoin => pending_ w = 0%nat | _ => True end;
  c_join : match rpc w with StopJoin => cancelled (queue_ w) = true | _ => True end
}.

(** Steps on the file leave the rest alone. *)
Record same_control (w w' : Writer) : Prop := {
  sc_fsync : fsync_ w' = fsync_ w;
  sc_queue : queue_ w' = queue_ w;
  sc_stopped : stopped_ w' = stopped_ w;
  sc_pending : pending_ w' = pending_ w;
  sc_rpc : rpc w' = rpc w;
  sc_accepted : accepted w' = accepted w
}.

#[export] Instance same_control_preorder : PreOrder same_control.
Proof.
  split; [by split|]. intros x y z [A1 A2 A3 A4 A5 A6] [B1 B2 B3 B4 B5 B6]. split; congruence.
Qed.

(** ** Lemmas: control *)

Lemma SyncFile_control a w : let '(_, w') := SyncFile a w in same_control w w' /\ pc w' = pc w /\ io_failed_ w' = io_failed_ w.
Proof.
  unfold SyncFile. case_bool_decide; [done|]. destruct (fp_ w); [|done]. destruct (dirty_ w); [|done].
  destruct (a_sync a); done.
Qed.

Lemma sync_or_fail_control a w : same_control w (sync_or_fail a w) /\ pc (sync_or_fail a w) = pc w.
Proof.
  unfold sync_or_fail. pose proof (SyncFile_control a w) as H. destruct (SyncFile a w) as [[] w']; destruct H as ([] & H2 & H3); done.
Qed.

Lemma MaybeSync_control a w : same_control w (MaybeSyncAfterBatch a w) /\ pc (MaybeSyncAfterBatch a w) = pc w.
Proof. unfold MaybeSyncAfterBatch. destruct (fsync_ w); [done|destruct (_ <? _); [done|]|]; apply sync_or_fail_control. Qed.

Lemma EnsureOpen_control a w : let '(_, w') := EnsureOpen a w in same_control w w' /\ pc w' = pc w /\ io_failed_ w' = io_failed_ w.
Proof. unfold EnsureOpen. repeat case_match; simplify_eq; done. Qed.

Lemma WriteBatch_control a b w : let '(_, w') := WriteBatch a b w in same_control w w' /\ pc w' = pc w /\ io_failed_ w' = io_failed_ w.
Proof.
  unfold WriteBatch. destruct b, (fp_ w); try done. destruct (write_frames _ _) as [[] fp]; [|done].
  destruct (a_flush a); done.
Qed.

(** What a complete batch leaves of the control state. *)
Lemma flush_batch_control a b w : let w' := flush_batch a b w in
  same_control w w' /\
  (pc w' = Finishing (length b) /\ io_failed_ w' = false \/ pc w' = Failing (length b) /\ io_failed_ w' = true).
Proof.
  unfold flush_batch. pose proof (EnsureOpen_control a w) as HE. destruct (EnsureOpen a w) as [[] w1]; cbn zeta;
    destruct HE as (S1 & P1 & F1); [|split; [by destruct S1|by right]].
  pose proof (WriteBatch_control a b w1) as HW.
  destruct (WriteBatch a b w1) as [ok w2]; destruct HW as (S2 & P2 & F2).
  assert (same_control w w2) as S12 by (etrans; [exact S1|exact S2]).
  destruct ok; [|split; [by destruct S12|by right]].
  destruct (MaybeSync_control a w2) as (S3 & P3). set (w3 := MaybeSyncAfterBatch a w2) in *. clearbody w3.
  assert (same_control w w3) as [] by (etrans; [exact S12|exact S3]).
  cbn [negb]. destruct (io_failed_ w3) eqn:E; (split; [done|]); [by right|by left].
Qed.

Lemma DecPendingN_spec n w : DecPendingN n w = set_pending w (pending_ w - n).
Proof. unfold DecPendingN. f_equal. destruct (Nat.leb_spec (pending_ w) n); lia. Qed.

Lemma PopWaitFor_cases {T} (q : BlockingQueue T) : match PopWaitFor q with
  | (Some x, q') => BlockingQueue.queue_ q = x :: BlockingQueue.queue_ q' /\ cancelled q' = cancelled q /\ capacity_ q' = capacity_ q
  | (None, q') => q' = q /\ BlockingQueue.queue_ q = [] end.
Proof. unfold PopWaitFor. destruct (BlockingQueue.queue_ q) eqn:E; [done|]. by split_and!. Qed.

Lemma fstep_control a w w' : control w -> fstep a w = Some w' -> control w'.
Proof.
  intros [H1 H2 H3 H4 H5 H6 H7 H8] H. unfold fstep, size in *. destruct (pc w) as [|b|b|n| | |n| | | |] eqn:Ep; cbn [in_flight] in *.
  - pose proof (PopWaitFor_cases (queue_ w)) as HP. destruct (PopWaitFor _) as [[f|] q]; simplify_eq.
    + destruct HP as (P1 & P2 & P3). rewrite P1 in H2. cbn in H2. split; cbn; unfold size; rewrite ?P2, ?P3; done || lia.
    + destruct HP as [-> P2]. split; cbn; unfold size; done.
  - destruct (Nat.ltb_spec (length b) kMaxBatch); [|simplify_eq; split; cbn; unfold size; done].
    pose proof (PopWaitFor_cases (queue_ w)) as HP. destruct (PopWaitFor _) as [[f|] q]; simplify_eq.
    + destruct HP as (P1 & P2 & P3). rewrite P1 in H2. cbn in H2. split; cbn; unfold size; rewrite ?P2, ?P3; try done.
      * rewrite length_app. cbn. lia.
      * by destruct b.
    + destruct HP as [-> P2]. split; cbn; unfold size; done.
  - assert (0 < length b)%nat by (destruct b; [done|cbn; lia]). destruct (io_failed_ w) eqn:Ef; simplify_eq; [split; cbn; unfold size; done|].
    pose proof (flush_batch_control a b w) as [[S1 S2 S3 S4 S5 S6] Hc]. cbv zeta in *.
    split; unfold size; rewrite ?S2, ?S4, ?S5; try done; destruct Hc as [[-> Hf]|[-> Hf]]; done.
  - simplify_eq. rewrite DecPendingN_spec. split; cbn; unfold size; try done.
    + lia.
    + destruct (rpc w); lia || done.
  - destruct (cancelled (queue_ w)) eqn:Ec; [simplify_eq; split; cbn; unfold size; rewrite ?Ec; auto|].
    assert (forall w1, same_control w w1 -> control (set_pc w1 AtPop) /\ control (set_pc (set_failed w1) SyncFailed)) as Hs.
    { intros w1 [S1 S2 S3 S4 S5 S6]. split; split; cbn; unfold size; rewrite ?S2, ?S4, ?S5, ?Ec; done. }
    destruct (_ && _); [|simplify_eq; by apply Hs].
    pose proof (SyncFile_control a w) as HS. destruct (SyncFile a w) as [[] w1]; simplify_eq; by apply Hs, HS.
  - simplify_eq. split; cbn; unfold size; try done. destruct (rpc w); done.
  - simplify_eq. rewrite DecPendingN_spec. split; cbn; unfold size; try done.
    + lia.
    + destruct (rpc w); lia || done.
  - simplify_eq. split; cbn; unfold size; try done. destruct (rpc w); done.
  - unfold Pop in H. destruct (BlockingQueue.queue_ (queue_ w)) as [|f l] eqn:Eq; cbn in *.
    + unfold cancelled in *. rewrite H4 in H. simplify_eq. split; cbn; unfold size; rewrite ?Eq; done.
    + simplify_eq. split; cbn; unfold size; try done.
  - simplify_eq. unfold DecPending. rewrite DecPendingN_spec. split; cbn; unfold size; try done.
    + lia.
    + destruct (rpc w); lia || done.
  - done.
Qed.

Lemma rstep_control a w w' : control w -> rstep a w = Some w' -> control w'.
Proof.
  intros [H1 H2 H3 H4 H5 H6 H7 H8] H. unfold rstep, size in *. destruct (rpc w) as [f|f|f| |stop|stop|stop| | | |r] eqn:Er; cbn [counted] in *.
  - destruct (_ || _); simplify_eq; split; cbn; unfold size; done.
  - simplify_eq. split; cbn; unfold size; try done. lia.
  - unfold Push in H. destruct (Nat.ltb_spec (length (BlockingQueue.queue_ (queue_ w))) (capacity_ (queue_ w)));
      destruct (cancelled_ (queue_ w)) eqn:Ec; cbn [orb] in H; simplify_eq; split; cbn; unfold size, cancelled in *; cbn;
      rewrite ?Ec in *; try done; try (rewrite length_app; cbn; lia); by destruct (pc w).
  - simplify_eq. unfold DecPending. rewrite DecPendingN_spec. split; cbn; unfold size; try done. lia.
  - destruct (Nat.eqb_spec (pending_ w) 0); simplify_eq. split; cbn; unfold size; done.
  - destruct (io_failed_ w) eqn:Ef; simplify_eq; [destruct stop|]; split; cbn; unfold size; rewrite ?Ef; done.
  - assert (forall w1 r, same_control w w1 -> pc w1 = pc w -> (io_failed_ w = true -> io_failed_ w1 = true) ->
      control (flushed stop r w1)) as Hs.
    { intros w1 r [S1 S2 S3 S4 S5 S6] Sp Sf. unfold flushed. split; cbn; unfold size; rewrite ?S2, ?S4, ?Sp; try done.
      - destruct stop; cbn; lia.
      - destruct (pc w); auto.
      - by destruct stop.
      - by destruct stop. }
    case_bool_decide; [simplify_eq; by apply Hs|].
    pose proof (SyncFile_control a w) as HS. destruct (SyncFile a w) as [[] w1]; destruct HS as (S & P & F); cbn [negb] in H; simplify_eq.
    + apply Hs; congruence.
    + apply Hs; try done. by destruct S.
  - destruct (stopped_ w); simplify_eq; split; cbn; unfold size; done.
  - simplify_eq. assert (length (BlockingQueue.queue_ (queue_ w)) = 0%nat) as Hq by lia. apply nil_length_inv in Hq.
    split; cbn; unfold size, cancelled in *; cbn; rewrite ?Hq in *; try done; by destruct (pc w).
  - destruct (pc w) eqn:Ep; simplify_eq. split; cbn; unfold size; rewrite ?Ep; done || lia.
  - done.
Qed.

(** ** The invariant: data *)

Record data (d0 : bytes) (w : Writer) : Prop := {
  d_prefix : exists k, (k <= length (mjoin (accepted w)))%nat /\ content w = d0 ++ take k (mjoin (accepted w));
  d_whole : io_failed_ w = false -> exists written,
    accepted w = written ++ batch_of (pc w) ++ BlockingQueue.queue_ (queue_ w) /\ content w = d0 ++ mjoin written;
  d_synced : io_failed_ w = false -> dirty_ w = false -> synced w = length (content w);
  d_closed : fp_ w = None -> dirty_ w = true -> io_failed_ w = true \/ fsync_ w = kNo;
  d_stop : match rpc w with
           | StopCancel | StopJoin => io_failed_ w = false -> fsync_ w <> kNo -> dirty_ w = false
           | _ => True
           end;
  d_end : match fp_ w with Some fp => f_pos fp = length (f_data fp) | None => True end
}.

(** ** Lemmas: data *)

Lemma WriteExact_end d fp :
  f_pos fp = length (f_data fp) ->
  let '(ok, fp') := WriteExact d fp in
  f_pos fp' = length (f_data fp') /\
  exists k, (k <= length d)%nat /\ f_data fp' = f_data fp ++ take k d /\ (ok = true -> k = length d).
Proof.
  intros Hp. unfold WriteExact, fwrite. rewrite Hp.
  set (n := match f_room fp with None => length d | Some r => Nat.min (length d) r end).
  assert (n <= length d)%nat as Hn by (unfold n; destruct (f_room fp); lia). cbn [f_pos f_data].
  rewrite pwrite_end. split; [rewrite length_app, length_take; lia|]. exists n. split_and!; [done|done|].
  by intros H%bool_decide_eq_true.
Qed.

Lemma write_frames_end b fp :
  f_pos fp = length (f_data fp) ->
  let '(ok, fp') := write_frames b fp in
  f_pos fp' = length (f_data fp') /\
  exists k, (k <= length (mjoin b))%nat /\ f_data fp' = f_data fp ++ take k (mjoin b) /\ (ok = true -> k = length (mjoin b)).
Proof.
  revert fp. induction b as [|f b IH]; intros fp Hp; cbn [write_frames].
  { split; [done|]. exists 0%nat. by rewrite take_0, app_nil_r. }
  change (mjoin (f :: b)) with (f ++ mjoin b). destruct (is_empty f).
  { split; [done|]. exists 0%nat. rewrite take_0, app_nil_r. split_and!; [lia|done|done]. }
  pose proof (WriteExact_end f fp Hp) as HW. destruct (WriteExact f fp) as [ok fp1]. destruct HW as (P1 & k1 & L1 & E1 & O1).
  rewrite length_app. destruct ok.
  - rewrite (O1 eq_refl), firstn_all in E1. specialize (IH fp1 P1). destruct (write_frames b fp1) as [ok fp2].
    destruct IH as (P2 & k2 & L2 & E2 & O2). split; [done|]. exists (length f + k2)%nat. split_and!; [lia| |].
    + by rewrite E2, E1, take_app_add, <- app_assoc.
    + intros H. by rewrite (O2 H).
  - split; [done|]. exists k1. split_and!; [lia| |done]. by rewrite E1, take_app_le.
Qed.

Lemma SyncFile_data a w : let '(ok, w') := SyncFile a w in
  content w' = content w /\ fp_ w' = fp_ w /\
  (dirty_ w' = dirty_ w /\ synced w' = synced w \/ dirty_ w' = false /\ synced w' = length (content w)) /\
  (ok = true -> fsync_ w <> kNo -> fp_ w = None \/ dirty_ w' = false).
Proof.
  unfold SyncFile, content. case_bool_decide; [by split_and!; auto|].
  destruct (fp_ w) as [fp|] eqn:Ef; [destruct (dirty_ w) eqn:Ed; [destruct (a_sync a)|]|]; cbn; rewrite ?Ef, ?Ed;
    split_and!; auto; done.
Qed.

Lemma prefix_accepted (W b q acc : list bytes) k :
  acc = W ++ b ++ q -> (k <= length (mjoin b))%nat ->
  exists n, (n <= length (mjoin acc))%nat /\ mjoin W ++ take k (mjoin b) = take n (mjoin acc).
Proof.
  intros -> Hk. exists (length (mjoin W) + k)%nat. rewrite !join_app, !length_app. split; [lia|].
  by rewrite take_app_add, take_app_le.
Qed.

(** The file of a writer: what matters to [data] of its stream. *)
Definition stream_ok (w : Writer) : Prop :=
  match fp_ w with Some fp => f_pos fp = length (f_data fp) | None => True end.

Lemma EnsureOpen_data a w : stream_ok w -> let '(ok, w') := EnsureOpen a w in
  content w' = content w /\ stream_ok w' /\ dirty_ w' = dirty_ w /\ synced w' = synced w /\ (ok = true -> is_Some (fp_ w')) /\
  (ok = false -> w' = w).
Proof.
  unfold EnsureOpen, stream_ok, content. intros H. destruct (fp_ w) as [fp|] eqn:Ef; [by rewrite ?Ef; split_and!|].
  destruct (parent_path (path_ w)); [destruct (a_mkdir a)|]; try destruct (a_open a); cbn; rewrite ?Ef; split_and!; done || by eexists.
Qed.

Lemma WriteBatch_data a b w : is_Some (fp_ w) -> stream_ok w -> b <> [] -> let '(ok, w') := WriteBatch a b w in
  stream_ok w' /\ is_Some (fp_ w') /\
  exists k, (k <= length (mjoin b))%nat /\ content w' = content w ++ take k (mjoin b) /\
    (ok = true -> k = length (mjoin b) /\ dirty_ w' = true).
Proof.
  intros [fp Ef] Hs Hb. unfold stream_ok in Hs. rewrite Ef in Hs. unfold WriteBatch, content. rewrite Ef.
  destruct b as [|f b]; [done|]. pose proof (write_frames_end (f :: b) (mkFile (f_data fp) (f_pos fp) (a_room a)) Hs) as HW.
  destruct (write_frames _ _) as [ok fp1]. destruct HW as (P & k & L & E & O). unfold stream_ok.
  destruct ok; [destruct (a_flush a)|]; cbn [negb]; (split; [done|]); (split; [by eexists|]); exists k; split_and!; try done; auto.
Qed.

Lemma MaybeSync_data a w :
  content (MaybeSyncAfterBatch a w) = content w /\ fp_ (MaybeSyncAfterBatch a w) = fp_ w /\
  (dirty_ (MaybeSyncAfterBatch a w) = dirty_ w /\ synced (MaybeSyncAfterBatch a w) = synced w \/
   dirty_ (MaybeSyncAfterBatch a w) = false /\ synced (MaybeSyncAfterBatch a w) = length (content w)).
Proof.
  assert (forall a, content (sync_or_fail a w) = content w /\ fp_ (sync_or_fail a w) = fp_ w /\
    (dirty_ (sync_or_fail a w) = dirty_ w /\ synced (sync_or_fail a w) = synced w \/
     dirty_ (sync_or_fail a w) = false /\ synced (sync_or_fail a w) = length (content w))) as Hs.
  { intros a'. unfold sync_or_fail. pose proof (SyncFile_data a' w) as H. destruct (SyncFile a' w) as [[] w'];
      destruct H as (H1 & H2 & H3 & _); by split_and!. }
  unfold MaybeSyncAfterBatch. destruct (fsync_ w); [by split_and!; auto|destruct (_ <? _); [by split_and!; auto|apply Hs]|apply Hs].
Qed.

Lemma flush_batch_data d0 a b w :
  data d0 w -> pc w = Filled b -> b <> [] -> io_failed_ w = false -> rpc w <> StopCancel -> rpc w <> StopJoin ->
  data d0 (flush_batch a b w).
Proof.
  intros [H1 H2 H3 H4 H5 H6] Hp Hb Hf R1 R2. destruct (H2 Hf) as (W & Hacc & Hcon). rewrite Hp in Hacc. cbn [batch_of] in Hacc.
  pose proof (flush_batch_control a b w) as [[S1 S2 S3 S4 S5 S6] Hc]. cbv zeta in S1, S2, S3, S4, S5, S6, Hc.
  assert (exists k, (k <= length (mjoin b))%nat /\ content (flush_batch a b w) = content w ++ take k (mjoin b) /\
    stream_ok (flush_batch a b w) /\
    (io_failed_ (flush_batch a b w) = false -> k = length (mjoin b) /\ is_Some (fp_ (flush_batch a b w)) /\
       (dirty_ (flush_batch a b w) = false -> synced (flush_batch a b w) = length (content (flush_batch a b w)))))
    as (k & Hk & Hcon' & Hs' & Hok).
  { clear S1 S2 S3 S4 S5 S6 Hc. unfold flush_batch.
    pose proof (EnsureOpen_control a w) as CE. pose proof (EnsureOpen_data a w H6) as HE. destruct (EnsureOpen a w) as [ok w1].
    destruct HE as (E1 & E2 & E3 & E4 & E5 & E6). cbn zeta. destruct ok; cbn [negb]; cycle 1.
    { exists 0%nat. rewrite (E6 eq_refl). rewrite take_0, app_nil_r. by split_and!; try lia. }
    pose proof (WriteBatch_data a b w1 (E5 eq_refl) E2 Hb) as HW. destruct (WriteBatch a b w1) as [ok w2].
    destruct HW as (W1 & W2 & k & W3 & W4 & W5). exists k. destruct ok; cbn [negb]; cycle 1.
    { rewrite <- E1. by split_and!. }
    destruct (W5 eq_refl) as [-> Hd]. destruct (MaybeSync_data a w2) as (M1 & M2 & M3).
    set (w3 := MaybeSyncAfterBatch a w2) in *. clearbody w3.
    assert (stream_ok w3) as Hs3 by (unfold stream_ok in *; by rewrite M2).
    assert (dirty_ w3 = false -> synced w3 = length (content w3)) as Hd3.
    { rewrite M1. destruct M3 as [[M3 _]|[_ M3]]; [congruence|done]. }
    rewrite <- E1, <- W4, <- M1. destruct (io_failed_ w3) eqn:Ef3; (split_and!; [done|done|done|]).
    - cbn. congruence.
    - intros _. split_and!; [done|by rewrite <- M2 in W2|done]. }
  split.
  - rewrite S6, Hcon', Hcon. destruct (prefix_accepted W b _ _ k Hacc Hk) as (n & Hn & E). exists n. split; [done|].
    by rewrite <- app_assoc, E.
  - intros Hf'. destruct (Hok Hf') as (-> & _ & _). exists (W ++ b). rewrite S6, S2, Hcon', Hcon, firstn_all, join_app, Hacc.
    destruct Hc as [[-> _]|[_ Hc]]; [|congruence]. cbn [batch_of app]. by rewrite <- !app_assoc.
  - intros Hf'. by apply (Hok Hf').
  - intros Hfp. destruct Hc as [[_ Hc]|[_ Hc]]; [|by left]. destruct (Hok Hc) as (_ & [fp E] & _). congruence.
  - rewrite S5. by destruct (rpc w).
  - exact Hs'.
Qed.

(** Steps that do not touch the file keep the data, if the frames to come are
    the same or it does not matter any more. *)
Lemma data_moved d0 w w' :
  data d0 w -> content w' = content w -> fp_ w' = fp_ w -> dirty_ w' = dirty_ w -> synced w' = synced w ->
  fsync_ w' = fsync_ w -> accepted w' = accepted w -> rpc w' = rpc w -> (io_failed_ w = true -> io_failed_ w' = true) ->
  (io_failed_ w' = false -> batch_of (pc w') ++ BlockingQueue.queue_ (queue_ w') =
     batch_of (pc w) ++ BlockingQueue.queue_ (queue_ w)) -> data d0 w'.
Proof.
  intros [H1 H2 H3 H4 H5 H6] E1 E2 E3 E4 E5 E6 E7 E8 E9.
  assert (io_failed_ w' = false -> io_failed_ w = false) as Hf by (intros H; destruct (io_failed_ w); [by rewrite E8 in H|done]).
  split; rewrite ?E1, ?E2, ?E3, ?E4, ?E5, ?E6, ?E7; auto.
  - intros H. rewrite (E9 H). auto.
  - intros A B. destruct (H4 A B); [left|right]; auto.
  - destruct (rpc w); auto.
Qed.

Lemma fstep_data d0 a w w' : control w -> data d0 w -> fstep a w = Some w' -> data d0 w'.
Proof.
  intros HC HD H. pose proof HC as [_ C2 C3 C4 _ C6 C7 _]. unfold fstep in H.
  destruct (pc w) as [|b|b|n| | |n| | | |] eqn:Ep; cbn [in_flight] in *.
  - pose proof (PopWaitFor_cases (queue_ w)) as HP. destruct (PopWaitFor _) as [[f|] q]; simplify_eq;
      apply (data_moved d0 w); try done; rewrite Ep; cbn.
    + by destruct HP as [-> _].
    + by destruct HP as [-> ->].
  - destruct (Nat.ltb_spec (length b) kMaxBatch); [|simplify_eq; apply (data_moved d0 w); try done; by rewrite Ep].
    pose proof (PopWaitFor_cases (queue_ w)) as HP. destruct (PopWaitFor _) as [[f|] q]; simplify_eq;
      apply (data_moved d0 w); try done; rewrite Ep; cbn.
    + destruct HP as [-> _]. by rewrite <- app_assoc.
    + by destruct HP as [-> ->].
  - destruct (io_failed_ w) eqn:Ef; simplify_eq.
    + apply (data_moved d0 w); try done. cbn. congruence.
    + assert (0 < length b)%nat by (destruct b; [done|cbn; lia]).
      apply flush_batch_data; try done; intros Er; rewrite Er in *; lia.
  - simplify_eq. rewrite DecPendingN_spec. apply (data_moved d0 w); try done. by rewrite Ep.
  - destruct (cancelled (queue_ w)); [simplify_eq; apply (data_moved d0 w); try done; by rewrite Ep|].
    destruct (_ && _); [|simplify_eq; apply (data_moved d0 w); try done; by rewrite Ep].
    pose proof (SyncFile_control a w) as CS. pose proof (SyncFile_data a w) as HS.
    destruct (SyncFile a w) as [ok w1]. destruct CS as ([S1 S2 S3 S4 S5 S6] & P & F). destruct HS as (D1 & D2 & D3 & D4).
    destruct HD as [H1 H2 H3 H4 H5 H6].
    assert (forall w2 : Writer, content w2 = content w1 -> fp_ w2 = fp_ w1 -> dirty_ w2 = dirty_ w1 -> synced w2 = synced w1 ->
      fsync_ w2 = fsync_ w1 -> accepted w2 = accepted w1 -> rpc w2 = rpc w1 -> queue_ w2 = queue_ w1 -> batch_of (pc w2) = [] ->
      (io_failed_ w1 = true -> io_failed_ w2 = true) -> data d0 w2) as Hall.
    { intros w2 E1 E2 E3 E4 E5 E6 E7 E8 E9 E10.
      assert (io_failed_ w2 = false -> io_failed_ w = false) as Hf
        by (rewrite <- F; intros H'; destruct (io_failed_ w1); [by rewrite E10 in H'|done]).
      split; rewrite ?E1, ?E2, ?E3, ?E4, ?E5, ?E6, ?E7, ?E8, ?E9, ?D1, ?D2, ?S1, ?S2, ?S5, ?S6; try done.
      - intros H'. rewrite Ep in H2. apply H2. auto.
      - intros H' Hd. destruct D3 as [[D3 D5]|[_ D5]]; [|done]. rewrite D5. apply H3; [auto|congruence].
      - intros H' Hd. destruct D3 as [[D3 _]|[D3 _]]; [|congruence]. rewrite D3 in Hd.
        destruct (H4 H' Hd) as [Hi|]; [left|by right]. apply E10. congruence.
      - destruct (rpc w); try done; intros H' Hn; (destruct D3 as [[-> _]|[-> _]]; [|done]); apply H5; auto. }
    destruct ok; simplify_eq; by apply Hall.
  - simplify_eq. apply (data_moved d0 w); try done. by rewrite Ep.
  - simplify_eq. rewrite DecPendingN_spec. apply (data_moved d0 w); try done. by rewrite Ep.
  - simplify_eq. apply (data_moved d0 w); try done. by rewrite Ep.
  - unfold Pop in H. destruct (BlockingQueue.queue_ (queue_ w)) as [|f l] eqn:Eq; cbn in *.
    + unfold cancelled in *. rewrite C4 in H. simplify_eq. apply (data_moved d0 w); try done. by rewrite Ep.
    + simplify_eq. apply (data_moved d0 w); try done. cbn. congruence.
  - simplify_eq. unfold DecPending. rewrite DecPendingN_spec. apply (data_moved d0 w); try done. by rewrite Ep.
  - done.
Qed.

Lemma rstep_data d0 a w w' : control w -> data d0 w -> rstep a w = Some w' -> data d0 w'.
Proof.
  intros HC HD H. pose proof HC as [_ C2 C3 C4 C5 C6 C7 _]. pose proof HD as [H1 H2 H3 H4 H5 H6]. unfold rstep in H.
  destruct (rpc w) as [f|f|f| |stop|stop|stop| | | |r] eqn:Er; cbn [counted] in *.
  - destruct (_ || _); simplify_eq; by split.
  - simplify_eq. by split.
  - unfold Push in H. destruct (Nat.ltb_spec (length (BlockingQueue.queue_ (queue_ w))) (capacity_ (queue_ w)));
      destruct (cancelled_ (queue_ w)) eqn:Ec; cbn [orb] in H; simplify_eq; try (by split).
    split; cbn; try done.
    + destruct H1 as (k & Hk & E). exists k. rewrite join_app, length_app, take_app_le by done. split; [lia|exact E].
    + intros Hf. destruct (H2 Hf) as (W & EW & Ecn). exists W. split; [|done]. by rewrite EW, <- !app_assoc.
  - simplify_eq. unfold DecPending. rewrite DecPendingN_spec. by split.
  - destruct (Nat.eqb_spec (pending_ w) 0); simplify_eq. by split.
  - destruct (io_failed_ w) eqn:Ef; simplify_eq; [|by split; cbn; rewrite ?Ef; auto].
    destruct stop; split; cbn; rewrite ?Ef; done.
  - case_bool_decide as Hn.
    { simplify_eq. destruct stop; split; cbn; done. }
    pose proof (SyncFile_control a w) as CS. pose proof (SyncFile_data a w) as HS.
    destruct (SyncFile a w) as [ok w1]. destruct CS as ([S1 S2 S3 S4 S5 S6] & P & F). destruct HS as (D1 & D2 & D3 & D4).
    assert (forall r, data d0 (flushed stop r (if ok then w1 else set_failed w1))) as Hall.
    { intros r. assert (io_failed_ w = false -> ok = true -> dirty_ w1 = false) as Hst.
      { intros Ef Hok. destruct (D4 Hok Hn) as [Hfp|Hd]; [|done]. destruct D3 as [[D3 _]|[D3 _]]; [|done]. rewrite D3.
        destruct (dirty_ w) eqn:Ed; [|done]. destruct (H4 Hfp eq_refl); congruence. }
      assert (forall w2 : Writer, content w2 = content w1 -> fp_ w2 = fp_ w1 -> dirty_ w2 = dirty_ w1 -> synced w2 = synced w1 ->
        fsync_ w2 = fsync_ w1 -> accepted w2 = accepted w1 -> queue_ w2 = queue_ w1 -> pc w2 = pc w1 ->
        (io_failed_ w2 = false -> ok = true /\ io_failed_ w = false) -> rpc w2 = (if stop then StopCancel else Returned r) -> data d0 w2) as Hone.
      { intros w2 E1 E2 E3 E4 E5 E6 E7 E8 E9 E10.
        split; rewrite ?E1, ?E2, ?E3, ?E4, ?E5, ?E6, ?E7, ?E8, ?E10, ?D1, ?D2, ?S1, ?S2, ?S6, ?P; try done; auto.
        - intros [_ Hf]%E9. by apply H2.
        - intros [_ Hf]%E9 Hd. destruct D3 as [[D3 D5]|[_ D5]]; [|done]. rewrite D5. apply H3; [done|congruence].
        - intros H' Hd. destruct D3 as [[D3 _]|[D3 _]]; [|congruence]. rewrite D3 in Hd. destruct (H4 H' Hd); [|by right].
          left. apply not_false_iff_true. intros [_ Hf]%E9. congruence.
        - destruct stop; [|done]. intros [Hok Hf]%E9 _. auto. }
      destruct ok; apply Hone; try done. unfold flushed. cbn. by rewrite F. }
    destruct ok; cbn [negb] in H; simplify_eq; apply Hall.
  - destruct (stopped_ w); simplify_eq; by split.
  - simplify_eq. split; cbn; done.
  - destruct (pc w) eqn:Ep; simplify_eq. split; cbn; rewrite ?Ep; try done.
    intros _ Hd. destruct (io_failed_ w); [by left|right]. destruct (decide (fsync_ w = kNo)) as [|Hne]; [done|].
    rewrite (H5 eq_refl Hne) in Hd. done.
  - done.
Qed.

Lemma reached_ok d0 w : reached d0 w -> control w /\ data d0 w.
Proof.
  induction 1 as [path fsync now|w w' _ [HC HD] Hs].
  - split; split; cbn; try done; try lia.
    + apply Nat.ltb_lt. reflexivity.
    + exists 0%nat. rewrite app_nil_r. split; [lia|done].
    + intros _. exists []. split; [done|]. symmetry. apply app_nil_r.
  - destruct Hs as [a w w' H|a w w' H|c r w H].
    + split; [by eapply fstep_control|by eapply fstep_data].
    + split; [by eapply rstep_control|by eapply rstep_data].
    + destruct HC as [C1 C2 C3 C4 C5 C6 C7 C8], HD as [D1 D2 D3 D4 D5 D6]. rewrite H in C2.
      split; split; cbn; try done; destruct c; done.
Qed.

(** ** Progress *)

(** One turn of a schedule: the flush thread's or the reactor's.  A thread that
    waits, or has ended, lets its turn pass. *)
Definition turn (t : bool * Answers) (w : Writer) : Writer :=
  if t.1 then default w (fstep t.2 w) else default w (rstep t.2 w).

Fixpoint run (sched : nat -> bool * Answers) (n : nat) (w : Writer) : Writer :=
  match n with O => w | S n => turn (sched n) (run sched n w) end.

(** Both threads have a turn again and again. *)
Definition fair (sched : nat -> bool * Answers) : Prop := forall b n, exists m, (n <= m)%nat /\ (sched m).1 = b.

Definition blocked (w : Writer) : bool :=
  match rpc w with
  | EnqPush _ => negb ((size (queue_ w) <? capacity_ (queue_ w))%nat || cancelled (queue_ w))
  | FlushWait _ => negb (pending_ w =? 0)%nat
  | StopJoin => match pc w with Exited => false | _ => true end
  | _ => false
  end.

(** How many steps of the reactor are left in its call. *)
Definition calls_left (p : ReactorPc) : nat :=
  match p with
  | EnqStart _ => 4 | EnqInc _ => 3 | EnqPush _ => 2 | EnqRefused => 1
  | StopStart => 6 | FlushWait _ => 5 | FlushSync _ => 4 | FlushChecked _ => 3 | StopCancel => 2 | StopJoin => 1
  | Returned _ => 0
  end.

(** What the flush thread has to do before a waiting reactor goes on. *)
Definition weight (w : Writer) : nat :=
  10 * pending_ w + 4 * size (queue_ w) +
  match pc w with
  | AtPop => 2 | Filling _ => 5 | Filled _ => 4 | Finishing _ | Failing _ => 3
  | TimedOut => if cancelled (queue_ w) then 1 else 4
  | SyncFailed => 3 | Cancelling => 2 | Draining => 1 | Drained => 2 | Exited => 0
  end.

(** ** Lemmas: progress *)

Lemma rstep_blocked a w : (0 < calls_left (rpc w))%nat -> blocked w = false ->
  exists w', rstep a w = Some w' /\ (calls_left (rpc w') < calls_left (rpc w))%nat.
Proof.
  intros Hc Hb. unfold rstep, blocked, Push, size, cancelled in *. destruct (rpc w) as [f|f|f| |stop|stop|stop| | | |r] eqn:Er; cbn [calls_left] in *.
  - destruct (_ || _); eexists; (split; [done|]); cbn; lia.
  - eexists; (split; [done|]); cbn; lia.
  - apply negb_false_iff in Hb. rewrite Hb. destruct (cancelled_ _); eexists; (split; [done|]); cbn; lia.
  - eexists; (split; [done|]); cbn; lia.
  - apply negb_false_iff in Hb. rewrite Hb. eexists; (split; [done|]); cbn; lia.
  - unfold flushed. destruct (io_failed_ w); eexists; (split; [done|]); cbn; destruct stop; cbn; lia.
  - unfold flushed. case_bool_decide; [|destruct (SyncFile a w) as [[] w1]]; cbn [negb];
      eexists; (split; [done|]); cbn; destruct stop; cbn; lia.
  - destruct (stopped_ w); eexists; (split; [done|]); cbn; lia.
  - eexists; (split; [done|]); cbn; lia.
  - destruct (pc w); try done. eexists; (split; [done|]); cbn; lia.
  - lia.
Qed.

(** The flush thread only takes from the queue and from the count. *)
Lemma fstep_takes a w w' : fstep a w = Some w' ->
  rpc w' = rpc w /\ (size (queue_ w') <= size (queue_ w))%nat /\ capacity_ (queue_ w') = capacity_ (queue_ w) /\
  (cancelled (queue_ w) = true -> cancelled (queue_ w') = true) /\ (pending_ w' <= pending_ w)%nat /\ pc w <> Exited /\
  accepted w' = accepted w.
Proof.
  intros H. unfold fstep, size in *. destruct (pc w) as [|b|b|n| | |n| | | |] eqn:Ep.
  - pose proof (PopWaitFor_cases (queue_ w)) as HP. destruct (PopWaitFor _) as [[f|] q]; simplify_eq; cbn.
    + destruct HP as (-> & P2 & P3). rewrite P2. cbn. split_and!; done || lia.
    + by destruct HP as [-> P2].
  - destruct (_ <? _)%nat; [|by simplify_eq].
    pose proof (PopWaitFor_cases (queue_ w)) as HP. destruct (PopWaitFor _) as [[f|] q]; simplify_eq; cbn.
    + destruct HP as (-> & P2 & P3). rewrite P2. cbn. split_and!; done || lia.
    + by destruct HP as [-> P2].
  - destruct (io_failed_ w); simplify_eq; [done|].
    destruct (flush_batch_control a b w) as [[S1 S2 S3 S4 S5 S6] _]. cbv zeta in *. rewrite S2, S4. by split_and!.
  - simplify_eq. rewrite DecPendingN_spec. cbn. split_and!; done || lia.
  - destruct (cancelled (queue_ w)) eqn:Ec; [simplify_eq; by split_and!|].
    destruct (_ && _); [|simplify_eq; cbn; rewrite Ec; by split_and!].
    pose proof (SyncFile_control a w) as HS. destruct (SyncFile a w) as [[] w1]; destruct HS as ([S1 S2 S3 S4 S5 S6] & _);
      simplify_eq; cbn; rewrite S2, S4, S5; by split_and!.
  - simplify_eq. cbn. by split_and!.
  - simplify_eq. rewrite DecPendingN_spec. cbn. split_and!; done || lia.
  - simplify_eq. cbn. by split_and!.
  - unfold Pop in H. destruct (BlockingQueue.queue_ (queue_ w)) as [|f l] eqn:Eq.
    + destruct (cancelled_ (queue_ w)) eqn:Ec; simplify_eq. cbn. rewrite Eq. by split_and!.
    + simplify_eq. cbn. split_and!; done || lia.
  - simplify_eq. unfold DecPending. rewrite DecPendingN_spec. cbn. split_and!; done || lia.
  - done.
Qed.

Lemma fstep_unblocked a w w' : fstep a w = Some w' -> blocked w = false -> blocked w' = false.
Proof.
  intros H Hb. apply fstep_takes in H as (H1 & H2 & H3 & H4 & H5 & H6 & _). unfold blocked in *. rewrite H1.
  destruct (rpc w); try done.
  - apply negb_false_iff in Hb. apply negb_false_iff. rewrite H3. apply orb_true_iff in Hb as [Hb%Nat.ltb_lt|Hb].
    + apply orb_true_iff. left. apply Nat.ltb_lt. lia.
    + by rewrite (H4 Hb), orb_true_r.
  - apply negb_false_iff, Nat.eqb_eq in Hb. apply negb_false_iff, Nat.eqb_eq. lia.
  - by destruct (pc w).
Qed.

(** While the reactor waits, every step of the flush thread brings it closer. *)
Lemma fstep_weight a w : control w -> blocked w = true -> exists w', fstep a w = Some w' /\ (weight w' < weight w)%nat.
Proof.
  intros [H1 H2 H3 H4 H5 H6 H7 H8] Hb. unfold fstep, weight, size in *.
  destruct (pc w) as [|b|b|n| | |n| | | |] eqn:Ep; cbn [in_flight] in *.
  - pose proof (PopWaitFor_cases (queue_ w)) as HP. destruct (PopWaitFor _) as [[f|] q]; eexists; (split; [done|]); cbn.
    + destruct HP as (-> & P2 & P3). cbn. lia.
    + destruct HP as [-> P2]. unfold blocked, size in Hb. rewrite Ep, P2 in *. cbn [length] in *.
      destruct (rpc w) eqn:Er; try done; cbn [counted] in *.
      * by rewrite (proj2 (Nat.ltb_lt _ _) H1) in Hb.
      * rewrite H2 in Hb. done.
      * rewrite H8. lia.
  - destruct (_ <? _)%nat; [|eexists; (split; [done|]); cbn; lia].
    pose proof (PopWaitFor_cases (queue_ w)) as HP. destruct (PopWaitFor _) as [[f|] q]; eexists; (split; [done|]); cbn.
    + destruct HP as (-> & P2 & P3). cbn. lia.
    + destruct HP as [-> P2]. lia.
  - destruct (io_failed_ w); eexists; (split; [done|]); cbn; [lia|].
    destruct (flush_batch_control a b w) as [[S1 S2 S3 S4 S5 S6] Hc]. cbv zeta in *. rewrite S2, S4.
    destruct Hc as [[-> _]|[-> _]]; lia.
  - eexists; (split; [done|]). rewrite DecPendingN_spec. cbn. lia.
  - destruct (cancelled (queue_ w)) eqn:Ec; [eexists; (split; [done|]); cbn; lia|].
    destruct (_ && _); [|eexists; (split; [done|]); cbn; lia].
    pose proof (SyncFile_control a w) as HS. destruct (SyncFile a w) as [[] w1]; destruct HS as ([S1 S2 S3 S4 S5 S6] & _);
      eexists; (split; [done|]); cbn; rewrite S2, S4; lia.
  - eexists; (split; [done|]); cbn. lia.
  - eexists; (split; [done|]). rewrite DecPendingN_spec. cbn. lia.
  - eexists; (split; [done|]); cbn. lia.
  - unfold Pop. destruct (BlockingQueue.queue_ (queue_ w)) as [|f l] eqn:Eq.
    + unfold cancelled in *. rewrite H4. eexists; (split; [done|]). cbn. rewrite Eq. cbn. lia.
    + eexists; (split; [done|]). cbn. lia.
  - eexists; (split; [done|]). unfold DecPending. rewrite DecPendingN_spec. cbn. lia.
  - unfold blocked in Hb. rewrite Ep in Hb. specialize (H5 H4). unfold size in Hb. rewrite H5 in *. cbn [length] in *.
    destruct (rpc w); try done; cbn [counted] in *.
    + by rewrite H4, orb_true_r in Hb.
    + by rewrite H2 in Hb.
Qed.

Lemma rstep_waits a w : blocked w = true -> rstep a w = None.
Proof.
  unfold blocked, rstep, Push, size, cancelled. destruct (rpc w); try done.
  - by intros ->%negb_true_iff.
  - by intros ->%negb_true_iff.
  - by destruct (pc w).
Qed.

Section Fair.
Context (sched : nat -> bool * Answers) (w : Writer).
Hypothesis Hfair : fair sched.
Hypothesis Hw : control w.

Lemma run_control n : control (run sched n w).
Proof.
  induction n as [|n IH]; [done|]. cbn [run]. unfold turn. destruct (sched n).1.
  - destruct (fstep _ _) as [w'|] eqn:E; [|done]. by eapply fstep_control.
  - destruct (rstep _ _) as [w'|] eqn:E; [|done]. by eapply rstep_control.
Qed.

(** A waiting reactor is let go. *)
Lemma run_unblocks i : exists j, blocked (run sched j w) = false /\ rpc (run sched j w) = rpc (run sched i w).
Proof.
  remember (weight (run sched i w)) as n eqn:Hn. revert i Hn. induction (lt_wf n) as [n _ IH]. intros i Hn.
  destruct (Hfair true i) as (m & Hm & Ht). remember (m - i)%nat as d eqn:Hd. revert i Hn Hm Hd.
  induction d as [|d IHd]; intros i Hn Hm Hd; (destruct (blocked (run sched i w)) eqn:Hb; [|by exists i]).
  - assert (m = i) as -> by lia. destruct (fstep_weight (sched i).2 _ (run_control i) Hb) as (w' & H & Hlt).
    destruct (IH (weight (run sched (S i) w))) with (i := S i) as (j & H1 & H2); [|done|].
    + cbn [run]. unfold turn. rewrite Ht, H, Hn. exact Hlt.
    + exists j. split; [done|]. rewrite H2. cbn [run]. unfold turn. rewrite Ht, H. by apply fstep_takes in H as [? _].
  - destruct (sched i).1 eqn:Hi.
    + destruct (fstep_weight (sched i).2 _ (run_control i) Hb) as (w' & H & Hlt).
      destruct (IH (weight (run sched (S i) w))) with (i := S i) as (j & H1 & H2); [|done|].
      * cbn [run]. unfold turn. rewrite Hi, H, Hn. exact Hlt.
      * exists j. split; [done|]. rewrite H2. cbn [run]. unfold turn. rewrite Hi, H. by apply fstep_takes in H as [? _].
    + assert (run sched (S i) w = run sched i w) as E.
      { cbn [run]. unfold turn. by rewrite Hi, (rstep_waits _ _ Hb). }
      destruct (IHd (S i)) as (j & H1 & H2); [by rewrite E|lia|lia|]. exists j. split; [done|]. by rewrite H2, E.
Qed.

(** A reactor that can go on does. *)
Lemma run_advances i : blocked (run sched i w) = false -> (0 < calls_left (rpc (run sched i w)))%nat ->
  exists j, (calls_left (rpc (run sched j w)) < calls_left (rpc (run sched i w)))%nat.
Proof.
  intros Hb Hc. destruct (Hfair false i) as (m & Hm & Ht). remember (m - i)%nat as d eqn:Hd. revert i Hb Hc Hm Hd.
  induction d as [|d IHd]; intros i Hb Hc Hm Hd.
  - assert (m = i) as -> by lia. destruct (rstep_blocked (sched i).2 _ Hc Hb) as (w' & H & Hlt).
    exists (S i). cbn [run]. unfold turn. by rewrite Ht, H.
  - destruct (sched i).1 eqn:Hi.
    + assert (blocked (run sched (S i) w) = false /\ rpc (run sched (S i) w) = rpc (run sched i w)) as [Hb' Hr].
      { cbn [run]. unfold turn. rewrite Hi. destruct (fstep _ _) as [w'|] eqn:E; [|done]. cbn.
        split; [by eapply fstep_unblocked|by apply fstep_takes in E as [? _]]. }
      rewrite <- Hr. apply IHd; [done|by rewrite Hr|lia|lia].
    + destruct (rstep_blocked (sched i).2 _ Hc Hb) as (w' & H & Hlt). exists (S i). cbn [run]. unfold turn. by rewrite Hi, H.
Qed.

Lemma run_returns : exists n r, rpc (run sched n w) = Returned r.
Proof.
  generalize 0%nat as i. intros i. remember (calls_left (rpc (run sched i w))) as c eqn:Hc. revert i Hc. induction (lt_wf c) as [c _ IH]. intros i Hc.
  destruct (decide (c = 0%nat)) as [->|Hne].
  { destruct (rpc (run sched i w)) eqn:E; try (by cbn in Hc). by exists i, r. }
  destruct (run_unblocks i) as (j & Hb & Hr). destruct (run_advances j Hb) as (k & Hlt); [rewrite Hr; lia|].
  rewrite Hr in Hlt. apply (IH (calls_left (rpc (run sched k w)))) with (i := k); [lia|done].
Qed.

End Fair.

(** ** Properties *)

(** The log file is the log.  Whatever the two threads do, the file holds
    what it held before, followed by a prefix of the frames that [Enqueue] has
    taken, in the order in which it took them; and unless the writer has failed,
    these are whole frames, and all that are missing are those in the flush
    thread's batch and in the queue. *)
Theorem file_is_prefix (d0 : bytes) (w : Writer) :
  reached d0 w ->
  (exists k, content w = d0 ++ take k (mjoin (accepted w))) /\
  (failed w = false -> exists written,
     accepted w = written ++ batch_of (pc w) ++ BlockingQueue.queue_ (queue_ w) /\ content w = d0 ++ mjoin written).
Proof.
  intros [_ [H1 H2 _ _ _ _]]%reached_ok. split; [|exact H2]. destruct H1 as (k & _ & H1). by exists k.
Qed.

(** C12: [Flush] tells the truth.  When a flush gets past its check for a failure,
    its last step ends it with whether the writer has failed (inside [Stop] this
    result is ignored); and unless it has, every frame that [Enqueue] has taken is
    in the file, and on disk unless the policy is never to sync. *)
Theorem flush_durable (d0 : bytes) (w w' : Writer) (a : Answers) (stop : bool) :
  reached d0 w -> rpc w = FlushChecked stop -> rstep a w = Some w' ->
  (stop = false -> rpc w' = Returned (negb (failed w'))) /\
  (failed w' = false ->
   content w' = d0 ++ mjoin (accepted w') /\ (fsync_ w' <> kNo -> synced w' = length (content w'))).
Proof.
  intros Hr Er H. destruct (reached_ok _ _ Hr) as [HC HD].
  pose proof (rstep_data d0 a w w' HC HD H) as [_ D2 D3 D4 _ _].
  destruct HC as [_ C2 _ _ _ C6 C7 _]. rewrite Er in C2, C7. cbn in C2. unfold size in C2.
  assert (length (BlockingQueue.queue_ (queue_ w)) = 0%nat) as Hq by lia. apply nil_length_inv in Hq.
  assert (batch_of (pc w) = []) as Hb by (destruct (pc w) as [|b|b| | | | | | | |]; try done; destruct b; cbn in *; [done|lia|done|lia]).
  unfold rstep in H. rewrite Er in H.
  assert (same_control (set_rpc w (rpc w')) w' /\ pc w' = pc w /\ (stop = false -> rpc w' = Returned (negb (failed w'))) /\
    (failed w' = false -> fsync_ w <> kNo -> fp_ w = None \/ dirty_ w' = false) /\ (failed w' = false -> fp_ w' = fp_ w)) as
    ([S1 S2 S3 S4 S5 S6] & Sp & Sr & Sd & Sf).
  { case_bool_decide as Hn.
    { injection H as <-. unfold failed. cbn. destruct stop; split_and!; done. }
    pose proof (SyncFile_control a w) as CS. pose proof (SyncFile_data a w) as HS.
    destruct (SyncFile a w) as [[] w1]; destruct CS as ([S1 S2 S3 S4 S5 S6] & P & F), HS as (A1 & A2 & A3 & A4);
      cbn [negb] in H; injection H as <-; unfold failed; cbn; rewrite ?F; destruct stop;
      (split; [split; cbn; congruence|]); split_and!; try done; intros _ Hne; by apply A4. }
  cbn in S1, S2, S6. split; [done|]. intros Hf. destruct (D2 Hf) as (W & HW & Hc).
  rewrite S2, Hq, Sp, Hb, app_nil_r in HW. rewrite HW. split; [done|]. intros Hn. rewrite S1 in Hn. apply D3; [done|].
  destruct (Sd Hf Hn) as [Hfp|]; [|done]. destruct (dirty_ w') eqn:Ed; [|done].
  destruct (D4 ltac:(by rewrite (Sf Hf)) eq_refl) as [?|?]; unfold failed in Hf; congruence.
Qed.

(** C13: every call returns.  From any state the two threads can reach, if both
    go on getting turns, the call that the reactor is in ([Enqueue] on a full
    queue, [Flush] with frames to write, [Stop] with a thread to join) returns:
    there is no deadlock and no lost wake-up, whether the file system works or
    fails. *)
Theorem calls_return (d0 : bytes) (w : Writer) (sched : nat -> bool * Answers) :
  reached d0 w -> fair sched -> exists n r, rpc (run sched n w) = Returned r.
Proof. intros [HC _]%reached_ok Hf. exact (run_returns sched w Hf HC). Qed.

(** ** The writer behind the log manager *)

Fixpoint until (n : nat) (sched : nat -> bool * Answers) (i : nat) (w : Writer) : Writer :=
  match rpc w with
  | Returned _ => w
  | _ => match n with O => w | S n => until n sched (S i) (turn (sched i) w) end
  end.

Definition result (w : Writer) : bool := match rpc w with Returned r => r | _ => false end.

(** A call runs [turns w] turns of the schedule [sched w]; [calls_return] says
    that for a fair schedule there are enough of them. *)
Section Instance.
Context (sched : Writer -> nat -> bool * Answers) (turns : Writer -> nat).

Definition perform (c : Call) (w : Writer) : bool * Writer :=
  let w' := until (turns w) (sched w) 0 (call c w) in (result w', w').

Definition thread_writer : WalManager.AofWriter := {|
  WalManager.writer := Writer;
  WalManager.aof_enqueue w f := perform (Enqueue f) w;
  WalManager.aof_flush w := perform Flush w;
  WalManager.aof_stop w := (perform Stop w).2;
  WalManager.aof_failed w := failed w;
  WalManager.aof_poll w := w
|}.

(** While [Enqueue f] runs, the log is as it was until it takes [f]. *)
Definition enqueuing (f : bytes) (log : list bytes) (w : Writer) : Prop :=
  match rpc w with
  | EnqStart g | EnqInc g | EnqPush g => g = f /\ accepted w = log
  | EnqRefused => accepted w = log
  | Returned r => accepted w = if r then log ++ [f] else log
  | _ => False
  end.

Lemma turn_enqueuing f log t w : enqueuing f log w -> enqueuing f log (turn t w).
Proof.
  intros H. unfold turn. destruct t.1.
  - destruct (fstep _ _) as [w'|] eqn:E; [|done]. apply fstep_takes in E as (Hr & _ & _ & _ & _ & _ & Ha). cbn.
    unfold enqueuing in *. by rewrite Hr, Ha.
  - destruct (rstep _ _) as [w'|] eqn:E; [|done]. unfold rstep, enqueuing in *. cbn.
    destruct (rpc w) as [g|g|g| |stop|stop|stop| | | |r] eqn:Er; try done.
    + destruct (_ || _); simplify_eq; cbn; by destruct H.
    + simplify_eq. by destruct H.
    + destruct H as [-> <-]. destruct (Push _ _) as [[[] q]|]; simplify_eq; done.
    + unfold DecPending in E. rewrite DecPendingN_spec in E. simplify_eq. done.
Qed.

Lemma until_enqueuing f log n s i w : enqueuing f log w -> enqueuing f log (until n s i w).
Proof.
  revert i w. induction n as [|n IH]; intros i w H; cbn [until]; destruct (rpc w); try done; by apply IH, turn_enqueuing.
Qed.

#[export] Instance thread_writer_laws : WalManager.AofWriterLaws thread_writer.
Proof.
  refine {| WalManager.aof_log := accepted : @WalManager.writer thread_writer -> list bytes |}.
  intros w f. cbn. pose proof (until_enqueuing f (accepted w) (turns w) (sched w) 0 (call (Enqueue f) w) (conj eq_refl eq_refl)) as H.
  unfold enqueuing, result in *. destruct (rpc (until _ _ _ _)); try done; by destruct H.
Defined.

End Instance.

(** ** Witnesses *)

Definition good (now : Z) : Answers := mkAnswers true true None true true now.

(** The two threads take turns. *)
Definition demo_sched (n : nat) : bool * Answers := (Nat.even n, good 2000).

Lemma demo_fair : fair demo_sched.
Proof.
  intros b n. destruct b.
  - exists (2 * n)%nat. split; [lia|]. cbn [fst demo_sched]. apply Nat.even_spec. by exists n.
  - exists (S (2 * n)). split; [lia|]. cbn [fst demo_sched].
    apply not_true_iff_false. rewrite Nat.even_spec. intros [k Hk]. lia.
Qed.

(** Two frames are taken; the first is being written. *)
Definition demo_start : Writer := construct (bs "d/appendonly.aof") kEverySec (bs "old") 0.

Definition demo_turns (ts : list bool) (w : Writer) : Writer := fold_left (fun w b => turn (b, good 2000) w) ts w.

Lemma turn_reached d0 t w : reached d0 w -> reached d0 (turn t w).
Proof.
  intros H. unfold turn. destruct t.1.
  - destruct (fstep _ _) as [w'|] eqn:E; [|done]. eapply reached_step; [exact H|by eapply step_flush].
  - destruct (rstep _ _) as [w'|] eqn:E; [|done]. eapply reached_step; [exact H|by eapply step_reactor].
Qed.

Lemma turns_reached d0 ts w : reached d0 w -> reached d0 (demo_turns ts w).
Proof. revert w. induction ts as [|b ts IH]; intros w H; [done|]. by apply IH, turn_reached. Qed.

Definition demo_busy : Writer :=
  demo_turns [false; false; false; true; true; true]
    (call (Enqueue (bs "two")) (demo_turns [false; false; false] (call (Enqueue (bs "one")) demo_start))).

Lemma demo_busy_reached : reached (bs "old") demo_busy.
Proof.
  apply turns_reached. eapply reached_step; [|apply (step_call _ true); vm_compute; reflexivity].
  apply turns_reached. eapply reached_step; [|apply (step_call _ true); vm_compute; reflexivity]. apply reached_new.
Qed.

Lemma file_is_prefix_witness : exists k, content demo_busy = bs "old" ++ take k (bs "onetwo").
Proof.
  destruct (file_is_prefix (bs "old") demo_busy demo_busy_reached) as [(k & H) _]. exists k. exact H.
Defined.

Definition demo_flushing : Writer := demo_turns [true; true; true; true; false; false] (call Flush demo_busy).

Lemma demo_flushing_reached : reached (bs "old") demo_flushing.
Proof.
  apply turns_reached. eapply reached_step; [exact demo_busy_reached|]. apply (step_call _ true). vm_compute. reflexivity.
Qed.

Lemma flush_durable_witness :
  exists w', rstep (good 2001) demo_flushing = Some w' /\ rpc w' = Returned true /\ content w' = bs "old" ++ bs "onetwo" /\ synced w' = length (content w').
Proof.
  destruct (rstep (good 2001) demo_flushing) as [w'|] eqn:E; [|exfalso; vm_compute in E; discriminate].
  assert (failed w' = false /\ accepted w' = [bs "one"; bs "two"] /\ fsync_ w' = kEverySec) as (Hf & Ha & Hp).
  { vm_compute in E. injection E as <-. by split_and!. }
  destruct (flush_durable (bs "old") demo_flushing w' (good 2001) false demo_flushing_reached) as (H1 & H2).
  - vm_compute. reflexivity.
  - exact E.
  - destruct (H2 Hf) as [H3 H4]. exists w'. rewrite H1, Hf, H3, Ha by reflexivity. split_and!; try reflexivity.
    rewrite H4 by (rewrite Hp; discriminate). by rewrite H3, Ha.
Defined.

Lemma calls_return_witness : exists n r, rpc (run demo_sched n (call Stop demo_busy)) = Returned r.
Proof.
  apply (calls_return (bs "old") (call Stop demo_busy) demo_sched).
  - eapply reached_step; [exact demo_busy_reached|]. apply (step_call _ true). vm_compute. reflexivity.
  - exact demo_fair.
Defined.
