(* ===== verification/Uring.v ===== *)
(** * Uring: the interface to io_uring

    What src/persist/IoUringAofWriter.cc uses of liburing and of the kernel
    behind it, as a class of operations, and their documented behaviour as laws
    over a view of the ring and of the log file.  A wait for a completion ends
    when one is there or a request is in flight (writes to a file finish); with
    neither it may block for ever.  Completions happen during any
    call, since the kernel works on its own.  [sim] and [orderly] are instances. *)

From S2P Require Import Prelude.
From stdpp Require Import relations.
#[local] Open Scope Z_scope.

(** A prepared write.  The bytes are those of the buffer when it is prepared,
    and stay so while the buffer lives. *)
Record Req := mkReq { r_offset : Z; r_data : bytes; r_user : Z }.

(** [io_uring_cqe]: the request's [user_data], and the bytes written or a
    negated errno. *)
Record Cqe := mkCqe { c_user : Z; c_res : Z }.

(** The log file, how much of it is known to be on disk, the entries that are
    filled but not submitted, those that are submitted and not finished, and the
    completion queue. *)
Record View := mkView {
  v_file : bytes;
  v_synced : nat;
  v_prepared : list Req;
  v_inflight : list Req;
  v_done : list Cqe
}.

Definition prepare (r : Req) (v : View) : View :=
  mkView (v_file v) (v_synced v) (v_prepared v ++ [r]) (v_inflight v) (v_done v).
(** The kernel takes the first [n] entries. *)
Definition submit (n : nat) (v : View) : View :=
  mkView (v_file v) (v_synced v) (drop n (v_prepared v)) (v_inflight v ++ take n (v_prepared v)) (v_done v).
(** The [i]-th request in flight finishes with [res].  The file is open with
    [O_APPEND]: the bytes go to its end, whatever the offset of the request. *)
Definition complete (i : nat) (r : Req) (res : Z) (v : View) : View :=
  mkView (v_file v ++ take (Z.to_nat res) (r_data r)) (v_synced v) (v_prepared v) (delete i (v_inflight v))
    (v_done v ++ [mkCqe (r_user r) res]).
Definition seen (v : View) : View :=
  mkView (v_file v) (v_synced v) (v_prepared v) (v_inflight v) (tail (v_done v)).
Definition sync (v : View) : View :=
  mkView (v_file v) (length (v_file v)) (v_prepared v) (v_inflight v) (v_done v).

(** The kernel finishes a request, as [may] allows: at which place in the queue
    of those in flight, and with which result. *)
Inductive kstep (may : nat -> Req -> Z -> Prop) (v : View) : View -> Prop :=
| kstep_complete i r res : v_inflight v !! i = Some r -> may i r res -> kstep may v (complete i r res v).

(** Requests may finish in any order, fail, or write less than asked. *)
Definition anyhow (i : nat) (r : Req) (res : Z) : Prop := True.
(** Requests finish in the order of their submission, and write everything. *)
Definition in_order (i : nat) (r : Req) (res : Z) : Prop := i = 0%nat /\ res = Z.of_nat (length (r_data r)).

(** The calls.  A negative result of [k_open], [k_lseek_end], [k_queue_init] and
    [k_submit] is an error; [k_get_sqe] is whether there is a free entry, which
    [k_prep] then fills; [k_peek] is the completion at the head of the queue;
    [k_wait] is whether the wait for one succeeded, and [None] if it never ends. *)
Class Uring := {
  kernel : Type;
  view : kernel -> View;
  k_mkdir : kernel -> bytes -> bool * kernel;
  k_open : kernel -> bytes -> Z * kernel;
  k_lseek_end : kernel -> Z * kernel;
  k_queue_init : kernel -> Z -> Z * kernel;
  k_now : kernel -> Z * kernel;
  k_fdatasync : kernel -> bool * kernel;
  k_get_sqe : kernel -> bool * kernel;
  k_prep : kernel -> Req -> kernel;
  k_submit : kernel -> Z * kernel;
  k_peek : kernel -> option Cqe * kernel;
  k_seen : kernel -> kernel;
  k_wait : kernel -> option (bool * kernel);
  k_queue_exit : kernel -> kernel;
  k_close : kernel -> kernel
}.

Class UringLaws `(U : !Uring) (may : nat -> Req -> Z -> Prop) := {
  mkdir_law k p : view (k_mkdir k p).2 = view k;
  open_law k p : view (k_open k p).2 = view k;
  lseek_law k : let '(off, k') := k_lseek_end k in view k' = view k /\ (off < 0 \/ off = Z.of_nat (length (v_file (view k))));
  queue_init_law k n : view (k_queue_init k n).2 = view k;
  now_law k : rtc (kstep may) (view k) (view (k_now k).2);
  fdatasync_law k : let '(ok, k') := k_fdatasync k in
    rtc (kstep may) (if ok then sync (view k) else view k) (view k');
  get_sqe_law k : rtc (kstep may) (view k) (view (k_get_sqe k).2);
  prep_law k r : view (k_prep k r) = prepare r (view k);
  submit_law k : let '(n, k') := k_submit k in
    if n <? 0 then rtc (kstep may) (view k) (view k')
    else rtc (kstep may) (submit (Z.to_nat n) (view k)) (view k');
  peek_law k : let '(c, k') := k_peek k in
    rtc (kstep may) (view k) (view k') /\
    match c with Some c => head (v_done (view k')) = Some c | None => v_done (view k') = [] end;
  seen_law k : view (k_seen k) = seen (view k);
  wait_law k :
    match k_wait k with
    | Some (ok, k') => rtc (kstep may) (view k) (view k') /\ (ok = true -> v_done (view k') <> [])
    | None => v_inflight (view k) = [] /\ v_done (view k) = []
    end;
  exit_law k : rtc (kstep may) (view k) (view (k_queue_exit k));
  close_law k : rtc (kstep may) (view k) (view (k_close k))
}.

(** ** An instance for evaluation

    A lazy kernel with a script: requests finish when they are waited for.  The
    head of the plan says which request finishes next (a position, modulo their
    number) and how many bytes it writes at most; with no plan left it is the
    oldest one, in full.  The head of [s_fail] says whether a submission fails. *)

Record Sim := mkSim { s_view : View; s_plan : list (nat * nat); s_fail : list bool; s_now : Z }.

Definition sim_view (s : Sim) (v : View) : Sim := mkSim v (s_plan s) (s_fail s) (s_now s).

Definition sim_wait (s : Sim) : option (bool * Sim) :=
  match v_done (s_view s) with
  | _ :: _ => Some (true, s)
  | [] =>
      let '(i, cap) := match s_plan s with
                       | [] => (0%nat, None)
                       | (i, n) :: _ => ((i mod length (v_inflight (s_view s)))%nat, Some n)
                       end in
      match v_inflight (s_view s) !! i with
      | None => None
      | Some r =>
          let n := match cap with None => length (r_data r) | Some n => Nat.min n (length (r_data r)) end in
          Some (true, mkSim (complete i r (Z.of_nat n) (s_view s)) (tail (s_plan s)) (s_fail s) (s_now s))
      end
  end.

Definition sim_submit (s : Sim) : Z * Sim :=
  match s_fail s with
  | true :: l => (-11, mkSim (s_view s) (s_plan s) l (s_now s))
  | l => let n := length (v_prepared (s_view s)) in
         (Z.of_nat n, mkSim (submit n (s_view s)) (s_plan s) (tail l) (s_now s))
  end.

Definition sim : Uring := {|
  kernel := Sim;
  view := s_view;
  k_mkdir s _ := (true, s);
  k_open s _ := (3, s);
  k_lseek_end s := (Z.of_nat (length (v_file (s_view s))), s);
  k_queue_init s _ := (0, s);
  k_now s := (s_now s, mkSim (s_view s) (s_plan s) (s_fail s) (s_now s + 1));
  k_fdatasync s := (true, sim_view s (sync (s_view s)));
  k_get_sqe s := ((length (v_prepared (s_view s)) <? 32)%nat, s);
  k_prep s r := sim_view s (prepare r (s_view s));
  k_submit := sim_submit;
  k_peek s := (head (v_done (s_view s)), s);
  k_seen s := sim_view s (seen (s_view s));
  k_wait := sim_wait;
  k_queue_exit s := s;
  k_close s := s
|}.

(** A file with content [d], and a script. *)
Definition sim_new (d : bytes) (plan : list (nat * nat)) (fail : list bool) : Sim :=
  mkSim (mkView d (length d) [] [] []) plan fail 0.

(** The same kernel without a script. *)
Definition orderly_of {A} (p : A * Sim) : A * View := (p.1, s_view p.2).

Definition orderly : Uring := {|
  kernel := View;
  view v := v;
  k_mkdir v _ := (true, v);
  k_open v _ := (3, v);
  k_lseek_end v := (Z.of_nat (length (v_file v)), v);
  k_queue_init v _ := (0, v);
  k_now v := (0, v);
  k_fdatasync v := (true, sync v);
  k_get_sqe v := ((length (v_prepared v) <? 32)%nat, v);
  k_prep v r := prepare r v;
  k_submit v := orderly_of (sim_submit (mkSim v [] [] 0));
  k_peek v := (head (v_done v), v);
  k_seen := seen;
  k_wait v := orderly_of <$> sim_wait (mkSim v [] [] 0);
  k_queue_exit v := v;
  k_close v := v
|}.

(** ** Lemmas *)

(** The requests that are under way or reported, by their user data. *)
Definition users (v : View) : list Z := (r_user <$> v_inflight v) ++ (c_user <$> v_done v).

Definition events (v : View) : nat := length (v_prepared v) + length (v_inflight v) + length (v_done v).

Section Kernel.
Context {may : nat -> Req -> Z -> Prop}.

Lemma kstep_events v v' : kstep may v v' -> events v' = events v.
Proof.
  intros [i r res Hi Hm]. unfold events. cbn. rewrite length_delete by done. rewrite length_app. cbn.
  apply lookup_lt_Some in Hi. lia.
Qed.

Lemma ksteps_events v v' : rtc (kstep may) v v' -> events v' = events v.
Proof. induction 1 as [|v1 v2 v3 H _ IH]; [done|]. rewrite IH. by apply kstep_events. Qed.

Lemma ksteps_head v v' c : rtc (kstep may) v v' -> head (v_done v) = Some c -> head (v_done v') = Some c.
Proof. induction 1 as [|v1 v2 v3 [i r res Hi Hm] _ IH]; [done|]. intros H. apply IH. cbn. by destruct (v_done v1). Qed.

Lemma kstep_users v v' : kstep may v v' -> users v' ≡ₚ users v.
Proof.
  intros [i r res Hi Hm]. unfold users. cbn [complete v_inflight v_done]. rewrite fmap_app. cbn.
  rewrite (delete_Permutation (v_inflight v) i r Hi) at 2. cbn. solve_Permutation.
Qed.

Lemma ksteps_users v v' : rtc (kstep may) v v' -> users v' ≡ₚ users v.
Proof. induction 1 as [|v1 v2 v3 H _ IH]; [done|]. rewrite IH. by apply kstep_users. Qed.

Lemma submit_users n v : users (submit n v) ≡ₚ users v ++ (r_user <$> take n (v_prepared v)).
Proof. unfold users. cbn [submit v_inflight v_done]. rewrite fmap_app. solve_Permutation. Qed.

Lemma seen_users v c : head (v_done v) = Some c -> users v ≡ₚ c_user c :: users (seen v).
Proof.
  unfold users. cbn [seen v_inflight v_done]. destruct (v_done v) as [|x l]; [done|]. intros [= ->]. cbn. solve_Permutation.
Qed.

Lemma users_nil v : v_inflight v = [] -> v_done v = [] -> users v = [].
Proof. unfold users. by intros -> ->. Qed.

Lemma submit_events n v : events (submit n v) = events v.
Proof. unfold events. cbn. rewrite length_app, length_drop, length_take. lia. Qed.

Lemma seen_events v c : head (v_done v) = Some c -> events v = S (events (seen v)).
Proof. unfold events. cbn. destruct (v_done v); cbn; [done|lia]. Qed.

Lemma prepare_events r v : events (prepare r v) = S (events v).
Proof. unfold events. cbn. rewrite length_app. cbn. lia. Qed.

End Kernel.

Lemma head_nil {A} (l : list A) : match head l with Some c => head l = Some c | None => l = [] end.
Proof. by destruct l. Qed.

(** The request that the plan names exists, if there is any. *)
Lemma sim_no_request s i cap :
  match s_plan s with
  | [] => (0%nat, None)
  | (i, n) :: _ => ((i mod length (v_inflight (s_view s)))%nat, Some n)
  end = (i, cap) -> v_inflight (s_view s) !! i = None -> v_inflight (s_view s) = [].
Proof.
  intros Hp Hi%lookup_ge_None. destruct (v_inflight (s_view s)) as [|r l]; [done|]. exfalso.
  destruct (s_plan s) as [|[j n] plan]; apply (f_equal fst) in Hp; cbn [fst] in Hp; subst i; [by inversion Hi|].
  by apply (Nat.lt_irrefl (length (r :: l))), (Nat.le_lt_trans _ _ _ Hi), Nat.mod_upper_bound.
Qed.

#[export] Instance sim_laws : UringLaws sim anyhow.
Proof.
  split; cbn; try done; intros s; [by split; [|right]|..].
  - unfold sim_submit. destruct (s_fail s) as [|[] l]; cbn; rewrite ?Nat2Z.id; try done;
      destruct (Z.ltb_spec (Z.of_nat (length (v_prepared (s_view s)))) 0); done || lia.
  - split; [done|]. apply head_nil.
  - unfold sim_wait. destruct (v_done (s_view s)) eqn:Ed; [|by rewrite Ed].
    destruct (match s_plan s with [] => _ | _ => _ end) as [i cap] eqn:Ec.
    destruct (v_inflight (s_view s) !! i) as [r|] eqn:Ei; [|by split; [apply (sim_no_request s i cap)|]].
    split; [apply rtc_once; by constructor|]. intros _. cbn. by rewrite Ed.
Qed.

#[export] Instance orderly_laws : UringLaws orderly in_order.
Proof.
  split; cbn; try done; intros s; [by split; [|right]|..].
  - rewrite Nat2Z.id. destruct (Z.ltb_spec (Z.of_nat (length (v_prepared s))) 0); done || lia.
  - split; [done|]. apply head_nil.
  - unfold sim_wait. cbn. destruct (v_done s) eqn:Ed; [|by split; [|intros _; cbn; rewrite ?Ed]].
    destruct (v_inflight s !! 0%nat) as [r|] eqn:Ei; [|by split; [destruct (v_inflight s)|]]. cbn.
    split; [apply rtc_once; by constructor|]. intros _. by rewrite ?Ed.
Qed.
