(* ===== verification/IoUringAofWriter.v ===== *)
(** * IoUringAofWriter: the log writer on io_uring

    Models src/persist/IoUringAofWriter.cc and
    include/vemory/persist/IoUringAofWriter.h over the interface of Uring.v.  The
    writer runs on the reactor thread: frames gather in [aof_buf_], a flush turns
    the buffer into a write request, and completions are picked up later. *)

From S2P Require Import Prelude.
From S2P Require Import FileSystem.
From S2P Require Import Config.
From S2P Require Import Uring.
From S2P Require WalManager.
From stdpp Require Import relations.
#[local] Open Scope Z_scope.

Definition kSoftFlush : nat := 4096.
Definition kHardCap : Z := 1024 * 1024.
Definition kMaxPending : nat := 64.
Definition kRingEntries : Z := 32.
Definition kWaitCqeRetries : nat := 64.

Record PendingWrite := mkPending {
  buf : bytes;
  bytes_total : nat;
  bytes_written : nat;
  offset : Z;
  user_data : Z
}.

Section Writer.
Context `{U : !Uring}.

(** The members, and a record of the past that the program does not keep: the
    bytes that were ever put into [aof_buf_]. *)
Record Writer := mkWriter {
  path_ : bytes;
  fsync_ : AofFsyncPolicy;
  flush_interval_ms_ : Z;
  fd_ : Z;
  aof_offset_ : Z;
  ring_ : kernel;
  ring_inited_ : bool;
  aof_buf_ : bytes;
  pending_ : list PendingWrite;
  next_user_data_ : Z;
  dirty_ : bool;
  io_failed_ : bool;
  stopped_ : bool;
  last_flush_ : Z;
  last_fsync_ : Z;
  taken : bytes
}.

(** Assignments to members. *)
Definition set_ring w x := mkWriter (path_ w) (fsync_ w) (flush_interval_ms_ w) (fd_ w) (aof_offset_ w) x (ring_inited_ w)
  (aof_buf_ w) (pending_ w) (next_user_data_ w) (dirty_ w) (io_failed_ w) (stopped_ w) (last_flush_ w) (last_fsync_ w) (taken w).
Definition set_pending w x := mkWriter (path_ w) (fsync_ w) (flush_interval_ms_ w) (fd_ w) (aof_offset_ w) (ring_ w) (ring_inited_ w)
  (aof_buf_ w) x (next_user_data_ w) (dirty_ w) (io_failed_ w) (stopped_ w) (last_flush_ w) (last_fsync_ w) (taken w).
Definition set_failed w := mkWriter (path_ w) (fsync_ w) (flush_interval_ms_ w) (fd_ w) (aof_offset_ w) (ring_ w) (ring_inited_ w)
  (aof_buf_ w) (pending_ w) (next_user_data_ w) (dirty_ w) true (stopped_ w) (last_flush_ w) (last_fsync_ w) (taken w).
Definition set_dirty w := mkWriter (path_ w) (fsync_ w) (flush_interval_ms_ w) (fd_ w) (aof_offset_ w) (ring_ w) (ring_inited_ w)
  (aof_buf_ w) (pending_ w) (next_user_data_ w) true (io_failed_ w) (stopped_ w) (last_flush_ w) (last_fsync_ w) (taken w).
Definition set_stopped w := mkWriter (path_ w) (fsync_ w) (flush_interval_ms_ w) (fd_ w) (aof_offset_ w) (ring_ w) (ring_inited_ w)
  (aof_buf_ w) (pending_ w) (next_user_data_ w) (dirty_ w) (io_failed_ w) true (last_flush_ w) (last_fsync_ w) (taken w).
Definition set_synced w now := mkWriter (path_ w) (fsync_ w) (flush_interval_ms_ w) (fd_ w) (aof_offset_ w) (ring_ w) (ring_inited_ w)
  (aof_buf_ w) (pending_ w) (next_user_data_ w) false (io_failed_ w) (stopped_ w) (last_flush_ w) now (taken w).
Definition set_last_flush w now := mkWriter (path_ w) (fsync_ w) (flush_interval_ms_ w) (fd_ w) (aof_offset_ w) (ring_ w) (ring_inited_ w)
  (aof_buf_ w) (pending_ w) (next_user_data_ w) (dirty_ w) (io_failed_ w) (stopped_ w) now (last_fsync_ w) (taken w).
(** The buffer and the place in the file where it will go. *)
Definition set_buf w off b ud p := mkWriter (path_ w) (fsync_ w) (flush_interval_ms_ w) (fd_ w) off (ring_ w) (ring_inited_ w)
  b p ud (dirty_ w) (io_failed_ w) (stopped_ w) (last_flush_ w) (last_fsync_ w) (taken w).
Definition set_fd w fd inited := mkWriter (path_ w) (fsync_ w) (flush_interval_ms_ w) fd (aof_offset_ w) (ring_ w) inited
  (aof_buf_ w) (pending_ w) (next_user_data_ w) (dirty_ w) (io_failed_ w) (stopped_ w) (last_flush_ w) (last_fsync_ w) (taken w).
(** [aof_buf_.append(d)]. *)
Definition append w d := mkWriter (path_ w) (fsync_ w) (flush_interval_ms_ w) (fd_ w) (aof_offset_ w) (ring_ w) (ring_inited_ w)
  (aof_buf_ w ++ d) (pending_ w) (next_user_data_ w) (dirty_ w) (io_failed_ w) (stopped_ w) (last_flush_ w) (last_fsync_ w)
  (taken w ++ d).

(** ** Construction *)

Definition construct (path : bytes) (fsync : AofFsyncPolicy) (flush_interval_ms : Z) (k : kernel) : Writer :=
  let '(now1, k) := k_now k in
  let '(now2, k) := k_now k in
  mkWriter path fsync (if flush_interval_ms <? 1 then 1000 else flush_interval_ms) (-1) 0 k false [] [] 1 false false false
    now1 now2 [].

(** [Init] after the directory. *)
Definition open_log (w : Writer) : bool * Writer :=
  let '(fd, k) := k_open (ring_ w) (path_ w) in
  let w := set_fd (set_ring w k) fd (ring_inited_ w) in
  if fd <? 0 then (false, w)
  else
    let '(off, k) := k_lseek_end (ring_ w) in
    let w := set_buf (set_ring w k) off (aof_buf_ w) (next_user_data_ w) (pending_ w) in
    if off <? 0 then (false, set_fd (set_ring w (k_close (ring_ w))) (-1) (ring_inited_ w))
    else
      let '(r, k) := k_queue_init (ring_ w) kRingEntries in
      let w := set_ring w k in
      if r <? 0 then (false, set_fd (set_ring w (k_close (ring_ w))) (-1) (ring_inited_ w))
      else (true, set_fd w (fd_ w) true).

Definition Init (w : Writer) : bool * Writer :=
  match parent_path (path_ w) with
  | Some parent =>
      let '(ok, k) := k_mkdir (ring_ w) parent in
      let w := set_ring w k in
      if ok then open_log w else (false, w)
  | None => open_log w
  end.

(** ** Completions *)

Definition SyncFile (w : Writer) : bool * Writer :=
  if bool_decide (fsync_ w = kNo) then (true, w)
  else if (fd_ w <? 0) || negb (dirty_ w) then (true, w)
  else
    let '(ok, k) := k_fdatasync (ring_ w) in
    let w := set_ring w k in
    if negb ok then (false, w)
    else
      let '(now, k) := k_now (ring_ w) in
      (true, set_synced (set_ring w k) now).

(** [None] is -1. *)
Fixpoint FindPending (pending : list PendingWrite) (ud : Z) : option nat :=
  match pending with
  | [] => None
  | pw :: l => if user_data pw =? ud then Some 0%nat else S <$> FindPending l ud
  end.

Definition RemovePending (index : nat) (w : Writer) : Writer := set_pending w (delete index (pending_ w)).

Definition cqe_seen (w : Writer) : Writer := set_ring w (k_seen (ring_ w)).

(** The rest of a write that came back short. *)
Definition resubmit (idx : nat) (pw : PendingWrite) (w : Writer) : Writer :=
  let '(ok, k) := k_get_sqe (ring_ w) in
  let '(ok, k) := if ok then (true, k) else k_get_sqe (k_submit k).2 in
  if ok then
    let k := k_prep k (mkReq (offset pw + Z.of_nat (bytes_written pw)) (drop (bytes_written pw) (buf pw)) (user_data pw)) in
    let '(n, k) := k_submit k in
    if n <? 0 then RemovePending idx (set_failed (set_ring w k)) else set_ring w k
  else RemovePending idx (set_failed (set_ring w k)).

(** What [PeekCompletions] does with a completion. *)
Definition on_cqe (cqe : Cqe) (w : Writer) : Writer :=
  match FindPending (pending_ w) (c_user cqe) with
  | None => w
  | Some idx =>
      match pending_ w !! idx with
      | None => w
      | Some pw =>
          if c_res cqe <? 0 then RemovePending idx (set_failed w)
          else if c_res cqe =? 0 then RemovePending idx w
          else
            let wrote := Z.to_nat (c_res cqe) in
            if (wrote <? bytes_total pw - bytes_written pw)%nat then
              let pw := mkPending (buf pw) (bytes_total pw) (bytes_written pw + wrote) (offset pw) (user_data pw) in
              resubmit idx pw (set_pending w (<[idx := pw]> (pending_ w)))
            else RemovePending idx (set_dirty w)
      end
  end.

(** The loop of [PeekCompletions].  Here [None] is that the fuel is out, which does
    not happen ([PeekLoop_returns]); in the operations below it is that a wait for
    a completion blocks for ever. *)
Fixpoint PeekLoop (fuel : nat) (w : Writer) : option Writer :=
  match fuel with
  | O => None
  | S fuel =>
      let '(c, k) := k_peek (ring_ w) in
      let w := set_ring w k in
      match c with
      | None => Some w
      | Some cqe => PeekLoop fuel (cqe_seen (on_cqe cqe w))
      end
  end.

(** The bytes of the pending writes that are not reported as written. *)
Definition remaining (pending : list PendingWrite) : nat :=
  sum_list_with (fun pw => bytes_total pw - bytes_written pw)%nat pending.

(** Every iteration takes a completion away, and a new request replaces it only
    when bytes were written: [PeekLoop_returns] shows that this is enough. *)
Definition peek_fuel (w : Writer) : nat := S (events (view (ring_ w)) + remaining (pending_ w)).

Definition PeekCompletions (w : Writer) : option Writer :=
  if ring_inited_ w then PeekLoop (peek_fuel w) w else Some w.

Definition has_slot (w : Writer) : bool := (length (pending_ w) <? kMaxPending)%nat.

Fixpoint wait_slot (n : nat) (w : Writer) : option (bool * Writer) :=
  match n with
  | O => Some (false, w)
  | S n =>
      w ← PeekCompletions w;
      if has_slot w then Some (true, w)
      else
        '(ok, k) ← k_wait (ring_ w);
        let w := set_ring w k in
        if negb ok then Some (false, w)
        else
          w ← PeekCompletions w;
          if has_slot w then Some (true, w) else wait_slot n w
  end.

Definition WaitForPendingSlot : Writer -> option (bool * Writer) := wait_slot kWaitCqeRetries.

(** [n] more retries. *)
Fixpoint DrainPending (n : nat) (w : Writer) : option (bool * Writer) :=
  if is_empty (pending_ w) then Some (true, w)
  else
    match n with
    | O => Some (false, w)
    | S n =>
        w ← PeekCompletions w;
        if is_empty (pending_ w) then Some (true, w)
        else
          '(ok, k) ← k_wait (ring_ w);
          let w := set_ring w k in
          if negb ok then Some (false, w)
          else w ← PeekCompletions w; DrainPending n w
    end.

(** ** Writing *)

(** A free entry of the ring, for [FlushBuffer]. *)
Definition obtain_sqe (w : Writer) : option (bool * Writer) :=
  let '(ok, k) := k_get_sqe (ring_ w) in
  if ok then Some (true, set_ring w k)
  else
    let '(n, k) := k_submit k in
    if n <? 0 then Some (false, set_ring w k)
    else
      let '(ok, k) := k_get_sqe k in
      let w := set_ring w k in
      if ok then Some (true, w)
      else
        '(ok, w) ← WaitForPendingSlot w;
        if negb ok then Some (false, w)
        else let '(ok, k) := k_get_sqe (ring_ w) in Some (ok, set_ring w k).

(** The buffer becomes a pending write, in the entry that was obtained. *)
Definition submit_buffer (w : Writer) : bool * Writer :=
  let b := aof_buf_ w in
  let pw := mkPending b (length b) 0 (aof_offset_ w) (next_user_data_ w) in
  let w := set_buf w (aof_offset_ w + Z.of_nat (length b)) [] (u64 (next_user_data_ w + 1)) (pending_ w) in
  let k := k_prep (ring_ w) (mkReq (offset pw) b (user_data pw)) in
  let w := set_pending w (pending_ w ++ [pw]) in
  let '(n, k) := k_submit k in
  let w := set_ring w k in
  if n <? 0 then
    (false, set_buf w (aof_offset_ w - Z.of_nat (length b)) b (next_user_data_ w) (removelast (pending_ w)))
  else
    let '(now, k) := k_now (ring_ w) in
    (true, set_last_flush (set_ring w k) now).

Definition FlushBuffer (w : Writer) : option (bool * Writer) :=
  if (fd_ w <? 0) || negb (ring_inited_ w) || is_empty (aof_buf_ w) then Some (is_empty (aof_buf_ w) || negb (io_failed_ w), w)
  else if io_failed_ w then Some (false, w)
  else
    '(ok, w) ← (if has_slot w then Some (true, w) else WaitForPendingSlot w);
    if negb ok then Some (false, w)
    else
      '(ok, w) ← obtain_sqe w;
      if negb ok then Some (false, w) else Some (submit_buffer w).

(** The flush of a buffer that may be empty. *)
Definition flush_if_any (w : Writer) : option (bool * Writer) :=
  if is_empty (aof_buf_ w) then Some (true, w) else FlushBuffer w.

Definition with_room (w : Writer) (frame : bytes) : bool := size_of (aof_buf_ w) + size_of frame <=? kHardCap.

(** A frame above the hard cap goes in pieces; [rest] is what is left of it, and
    the fuel at least its length. *)
Fixpoint enqueue_pieces (fuel : nat) (rest : bytes) (w : Writer) : option (bool * Writer) :=
  match rest, fuel with
  | [], _ => Some (true, w)
  | _, O => None
  | _, S fuel =>
      '(ok, w) ← FlushBuffer (append w (take kSoftFlush rest));
      if negb ok then Some (false, w) else enqueue_pieces fuel (drop kSoftFlush rest) w
  end.

(** Making room for a frame in the buffer. *)
Definition make_room (frame : bytes) (w : Writer) : option (bool * Writer) :=
  if with_room w frame then Some (true, w)
  else
    '(ok, w) ← FlushBuffer w;
    if negb ok then Some (false, w)
    else if with_room w frame then Some (true, w)
    else
      '(ok, w) ← WaitForPendingSlot w;
      if negb ok then Some (false, w)
      else
        '(ok, w) ← FlushBuffer w;
        if negb ok then Some (false, w) else Some (with_room w frame, w).

Definition Enqueue (frame : bytes) (w : Writer) : option (bool * Writer) :=
  if stopped_ w || io_failed_ w then Some (false, w)
  else if is_empty frame then Some (false, w)
  else if kHardCap <? size_of frame then
    '(ok, w) ← flush_if_any w;
    if negb ok then Some (false, w)
    else
      '(ok, w) ← enqueue_pieces (length frame) frame w;
      if negb ok then Some (false, w)
      else if bool_decide (fsync_ w = kAlways) then Some (SyncFile w) else Some (true, w)
  else
    '(ok, w) ← make_room frame w;
    if negb ok then Some (false, w)
    else
      let w := append w frame in
      '(ok, w) ← (if (kSoftFlush <=? length (aof_buf_ w))%nat then FlushBuffer w else Some (true, w));
      if negb ok then Some (false, w)
      else if bool_decide (fsync_ w = kAlways) then
        '(ok, w) ← flush_if_any w;
        if negb ok then Some (false, w) else Some (SyncFile w)
      else Some (true, w).

Definition Flush (w : Writer) : option (bool * Writer) :=
  if io_failed_ w then Some (false, w)
  else
    '(ok, w) ← flush_if_any w;
    if negb ok then Some (false, w)
    else
      '(ok, w) ← DrainPending 200 w;
      if negb ok then Some (false, set_failed w)
      else if bool_decide (fsync_ w = kNo) then Some (negb (io_failed_ w), w)
      else
        let '(ok, w) := SyncFile w in
        if negb ok then Some (false, set_failed w) else Some (negb (io_failed_ w), w).

Definition Stop (w : Writer) : option Writer :=
  if stopped_ w then Some w
  else
    '(_, w) ← Flush (set_stopped w);
    let w := if ring_inited_ w then set_fd (set_ring w (k_queue_exit (ring_ w))) (fd_ w) false else w in
    let w := if fd_ w <? 0 then w else set_fd (set_ring w (k_close (ring_ w))) (-1) (ring_inited_ w) in
    Some (set_pending w []).

Definition failed (w : Writer) : bool := io_failed_ w.

(** The timed sync of [Poll]. *)
Definition poll_sync (w : Writer) : option Writer :=
  '(_, w) ← flush_if_any w;
  '(_, w) ← (if is_empty (pending_ w) then Some (true, w) else DrainPending 50 w);
  if dirty_ w then let '(ok, w) := SyncFile w in Some (if negb ok then set_failed w else w) else Some w.

Definition Poll (w : Writer) : option Writer :=
  if stopped_ w || io_failed_ w || negb (ring_inited_ w) then Some w
  else
    w ← PeekCompletions w;
    let '(now, k) := k_now (ring_ w) in
    let w := set_ring w k in
    '(_, w) ← (if negb (is_empty (aof_buf_ w)) && (flush_interval_ms_ w <=? now - last_flush_ w) then FlushBuffer w
               else Some (true, w));
    if bool_decide (fsync_ w = kEverySec) && dirty_ w && (1000 <=? now - last_fsync_ w) then poll_sync w else Some w.

(** The writer, or null with the kernel as it was left. *)
Definition TryCreate (path : bytes) (fsync : AofFsyncPolicy) (flush_interval_ms : Z) (k : kernel) : option Writer * option kernel :=
  let '(ok, w) := Init (construct path fsync flush_interval_ms k) in
  if ok then (Some w, None) else (None, ring_ <$> Stop w).

(** [have] is [VEMORY_HAVE_LIBURING]. *)
Definition TryMakeIoUringAofWriter (have : bool) (path : bytes) (fsync : AofFsyncPolicy) (flush_interval_ms : Z) (k : kernel)
    : option Writer * option kernel :=
  if have then TryCreate path fsync flush_interval_ms k else (None, Some k).

(** ** Lemmas: completions come to an end *)

Section Returns.
Context {may : nat -> Req -> Z -> Prop} `{!UringLaws U may}.

(** A call that submits nothing new: as many requests are under way, and the
    completion at the head stays there. *)
Record quiet (k k' : kernel) : Prop := {
  q_events : events (view k') = events (view k);
  q_head c : head (v_done (view k)) = Some c -> head (v_done (view k')) = Some c
}.

Lemma ksteps_quiet k k' : rtc (kstep may) (view k) (view k') -> quiet k k'.
Proof. intros H. split; [by eapply ksteps_events|]. intros c. by apply (ksteps_head (may := may)). Qed.

Lemma get_sqe_quiet k : quiet k (k_get_sqe k).2.
Proof. apply ksteps_quiet, get_sqe_law. Qed.

Lemma submit_quiet k : quiet k (k_submit k).2.
Proof.
  pose proof (submit_law k) as H. destruct (k_submit k) as [n k']. destruct (n <? 0); [by apply ksteps_quiet|].
  split; cbn [snd].
  - rewrite (ksteps_events (may := may) _ _ H). apply submit_events.
  - intros c Hc. by apply (ksteps_head (may := may) _ _ c H).
Qed.

#[local] Instance quiet_preorder : PreOrder quiet.
Proof. split; [by split|]. intros x y z [A1 A2] [B1 B2]. split; [congruence|auto]. Qed.

Lemma remaining_cons pw p : remaining (pw :: p) = (bytes_total pw - bytes_written pw + remaining p)%nat.
Proof. reflexivity. Qed.

Lemma remaining_delete idx p : (remaining (delete idx p) <= remaining p)%nat.
Proof.
  revert idx. induction p as [|pw p IH]; intros [|idx]; [done|done|..].
  - rewrite remaining_cons. change (delete 0%nat (pw :: p)) with p. lia.
  - specialize (IH idx). change (delete (S idx) (pw :: p)) with (pw :: delete idx p). rewrite !remaining_cons. lia.
Qed.

Lemma remaining_insert idx p pw pw' : p !! idx = Some pw ->
  (remaining (<[idx := pw']> p) + (bytes_total pw - bytes_written pw) = remaining p + (bytes_total pw' - bytes_written pw'))%nat.
Proof.
  revert idx. induction p as [|x p IH]; intros [|idx] H; [done|done|..].
  - injection H as ->. change (<[0%nat := pw']> (pw :: p)) with (pw' :: p). rewrite !remaining_cons. lia.
  - specialize (IH idx H). change (<[S idx := pw']> (x :: p)) with (x :: <[idx := pw']> p). rewrite !remaining_cons. lia.
Qed.

(** A completion is handled: what is left to write, with the requests under way,
    does not grow, and the completion is still at the head. *)
Record handled (c : Cqe) (w w' : Writer) : Prop := {
  h_left : (events (view (ring_ w')) + remaining (pending_ w') <= events (view (ring_ w)) + remaining (pending_ w))%nat;
  h_head : head (v_done (view (ring_ w'))) = Some c
}.

Lemma remove_handled c idx w w' : head (v_done (view (ring_ w))) = Some c -> ring_ w' = ring_ w -> pending_ w' = delete idx (pending_ w) ->
  handled c w w'.
Proof. intros H E1 E2. split; rewrite E1, ?E2; [|done]. pose proof (remaining_delete idx (pending_ w)). lia. Qed.

(** Handing the rest to the ring costs one request. *)
Lemma resubmit_quiet c idx pw w : head (v_done (view (ring_ w))) = Some c -> let w' := resubmit idx pw w in
  (events (view (ring_ w')) <= S (events (view (ring_ w))))%nat /\ (remaining (pending_ w') <= remaining (pending_ w))%nat /\
  head (v_done (view (ring_ w'))) = Some c.
Proof.
  intros Hh. cbv zeta. unfold resubmit.
  destruct (k_get_sqe (ring_ w)) as [ok k] eqn:E1. pose proof (get_sqe_quiet (ring_ w)) as Q1. rewrite E1 in Q1. cbn in Q1.
  assert (exists ok' k', (if ok then (true, k) else k_get_sqe (k_submit k).2) = (ok', k') /\ quiet (ring_ w) k') as (ok' & k' & E2 & Q2).
  { destruct ok; [by exists true, k|]. destruct (k_get_sqe (k_submit k).2) as [ok' k'] eqn:E2. exists ok', k'. split; [done|].
    pose proof (get_sqe_quiet (k_submit k).2) as Q2. rewrite E2 in Q2. cbn in Q2.
    etransitivity; [exact Q1|]. etransitivity; [apply submit_quiet|exact Q2]. }
  rewrite E2. clear E1 E2 Q1 k ok. pose proof (remaining_delete idx (pending_ w)) as Hd.
  destruct Q2 as [Q2 Q3]. destruct ok'; [|cbn [RemovePending set_pending set_failed set_ring ring_ pending_]; rewrite Q2; split_and!; [lia|lia|by apply Q3]].
  set (k2 := k_prep k' _). pose proof (submit_quiet k2) as [Q4 Q5]. destruct (k_submit k2) as [n k3]. cbn in Q4, Q5.
  assert (events (view k3) = S (events (view (ring_ w)))) as He.
  { rewrite Q4. unfold k2. rewrite prep_law, prepare_events. by rewrite Q2. }
  assert (head (v_done (view k3)) = Some c) as Hc.
  { apply Q5. unfold k2. rewrite prep_law. cbn. by apply Q3. }
  destruct (n <? 0); cbn [RemovePending set_pending set_failed set_ring ring_ pending_]; split_and!; try done; lia.
Qed.

Lemma on_cqe_handled c w : head (v_done (view (ring_ w))) = Some c -> handled c w (on_cqe c w).
Proof.
  intros Hh. unfold on_cqe. destruct (FindPending _ _) as [idx|]; [|by split].
  destruct (pending_ w !! idx) as [pw|] eqn:Ep; [|by split].
  destruct (Z.ltb_spec (c_res c) 0); [by apply (remove_handled c idx)|].
  destruct (Z.eqb_spec (c_res c) 0); [by apply (remove_handled c idx)|]. cbv zeta.
  destruct (Nat.ltb_spec (Z.to_nat (c_res c)) (bytes_total pw - bytes_written pw)) as [Hw|Hw]; [|by apply (remove_handled c idx)].
  set (pw' := mkPending _ _ _ _ _). set (w1 := set_pending w _).
  pose proof (resubmit_quiet c idx pw' w1 Hh) as (H1 & H2 & H3). split; [|done].
  pose proof (remaining_insert idx (pending_ w) pw pw' Ep) as Hi. cbn [bytes_total bytes_written pw'] in Hi.
  cbn [w1 set_pending ring_ pending_] in H1, H2. lia.
Qed.

Lemma PeekLoop_returns fuel w : (events (view (ring_ w)) + remaining (pending_ w) < fuel)%nat -> is_Some (PeekLoop fuel w).
Proof.
  revert w. induction fuel as [|fuel IH]; intros w Hf; [lia|]. cbn [PeekLoop].
  pose proof (peek_law (ring_ w)) as HP. destruct (k_peek (ring_ w)) as [[c|] k]; [|by eexists].
  destruct HP as [[Q1 _]%ksteps_quiet Hh]. apply IH.
  pose proof (on_cqe_handled c (set_ring w k) Hh) as [H1 H2].
  cbn [cqe_seen set_ring ring_ pending_] in H1, H2 |- *. rewrite seen_law. apply seen_events in H2. lia.
Qed.

Lemma PeekCompletions_returns w : is_Some (PeekCompletions w).
Proof. unfold PeekCompletions. destruct (ring_inited_ w); [|by eexists]. apply PeekLoop_returns. unfold peek_fuel. lia. Qed.

(** ** Lemmas: a wait comes to an end *)

(** [io_uring_submit] takes all entries or fails. *)
Definition takes_all : Prop := forall k, (k_submit k).1 < 0 \/ Z.of_nat (length (v_prepared (view k))) <= (k_submit k).1.

Context (Htakes : takes_all).

(** Every pending write has a request of its own that the kernel has taken, and
    whose completion has not been seen. *)
Definition awaited (w : Writer) : Prop := user_data <$> pending_ w ⊆+ users (view (ring_ w)).

(** A call ends, in a result for which [P] holds. *)
Definition ends {A} (P : A -> Prop) (m : option A) : Prop := exists a, m = Some a /\ P a.

Lemma bind_ends {A B} (P : A -> Prop) (Q : B -> Prop) m f : ends P m -> (forall a, P a -> ends Q (f a)) -> ends Q (m ≫= f).
Proof. intros (a & -> & Ha) H. by apply H. Qed.

Lemma Some_ends {A} (P : A -> Prop) a : P a -> ends P (Some a).
Proof. by exists a. Qed.

Lemma ksteps_awaited k w : rtc (kstep may) (view (ring_ w)) (view k) -> awaited w -> awaited (set_ring w k).
Proof. unfold awaited. cbn. intros H%ksteps_users Hw. by rewrite H. Qed.

Lemma get_sqe_awaited w : awaited w -> awaited (set_ring w (k_get_sqe (ring_ w)).2).
Proof. apply ksteps_awaited, get_sqe_law. Qed.

Lemma submit_taken k : users (view k) ⊆+ users (view (k_submit k).2) /\
  (0 <= (k_submit k).1 -> users (view (k_submit k).2) ≡ₚ users (view k) ++ (r_user <$> v_prepared (view k))).
Proof.
  pose proof (submit_law k) as H. pose proof (Htakes k) as Ht. destruct (k_submit k) as [n k']. cbn [fst snd] in *.
  destruct (Z.ltb_spec n 0); apply ksteps_users in H; rewrite H; [by split; [|lia]|].
  rewrite submit_users. split; [by apply submseteq_inserts_r|]. intros _. by rewrite take_ge by lia.
Qed.

Lemma submit_awaited w : awaited w -> awaited (set_ring w (k_submit (ring_ w)).2).
Proof. unfold awaited. cbn. intros H. etransitivity; [exact H|apply submit_taken]. Qed.

(** A request that is prepared and submitted is taken, or the submission fails. *)
Lemma prep_submit_taken k r : let '(n, k') := k_submit (k_prep k r) in
  if n <? 0 then users (view k) ⊆+ users (view k') else r_user r :: users (view k) ⊆+ users (view k').
Proof.
  pose proof (submit_taken (k_prep k r)) as [H1 H2]. rewrite !prep_law in H1, H2. destruct (k_submit _) as [n k'].
  cbn [fst snd prepare v_prepared] in *. change (users (prepare r (view k))) with (users (view k)) in *.
  destruct (Z.ltb_spec n 0); [done|]. rewrite H2 by done. rewrite fmap_app. cbn. rewrite app_assoc, <- Permutation_cons_append.
  by apply submseteq_skip, submseteq_inserts_r.
Qed.

(** A completion that is handled has its own request until it is seen. *)
Definition awaited_but (u : Z) (w : Writer) : Prop := u :: (user_data <$> pending_ w) ⊆+ users (view (ring_ w)).

Lemma remove_awaited idx pw u w : pending_ w !! idx = Some pw -> u = user_data pw -> awaited w -> awaited_but u (RemovePending idx w).
Proof.
  unfold awaited, awaited_but. cbn. intros Hp -> H. by rewrite (delete_Permutation _ _ _ Hp) in H.
Qed.

Lemma resubmit_awaited idx pw w : pending_ w !! idx = Some pw -> awaited w -> awaited_but (user_data pw) (resubmit idx pw w).
Proof.
  intros Hp Hw. unfold resubmit. pose proof (get_sqe_awaited w Hw) as H1. destruct (k_get_sqe (ring_ w)) as [ok k]. cbn [snd] in H1.
  assert (forall ok' k', (if ok then (true, k) else k_get_sqe (k_submit k).2) = (ok', k') -> awaited (set_ring w k')) as H2.
  { intros ok' k'. destruct ok; [by intros [= <- <-]|]. intros E. apply submit_awaited, get_sqe_awaited in H1.
    cbn [set_ring ring_] in H1. by rewrite E in H1. }
  destruct (if ok then _ else _) as [ok' k']. specialize (H2 _ _ eq_refl).
  destruct ok'; [|by apply (remove_awaited idx pw)].
  set (r := mkReq _ _ _). pose proof (prep_submit_taken k' r) as H3. destruct (k_submit _) as [n k3].
  destruct (n <? 0).
  - apply (remove_awaited idx pw); [done|done|]. unfold awaited. cbn. etransitivity; [exact H2|exact H3].
  - unfold awaited_but. cbn. etransitivity; [|exact H3]. by apply submseteq_skip.
Qed.

Lemma on_cqe_awaited c w : head (v_done (view (ring_ w))) = Some c -> awaited w -> awaited_but (c_user c) (on_cqe c w).
Proof.
  intros Hh Hw.
  assert (forall pend, FindPending pend (c_user c) = None -> c_user c ∉ user_data <$> pend) as Hno.
  { induction pend as [|pw l IH]; cbn; [set_solver|]. destruct (Z.eqb_spec (user_data pw) (c_user c)); [done|].
    intros H%fmap_None. rewrite not_elem_of_cons. split; [congruence|by apply IH]. }
  assert (forall pend idx, FindPending pend (c_user c) = Some idx -> exists pw, pend !! idx = Some pw /\ user_data pw = c_user c) as Hyes.
  { induction pend as [|pw l IH]; cbn; [done|]. intros idx. destruct (Z.eqb_spec (user_data pw) (c_user c)).
    - intros [= <-]. by exists pw.
    - intros (i & Hi & ->)%fmap_Some. by apply IH. }
  unfold on_cqe. destruct (FindPending _ _) as [idx|] eqn:Ef.
  2:{ specialize (Hno _ Ef). unfold awaited, awaited_but in *. rewrite (seen_users _ _ Hh) in Hw |- *.
      apply submseteq_cons_r in Hw as [Hw|(k & Hk & _)]; [by apply submseteq_skip|]. exfalso. apply Hno. rewrite Hk. set_solver. }
  destruct (Hyes _ _ Ef) as (pw & Hp & Hu). rewrite Hp.
  destruct (c_res c <? 0); [by apply (remove_awaited idx pw)|]. destruct (c_res c =? 0); [by apply (remove_awaited idx pw)|].
  cbv zeta. destruct (_ <? _)%nat; [|by apply (remove_awaited idx pw)].
  set (pw' := mkPending _ _ _ _ _). change (user_data pw) with (user_data pw') in Hu. rewrite <- Hu. apply resubmit_awaited.
  - cbn. apply list_lookup_insert_eq. by eapply lookup_lt_Some.
  - unfold awaited. cbn. rewrite list_fmap_insert. rewrite list_insert_id; [done|]. by rewrite list_lookup_fmap, Hp.
Qed.

Lemma PeekLoop_awaited fuel w w' : PeekLoop fuel w = Some w' -> awaited w -> awaited w'.
Proof.
  revert w. induction fuel as [|fuel IH]; intros w H Hw; [done|]. cbn [PeekLoop] in H.
  pose proof (peek_law (ring_ w)) as HP. destruct (k_peek (ring_ w)) as [c k]. destruct HP as [HP Hc].
  pose proof (ksteps_awaited k w HP Hw) as Hk. destruct c as [c|]; [|by injection H as <-]. apply (IH _ H).
  pose proof (on_cqe_handled c (set_ring w k) Hc) as [_ Hh]. pose proof (on_cqe_awaited c (set_ring w k) Hc Hk) as Ho.
  unfold awaited, awaited_but in *. cbn [cqe_seen set_ring ring_ pending_]. rewrite seen_law.
  rewrite (seen_users _ _ Hh) in Ho. by apply (submseteq_app_inv_l _ _ [_]) in Ho.
Qed.

Lemma PeekCompletions_ends w : awaited w -> ends awaited (PeekCompletions w).
Proof.
  intros Hw. destruct (PeekCompletions_returns w) as [w' E]. exists w'. split; [done|]. unfold PeekCompletions in E.
  destruct (ring_inited_ w); [by eapply PeekLoop_awaited|by injection E as <-].
Qed.

(** With a write pending the wait ends. *)
Lemma wait_ends w : awaited w -> pending_ w <> [] -> ends (fun p => awaited (set_ring w p.2)) (k_wait (ring_ w)).
Proof.
  intros Hw Hp. pose proof (wait_law (ring_ w)) as H. destruct (k_wait (ring_ w)) as [[ok k]|].
  - exists (ok, k). split; [done|]. destruct H as [H _]. by apply ksteps_awaited.
  - destruct H as [H1 H2]. unfold awaited in Hw. rewrite users_nil in Hw by done. apply submseteq_nil_r, fmap_nil_inv in Hw. done.
Qed.

Definition awaited2 (p : bool * Writer) : Prop := awaited p.2.

(** Goes down the branches of an operation, to the calls that are left. *)
Ltac ends :=
  repeat (cbv beta zeta; lazymatch goal with
  | |- ends _ (Some _) => first [apply (Some_ends awaited2)|apply Some_ends]; try assumption
  | |- ends _ (PeekCompletions _) => apply PeekCompletions_ends; assumption
  | |- ends _ (k_wait _ ≫= _) => eapply bind_ends; [eapply wait_ends; [assumption|]|intros ? ?]
  | |- ends _ (_ ≫= _) => first [apply (bind_ends awaited2)|apply (bind_ends awaited)]; [|intros ? ?]
  | |- ends _ (match ?x with _ => _ end) => let E := fresh "E" in destruct x eqn:E
  end).

Lemma no_slot w : has_slot w = false -> pending_ w <> [].
Proof. unfold has_slot. intros H E. by rewrite E in H. Qed.

Lemma some_pending w : is_empty (pending_ w) = false -> pending_ w <> [].
Proof. intros H E. by rewrite E in H. Qed.

#[local] Hint Resolve no_slot some_pending : core.

Lemma wait_slot_ends n w : awaited w -> ends awaited2 (wait_slot n w).
Proof.
  revert w. induction n as [|n IH]; intros w Hw; cbn [wait_slot]; ends; auto.
Qed.

Lemma DrainPending_ends n w : awaited w -> ends awaited2 (DrainPending n w).
Proof. revert w. induction n as [|n IH]; intros w Hw; cbn [DrainPending]; ends; auto. Qed.

Lemma obtain_sqe_ends w : awaited w -> ends awaited2 (obtain_sqe w).
Proof.
  intros Hw. unfold obtain_sqe. pose proof (get_sqe_awaited w Hw) as H1. destruct (k_get_sqe (ring_ w)) as [[] k]; cbn [snd] in H1; [ends|].
  pose proof (submit_awaited _ H1) as H2. cbn [set_ring ring_] in H2. destruct (k_submit k) as [n k1]. cbn [snd] in H2.
  destruct (n <? 0); [ends|]. pose proof (get_sqe_awaited _ H2) as H3. cbn [set_ring ring_] in H3.
  destruct (k_get_sqe k1) as [[] k2]; cbn [snd] in H3; [ends|]. cbv zeta. eapply bind_ends; [by apply wait_slot_ends|].
  intros [[] w1] H4; cbn [negb]; [|ends]. pose proof (get_sqe_awaited w1 H4) as H5. destruct (k_get_sqe (ring_ w1)). ends.
Qed.

Lemma submit_buffer_awaited w : awaited w -> awaited2 (submit_buffer w).
Proof.
  intros Hw. unfold submit_buffer. cbv zeta. cbn [offset user_data set_buf ring_ pending_ set_pending].
  set (r := mkReq _ _ _). pose proof (prep_submit_taken (ring_ w) r) as H. destruct (k_submit _) as [n k].
  cbn [set_ring ring_]. unfold awaited2, awaited in *. destruct (n <? 0).
  - cbn. rewrite removelast_last. by etransitivity.
  - pose proof (now_law k) as HN%ksteps_users. destruct (k_now k) as [now k']. cbn in *. rewrite HN. etransitivity; [|exact H].
    rewrite fmap_app. cbn. rewrite <- Permutation_cons_append. by apply submseteq_skip.
Qed.

Lemma FlushBuffer_ends w : awaited w -> ends awaited2 (FlushBuffer w).
Proof.
  intros Hw. unfold FlushBuffer, WaitForPendingSlot.
  ends; [by apply wait_slot_ends|by apply obtain_sqe_ends|by apply submit_buffer_awaited].
Qed.

Lemma flush_if_any_ends w : awaited w -> ends awaited2 (flush_if_any w).
Proof. intros Hw. unfold flush_if_any. ends. by apply FlushBuffer_ends. Qed.

Lemma SyncFile_awaited w : awaited w -> awaited2 (SyncFile w).
Proof.
  intros Hw. unfold SyncFile. destruct (bool_decide _); [done|]. destruct (_ || _); [done|].
  pose proof (fdatasync_law (ring_ w)) as HF. destruct (k_fdatasync (ring_ w)) as [ok k].
  assert (awaited (set_ring w k)) as Hk.
  { unfold awaited. cbn. apply ksteps_users in HF. rewrite HF. by destruct ok. }
  destruct ok; cbn [negb]; [|done]. pose proof (now_law (ring_ (set_ring w k))) as HN. destruct (k_now _) as [now k']. cbn [snd] in HN.
  exact (ksteps_awaited k' _ HN Hk).
Qed.

Lemma SyncFile_result w ok w' : SyncFile w = (ok, w') -> awaited w -> awaited w'.
Proof. intros E H%SyncFile_awaited. by rewrite E in H. Qed.

Ltac synced :=
  try match goal with |- awaited (if ?b then _ else _) => destruct b end;
  match goal with E : SyncFile _ = _ |- _ => refine (SyncFile_result _ _ _ E _); assumption end.

Lemma enqueue_pieces_ends fuel rest w : (length rest <= fuel)%nat -> awaited w -> ends awaited2 (enqueue_pieces fuel rest w).
Proof.
  revert rest w. induction fuel as [|fuel IH]; intros [|c rest] w H Hw; cbn [enqueue_pieces]; try (by apply Some_ends); [cbn in H; lia|].
  ends; [by apply FlushBuffer_ends|]. apply IH; [|done]. rewrite length_drop. cbn [length] in *.
  assert (0 < kSoftFlush)%nat by (apply Nat.ltb_lt; reflexivity). lia.
Qed.

Lemma make_room_ends frame w : awaited w -> ends awaited2 (make_room frame w).
Proof.
  intros Hw. unfold make_room, WaitForPendingSlot. ends; first [by apply FlushBuffer_ends|by apply wait_slot_ends].
Qed.

#[local] Hint Resolve DrainPending_ends FlushBuffer_ends flush_if_any_ends make_room_ends SyncFile_awaited : core.

Lemma Flush_ends w : awaited w -> ends awaited2 (Flush w).
Proof.
  intros Hw. unfold Flush. ends; auto; synced.
Qed.

Lemma Enqueue_ends f w : awaited w -> ends awaited2 (Enqueue f w).
Proof. intros Hw. unfold Enqueue. ends; auto. by apply enqueue_pieces_ends. Qed.

Lemma Stop_ends w : awaited w -> ends awaited (Stop w).
Proof. intros Hw. unfold Stop. destruct (stopped_ w); [ends|]. eapply bind_ends; [by apply Flush_ends|]. intros [ok w1] _. ends. apply submseteq_nil_l. Qed.

Lemma Poll_ends w : awaited w -> ends awaited (Poll w).
Proof.
  intros Hw. unfold Poll, poll_sync. destruct (_ || _); [ends|]. eapply bind_ends; [by apply PeekCompletions_ends|]. intros w1 H1.
  pose proof (now_law (ring_ w1)) as HN. destruct (k_now (ring_ w1)) as [now k]. cbn [snd] in HN.
  pose proof (ksteps_awaited k w1 HN H1) as H2. clear HN. cbv zeta. generalize dependent (set_ring w1 k). intros w2 H2.
  ends; auto; synced.
Qed.

End Returns.

(** ** Lemmas: a kernel that finishes the writes in order *)

Section InOrder.
Context `{!UringLaws U in_order}.
Hypothesis submit_ok : forall k, 0 <= (k_submit k).1.

Definition answer (r : Req) : Cqe := mkCqe (r_user r) (size_of (r_data r)).

(** The requests whose completions are still to be read are [rs], and [d] is the
    file without their bytes. *)
Definition queued (d : bytes) (rs : list Req) (v : View) : Prop := exists D,
  v_file v = d ++ mjoin (r_data <$> D) /\ v_done v = answer <$> D /\ D ++ v_inflight v ++ v_prepared v = rs.

Lemma ksteps_queued d rs v v' : rtc (kstep in_order) v v' -> queued d rs v -> queued d rs v' /\ v_synced v' = v_synced v.
Proof.
  induction 1 as [|v1 v2 v3 [i r res Hi [-> ->]] _ IH]; [done|]. intros (D & H1 & H2 & H3).
  destruct IH as [IH ->]; [|done]. exists (D ++ [r]). cbn [complete v_file v_done v_inflight v_prepared].
  destruct (v_inflight v1) as [|r0 l]; [done|]. injection Hi as ->. rewrite !fmap_app, join_app, H1, H2. cbn. split_and!.
  - rewrite Nat2Z.id, take_ge by lia. rewrite app_nil_r. by rewrite app_assoc.
  - done.
  - rewrite <- H3. by rewrite <- !app_assoc.
Qed.

Lemma submit_queued n d rs v : queued d rs v -> queued d rs (submit n v).
Proof.
  intros (D & H1 & H2 & H3). exists D. split_and!; [done..|]. cbn. rewrite <- H3, <- (app_assoc (v_inflight v)).
  by rewrite take_drop.
Qed.

Lemma prepare_queued r d rs v : queued d rs v -> queued d (rs ++ [r]) (prepare r v).
Proof. intros (D & H1 & H2 & H3). exists D. split_and!; [done..|]. cbn. rewrite <- H3. by rewrite <- !app_assoc. Qed.

Lemma sync_queued d rs v : queued d rs v -> queued d rs (sync v) /\ (length d <= v_synced (sync v))%nat.
Proof. intros (D & H1 & H2 & H3). split; [by exists D|]. cbn. rewrite H1, length_app. lia. Qed.

Lemma seen_queued d rs v c : queued d rs v -> head (v_done v) = Some c ->
  exists r rs', rs = r :: rs' /\ c = answer r /\ queued (d ++ r_data r) rs' (seen v).
Proof.
  intros (D & H1 & H2 & H3) H. destruct D as [|r D]; rewrite H2 in H; [done|]. injection H as <-.
  exists r, (D ++ v_inflight v ++ v_prepared v). split_and!; [by rewrite <- H3|done|]. exists D. cbn.
  rewrite H1, H2. cbn. by rewrite <- app_assoc.
Qed.

(** The pending writes are those requests. *)
Definition represents (pw : PendingWrite) (r : Req) : Prop :=
  user_data pw = r_user r /\ bytes_total pw = length (r_data r) /\ bytes_written pw = 0%nat /\ r_data r <> [].

(** The file grows by the bytes taken, in their order: [p] of them are known to
    be in it, then come those of the requests, then the buffer. *)
Definition inv (base : bytes) (w : Writer) : Prop := exists p rs,
  queued (base ++ p) rs (view (ring_ w)) /\
  taken w = p ++ mjoin (r_data <$> rs) ++ aof_buf_ w /\
  (dirty_ w = false -> length (base ++ p) <= v_synced (view (ring_ w)))%nat /\
  (ring_inited_ w = true -> 0 <= fd_ w /\ Forall2 represents (pending_ w) rs) /\
  (stopped_ w = false -> ring_inited_ w = true).

(** What the inner operations leave alone; the buffer too if [b]. *)
Record keeps (b : bool) (w w' : Writer) : Prop := {
  k_inv base : inv base w -> inv base w';
  k_taken : taken w' = taken w;
  k_stopped : stopped_ w' = stopped_ w;
  k_inited : ring_inited_ w' = ring_inited_ w;
  k_fsync : fsync_ w' = fsync_ w;
  k_buf : b = true -> aof_buf_ w' = aof_buf_ w
}.

#[local] Instance keeps_preorder b : PreOrder (keeps b).
Proof.
  split; [by split|]. intros x y z [A1 A2 A3 A4 A5 A6] [B1 B2 B3 B4 B5 B6]. split; try congruence; [auto|].
  intros Hb. by rewrite B6, A6.
Qed.

Lemma keeps_weaken b w w' : keeps true w w' -> keeps b w w'.
Proof. intros []. by split; auto. Qed.

Lemma ring_keeps b w k : (forall d rs, queued d rs (view (ring_ w)) -> queued d rs (view k) /\ v_synced (view k) = v_synced (view (ring_ w))) ->
  keeps b w (set_ring w k).
Proof.
  intros Hk. split; try done. intros base (p & rs & H1 & H2 & H3 & H4). destruct (Hk _ _ H1) as [Hq Hs].
  exists p, rs. split; [done|]. split; [done|]. split; [by cbn; rewrite Hs|]. done.
Qed.

Lemma steps_keeps b w k : rtc (kstep in_order) (view (ring_ w)) (view k) -> keeps b w (set_ring w k).
Proof. intros H. apply ring_keeps. intros d rs. by apply ksteps_queued. Qed.

Lemma get_sqe_keeps b w : keeps b w (set_ring w (k_get_sqe (ring_ w)).2).
Proof. apply steps_keeps, get_sqe_law. Qed.

Lemma now_keeps b w : keeps b w (set_ring w (k_now (ring_ w)).2).
Proof. apply steps_keeps, now_law. Qed.

Lemma wait_keeps b w ok k : k_wait (ring_ w) = Some (ok, k) -> keeps b w (set_ring w k).
Proof. intros E. apply steps_keeps. pose proof (wait_law (ring_ w)) as H. rewrite E in H. by destruct H. Qed.

Lemma submit_ring k d rs : queued d rs (view k) -> queued d rs (view (k_submit k).2) /\ v_synced (view (k_submit k).2) = v_synced (view k).
Proof.
  intros H. pose proof (submit_law k) as HS. pose proof (submit_ok k) as Hn. destruct (k_submit k) as [n k']. cbn in Hn.
  destruct (Z.ltb_spec n 0); [lia|]. apply (submit_queued (Z.to_nat n)) in H. destruct (ksteps_queued _ _ _ _ HS H) as [H1 H2]. done.
Qed.

Lemma SyncFile_keeps w : let '(ok, w') := SyncFile w in keeps true w w' /\
  (ok = true -> fsync_ w <> kNo -> fd_ w' < 0 \/ dirty_ w' = false) /\ pending_ w' = pending_ w /\ io_failed_ w' = io_failed_ w /\
  fd_ w' = fd_ w.
Proof.
  unfold SyncFile. case_bool_decide as Hn; [by split_and!|].
  destruct (Z.ltb_spec (fd_ w) 0); cbn [orb]; [split_and!; try done; auto|].
  destruct (dirty_ w) eqn:Ed; cbn [negb]; [|split_and!; try done; auto].
  pose proof (fdatasync_law (ring_ w)) as HF. destruct (k_fdatasync (ring_ w)) as [[] k]; cbn [negb].
  - destruct (k_now (ring_ (set_ring w k))) as [now k'] eqn:En. cbn [set_ring ring_] in En.
    pose proof (now_law k) as HN. rewrite En in HN. cbn in HN. split_and!; try done; [|by right]. split; try done.
    intros base (p & rs & H1 & H2 & H3 & H4). apply sync_queued in H1 as [H1 Hs].
    destruct (ksteps_queued _ _ _ _ HF H1) as [H1' Hs']. destruct (ksteps_queued _ _ _ _ HN H1') as [H1'' Hs''].
    exists p, rs. split; [done|]. split; [done|]. split; [|done]. intros _. cbn [set_synced set_ring ring_]. by rewrite Hs'', Hs'.
  - split_and!; try done. by apply steps_keeps.
Qed.

Lemma resubmit_frame idx pw w : let w' := resubmit idx pw w in
  taken w' = taken w /\ stopped_ w' = stopped_ w /\ ring_inited_ w' = ring_inited_ w /\ fsync_ w' = fsync_ w /\ aof_buf_ w' = aof_buf_ w.
Proof.
  unfold resubmit. destruct (k_get_sqe (ring_ w)) as [ok k]. destruct (if ok then _ else _) as [ok' k'].
  destruct ok'; [|done]. destruct (k_submit _) as [n k'']. by destruct (n <? 0).
Qed.

Lemma on_cqe_frame c w : let w' := on_cqe c w in
  taken w' = taken w /\ stopped_ w' = stopped_ w /\ ring_inited_ w' = ring_inited_ w /\ fsync_ w' = fsync_ w /\ aof_buf_ w' = aof_buf_ w.
Proof.
  unfold on_cqe. destruct (FindPending _ _) as [idx|]; [|done]. destruct (pending_ w !! idx) as [pw|]; [|done].
  destruct (c_res c <? 0); [done|]. destruct (c_res c =? 0); [done|]. cbv zeta. destruct (_ <? _)%nat; [|done].
  set (pw' := mkPending _ _ _ _ _). apply (resubmit_frame idx pw' (set_pending w (<[idx := pw']> (pending_ w)))).
Qed.

(** A completion is that of the oldest request, and says that all is written. *)
Lemma on_cqe_keeps c w : ring_inited_ w = true -> head (v_done (view (ring_ w))) = Some c ->
  keeps true w (cqe_seen (on_cqe c w)).
Proof.
  intros Hi Hc.
  assert (forall base, inv base w -> exists r rs pw pend p, pending_ w = pw :: pend /\ c = answer r /\ represents pw r /\
    Forall2 represents pend rs /\ queued (base ++ p ++ r_data r) rs (seen (view (ring_ w))) /\
    taken w = (p ++ r_data r) ++ mjoin (r_data <$> rs) ++ aof_buf_ w /\ 0 <= fd_ w) as Hinv.
  { intros base (p & rs & H1 & H2 & H3 & H4 & H5). destruct (H4 Hi) as [Hfd Hr].
    destruct (seen_queued _ _ _ _ H1 Hc) as (r & rs' & -> & -> & Hq). apply Forall2_cons_inv_r in Hr as (pw & pend & Hpw & Hpend & Hp).
    exists r, rs', pw, pend, p. split_and!; try done; [by rewrite app_assoc|]. rewrite H2. cbn. by rewrite <- !app_assoc. }
  assert (forall base, inv base w -> on_cqe c w = RemovePending 0 (set_dirty w)) as Hon.
  { intros base (r & rs & pw & pend & p & Hp & -> & (R1 & R2 & R3 & R4) & _)%Hinv. unfold on_cqe. rewrite Hp.
    cbn [FindPending answer c_user c_res]. rewrite R1, Z.eqb_refl. cbn [lookup list_lookup]. unfold size_of.
    assert (0 < length (r_data r))%nat by (destruct (r_data r); [done|cbn; lia]).
    destruct (Z.ltb_spec (Z.of_nat (length (r_data r))) 0); [lia|]. destruct (Z.eqb_spec (Z.of_nat (length (r_data r))) 0); [lia|].
    cbv zeta. rewrite R2, R3, Nat.sub_0_r, Nat2Z.id, Nat.ltb_irrefl. done. }
  assert (forall base, inv base w -> inv base (cqe_seen (on_cqe c w))) as Hpres.
  { intros base H. rewrite (Hon base H). destruct (Hinv base H) as (r & rs & pw & pend & p & Hp & _ & _ & Hpend & Hq & Ht & Hfd).
    destruct H as (_ & _ & _ & _ & _ & _ & H5). exists (p ++ r_data r), rs.
    unfold RemovePending, cqe_seen. cbn [set_ring set_pending set_dirty ring_ taken aof_buf_ dirty_ ring_inited_ fd_ pending_ stopped_].
    rewrite seen_law, Hp. split_and!; try done. }
  destruct (on_cqe_frame c w) as (E1 & E2 & E3 & E4 & E5). by split.
Qed.

Lemma PeekLoop_keeps fuel w w' : ring_inited_ w = true -> PeekLoop fuel w = Some w' -> keeps true w w'.
Proof.
  revert w. induction fuel as [|fuel IH]; intros w Hi H; [done|]. cbn [PeekLoop] in H.
  pose proof (peek_law (ring_ w)) as HP. destruct (k_peek (ring_ w)) as [c k]. destruct HP as [HP Hc].
  assert (keeps true w (set_ring w k)) as Hk by by apply steps_keeps.
  destruct c as [c|]; [|by simplify_eq]. etransitivity; [exact Hk|].
  pose proof (on_cqe_keeps c (set_ring w k) Hi Hc) as Ho. etransitivity; [exact Ho|]. apply IH; [|done].
  destruct Ho as [_ _ _ Ho _ _]. by rewrite Ho.
Qed.

Lemma PeekCompletions_keeps w w' : PeekCompletions w = Some w' -> keeps true w w'.
Proof. unfold PeekCompletions. destruct (ring_inited_ w) eqn:Hi; [|by intros [= ->]]. by apply PeekLoop_keeps. Qed.

Lemma wait_slot_keeps n w ok w' : wait_slot n w = Some (ok, w') -> keeps true w w'.
Proof.
  revert w. induction n as [|n IH]; intros w H; cbn [wait_slot] in H; [by simplify_eq|].
  apply bind_Some in H as (w1 & H1%PeekCompletions_keeps & H). etransitivity; [exact H1|].
  destruct (has_slot w1); [by simplify_eq|]. apply bind_Some in H as ([ok1 k] & Hw%(wait_keeps true) & H).
  destruct ok1; cbn [negb] in H; [|by simplify_eq]. etransitivity; [exact Hw|].
  apply bind_Some in H as (w2 & H2%PeekCompletions_keeps & H). etransitivity; [exact H2|].
  destruct (has_slot w2); [by simplify_eq|]. by apply IH.
Qed.

Lemma DrainPending_keeps n w ok w' : DrainPending n w = Some (ok, w') -> keeps true w w' /\ (ok = true -> pending_ w' = []).
Proof.
  assert (forall v : Writer, is_empty (pending_ v) = true -> pending_ v = []) as He by (intros v; by destruct (pending_ v)).
  revert w. induction n as [|n IH]; intros w H; cbn [DrainPending] in H;
    (destruct (is_empty (pending_ w)) eqn:E; [simplify_eq; split; [done|auto]|]); [by simplify_eq|].
  apply bind_Some in H as (w1 & H1%PeekCompletions_keeps & H).
  destruct (is_empty (pending_ w1)) eqn:E1; [simplify_eq; split; [done|auto]|].
  apply bind_Some in H as ([ok1 k] & Hw%(wait_keeps true) & H).
  destruct ok1; cbn [negb] in H; [|simplify_eq; split; [by transitivity w1|done]].
  apply bind_Some in H as (w2 & H2%PeekCompletions_keeps & H). apply IH in H as [H Hp]. split; [|done].
  etransitivity; [exact H1|]. etransitivity; [exact Hw|]. by etransitivity.
Qed.

Lemma obtain_sqe_keeps w ok w' : obtain_sqe w = Some (ok, w') -> keeps true w w'.
Proof.
  unfold obtain_sqe. pose proof (get_sqe_keeps true w) as H1. destruct (k_get_sqe (ring_ w)) as [[] k]; cbn [snd] in H1.
  { by intros [= <- <-]. }
  pose proof (ring_keeps true (set_ring w k) (k_submit k).2 (submit_ring k)) as H2.
  destruct (k_submit k) as [n k1]. cbn [snd] in H2. destruct (n <? 0).
  { intros [= <- <-]. by etransitivity. }
  pose proof (get_sqe_keeps true (set_ring w k1)) as H3. cbn [set_ring ring_] in H3. destruct (k_get_sqe k1) as [ok1 k2]. cbn [snd] in H3.
  assert (keeps true w (set_ring w k2)) as H4 by (etransitivity; [exact H1|]; etransitivity; [exact H2|exact H3]).
  destruct ok1; [by intros [= <- <-]|]. intros ([ok2 w2] & H5%wait_slot_keeps & H)%bind_Some.
  etransitivity; [exact H4|]. etransitivity; [exact H5|]. destruct ok2; cbn [negb] in H; [|by simplify_eq].
  pose proof (get_sqe_keeps true w2) as H6. destruct (k_get_sqe (ring_ w2)) as [ok3 k3]. by simplify_eq.
Qed.

Lemma submit_buffer_keeps w : aof_buf_ w <> [] -> ring_inited_ w = true -> let '(ok, w') := submit_buffer w in
  keeps false w w' /\ aof_buf_ w' = [].
Proof.
  intros Hb Hi. unfold submit_buffer. cbv zeta. cbn [offset user_data set_buf ring_ pending_ set_pending].
  set (r := mkReq _ _ _). pose proof (submit_ok (k_prep (ring_ w) r)) as Hn. pose proof (submit_ring (k_prep (ring_ w) r)) as Hs.
  destruct (k_submit _) as [n k]. cbn [fst snd] in Hn, Hs. destruct (Z.ltb_spec n 0); [lia|]. cbn [set_ring ring_].
  pose proof (now_law k) as HN. destruct (k_now k) as [now k']. cbn [snd] in HN.
  split; [|done]. split; try done. intros base (p & rs & H1 & H2 & H3 & H4 & H5).
  apply (prepare_queued r) in H1. rewrite <- (prep_law (ring_ w) r) in H1. apply Hs in H1 as [H1 H1'].
  destruct (ksteps_queued _ _ _ _ HN H1) as [Hq Hy]. rewrite prep_law in H1'. cbn [prepare v_synced] in H1'.
  exists p, (rs ++ [r]). cbn [set_last_flush set_ring set_pending set_buf ring_ taken aof_buf_ dirty_ ring_inited_ fd_ pending_ stopped_].
  rewrite Hy, H1'. destruct (H4 Hi) as [Hfd Hr]. split_and!; try done.
  - rewrite H2, fmap_app, join_app. cbn. by rewrite !app_nil_r.
  - intros _. split; [done|]. apply Forall2_app; [done|]. by repeat constructor.
Qed.

Lemma FlushBuffer_keeps w ok w' : FlushBuffer w = Some (ok, w') ->
  keeps false w w' /\ (ok = true -> ring_inited_ w = true -> 0 <= fd_ w -> aof_buf_ w' = []).
Proof.
  unfold FlushBuffer. destruct ((fd_ w <? 0) || negb (ring_inited_ w) || is_empty (aof_buf_ w)) eqn:E.
  { intros [= <- <-]. split; [done|]. intros _ Hi Hfd. rewrite Hi in E. destruct (Z.ltb_spec (fd_ w) 0); [lia|].
    by destruct (aof_buf_ w). }
  apply orb_false_iff in E as [[_ Hi%negb_false_iff]%orb_false_iff Hb]. destruct (io_failed_ w); [by intros [= <- <-]|].
  intros ([ok1 w1] & H1 & H)%bind_Some.
  assert (keeps true w w1) as K1 by (destruct (has_slot w); [by simplify_eq|by eapply wait_slot_keeps]).
  destruct ok1; cbn [negb] in H; [|simplify_eq; split; [by apply keeps_weaken|done]].
  apply bind_Some in H as ([ok2 w2] & K2%obtain_sqe_keeps & H).
  assert (keeps true w w2) as [A1 A2 A3 A4 A5 A6] by (by etransitivity).
  destruct ok2; cbn [negb] in H; [|simplify_eq; split; [by split|done]].
  pose proof (submit_buffer_keeps w2) as HS. rewrite A4, (A6 eq_refl) in HS.
  destruct (submit_buffer w2) as [ok3 w3]. destruct HS as [K3 Hbuf]; [by destruct (aof_buf_ w)|done|]. simplify_eq.
  split; [|done]. transitivity w2; [by split|done].
Qed.

Lemma flush_if_any_keeps w ok w' : flush_if_any w = Some (ok, w') ->
  keeps false w w' /\ (ok = true -> ring_inited_ w = true -> 0 <= fd_ w -> aof_buf_ w' = []).
Proof.
  unfold flush_if_any. destruct (is_empty (aof_buf_ w)) eqn:E; [|apply FlushBuffer_keeps].
  intros [= <- <-]. split; [done|]. by destruct (aof_buf_ w).
Qed.

(** Bytes are put into the buffer. *)
Lemma append_inv base w d : inv base w -> inv base (append w d).
Proof.
  intros (p & rs & H1 & H2 & H3 & H4 & H5). exists p, rs. split; [done|]. split; [|done]. cbn. by rewrite H2, <- !app_assoc.
Qed.

(** What the public operations do to the bytes taken. *)
Record adds (d : bytes) (w w' : Writer) : Prop := {
  ad_inv base : inv base w -> inv base w';
  ad_taken : taken w' = taken w ++ d;
  ad_stopped : stopped_ w' = stopped_ w;
  ad_inited : ring_inited_ w' = ring_inited_ w;
  ad_fsync : fsync_ w' = fsync_ w
}.

Lemma keeps_adds b w w' : keeps b w w' -> adds [] w w'.
Proof. intros []. split; try done. by rewrite app_nil_r. Qed.

Lemma append_adds w d : adds d w (append w d).
Proof. split; try done. intros base. apply append_inv. Qed.

Lemma adds_trans d e w1 w2 w3 : adds d w1 w2 -> adds e w2 w3 -> adds (d ++ e) w1 w3.
Proof. intros [A1 A2 A3 A4 A5] [B1 B2 B3 B4 B5]. split; try congruence; [auto|]. by rewrite B2, A2, app_assoc. Qed.

Lemma adds_keeps b d w1 w2 w3 : adds d w1 w2 -> keeps b w2 w3 -> adds d w1 w3.
Proof. intros A K%keeps_adds. rewrite <- (app_nil_r d). by eapply adds_trans. Qed.

Lemma keeps_adds_trans b d w1 w2 w3 : keeps b w1 w2 -> adds d w2 w3 -> adds d w1 w3.
Proof. intros K%keeps_adds A. change d with ([] ++ d). by eapply adds_trans. Qed.

Lemma sync_last w : let '(ok, w') := SyncFile w in keeps true w w'.
Proof. pose proof (SyncFile_keeps w) as H. destruct (SyncFile w). by destruct H. Qed.

Lemma enqueue_pieces_adds fuel rest w ok w' : enqueue_pieces fuel rest w = Some (ok, w') ->
  exists d, adds d w w' /\ d `prefix_of` rest /\ (ok = true -> d = rest).
Proof.
  revert rest w. induction fuel as [|fuel IH]; intros [|c rest] w H; cbn [enqueue_pieces] in H; try done.
  1,2: simplify_eq; exists []; split; [by apply (keeps_adds true)|done].
  set (piece := take kSoftFlush (c :: rest)) in *. set (more := drop kSoftFlush (c :: rest)) in *.
  assert (c :: rest = piece ++ more) as -> by (symmetry; apply take_drop). clearbody piece more.
  apply bind_Some in H as ([ok1 w1] & [K _]%FlushBuffer_keeps & H).
  pose proof (adds_keeps _ _ _ _ _ (append_adds w piece) K) as A1.
  destruct ok1; cbn [negb] in H; [|simplify_eq; exists piece; split; [done|]; split; [by apply prefix_app_r|done]].
  apply IH in H as (d & A2 & Hd & Hok). exists (piece ++ d). split; [by eapply adds_trans|].
  split; [by apply prefix_app|]. intros Ht. by rewrite Hok.
Qed.

Lemma make_room_keeps frame w ok w' : make_room frame w = Some (ok, w') -> keeps false w w'.
Proof.
  unfold make_room. destruct (with_room w frame); [by intros [= <- <-]|].
  intros ([ok1 w1] & [K1 _]%FlushBuffer_keeps & H)%bind_Some. etransitivity; [exact K1|].
  destruct ok1; cbn [negb] in H; [|by simplify_eq]. destruct (with_room w1 frame); [by simplify_eq|].
  apply bind_Some in H as ([ok2 w2] & K2%wait_slot_keeps & H). etransitivity; [by apply keeps_weaken|].
  destruct ok2; cbn [negb] in H; [|by simplify_eq].
  apply bind_Some in H as ([ok3 w3] & [K3 _]%FlushBuffer_keeps & H). etransitivity; [exact K3|].
  by destruct ok3; cbn [negb] in H; simplify_eq.
Qed.

Lemma Enqueue_adds f w ok w' : Enqueue f w = Some (ok, w') ->
  exists d, adds d w w' /\ d `prefix_of` f /\ (ok = true -> d = f).
Proof.
  assert (forall b v, keeps b w v -> exists d, adds d w v /\ d `prefix_of` f /\ (false = true -> d = f)) as Hnone.
  { intros b v K%keeps_adds. exists []. split; [done|]. split; [apply prefix_nil|done]. }
  assert (forall b v, adds f w v -> exists d, adds d w v /\ d `prefix_of` f /\ (b = true -> d = f)) as Hall by (intros b v A; by exists f).
  unfold Enqueue. destruct (stopped_ w || io_failed_ w); [by intros [= <- <-]; apply (Hnone true)|].
  destruct (is_empty f); [by intros [= <- <-]; apply (Hnone true)|]. destruct (_ <? _).
  - intros ([ok1 w1] & [K1 _]%flush_if_any_keeps & H)%bind_Some.
    destruct ok1; cbn [negb] in H; [|simplify_eq; by eapply Hnone].
    apply bind_Some in H as ([ok2 w2] & (d & A & Hd & Hok)%enqueue_pieces_adds & H).
    pose proof (keeps_adds_trans _ _ _ _ _ K1 A) as A2.
    destruct ok2; cbn [negb] in H; [|simplify_eq; by exists d]. rewrite (Hok eq_refl) in A2.
    destruct (bool_decide _); [|simplify_eq; by apply Hall]. pose proof (sync_last w2) as K3. simplify_eq.
    destruct (SyncFile w2) as [ok3 w3]. simplify_eq. apply Hall. by eapply adds_keeps.
  - intros ([ok1 w1] & K1%make_room_keeps & H)%bind_Some. destruct ok1; cbn [negb] in H; [|simplify_eq; by eapply Hnone].
    pose proof (keeps_adds_trans _ _ _ _ _ K1 (append_adds w1 f)) as A1. cbv zeta in H. set (w1' := append w1 f) in *. clearbody w1'.
    apply bind_Some in H as ([ok2 w2] & H2 & H).
    assert (keeps false w1' w2) as K2 by (destruct (_ <=? _)%nat; [by eapply FlushBuffer_keeps|by simplify_eq]).
    pose proof (adds_keeps _ _ _ _ _ A1 K2) as A2. destruct ok2; cbn [negb] in H; [|simplify_eq; by apply Hall].
    destruct (bool_decide _); [|simplify_eq; by apply Hall].
    apply bind_Some in H as ([ok3 w3] & [K3 _]%flush_if_any_keeps & H). pose proof (adds_keeps _ _ _ _ _ A2 K3) as A3.
    destruct ok3; cbn [negb] in H; [|simplify_eq; by apply Hall]. pose proof (sync_last w3) as K4.
    destruct (SyncFile w3) as [ok4 w4]. simplify_eq. apply Hall. by eapply adds_keeps.
Qed.

Lemma set_failed_keeps b w : keeps b w (set_failed w).
Proof. by split. Qed.

(** The state after a flush that reports success. *)
Record flushed (w w' : Writer) : Prop := {
  fl_buf : ring_inited_ w = true -> 0 <= fd_ w -> aof_buf_ w' = [];
  fl_pending : pending_ w' = [];
  fl_dirty : fsync_ w' <> kNo -> fd_ w' < 0 \/ dirty_ w' = false
}.

Lemma Flush_keeps w ok w' : Flush w = Some (ok, w') -> keeps false w w' /\ (ok = true -> flushed w w').
Proof.
  unfold Flush. destruct (io_failed_ w); [by intros [= <- <-]|].
  intros ([ok1 w1] & [K1 Hb]%flush_if_any_keeps & H)%bind_Some. destruct ok1; cbn [negb] in H; [|by simplify_eq].
  apply bind_Some in H as ([ok2 w2] & [K2 Hp]%DrainPending_keeps & H).
  pose proof (transitivity K1 (keeps_weaken false _ _ K2)) as K12.
  destruct ok2; cbn [negb] in H; [|simplify_eq; split; [|done]; by transitivity w2].
  specialize (Hb eq_refl). specialize (Hp eq_refl). destruct K2 as [_ _ _ _ _ Hb2]. specialize (Hb2 eq_refl).
  case_bool_decide as Hn.
  { simplify_eq. split; [done|]. intros _. split; [intros; rewrite Hb2; auto|done|done]. }
  pose proof (SyncFile_keeps w2) as HS. destruct (SyncFile w2) as [ok3 w3]. destruct HS as (K3 & Hd & Hp3 & _ & _).
  pose proof (transitivity K12 (keeps_weaken false _ _ K3)) as K13.
  destruct ok3; cbn [negb] in H; simplify_eq; (split; [|done || intros _]); [done| |by transitivity w3].
  destruct K3 as [_ _ _ _ Hf Hb3]. split; [|by rewrite Hp3|].
  - intros. rewrite Hb3, Hb2; auto.
  - intros Hne. apply Hd; [done|]. by rewrite <- Hf.
Qed.

Lemma Poll_keeps w w' : Poll w = Some w' -> keeps false w w'.
Proof.
  unfold Poll. destruct (_ || _); [by intros [= <-]|]. intros (w1 & K1%PeekCompletions_keeps & H)%bind_Some.
  etransitivity; [by apply keeps_weaken|]. pose proof (now_keeps false w1) as K2. destruct (k_now (ring_ w1)) as [now k]. cbn [snd] in K2.
  cbv zeta in H. etransitivity; [exact K2|]. apply bind_Some in H as ([ok w2] & H2 & H).
  assert (keeps false (set_ring w1 k) w2) as K3 by (destruct (_ && _); [by eapply FlushBuffer_keeps|by simplify_eq]).
  clear H2. etransitivity; [exact K3|]. destruct (_ && _); [|by simplify_eq]. unfold poll_sync in H.
  apply bind_Some in H as ([ok3 w3] & [K4 _]%flush_if_any_keeps & H). etransitivity; [exact K4|].
  apply bind_Some in H as ([ok4 w4] & H5 & H).
  assert (keeps true w3 w4) as K5 by (destruct (is_empty _); [by simplify_eq|by eapply DrainPending_keeps]).
  etransitivity; [by apply keeps_weaken|]. destruct (dirty_ w4); [|by simplify_eq].
  pose proof (sync_last w4) as K6. destruct (SyncFile w4) as [ok5 w5].
  destruct ok5; cbn [negb] in H; simplify_eq; (etransitivity; [by apply keeps_weaken|]); done.
Qed.

Lemma Stop_inv base w w' : Stop w = Some w' -> inv base w -> inv base w' /\ taken w' = taken w.
Proof.
  unfold Stop. destruct (stopped_ w); [by intros [= <-]|].
  intros ([ok w1] & [[K1 K2 K3 _ _ _] _]%Flush_keeps & H)%bind_Some Hi.
  assert (inv base (set_stopped w)) as (p & rs & H1 & H2 & H3 & _)%K1.
  { destruct Hi as (p & rs & H1 & H2 & H3 & H4 & _). by exists p, rs. }
  cbv zeta in H. cbn [taken stopped_ set_stopped] in K2, K3.
  set (w2 := if ring_inited_ w1 then _ else w1) in H. set (w3 := if fd_ w2 <? 0 then _ else _) in H. injection H as <-.
  assert (ring_inited_ w2 = false /\ taken w2 = taken w1 /\ aof_buf_ w2 = aof_buf_ w1 /\ dirty_ w2 = dirty_ w1 /\ stopped_ w2 = stopped_ w1 /\
    queued (base ++ p) rs (view (ring_ w2)) /\ v_synced (view (ring_ w2)) = v_synced (view (ring_ w1))) as (A1 & A2 & A3 & A4 & A5 & A6 & A7).
  { unfold w2. destruct (ring_inited_ w1) eqn:E; [|done]. do 5 (split; [done|]). by apply (ksteps_queued _ _ _ _ (exit_law (ring_ w1))). }
  assert (ring_inited_ w3 = false /\ taken w3 = taken w1 /\ aof_buf_ w3 = aof_buf_ w1 /\ dirty_ w3 = dirty_ w1 /\ stopped_ w3 = stopped_ w1 /\
    queued (base ++ p) rs (view (ring_ w3)) /\ v_synced (view (ring_ w3)) = v_synced (view (ring_ w1))) as (B1 & B2 & B3 & B4 & B5 & B6 & B7).
  { unfold w3. rewrite <- A7, <- A2, <- A3, <- A4, <- A5. destruct (fd_ w2 <? 0); [done|]. do 5 (split; [done|]).
    by apply (ksteps_queued _ _ _ _ (close_law (ring_ w2))). }
  split; [|cbn; by rewrite B2, K2]. exists p, rs. cbn [set_pending ring_ taken aof_buf_ dirty_ ring_inited_ stopped_].
  rewrite B1, B2, B3, B4, B5, B7, K3. by split_and!.
Qed.

(** ** Runs *)

Inductive Call := CallEnqueue (frame : bytes) | CallFlush | CallPoll | CallStop.

Definition perform (c : Call) (w : Writer) : option Writer :=
  match c with
  | CallEnqueue f => snd <$> Enqueue f w
  | CallFlush => snd <$> Flush w
  | CallPoll => Poll w
  | CallStop => Stop w
  end.

(** The writers that are reached from one that was created on a file with
    content [base], whatever is called. *)
Inductive reached (base : bytes) : Writer -> Prop :=
| reached_new path fsync ms k w : view k = mkView base (length base) [] [] [] -> TryCreate path fsync ms k = (Some w, None) ->
    reached base w
| reached_call c w w' : reached base w -> perform c w = Some w' -> reached base w'.

Lemma open_log_inv base w w' n : view (ring_ w) = mkView base n [] [] [] -> (length base <= n)%nat -> pending_ w = [] -> aof_buf_ w = [] -> taken w = [] ->
  open_log w = (true, w') -> inv base w'.
Proof.
  intros Hv Hn Hp Hb Ht. unfold open_log. pose proof (open_law (ring_ w) (path_ w)) as H1. destruct (k_open _ _) as [fd k].
  cbn [set_fd set_ring ring_ snd] in *. destruct (Z.ltb_spec fd 0); [done|]. pose proof (lseek_law k) as H2.
  destruct (k_lseek_end k) as [off k1]. destruct H2 as [H2 _]. destruct (off <? 0); [done|]. cbn [set_buf ring_].
  pose proof (queue_init_law k1 kRingEntries) as H3. destruct (k_queue_init _ _) as [r k2]. cbn [snd] in H3.
  destruct (r <? 0); [done|]. intros [= <-]. exists [], []. cbn. rewrite H3, H2, H1, Hv, Hp, Hb, Ht. cbn. rewrite !app_nil_r.
  split_and!; [exists []; cbn; by rewrite !app_nil_r|done|done|intros _; split; [done|constructor]|done].
Qed.

Lemma TryCreate_inv base path fsync ms k w : view k = mkView base (length base) [] [] [] ->
  TryCreate path fsync ms k = (Some w, None) -> inv base w.
Proof.
  intros Hv. unfold TryCreate. destruct (Init _) as [ok w'] eqn:E. destruct ok; [|done]. intros [= ->]. revert E.
  assert (forall k', rtc (kstep in_order) (view k) (view k') -> view k' = view k) as Hsame.
  { intros k' H. inversion H as [|v1 v2 v3 [i r res Hi Hm] _]; subst; [done|]. by rewrite Hv in Hi. }
  unfold Init, construct. pose proof (Hsame _ (now_law k)) as H1. destruct (k_now k) as [t1 k1]. cbn [snd] in H1.
  assert (view (k_now k1).2 = view k) as H2.
  { apply Hsame. rewrite <- H1. apply now_law. }
  destruct (k_now k1) as [t2 k2]. cbn [snd path_] in *. rewrite Hv in H2.
  destruct (parent_path path) as [parent|]; [|by apply open_log_inv with (n := length base)].
  cbn [ring_]. pose proof (mkdir_law k2 parent) as H3. destruct (k_mkdir k2 parent) as [ok k3]. cbn [snd] in H3.
  destruct ok; [|done]. apply open_log_inv with (n := length base); try done. cbn. by rewrite H3.
Qed.

Lemma reached_inv base w : reached base w -> inv base w.
Proof.
  induction 1 as [path fsync ms k w Hv Hc|c w w' _ IH Hc]; [by eapply TryCreate_inv|].
  destruct c as [f| | |]; cbn [perform] in Hc; [apply fmap_Some in Hc as ([ok w1] & H & ->)..| |].
  - apply Enqueue_adds in H as (d & [A _ _ _ _] & _). by apply A.
  - apply Flush_keeps in H as [[K _ _ _ _ _] _]. by apply K.
  - apply Poll_keeps in Hc as [K _ _ _ _ _]. by apply K.
  - by eapply Stop_inv.
Qed.

Lemma inv_file base w : inv base w -> exists k, v_file (view (ring_ w)) = base ++ take k (taken w).
Proof.
  intros (p & rs & (D & H1 & _ & H3) & H2 & _). exists (length (p ++ mjoin (r_data <$> D))).
  rewrite H2, <- H3, fmap_app, join_app, H1, <- !app_assoc, (app_assoc p). by rewrite take_app_length.
Qed.

Lemma inv_flushed base w w' : inv base w -> keeps false w w' -> flushed w w' -> stopped_ w = false ->
  v_file (view (ring_ w')) = base ++ taken w /\ (fsync_ w <> kNo -> length (v_file (view (ring_ w'))) <= v_synced (view (ring_ w')))%nat.
Proof.
  intros Hw [K1 K2 _ K4 K5 _] [F1 F2 F3] Hst. pose proof Hw as (p0 & rs0 & _ & _ & _ & Hl & Hi). specialize (Hi Hst).
  destruct (Hl Hi) as [Hfd _]. apply K1 in Hw as (p & rs & (D & H1 & _ & H3) & H2 & H4 & H5 & _).
  rewrite K4 in H5. destruct (H5 Hi) as [Hfd' Hr]. rewrite F2 in Hr. apply Forall2_nil_inv_l in Hr as ->.
  apply app_eq_nil in H3 as [-> _]. rewrite F1, app_nil_r in H2 by done. cbn in H1, H2. rewrite !app_nil_r in *.
  rewrite H1, <- K2, H2. split; [done|]. intros Hn. apply H4. destruct (F3 ltac:(by rewrite K5)); [lia|done].
Qed.

(** ** Properties *)

(** C14: on a kernel that finishes the writes in the order of their submission,
    each in full, and whose submissions do not fail, the file is always what it
    held followed by a prefix of the bytes taken.  A frame that [Enqueue] accepts
    is taken, one that it refuses at most in part.  And a [Flush] that succeeds
    leaves all bytes taken in the file, on disk unless the policy is never to
    sync. *)
Theorem uring_log (base : bytes) (w : Writer) :
  reached base w ->
  (exists k, v_file (view (ring_ w)) = base ++ take k (taken w)) /\
  (forall f r w', Enqueue f w = Some (r, w') -> exists d, taken w' = taken w ++ d /\ d `prefix_of` f /\ (r = true -> d = f)) /\
  (forall w', stopped_ w = false -> Flush w = Some (true, w') ->
     v_file (view (ring_ w')) = base ++ taken w /\
     (fsync_ w <> kNo -> length (v_file (view (ring_ w'))) <= v_synced (view (ring_ w')))%nat).
Proof.
  intros Hw%reached_inv. split_and!.
  - by apply inv_file.
  - intros f r w' (d & [_ A _ _ _] & H)%Enqueue_adds. by exists d.
  - intros w' Hs [K F]%Flush_keeps. by apply inv_flushed; [..|apply F|].
Qed.

End InOrder.

(** ** Lemmas: a writer that is made waits for nothing *)

Lemma open_log_pending w : pending_ w = [] -> pending_ (open_log w).2 = [].
Proof.
  intros Hw. unfold open_log. destruct (k_open _ _) as [fd k]. destruct (fd <? 0); [done|].
  destruct (k_lseek_end _) as [off k1]. destruct (off <? 0); [done|].
  destruct (k_queue_init _ _) as [r k2]. by destruct (r <? 0).
Qed.

Lemma Init_pending path fsync ms k : pending_ (Init (construct path fsync ms k)).2 = [].
Proof.
  unfold Init, construct. destruct (k_now k) as [t1 k1]. destruct (k_now k1) as [t2 k2]. cbn [path_].
  destruct (parent_path path) as [parent|]; [|by apply open_log_pending].
  destruct (k_mkdir _ _) as [[] k3]; [by apply open_log_pending|done].
Qed.

Lemma Init_idle path fsync ms k : awaited (Init (construct path fsync ms k)).2.
Proof. unfold awaited. rewrite Init_pending. apply submseteq_nil_l. Qed.

Lemma perform_ends {may} `{!UringLaws U may} (Ht : takes_all) c w : awaited w -> ends awaited (perform c w).
Proof.
  intros Hw. destruct c as [f| | |]; cbn [perform].
  - destruct (Enqueue_ends Ht f w Hw) as (p & -> & Hp). by apply Some_ends.
  - destruct (Flush_ends Ht w Hw) as (p & -> & Hp). by apply Some_ends.
  - by apply Poll_ends.
  - by apply Stop_ends.
Qed.

Lemma reached_awaited {may} `{!UringLaws U may} (Ht : takes_all) base w : reached base w -> awaited w.
Proof.
  induction 1 as [path fsync ms k w Hv Hc|c w w' _ IH Hc].
  - pose proof (Init_idle path fsync ms k) as Hi. unfold TryCreate in Hc. destruct (Init _) as [[] w0]; [|done]. by injection Hc as <-.
  - destruct (perform_ends Ht c w IH) as (w2 & E & H). rewrite E in Hc. by injection Hc as <-.
Qed.

(** C36: every call comes to an end.  The kernel finishes requests in any order,
    with failures and short writes; a submission fails or takes all entries that
    are filled ([takes_all]; for one that takes fewer see [hangs_on_fewer]).
    Making a writer ends, and so does every call of a writer that was made and
    called in any way: no loop goes on for ever, for a completion is taken out at
    every turn, and the rest of a short write is submitted again only when it is
    shorter than before; and no wait blocks for ever, for every pending write has
    a request of its own that the kernel has taken. *)
Theorem uring_calls_end {may} `{!UringLaws U may} (base : bytes) (w : Writer) (c : Call) :
  takes_all ->
  (forall path fsync ms k, TryCreate path fsync ms k <> (None, None)) /\
  (reached base w -> is_Some (perform c w)).
Proof.
  intros Ht. split.
  - intros path fsync ms k. pose proof (Init_idle path fsync ms k) as Hi. unfold TryCreate in *.
    destruct (Init _) as [[] w']; [done|]. destruct (Stop_ends Ht w' Hi) as (w2 & -> & _). done.
  - intros Hr%(reached_awaited Ht). by destruct (perform_ends Ht c w Hr) as (w' & -> & _).
Qed.

End Writer.

(** ** On the lazy kernel *)

Section Sim.

Lemma submit_buffer_dirty `{U : !Uring} (w : Writer) : dirty_ (submit_buffer w).2 = dirty_ w.
Proof. unfold submit_buffer. cbv zeta. destruct (k_submit _) as [n k]. destruct (n <? 0); [done|]. by destruct (k_now _). Qed.

Lemma set_ring_same `{U : !Uring} (w : Writer) : set_ring w (ring_ w) = w.
Proof. by destruct w. Qed.

Lemma FlushBuffer_sim (w : @Writer sim) : io_failed_ w = false -> ring_inited_ w = true -> 0 <= fd_ w -> aof_buf_ w <> [] ->
  has_slot w = true -> (length (v_prepared (s_view (ring_ w))) < 32)%nat -> FlushBuffer w = Some (submit_buffer w).
Proof.
  intros Hfl Hi Hfd Hb Hs Hsq. unfold FlushBuffer. destruct (Z.ltb_spec (fd_ w) 0); [lia|]. rewrite Hi, Hfl, Hs.
  destruct (is_empty (aof_buf_ w)) eqn:Ee; [by destruct (aof_buf_ w)|]. unfold obtain_sqe. cbn [negb orb mbind option_bind sim k_get_sqe].
  destruct (Nat.ltb_spec (length (v_prepared (s_view (ring_ w)))) 32) as [_|]; [|lia]. cbn [mbind option_bind negb].
  by rewrite set_ring_same.
Qed.

(** What [Enqueue] does with a small frame when the buffer stays small. *)
Lemma Enqueue_small `{U : !Uring} f (w : Writer) : f <> [] -> size_of (aof_buf_ w) + size_of f < Z.of_nat kSoftFlush ->
  stopped_ w = false -> io_failed_ w = false -> fsync_ w = kAlways ->
  Enqueue f w = ('(ok, w) ← FlushBuffer (append w f); if negb ok then Some (false, w) else Some (SyncFile w)).
Proof.
  intros Hf Hl Hst Hfl Hp. unfold Enqueue. rewrite Hst, Hfl. destruct (is_empty f) eqn:Ee; [by destruct f|].
  assert (Z.of_nat kSoftFlush < kHardCap) as Hh by reflexivity. unfold make_room, with_room, size_of in *.
  destruct (Z.ltb_spec kHardCap (Z.of_nat (length f))); [lia|].
  destruct (Z.leb_spec (Z.of_nat (length (aof_buf_ w)) + Z.of_nat (length f)) kHardCap); [|lia].
  cbn [orb negb mbind option_bind append aof_buf_ fsync_]. rewrite length_app.
  destruct (Nat.leb_spec kSoftFlush (length (aof_buf_ w) + length f)); [lia|]. cbn [negb mbind option_bind].
  rewrite (bool_decide_true _ Hp). unfold flush_if_any. cbn [append aof_buf_].
  destruct (is_empty (aof_buf_ w ++ f)) eqn:E2; [|done]. by destruct (aof_buf_ w), f.
Qed.

(** A new writer on the lazy kernel. *)
Definition fresh (path : bytes) (fsync : AofFsyncPolicy) (ms : Z) (d : bytes) (plan : list (nat * nat)) (fail : list bool) : @Writer sim :=
  @mkWriter sim path fsync (if ms <? 1 then 1000 else ms) 3 (size_of d)
    (mkSim (mkView d (length d) [] [] []) plan fail 2) true [] [] 1 false false false 0 1 [].

Lemma TryCreate_fresh path fsync ms d plan fail :
  @TryCreate sim path fsync ms (sim_new d plan fail) = (Some (fresh path fsync ms d plan fail), None).
Proof.
  assert (forall w : @Writer sim, path_ w = path -> w = @construct sim path fsync ms (sim_new d plan fail) ->
    open_log w = (true, fresh path fsync ms d plan fail)) as H.
  { intros w _ ->. unfold open_log. cbn. unfold size_of. by destruct (Z.ltb_spec (Z.of_nat (length d)) 0); [lia|]. }
  unfold TryCreate, Init. cbn [construct path_]. destruct (parent_path _) as [parent|]; cbn [sim k_mkdir]; by rewrite H.
Qed.

(** The write that is submitted finishes, in full, when it is waited for. *)
Lemma on_cqe_full `{U : !Uring} ud idx (w : Writer) pw : FindPending (pending_ w) ud = Some idx -> pending_ w !! idx = Some pw ->
  bytes_written pw = 0%nat -> (0 < bytes_total pw)%nat ->
  on_cqe (mkCqe ud (Z.of_nat (bytes_total pw))) w = RemovePending idx (set_dirty w).
Proof.
  intros Hi Hp Hw Ht. unfold on_cqe. cbn [c_user c_res]. rewrite Hi, Hp.
  destruct (Z.ltb_spec (Z.of_nat (bytes_total pw)) 0); [lia|]. destruct (Z.eqb_spec (Z.of_nat (bytes_total pw)) 0); [lia|].
  cbv zeta. rewrite Hw, Nat.sub_0_r, Nat2Z.id, Nat.ltb_irrefl. done.
Qed.

(** The writer whose buffer was submitted. *)
Definition submitted (w : @Writer sim) : @Writer sim :=
  let v := s_view (ring_ w) in
  let r := mkReq (aof_offset_ w) (aof_buf_ w) (next_user_data_ w) in
  let n := length (aof_buf_ w) in
  @mkWriter sim (path_ w) (fsync_ w) (flush_interval_ms_ w) (fd_ w) (aof_offset_ w + Z.of_nat n)
    (mkSim (mkView (v_file v) (v_synced v) [] (v_inflight v ++ v_prepared v ++ [r]) (v_done v))
       (s_plan (ring_ w)) (tail (s_fail (ring_ w))) (s_now (ring_ w) + 1))
    (ring_inited_ w) [] (pending_ w ++ [mkPending (aof_buf_ w) n 0 (aof_offset_ w) (next_user_data_ w)])
    (u64 (next_user_data_ w + 1)) (dirty_ w) (io_failed_ w) (stopped_ w) (s_now (ring_ w)) (last_fsync_ w) (taken w).

(** The writer whose submission failed: its entry stays in the ring. *)
Definition rolled_back (w : @Writer sim) : @Writer sim :=
  let r := mkReq (aof_offset_ w) (aof_buf_ w) (next_user_data_ w) in
  @mkWriter sim (path_ w) (fsync_ w) (flush_interval_ms_ w) (fd_ w) (aof_offset_ w)
    (mkSim (prepare r (s_view (ring_ w))) (s_plan (ring_ w)) (tail (s_fail (ring_ w))) (s_now (ring_ w)))
    (ring_inited_ w) (aof_buf_ w) (pending_ w)
    (u64 (next_user_data_ w + 1)) (dirty_ w) (io_failed_ w) (stopped_ w) (last_flush_ w) (last_fsync_ w) (taken w).

Lemma submit_buffer_sim (w : @Writer sim) :
  submit_buffer w = if default false (head (s_fail (ring_ w))) then (false, rolled_back w) else (true, submitted w).
Proof.
  assert (forall v r, submit (length (v_prepared (prepare r v))) (prepare r v) =
    mkView (v_file v) (v_synced v) [] (v_inflight v ++ v_prepared v ++ [r]) (v_done v)) as Hs.
  { intros v r. unfold submit. rewrite drop_ge, take_ge by lia. done. }
  destruct w as [p fs ms fd off [v plan fail now] ri b pend ud dirty failed stopped t1 t2 tk]. unfold submit_buffer.
  destruct fail as [|[] fail]; cbn -[length submit prepare u64 Z.ltb];
    try (destruct (Z.ltb_spec (Z.of_nat (length (v_prepared (prepare (mkReq off b ud) v)))) 0); [lia|]; by rewrite Hs).
  change (-11 <? 0) with true. cbn -[length submit prepare u64]. rewrite removelast_last. unfold rolled_back. cbn -[length u64].
  unfold set_buf, set_ring, set_pending. cbn -[length u64]. do 2 f_equal. lia.
Qed.

Lemma SyncFile_clean `{U : !Uring} (w : Writer) : dirty_ w = false -> SyncFile w = (true, w).
Proof. intros Hd. unfold SyncFile. rewrite Hd, orb_true_r. by case_bool_decide. Qed.

(** A small frame is accepted before anything is written. *)
Lemma Enqueue_sim f (w : @Writer sim) : f <> [] -> size_of (aof_buf_ w) + size_of f < Z.of_nat kSoftFlush ->
  stopped_ w = false -> io_failed_ w = false -> fsync_ w = kAlways -> ring_inited_ w = true -> 0 <= fd_ w -> dirty_ w = false ->
  has_slot w = true -> (length (v_prepared (s_view (ring_ w))) < 32)%nat ->
  Enqueue f w = Some (if default false (head (s_fail (ring_ w))) then (false, rolled_back (append w f)) else (true, submitted (append w f))).
Proof.
  intros Hf Hl Hst Hfl Hp Hi Hfd Hd Hs Hsq. rewrite Enqueue_small by done.
  rewrite (FlushBuffer_sim (append w f)); try done; [|by cbn; destruct (aof_buf_ w), f].
  rewrite submit_buffer_sim. cbn [append ring_]. destruct (default false _); cbn [mbind option_bind negb]; [done|].
  by rewrite SyncFile_clean.
Qed.

(** One turn of the drain: a request finishes, and its completion is handled. *)
Lemma drain_turn n (w w' : @Writer sim) s c : pending_ w <> [] -> ring_inited_ w = true -> v_done (s_view (ring_ w)) = [] ->
  sim_wait (ring_ w) = Some (true, s) -> v_done (s_view s) = [c] -> on_cqe c (set_ring w s) = w' -> ring_ w' = s ->
  DrainPending (S n) w = DrainPending n (cqe_seen w').
Proof.
  intros Hp Hi Hd Hw Hs Hc Hr. cbn [DrainPending]. destruct (is_empty (pending_ w)) eqn:E; [by destruct (pending_ w)|].
  assert (PeekCompletions w = Some w) as ->.
  { unfold PeekCompletions. rewrite Hi. unfold peek_fuel. cbn [PeekLoop sim k_peek]. rewrite Hd. cbn [head]. by rewrite set_ring_same. }
  cbn [mbind option_bind]. rewrite E. cbn [sim k_wait]. rewrite Hw. cbn [negb mbind option_bind].
  assert (PeekCompletions (set_ring w s) = Some (cqe_seen w')) as ->; [|done].
  assert (exists m, peek_fuel (set_ring w s) = S (S m)) as [m Hm].
  { unfold peek_fuel, events. cbn [set_ring ring_ view sim]. rewrite Hs. cbn [length].
    exists (length (v_prepared (s_view s)) + length (v_inflight (s_view s)) + remaining (pending_ (set_ring w s)))%nat. lia. }
  unfold PeekCompletions. cbn [set_ring ring_inited_]. rewrite Hi, Hm. cbn [PeekLoop sim k_peek set_ring ring_].
  rewrite Hs. cbn [head]. change (set_ring (set_ring w s) s) with (set_ring w s). rewrite Hc.
  assert (v_done (s_view (ring_ (cqe_seen w'))) = []) as Hd'.
  { cbn [cqe_seen set_ring ring_ sim k_seen sim_view s_view seen v_done]. rewrite Hr, Hs. done. }
  cbn [sim] in *. rewrite Hd'. cbn [head]. by rewrite set_ring_same.
Qed.

(** A flush with an empty buffer whose drain succeeds. *)
Lemma Flush_sim (w w' : @Writer sim) : io_failed_ w = false -> aof_buf_ w = [] -> DrainPending 200 w = Some (true, w') -> io_failed_ w' = false ->
  exists w'', Flush w = Some (true, w'') /\ v_file (s_view (ring_ w'')) = v_file (s_view (ring_ w')) /\ failed w'' = false.
Proof.
  intros Hf Hb Hd Hf'. unfold Flush, flush_if_any. rewrite Hf, Hb. cbn [is_empty mbind option_bind negb]. rewrite Hd.
  cbn [mbind option_bind negb]. case_bool_decide; [exists w'; by rewrite Hf'|]. unfold SyncFile. rewrite bool_decide_false by done.
  destruct (_ || _); cbn [negb sim k_fdatasync k_now]; [exists w'; by rewrite Hf'|].
  eexists. cbn [set_ring set_synced io_failed_]. rewrite Hf'. by split_and!.
Qed.

(** The next request to finish. *)
Lemma sim_wait_next s i n plan r : v_done (s_view s) = [] -> s_plan s = (i, n) :: plan ->
  v_inflight (s_view s) !! (i mod length (v_inflight (s_view s)))%nat = Some r ->
  sim_wait s = Some (true, mkSim (complete (i mod length (v_inflight (s_view s))) r (Z.of_nat (Nat.min n (length (r_data r)))) (s_view s))
    plan (s_fail s) (s_now s)).
Proof. intros Hd Hp Hr. unfold sim_wait. by rewrite Hd, Hp, Hr. Qed.

Lemma sim_wait_oldest s r : v_done (s_view s) = [] -> s_plan s = [] -> v_inflight (s_view s) !! 0%nat = Some r ->
  sim_wait s = Some (true, mkSim (complete 0 r (Z.of_nat (length (r_data r))) (s_view s)) [] (s_fail s) (s_now s)).
Proof. intros Hd Hp Hr. unfold sim_wait. by rewrite Hd, Hp, Hr. Qed.

(** C17: log writes overtake each other.  Two frames are accepted under the policy
    [kAlways] while nothing of them is written; the log is open with [O_APPEND],
    so when the kernel finishes the second request first, the flush succeeds and
    the log has the frames in the wrong order. *)
Theorem overtaken_frames_swap (path : bytes) (ms : Z) (d f g : bytes) :
  f <> [] -> g <> [] -> size_of f < Z.of_nat kSoftFlush -> size_of g < Z.of_nat kSoftFlush ->
  exists w w1 w2 w3, @TryCreate sim path kAlways ms (sim_new d [(1%nat, kSoftFlush)] []) = (Some w, None) /\
    Enqueue f w = Some (true, w1) /\ Enqueue g w1 = Some (true, w2) /\ v_file (s_view (ring_ w2)) = d /\
    Flush w2 = Some (true, w3) /\ v_file (s_view (ring_ w3)) = d ++ g ++ f /\ failed w3 = false.
Proof.
  intros Hf Hg Hlf Hlg. set (w := fresh path kAlways ms d [(1%nat, kSoftFlush)] []).
  set (w1 := submitted (append w f)). set (w2 := submitted (append w1 g)).
  assert (0 < length f /\ 0 < length g)%nat as [Hpf Hpg] by (split; [destruct f|destruct g]; cbn; done || lia).
  assert (Nat.min kSoftFlush (length g) = length g) as Hmin by (unfold size_of in Hlg; lia).
  set (rf := mkReq (size_of d) f 1). set (rg := mkReq (size_of d + Z.of_nat (length f)) g 2).
  set (v2 := mkView (d ++ g) (length d) [] [rf] [mkCqe 2 (Z.of_nat (length g))]).
  set (v3 := mkView ((d ++ g) ++ f) (length d) [] [] [mkCqe 1 (Z.of_nat (length f))]).
  assert (exists w', DrainPending 200 w2 = Some (true, w') /\ io_failed_ w' = false /\ v_file (s_view (ring_ w')) = (d ++ g) ++ f)
    as (w' & Hd & Hd2 & Hd3).
  { set (s2 := mkSim v2 [] [] 4). set (x2 := RemovePending 1 (set_dirty (set_ring w2 s2))).
    set (s3 := mkSim v3 [] [] 4). set (x3 := RemovePending 0 (set_dirty (set_ring (cqe_seen x2) s3))).
    exists (cqe_seen x3). rewrite (drain_turn 199 w2 x2 s2 (mkCqe 2 (Z.of_nat (length g)))); try done.
    - rewrite (drain_turn 198 (cqe_seen x2) x3 s3 (mkCqe 1 (Z.of_nat (length f)))); try done.
      + rewrite (sim_wait_oldest _ rf) by done. cbn [r_data rf]. unfold complete. by rewrite Nat2Z.id, take_ge by (cbn; lia).
      + by apply (on_cqe_full 1 0 _ (mkPending f (length f) 0 (r_offset rf) 1)).
    - rewrite (sim_wait_next _ 1 kSoftFlush [] rg) by done. cbn [r_data rg]. rewrite Hmin. unfold complete.
      by rewrite Nat2Z.id, take_ge by (cbn; lia).
    - by apply (on_cqe_full 2 1 _ (mkPending g (length g) 0 (r_offset rg) 2)). }
  destruct (Flush_sim w2 w' eq_refl eq_refl Hd Hd2) as (w3 & H3 & H4 & H5).
  exists w, w1, w2, w3. split; [apply TryCreate_fresh|].
  split; [by rewrite Enqueue_sim by (done || (apply Nat.ltb_lt; reflexivity))|].
  split; [by rewrite Enqueue_sim by (done || (apply Nat.ltb_lt; reflexivity))|].
  split_and!; [done|done| |done]. by rewrite H4, Hd3, <- app_assoc.
Qed.

(** C16: a frame that was refused is logged, twice.  When a submission fails, the
    buffer is restored but its entry stays in the ring: the frame is reported as
    refused (without a failure of the writer), and is written once by the
    forgotten entry and once with the next frame. *)
Theorem refused_frame_logged_twice (path : bytes) (ms : Z) (d f g : bytes) :
  f <> [] -> g <> [] -> size_of f + size_of g < Z.of_nat kSoftFlush ->
  exists w w1 w2 w3, @TryCreate sim path kAlways ms (sim_new d [] [true]) = (Some w, None) /\
    Enqueue f w = Some (false, w1) /\ failed w1 = false /\ Enqueue g w1 = Some (true, w2) /\
    Flush w2 = Some (true, w3) /\ v_file (s_view (ring_ w3)) = d ++ f ++ f ++ g /\ failed w3 = false.
Proof.
  intros Hf Hg Hl. set (w := fresh path kAlways ms d [] [true]).
  set (w1 := rolled_back (append w f)). set (w2 := submitted (append w1 g)).
  assert (0 < length f)%nat as Hpf by (destruct f; cbn; done || lia).
  set (rf := mkReq (size_of d) f 1). set (rg := mkReq (size_of d) (f ++ g) 2).
  set (v2 := mkView (d ++ f) (length d) [] [rg] [mkCqe 1 (Z.of_nat (length f))]).
  set (v3 := mkView ((d ++ f) ++ f ++ g) (length d) [] [] [mkCqe 2 (Z.of_nat (length (f ++ g)))]).
  assert (exists w', DrainPending 200 w2 = Some (true, w') /\ io_failed_ w' = false /\ v_file (s_view (ring_ w')) = (d ++ f) ++ f ++ g)
    as (w' & Hd & Hd2 & Hd3).
  { set (s2 := mkSim v2 [] [] 3). set (x2 := set_ring w2 s2).
    set (s3 := mkSim v3 [] [] 3). set (x3 := RemovePending 0 (set_dirty (set_ring (cqe_seen x2) s3))).
    exists (cqe_seen x3). rewrite (drain_turn 199 w2 x2 s2 (mkCqe 1 (Z.of_nat (length f)))); try done.
    - rewrite (drain_turn 198 (cqe_seen x2) x3 s3 (mkCqe 2 (Z.of_nat (length (f ++ g))))); try done.
      + rewrite (sim_wait_oldest _ rg) by done. cbn [r_data rg]. unfold complete. by rewrite Nat2Z.id, take_ge by (cbn; lia).
      + apply (on_cqe_full 2 0 _ (mkPending (f ++ g) (length (f ++ g)) 0 (r_offset rg) 2)); try done. cbn. rewrite length_app. lia.
    - rewrite (sim_wait_oldest _ rf) by done. cbn [r_data rf]. unfold complete. by rewrite Nat2Z.id, take_ge by (cbn; lia). }
  destruct (Flush_sim w2 w' eq_refl eq_refl Hd Hd2) as (w3 & H3 & H4 & H5).
  exists w, w1, w2, w3. split; [apply TryCreate_fresh|].
  split; [rewrite Enqueue_sim; try done; [unfold size_of in *; cbn; lia|apply Nat.ltb_lt; reflexivity]|]. split; [done|].
  split; [by rewrite Enqueue_sim by (done || (apply Nat.ltb_lt; reflexivity))|].
  split; [done|]. split; [|done]. by rewrite H4, Hd3, <- app_assoc.
Qed.

End Sim.

(** ** Witnesses *)

Definition demo_kernel : @kernel orderly := mkView (bs "old") 3 [] [] [].

Definition demo_new : @Writer orderly :=
  @mkWriter orderly (bs "d/appendonly.aof") kEverySec 1000 3 3 demo_kernel true [] [] 1 false false false 0 0 [].

(** Calls that all return. *)
Fixpoint demo_run (cs : list Call) (w : @Writer orderly) : @Writer orderly :=
  match cs with [] => w | c :: cs => demo_run cs (default w (perform c w)) end.

Definition demo_calls : list Call := [CallEnqueue (bs "one"); CallFlush; CallEnqueue (bs "two"); CallPoll].

Lemma demo_reached cs w : reached (bs "old") w -> reached (bs "old") (demo_run cs w).
Proof.
  revert w. induction cs as [|c cs IH]; intros w Hr; [done|]. cbn [demo_run]. apply IH.
  destruct (perform c w) as [w1|] eqn:E; [|done]. by eapply reached_call.
Qed.

Lemma demo_new_reached : reached (bs "old") demo_new.
Proof. by apply (reached_new (bs "old") (bs "d/appendonly.aof") kEverySec 1000 demo_kernel). Qed.

Lemma orderly_submits (k : @kernel orderly) : 0 <= (k_submit k).1.
Proof. cbn. lia. Qed.

Lemma uring_log_witness : exists w', Flush (demo_run demo_calls demo_new) = Some (true, w') /\
  v_file (view (ring_ w')) = bs "old" ++ bs "onetwo" /\ (length (v_file (view (ring_ w'))) <= v_synced (view (ring_ w')))%nat.
Proof.
  destruct (uring_log orderly_submits (bs "old") (demo_run demo_calls demo_new) (demo_reached _ _ demo_new_reached)) as (_ & _ & H).
  destruct (Flush (demo_run demo_calls demo_new)) as [[[] w']|] eqn:E.
  - exists w'. destruct (H w') as [H1 H2]; [vm_compute; reflexivity|reflexivity|]. split; [done|]. rewrite H1 in *. split; [|apply H2].
    + vm_compute. reflexivity.
    + vm_compute. discriminate.
  - exfalso. vm_compute in E. discriminate.
  - exfalso. vm_compute in E. discriminate.
Defined.

Lemma sim_takes_all : @takes_all sim.
Proof.
  intros s. cbn. unfold sim_submit. destruct (s_fail s) as [|[] l]; cbn; lia.
Qed.

(** A frame of which one byte is written at a time, on a kernel that refuses
    the second submission. *)
Lemma uring_calls_end_witness :
  let w := fresh (bs "aof") kAlways 1000 (bs "old") [(0%nat, 1%nat); (0%nat, 1%nat)] [false; true] in
  exists w1, perform (CallEnqueue (bs "one")) w = Some w1 /\ is_Some (perform CallFlush w1).
Proof.
  intros w. assert (reached (bs "old") w) as Hr by (by eapply reached_new, TryCreate_fresh).
  destruct (uring_calls_end (may := anyhow) (bs "old") w (CallEnqueue (bs "one")) sim_takes_all) as [_ [w1 H1]]; [exact Hr|].
  exists w1. split; [exact H1|]. apply (uring_calls_end (may := anyhow) (bs "old") w1 CallFlush sim_takes_all).
  by apply (reached_call _ (CallEnqueue (bs "one")) w).
Defined.

(** A kernel that takes one entry less than there is. *)
Definition one_less : Uring := {|
  kernel := View;
  view v := v;
  k_mkdir v _ := (true, v);
  k_open v _ := (3, v);
  k_lseek_end v := (Z.of_nat (length (v_file v)), v);
  k_queue_init v _ := (0, v);
  k_now v := (0, v);
  k_fdatasync v := (true, sync v);
  k_get_sqe v := ((length (v_prepared v) <? 32)%nat, v);
  k_prep v r := prepare r v;
  k_submit v := let n := (length (v_prepared v) - 1)%nat in (Z.of_nat n, submit n v);
  k_peek v := (head (v_done v), v);
  k_seen := seen;
  k_wait v := orderly_of <$> sim_wait (mkSim v [] [] 0);
  k_queue_exit v := v;
  k_close v := v
|}.

Lemma one_less_laws : UringLaws one_less in_order.
Proof.
  split; cbn; try done; intros s; [by split; [|right]|..].
  - rewrite Nat2Z.id. destruct (Z.ltb_spec (Z.of_nat (length (v_prepared s) - 1)) 0); done || lia.
  - split; [done|]. by destruct (v_done s).
  - exact (@wait_law _ _ orderly_laws s).
Qed.

(** A submission that takes fewer entries than there are counts as a success: the
    frame is accepted, and the flush waits for ever for a write that the kernel
    has not been given. *)
Example hangs_on_fewer :
  let w := @mkWriter one_less (bs "aof") kEverySec 1000 3 3 (mkView (bs "old") 3 [] [] []) true [] [] 1 false false false 0 0 [] in
  match Enqueue (bs "one") w with Some (true, w1) => Flush w1 | _ => Some (true, w) end = None.
Proof. vm_compute. reflexivity. Qed.

Lemma overtaken_frames_swap_witness : exists w2 w3 : @Writer sim, Flush w2 = Some (true, w3) /\
  v_file (s_view (ring_ w3)) = bs "old" ++ bs "two" ++ bs "one".
Proof.
  destruct (overtaken_frames_swap (bs "aof") 1000 (bs "old") (bs "one") (bs "two")) as (w & w1 & w2 & w3 & H);
    try reflexivity; try discriminate. exists w2, w3. by destruct H as (_ & _ & _ & _ & H1 & H2 & _).
Defined.

Lemma refused_frame_logged_twice_witness : exists w w1 w3 : @Writer sim, Enqueue (bs "one") w = Some (false, w1) /\
  v_file (s_view (ring_ w3)) = bs "old" ++ bs "one" ++ bs "one" ++ bs "two".
Proof.
  destruct (refused_frame_logged_twice (bs "aof") 1000 (bs "old") (bs "one") (bs "two")) as (w & w1 & w2 & w3 & H);
    try reflexivity; try discriminate. exists w, w1, w3. by destruct H as (_ & H1 & _ & _ & _ & H2 & _).
Defined.
