(* ===== verification/RingBuffer.v ===== *)
(** * RingBuffer: a single-producer single-consumer ring

    Models include/vemory/util/ringbuffer.h as three threads over one state: the
    producer ([Push], [PushWait]), the consumer ([Pop], [PopWaitFor]) and one that
    calls [Cancel].  A step is what a thread does between two points where
    another can see it.  Steps interleave; since each index is stored by one
    thread, with release, and loaded by the other, with acquire, a thread that
    sees an index sees what was done to the slots before. *)

From S2P Require Import Prelude.
From stdpp Require Import relations.
#[local] Open Scope nat_scope.

Section RingBuffer.
Context {T : Type} (Capacity : nat).

(** The [static_assert]. *)
Definition power_of_2 : Prop := Capacity <> 0 /\ Nat.land Capacity (Capacity - 1) = 0.

Definition next (i : nat) : nat := Nat.land (i + 1) (Capacity - 1).

Inductive Thread := Producer | Consumer | Canceller.

(** Where the producer is: at the test of [cancelled_] in [PushWait]; at the test
    for room in [Push], called by [PushWait] or not; about to construct the
    value, to store the index, to notify; in [PushWait] with a full ring: about
    to lock [mu_], to evaluate the condition, to sleep, asleep, woken up, past the
    wait; outside, with the result. *)
Inductive ProducerPc :=
| PWait (v : T) | PPush (wait : bool) (v : T) | PWrite (v : T) | PPublish (v : T) | PNotify
| PLock (v : T) | PCond (v : T) | PSleep (v : T) | PAsleep (v : T) | PRelock (v : T) | PWoken (v : T)
| PDone (r : bool).

(** Which call of [Pop] it is: the caller's, the first of [PopWaitFor] and
    whether its timeout is zero, the one in its loop, the last one. *)
Inductive PopAt := Plain | First (zero : bool) | InLoop | Last.

(** Where the consumer is: at the test of [Pop]; about to take the value out, to
    store the index, to notify; in [PopWaitFor] with an empty ring: about to
    lock [mu_], to test [cancelled_], to sleep, asleep, woken up (or timed out);
    outside, with the value. *)
Inductive ConsumerPc :=
| CPop (k : PopAt) | CTake (k : PopAt) | CRelease (k : PopAt) (v : option T) | CNotify (k : PopAt) (v : option T)
| CLock | CCancelled | CSleep | CAsleep | CRelock (timed_out : bool)
| CDone (v : option T).

(** Where a call of [Cancel] is: about to store, to lock, to notify; outside. *)
Inductive CancelPc := XStore | XLock | XNotify | XDone.

(** The members ([None] in a slot is raw storage), the owner of the mutex, the
    three threads, and two records of the past that the program does not keep:
    the values stored and the values released. *)
Record State := mkState {
  read_ : nat;
  write_ : nat;
  buffer_ : list (option T);
  cancelled_ : bool;
  mu_ : option Thread;
  ppc : ProducerPc;
  cpc : ConsumerPc;
  xpc : CancelPc;
  pushed : list T;
  popped : list (option T)
}.

Definition construct : State :=
  mkState 0 0 (replicate Capacity None) false None (PDone true) (CDone None) XDone [] [].

(** Assignments. *)
Definition set_ppc s x := mkState (read_ s) (write_ s) (buffer_ s) (cancelled_ s) (mu_ s) x (cpc s) (xpc s) (pushed s) (popped s).
Definition set_cpc s x := mkState (read_ s) (write_ s) (buffer_ s) (cancelled_ s) (mu_ s) (ppc s) x (xpc s) (pushed s) (popped s).
Definition set_xpc s x := mkState (read_ s) (write_ s) (buffer_ s) (cancelled_ s) (mu_ s) (ppc s) (cpc s) x (pushed s) (popped s).
Definition set_mu s x := mkState (read_ s) (write_ s) (buffer_ s) (cancelled_ s) x (ppc s) (cpc s) (xpc s) (pushed s) (popped s).
Definition set_slot s i x := mkState (read_ s) (write_ s) (<[i := x]> (buffer_ s)) (cancelled_ s) (mu_ s) (ppc s) (cpc s) (xpc s)
  (pushed s) (popped s).
Definition set_write s v := mkState (read_ s) (next (write_ s)) (buffer_ s) (cancelled_ s) (mu_ s) (ppc s) (cpc s) (xpc s)
  (pushed s ++ [v]) (popped s).
Definition set_read s v := mkState (next (read_ s)) (write_ s) (buffer_ s) (cancelled_ s) (mu_ s) (ppc s) (cpc s) (xpc s)
  (pushed s) (popped s ++ [v]).
Definition set_cancelled s := mkState (read_ s) (write_ s) (buffer_ s) true (mu_ s) (ppc s) (cpc s) (xpc s) (pushed s) (popped s).

Definition lock (t : Thread) (s : State) : option State :=
  match mu_ s with None => Some (set_mu s (Some t)) | Some _ => None end.
Definition unlock (s : State) : State := set_mu s None.

(** [notify_one] and [notify_all] on a condition with at most one waiter. *)
Definition notify_not_empty (s : State) : State := match cpc s with CAsleep => set_cpc s (CRelock false) | _ => s end.
Definition notify_not_full (s : State) : State := match ppc s with PAsleep v => set_ppc s (PRelock v) | _ => s end.

Definition Full (s : State) : bool := next (write_ s) =? read_ s.

(** ** The producer *)

Definition pstep (s : State) : option State :=
  match ppc s with
  | PWait v => Some (if cancelled_ s then set_ppc s (PDone false) else set_ppc s (PPush true v))
  | PPush wait v =>
      Some (if next (write_ s) =? read_ s then (if wait then set_ppc s (PLock v) else set_ppc s (PDone false))
            else set_ppc s (PWrite v))
  | PWrite v => Some (set_ppc (set_slot s (write_ s) (Some v)) (PPublish v))
  | PPublish v => Some (set_ppc (set_write s v) PNotify)
  | PNotify => Some (set_ppc (notify_not_empty s) (PDone true))
  | PLock v => s ← lock Producer s; Some (set_ppc s (PCond v))
  | PCond v => Some (if cancelled_ s || negb (Full s) then set_ppc s (PWoken v) else set_ppc s (PSleep v))
  | PSleep v => Some (set_ppc (unlock s) (PAsleep v))
  | PAsleep _ => None
  | PRelock v => s ← lock Producer s; Some (set_ppc s (PCond v))
  | PWoken v => Some (if cancelled_ s then set_ppc (unlock s) (PDone false) else set_ppc (unlock s) (PWait v))
  | PDone _ => None
  end.

(** ** The consumer *)

(** Where [Pop] goes on when the ring is empty. *)
Definition on_empty (k : PopAt) (s : State) : State :=
  match k with
  | Plain => set_cpc s (CDone None)
  | First zero => if zero then set_cpc s (CDone None) else set_cpc s CLock
  | InLoop => set_cpc s CCancelled
  | Last => set_cpc (unlock s) (CDone None)
  end.

(** Whether [mu_] is held around the call. *)
Definition holds (k : PopAt) : bool := match k with InLoop | Last => true | _ => false end.

(** [time_over]: whether the wait has run into its deadline. *)
Definition cstep (time_over : bool) (s : State) : option State :=
  match cpc s with
  | CPop k => Some (if read_ s =? write_ s then on_empty k s else set_cpc s (CTake k))
  | CTake k => Some (set_cpc (set_slot s (read_ s) None) (CRelease k (mjoin (buffer_ s !! read_ s))))
  | CRelease k v => Some (set_cpc (set_read s v) (CNotify k v))
  | CNotify k v => let s := notify_not_full s in Some (set_cpc (if holds k then unlock s else s) (CDone v))
  | CLock => s ← lock Consumer s; Some (set_cpc s (CPop InLoop))
  | CCancelled => Some (if cancelled_ s then set_cpc (unlock s) (CDone None) else set_cpc s CSleep)
  | CSleep => Some (set_cpc (unlock s) CAsleep)
  | CAsleep => if time_over then Some (set_cpc s (CRelock true)) else None
  | CRelock timed_out => s ← lock Consumer s; Some (set_cpc s (CPop (if timed_out || time_over then Last else InLoop)))
  | CDone _ => None
  end.

(** ** Cancel *)

Definition xstep (s : State) : option State :=
  match xpc s with
  | XStore => Some (set_xpc (set_cancelled s) XLock)
  | XLock => s ← lock Canceller s; Some (set_xpc (unlock s) XNotify)
  | XNotify => Some (set_xpc (notify_not_full (notify_not_empty s)) XDone)
  | XDone => None
  end.

Definition cancelled (s : State) : bool := cancelled_ s.

Definition Size (s : State) : nat :=
  if read_ s <=? write_ s then write_ s - read_ s else Capacity - read_ s + write_ s.

Definition usable_capacity : nat := Capacity - 1.

(** The destructor's loop. *)
Fixpoint destroy (fuel : nat) (r w : nat) (buffer : list (option T)) : option (list (option T)) :=
  if r =? w then Some buffer
  else match fuel with O => None | S fuel => destroy fuel (next r) w (<[r := None]> buffer) end.

(** ** The threads together *)

(** A call of a thread that is in none. *)
Inductive starts : State -> State -> Prop :=
| start_Push v r s : ppc s = PDone r -> starts s (set_ppc s (PPush false v))
| start_PushWait v r s : ppc s = PDone r -> starts s (set_ppc s (PWait v))
| start_Pop r s : cpc s = CDone r -> starts s (set_cpc s (CPop Plain))
| start_PopWaitFor zero r s : cpc s = CDone r -> starts s (set_cpc s (CPop (First zero))).

(** What happens without [Cancel]; a condition variable may also wake up a
    waiter for no reason. *)
Inductive step : State -> State -> Prop :=
| step_producer s s' : pstep s = Some s' -> step s s'
| step_consumer over s s' : cstep over s = Some s' -> step s s'
| step_canceller s s' : xstep s = Some s' -> step s s'
| step_start s s' : starts s s' -> step s s'.

Inductive spurious : State -> State -> Prop :=
| spurious_p v s : ppc s = PAsleep v -> spurious s (set_ppc s (PRelock v))
| spurious_c s : cpc s = CAsleep -> spurious s (set_cpc s (CRelock false)).

Inductive cancels : State -> State -> Prop :=
| cancel s : xpc s = XDone -> cancels s (set_xpc s XStore).

Inductive reached : State -> Prop :=
| reached_new : reached construct
| reached_step s s' : reached s -> step s s' -> reached s'
| reached_spurious s s' : reached s -> spurious s s' -> reached s'
| reached_cancel s s' : reached s -> cancels s s' -> reached s'.

(** ** The invariant *)

(** The consumer has taken a value out of its slot and not released the slot. *)
Definition has_taken (p : ConsumerPc) : bool := match p with CRelease _ _ => true | _ => false end.
(** The value that the producer has constructed and not stored. *)
Definition constructed (p : ProducerPc) : option T := match p with PPublish v => Some v | _ => None end.

(** The contents of the [i]-th slot after the read index, for a ring that holds [rest]. *)
Definition expected (p : ProducerPc) (c : ConsumerPc) (rest : list T) (i : nat) : option T :=
  if (i =? 0) && has_taken c then None
  else if i <? length rest then rest !! i
  else if i =? length rest then constructed p else None.

Record inv_at (s : State) (rest : list T) : Prop := {
  i_history : Some <$> pushed s = popped s ++ (Some <$> rest);
  i_room : length rest < Capacity;
  i_read : read_ s < Capacity;
  i_write : write_ s = (read_ s + length rest) mod Capacity;
  i_length : length (buffer_ s) = Capacity;
  i_slots i : i < Capacity -> buffer_ s !! ((read_ s + i) mod Capacity) = Some (expected (ppc s) (cpc s) rest i);
  i_producer : match ppc s with PWrite _ | PPublish _ => S (length rest) < Capacity | _ => True end;
  i_consumer : match cpc s with
               | CTake _ => rest <> []
               | CRelease _ v => rest <> [] /\ v = head rest
               | CNotify _ v => last (popped s) = Some v
               | CDone (Some v) => last (popped s) = Some (Some v)
               | _ => True
               end
}.

(** ** Lemmas *)

Section Ring.
Hypothesis Hpow : power_of_2.

Lemma capacity_pow : exists k, Capacity = 2 ^ k.
Proof.
  destruct Hpow as [Hc Hl]. exists (Nat.log2 Capacity). destruct (Nat.log2_spec Capacity) as [H1 H2]; [lia|].
  destruct (decide (Capacity = 2 ^ Nat.log2 Capacity)) as [|Hne]; [done|exfalso].
  assert (Nat.log2 (Capacity - 1) = Nat.log2 Capacity) as Hlog by (apply Nat.log2_unique; lia).
  assert (Nat.testbit (Nat.land Capacity (Capacity - 1)) (Nat.log2 Capacity) = true) as Hb.
  { rewrite Nat.land_spec, Nat.bit_log2 by lia. rewrite <- Hlog, Nat.bit_log2; [done|].
    assert (2 ^ Nat.log2 Capacity <> 0) by (apply Nat.pow_nonzero; lia). lia. }
  by rewrite Hl, Nat.bits_0 in Hb.
Qed.

Lemma next_mod i : next i = (i + 1) mod Capacity.
Proof.
  destruct capacity_pow as [k Hk]. unfold next. rewrite Hk. rewrite <- Nat.land_ones. f_equal. rewrite Nat.ones_equiv. lia.
Qed.

Lemma capacity_pos : 0 < Capacity.
Proof. destruct Hpow. lia. Qed.

Lemma slot_inj r i j : i < Capacity -> j < Capacity -> (r + i) mod Capacity = (r + j) mod Capacity -> i = j.
Proof.
  intros Hi Hj H. pose proof (Nat.div_mod (r + i) Capacity) as H1. pose proof (Nat.div_mod (r + j) Capacity) as H2.
  rewrite H in H1. specialize (H1 ltac:(lia)). specialize (H2 ltac:(lia)).
  assert ((r + i) / Capacity = (r + j) / Capacity) as Hq; [|rewrite Hq in H1; lia].
  destruct (Nat.lt_trichotomy ((r + i) / Capacity) ((r + j) / Capacity)) as [?|[?|?]]; [nia|done|nia].
Qed.

Lemma slot_next r i : r < Capacity -> (next r + i) mod Capacity = (r + S i) mod Capacity.
Proof. intros Hr. rewrite next_mod, Nat.Div0.add_mod_idemp_l. f_equal. lia. Qed.

Lemma ring_is_empty s rest : inv_at s rest -> (read_ s =? write_ s) = (length rest =? 0).
Proof.
  intros [H1 H2 H3 H4 _ _ _ _]. rewrite H4. rewrite <- (Nat.mod_small (read_ s) Capacity) at 1 by done.
  rewrite <- (Nat.add_0_r (read_ s)) at 1.
  destruct (Nat.eqb_spec (length rest) 0) as [->|Hne]; [apply Nat.eqb_refl|]. apply Nat.eqb_neq. intros H.
  apply slot_inj in H; lia.
Qed.

Lemma ring_is_full s rest : inv_at s rest -> Full s = (length rest =? usable_capacity).
Proof.
  intros [H1 H2 H3 H4 _ _ _ _]. unfold Full, usable_capacity. rewrite H4, next_mod, Nat.Div0.add_mod_idemp_l, <- Nat.add_assoc.
  rewrite <- (Nat.mod_small (read_ s) Capacity) at 2 by done. rewrite <- (Nat.add_0_r (read_ s)) at 2.
  destruct (Nat.eqb_spec (length rest) (Capacity - 1)) as [E|Hne].
  - replace (length rest + 1) with (1 * Capacity) by lia. rewrite Nat.Div0.mod_add, Nat.add_0_r. apply Nat.eqb_refl.
  - apply Nat.eqb_neq. intros H. apply slot_inj in H; lia.
Qed.

Lemma ring_size s rest : inv_at s rest -> Size s = length rest.
Proof.
  intros [H1 H2 H3 H4 _ _ _ _]. unfold Size. rewrite H4.
  destruct (Nat.lt_ge_cases (read_ s + length rest) Capacity) as [H|H].
  - rewrite Nat.mod_small by done. destruct (Nat.leb_spec (read_ s) (read_ s + length rest)); lia.
  - replace (read_ s + length rest) with (read_ s + length rest - Capacity + 1 * Capacity) by lia.
    rewrite Nat.Div0.mod_add, Nat.mod_small by lia. destruct (Nat.leb_spec (read_ s) (read_ s + length rest - Capacity)); lia.
Qed.

(** Steps that leave the ring alone. *)
Record same_ring (s s' : State) : Prop := {
  sr_read : read_ s' = read_ s;
  sr_write : write_ s' = write_ s;
  sr_buffer : buffer_ s' = buffer_ s;
  sr_pushed : pushed s' = pushed s;
  sr_popped : popped s' = popped s
}.

(** What the invariant says of the two threads. *)
Definition producer_ok (s : State) (rest : list T) : Prop :=
  match ppc s with PWrite _ | PPublish _ => S (length rest) < Capacity | _ => True end.
Definition consumer_ok (s : State) (rest : list T) : Prop :=
  match cpc s with
  | CTake _ => rest <> []
  | CRelease _ v => rest <> [] /\ v = head rest
  | CNotify _ v => last (popped s) = Some v
  | CDone (Some v) => last (popped s) = Some (Some v)
  | _ => True
  end.

Lemma inv_frame s s' rest : inv_at s rest -> same_ring s s' -> constructed (ppc s') = constructed (ppc s) ->
  has_taken (cpc s') = has_taken (cpc s) -> producer_ok s' rest -> consumer_ok s' rest -> inv_at s' rest.
Proof.
  intros [H1 H2 H3 H4 H5 H6 _ _] [R1 R2 R3 R4 R5] Ep Ec Hp Hc. split; rewrite ?R1, ?R2, ?R3, ?R4; try done.
  - by rewrite R5.
  - intros i Hi. rewrite H6 by done. unfold expected. by rewrite Ep, Ec.
Qed.

Lemma lock_ring t s s' : lock t s = Some s' -> s' = set_mu s (Some t).
Proof. unfold lock. destruct (mu_ s); [done|]. by intros [= <-]. Qed.

Lemma notify_full_inv s rest : inv_at s rest -> inv_at (notify_not_full s) rest.
Proof. intros H. unfold notify_not_full. destruct (ppc s) eqn:E; try done. apply (inv_frame s); try done; [by rewrite E|apply H]. Qed.

Lemma notify_empty_inv s rest : inv_at s rest -> inv_at (notify_not_empty s) rest.
Proof. intros H. unfold notify_not_empty. destruct (cpc s) eqn:E; try done. apply (inv_frame s); try done; [by rewrite E|apply H]. Qed.

(** The value is constructed in the first free slot. *)
Lemma construct_inv s rest v : inv_at s rest -> ppc s = PWrite v -> inv_at (set_ppc (set_slot s (write_ s) (Some v)) (PPublish v)) rest.
Proof.
  intros [H1 H2 H3 H4 H5 H6 H7 H8] E. rewrite E in *. split; cbn; try done.
  - by rewrite length_insert.
  - intros i Hi. rewrite H4. destruct (decide (i = length rest)) as [->|Hne].
    + rewrite list_lookup_insert_eq by (rewrite H5; apply Nat.mod_upper_bound; lia).
      unfold expected. cbn [constructed]. rewrite Nat.ltb_irrefl, Nat.eqb_refl.
      destruct (Nat.eqb_spec (length rest) 0) as [E0|]; [|done]. destruct rest; [|done]. by destruct (cpc s) as [| |k w| | | | | | |]; try destruct H8.
    + rewrite list_lookup_insert_ne by (intros Hs; apply slot_inj in Hs; lia). rewrite H6 by done. unfold expected.
      by destruct (Nat.eqb_spec i (length rest)).
Qed.

(** The index is stored: the value belongs to the ring. *)
Lemma publish_inv s rest v : inv_at s rest -> ppc s = PPublish v -> inv_at (set_ppc (set_write s v) PNotify) (rest ++ [v]).
Proof.
  intros [H1 H2 H3 H4 H5 H6 H7 H8] E. rewrite E in *. split; cbn; try done.
  - by rewrite !fmap_app, H1, <- app_assoc.
  - rewrite length_app. cbn. lia.
  - rewrite next_mod, H4, Nat.Div0.add_mod_idemp_l, length_app, Nat.add_assoc. done.
  - intros i Hi. rewrite H6 by done. unfold expected. cbn [constructed]. rewrite length_app. cbn [length].
    destruct ((i =? 0) && has_taken (cpc s)); [done|]. destruct (Nat.ltb_spec i (length rest)).
    + destruct (Nat.ltb_spec i (length rest + 1)); [|lia]. by rewrite lookup_app_l.
    + destruct (Nat.eqb_spec i (length rest)) as [->|Hne].
      * destruct (Nat.ltb_spec (length rest) (length rest + 1)); [|lia]. by rewrite list_lookup_middle.
      * destruct (Nat.ltb_spec i (length rest + 1)); [lia|]. by destruct (i =? length rest + 1).
  - destruct (cpc s); try done; destruct rest; cbn in *; try done; by destruct H8.
Qed.

(** The oldest value is taken out of its slot. *)
Lemma take_inv s rest k : inv_at s rest -> cpc s = CTake k ->
  inv_at (set_cpc (set_slot s (read_ s) None) (CRelease k (mjoin (buffer_ s !! read_ s)))) rest.
Proof.
  intros [H1 H2 H3 H4 H5 H6 H7 H8] E. rewrite E in *.
  assert (buffer_ s !! read_ s = Some (head rest)) as Hv.
  { specialize (H6 0). rewrite Nat.add_0_r, Nat.mod_small in H6 by done. rewrite H6 by lia. by destruct rest. }
  split; cbn; try done.
  - by rewrite length_insert.
  - intros i Hi. destruct (decide (i = 0)) as [->|Hne].
    + rewrite Nat.add_0_r, Nat.mod_small by done. by rewrite list_lookup_insert_eq by lia.
    + rewrite list_lookup_insert_ne.
      * rewrite H6 by done. unfold expected. by destruct (Nat.eqb_spec i 0).
      * intros Hs. apply Hne. apply (slot_inj (read_ s)); [done|lia|]. rewrite Nat.add_0_r. rewrite <- Hs. symmetry. apply Nat.mod_small. done.
  - split; [done|]. rewrite Hv. done.
Qed.

(** The index is stored: the slot is free. *)
Lemma release_inv s rest k v : inv_at s rest -> cpc s = CRelease k v -> inv_at (set_cpc (set_read s v) (CNotify k v)) (tail rest).
Proof.
  intros [H1 H2 H3 H4 H5 H6 H7 H8] E. rewrite E in *. destruct H8 as [Hr Hv]. destruct rest as [|x rest]; [done|]. cbn in Hv. subst v.
  cbn [length tail] in *. split; cbn; try done.
  - by rewrite H1, <- app_assoc.
  - lia.
  - rewrite next_mod. apply Nat.mod_upper_bound. lia.
  - rewrite H4, slot_next by done. done.
  - intros i Hi. rewrite slot_next by done. destruct (decide (S i = Capacity)) as [Hc|Hc].
    + rewrite Hc. replace ((read_ s + Capacity) mod Capacity) with ((read_ s + 0) mod Capacity).
      2: { rewrite Nat.add_0_r. symmetry. replace (read_ s + Capacity) with (read_ s + 1 * Capacity) by lia. apply Nat.Div0.mod_add. }
      rewrite H6 by lia. cbn. unfold expected. rewrite andb_false_r. destruct (Nat.ltb_spec i (length rest)); [lia|].
      destruct (Nat.eqb_spec i (length rest)); [|done]. destruct (ppc s); done || lia.
    + rewrite H6 by lia. unfold expected. cbn. rewrite andb_false_r. done.
  - destruct (ppc s); done || lia.
  - by rewrite last_snoc.
Qed.

Lemma set_ppc_inv s rest p : inv_at s rest -> constructed p = constructed (ppc s) -> producer_ok (set_ppc s p) rest ->
  inv_at (set_ppc s p) rest.
Proof. intros H E Hp. apply (inv_frame s); try done. apply H. Qed.

Lemma set_cpc_inv s rest c : inv_at s rest -> has_taken c = has_taken (cpc s) -> consumer_ok (set_cpc s c) rest ->
  inv_at (set_cpc s c) rest.
Proof. intros H E Hc. apply (inv_frame s); try done. apply H. Qed.

Lemma set_mu_inv s rest m : inv_at s rest -> inv_at (set_mu s m) rest.
Proof. intros H. by apply (inv_frame s); [| |..|apply H|apply H]. Qed.

Lemma lock_inv t s s' rest : lock t s = Some s' -> inv_at s rest -> inv_at s' rest /\ ppc s' = ppc s /\ cpc s' = cpc s.
Proof. intros ->%lock_ring H. split; [by apply set_mu_inv|done]. Qed.

Lemma notify_empty_ppc s : ppc (notify_not_empty s) = ppc s.
Proof. unfold notify_not_empty. by destruct (cpc s). Qed.

Lemma notify_full_cpc s : cpc (notify_not_full s) = cpc s.
Proof. unfold notify_not_full. by destruct (ppc s). Qed.

Lemma pstep_inv s s' rest : inv_at s rest -> pstep s = Some s' -> exists rest', inv_at s' rest'.
Proof.
  intros H Hs. unfold pstep in Hs. destruct (ppc s) as [v|wait v|v|v| |v|v|v|v|v|v|r] eqn:E; try done.
  - exists rest. destruct (cancelled_ s); simplify_eq; apply set_ppc_inv; by rewrite ?E.
  - exists rest. pose proof (ring_is_full s rest H) as Hf. unfold Full in Hf. destruct (next (write_ s) =? read_ s).
    + destruct wait; simplify_eq; apply set_ppc_inv; by rewrite ?E.
    + simplify_eq. apply set_ppc_inv; rewrite ?E; try done. unfold producer_ok. cbn. unfold usable_capacity in Hf.
      destruct (Nat.eqb_spec (length rest) (Capacity - 1)); [done|]. pose proof (i_room _ _ H). lia.
  - exists rest. simplify_eq. by apply construct_inv.
  - exists (rest ++ [v]). simplify_eq. by apply publish_inv.
  - exists rest. simplify_eq. apply set_ppc_inv; [by apply notify_empty_inv|by rewrite notify_empty_ppc, E|done].
  - exists rest. apply bind_Some in Hs as (s1 & (H1 & E1 & _)%(lock_inv _ _ _ rest) & [= <-]); [|done]. apply set_ppc_inv; by rewrite ?E1, ?E.
  - exists rest. destruct (_ || _); simplify_eq; apply set_ppc_inv; by rewrite ?E.
  - exists rest. simplify_eq. apply set_ppc_inv; [by apply set_mu_inv|by cbn; rewrite E|done].
  - exists rest. apply bind_Some in Hs as (s1 & (H1 & E1 & _)%(lock_inv _ _ _ rest) & [= <-]); [|done]. apply set_ppc_inv; by rewrite ?E1, ?E.
  - exists rest. destruct (cancelled_ s); simplify_eq; (apply set_ppc_inv; [by apply set_mu_inv|by cbn; rewrite E|done]).
Qed.

Lemma cstep_inv over s s' rest : inv_at s rest -> cstep over s = Some s' -> exists rest', inv_at s' rest'.
Proof.
  intros H Hs. unfold cstep in Hs. destruct (cpc s) as [k|k|k v|k v| | | | |b|v] eqn:E; try done.
  - exists rest. pose proof (ring_is_empty s rest H) as He. destruct (read_ s =? write_ s); simplify_eq.
    + destruct k as [|[]| |]; cbn [on_empty]; apply set_cpc_inv; cbn; rewrite ?E; try done. by apply set_mu_inv.
    + apply set_cpc_inv; cbn; rewrite ?E; try done. unfold consumer_ok. cbn. by destruct rest.
  - exists rest. simplify_eq. by apply take_inv.
  - exists (tail rest). simplify_eq. by apply release_inv.
  - exists rest. cbv zeta in Hs. injection Hs as <-. pose proof (notify_full_inv s rest H) as Hn. pose proof (notify_full_cpc s) as En.
    assert (popped (notify_not_full s) = popped s) as Ep by (unfold notify_not_full; by destruct (ppc s)).
    pose proof (i_consumer _ _ H) as Hv. rewrite E in Hv. set (s1 := notify_not_full s) in *. clearbody s1.
    assert (forall s2, inv_at s2 rest -> cpc s2 = CNotify k v -> popped s2 = popped s -> inv_at (set_cpc s2 (CDone v)) rest) as Hd.
    { intros s2 H2 E2 P2. apply set_cpc_inv; [done|by rewrite E2|]. unfold consumer_ok. cbn. rewrite P2. by destruct v. }
    rewrite E in En. destruct (holds k); (apply Hd; [|done|done]); [by apply set_mu_inv|done].
  - exists rest. apply bind_Some in Hs as (s1 & (H1 & _ & E1)%(lock_inv _ _ _ rest) & [= <-]); [|done]. apply set_cpc_inv; by rewrite ?E1, ?E.
  - exists rest. destruct (cancelled_ s); simplify_eq; apply set_cpc_inv; cbn; rewrite ?E; try done. by apply set_mu_inv.
  - exists rest. simplify_eq. apply set_cpc_inv; cbn; rewrite ?E; try done. by apply set_mu_inv.
  - exists rest. destruct over; simplify_eq. by apply set_cpc_inv; rewrite ?E.
  - exists rest. apply bind_Some in Hs as (s1 & (H1 & _ & E1)%(lock_inv _ _ _ rest) & [= <-]); [|done]. apply set_cpc_inv; by rewrite ?E1, ?E.
Qed.

Lemma set_xpc_inv s rest x : inv_at s rest -> inv_at (set_xpc s x) rest.
Proof. intros H. by apply (inv_frame s); [| |..|apply H|apply H]. Qed.

Lemma xstep_inv s s' rest : inv_at s rest -> xstep s = Some s' -> inv_at s' rest.
Proof.
  intros H Hs. unfold xstep in Hs. destruct (xpc s); try done.
  - simplify_eq. apply set_xpc_inv. by apply (inv_frame s); [| |..|apply H|apply H].
  - apply bind_Some in Hs as (s1 & [H1 _]%(lock_inv _ _ _ rest) & [= <-]); [|done]. by apply set_xpc_inv, set_mu_inv.
  - simplify_eq. by apply set_xpc_inv, notify_full_inv, notify_empty_inv.
Qed.

Lemma ring_construct_ok : inv_at construct [].
Proof.
  pose proof capacity_pos. split; cbn; try done.
  - by rewrite Nat.Div0.mod_0_l.
  - apply length_replicate.
  - intros i Hi. rewrite lookup_replicate_2 by (apply Nat.mod_upper_bound; lia). unfold expected. cbn. rewrite andb_false_r.
    by destruct (i =? 0).
Qed.

Lemma ring_reached_inv s : reached s -> exists rest, inv_at s rest.
Proof.
  induction 1 as [|s s' _ [rest IH] Hs|s s' _ [rest IH] Hs|s s' _ [rest IH] Hs].
  - exists []. apply ring_construct_ok.
  - destruct Hs as [s s' H|over s s' H|s s' H|s s' [v r s1 E|v r s1 E|r s1 E|zero r s1 E]].
    + by eapply pstep_inv.
    + by eapply cstep_inv.
    + exists rest. by eapply xstep_inv.
    + exists rest. by apply set_ppc_inv; rewrite ?E.
    + exists rest. by apply set_ppc_inv; rewrite ?E.
    + exists rest. by apply set_cpc_inv; rewrite ?E.
    + exists rest. by apply set_cpc_inv; rewrite ?E.
  - exists rest. destruct Hs as [v s E|s E]; [apply set_ppc_inv|apply set_cpc_inv]; by rewrite ?E.
  - exists rest. destruct Hs. by apply set_xpc_inv.
Qed.

End Ring.

(** ** Properties *)

(** C37: the ring is a queue.  In every interleaving of the producer, the consumer
    and [Cancel], the values stored are those released and those in the ring, in
    their order; what a [Pop] returns is the last one released.  The ring holds
    at most [usable_capacity] values, [Size] counts them, and it is full exactly
    at that number.  A value is constructed only in raw storage, and taken out
    only of a slot that holds one. *)
Theorem ring_fifo (s : State) :
  power_of_2 -> reached s -> exists rest,
  Some <$> pushed s = popped s ++ (Some <$> rest) /\
  match cpc s with CDone (Some v) => last (popped s) = Some (Some v) | _ => True end /\
  length rest <= usable_capacity /\ Size s = length rest /\ Full s = (length rest =? usable_capacity) /\
  match ppc s with PWrite _ => buffer_ s !! write_ s = Some None | _ => True end /\
  match cpc s with CTake _ => exists v, buffer_ s !! read_ s = Some (Some v) | _ => True end.
Proof.
  intros Hpow [rest H]%ring_reached_inv; [|done]. exists rest. pose proof (ring_size s rest H) as Hs. pose proof (ring_is_full Hpow s rest H) as Hf.
  destruct H as [H1 H2 H3 H4 H5 H6 H7 H8]. split_and!; try done.
  - by destruct (cpc s) as [| | | | | | | | |[]].
  - unfold usable_capacity. lia.
  - destruct (ppc s) eqn:E; try done. rewrite H4, H6 by lia. unfold expected. rewrite Nat.ltb_irrefl, Nat.eqb_refl.
    by destruct (_ && _).
  - destruct (cpc s) eqn:E; try done. destruct rest as [|x rest]; [done|]. exists x.
    specialize (H6 0). rewrite Nat.add_0_r, Nat.mod_small in H6 by done. by rewrite H6 by lia.
Qed.

End RingBuffer.

Arguments State : clear implicits.

(** ** Runs *)

Section Runs.
Context {T : Type} (Capacity : nat).

(** One turn of the producer, or of the consumer. *)
Definition turn (producer : bool) (s : State T) : State T :=
  default s (if producer then pstep Capacity s else cstep Capacity false s).

Definition turns (ts : list bool) (s : State T) : State T := fold_left (fun s b => turn b s) ts s.

Lemma ring_turns_reached ts s : reached Capacity s -> reached Capacity (turns ts s).
Proof.
  revert s. induction ts as [|b ts IH]; intros s H; [done|]. apply IH. unfold turn.
  destruct b; [destruct (pstep _ s) eqn:E|destruct (cstep _ _ s) eqn:E]; try done.
  - eapply reached_step; [exact H|by eapply step_producer].
  - eapply reached_step; [exact H|by eapply step_consumer].
Qed.

(** A producer that sleeps on an empty ring while nothing is being taken out. *)
Record forgotten (w : T) (s : State T) : Prop := {
  fg_ppc : ppc s = PAsleep w;
  fg_xpc : xpc s = XDone;
  fg_empty : read_ s = write_ s;
  fg_cpc : match cpc s with CTake _ | CRelease _ _ | CNotify _ _ => False | _ => True end
}.

Lemma forgotten_step w s s' : forgotten w s -> step Capacity s s' -> forgotten w s'.
Proof.
  intros [H1 H2 H3 H4] Hs. destruct Hs as [s s' H|over s s' H|s s' H|s s' [v r s1 E|v r s1 E|r s1 E|zero r s1 E]]; try congruence.
  - unfold pstep in H. by rewrite H1 in H.
  - unfold cstep in H. destruct (cpc s) as [k|k|k v|k v| | | | |b|v] eqn:E; try done.
    + rewrite H3, Nat.eqb_refl in H. simplify_eq. by destruct k as [|[]| |]; split.
    + apply bind_Some in H as (s1 & ->%lock_ring & [= <-]). by split.
    + destruct (cancelled_ s); simplify_eq; by split.
    + simplify_eq. by split.
    + destruct over; simplify_eq. by split.
    + apply bind_Some in H as (s1 & ->%lock_ring & [= <-]). by split.
  - unfold xstep in H. by rewrite H2 in H.
  - by split.
  - by split.
Qed.

End Runs.

(** The producer stores [v] and finds the ring full for [w]; the consumer takes
    [v] out between the producer's test and its sleep. *)
Definition lost_run {T} (v w : T) : State T :=
  turns 2 [false; false; false; false; true]
    (set_cpc (turns 2 [true; true; true; true] (set_ppc (turns 2 [true; true; true; true] (set_ppc (construct 2) (PPush false v))) (PWait w)))
       (CPop Plain)).

(** A wake-up is lost.  [Pop] notifies without taking the mutex, so the
    notification can fall between the test of a [PushWait] and its sleep: the
    producer then sleeps although the ring is empty, and, short of [Cancel] or a
    spurious wake-up, for ever, whatever the consumer calls. *)
Theorem lost_wakeup {T} (v w : T) :
  exists s : State T, reached 2 s /\ ppc s = PAsleep w /\ Size 2 s = 0 /\ cpc s = CDone (Some v) /\
  forall s', rtc (step 2) s s' -> ppc s' = PAsleep w.
Proof.
  exists (lost_run v w). split.
  { apply ring_turns_reached. eapply reached_step; [|eapply step_start, start_Pop; reflexivity].
    apply ring_turns_reached. eapply reached_step; [|eapply step_start, start_PushWait; reflexivity].
    apply ring_turns_reached. eapply reached_step; [|eapply step_start, start_Push; reflexivity]. apply reached_new. }
  split_and!; [done..|]. intros s' H.
  assert (forgotten w (lost_run v w)) as Hf by done. revert Hf. induction H as [s|s s1 s2 Hs _ IH]; intros Hf; [apply Hf|].
  apply IH. by eapply forgotten_step.
Qed.

(** ** Witnesses *)

Definition demo_ring : State nat := turns 4 [true; true; true] (set_ppc (construct 4) (PPush false 7)).

Lemma demo_ring_reached : reached 4 demo_ring.
Proof. apply ring_turns_reached. eapply reached_step; [apply reached_new|]. eapply step_start, start_Push. reflexivity. Qed.

Lemma ring_fifo_witness : exists rest, Some <$> [7] = popped demo_ring ++ (Some <$> rest) /\ Size 4 demo_ring = length rest.
Proof.
  destruct (ring_fifo 4 demo_ring) as (rest & H1 & _ & _ & H2 & _); [split; [discriminate|reflexivity]|exact demo_ring_reached|].
  by exists rest.
Defined.
