(* ===== verification/Timer.v ===== *)
(** * Timer: the timers of the event loop

    Models include/vemory/util/Timer.h.  A [std::multimap] from times to nodes is
    the list of its entries in their order; a new entry goes behind those with
    the same key.  A node is an address of [nodes], the nodes that have not been
    deleted; addresses are not used twice.  Reading a deleted node, and going on
    from an erased iterator, is undefined and has no result here.  [TimerNode::id_]
    is never set or read, and the single instance lives to the end of the
    process.

    A callback may do anything but delete the timer it belongs to; the class
    [TimerCallbacks] states this of the code behind the callbacks, and the
    [steady_clock] is the class [Clock]. *)

From stdpp Require Import sorting.
From S2P Require Import Prelude.

(** ** The clock *)

(** The world outside the timer, whose clock is read in milliseconds. *)
Class Clock := {
  env : Type;
  now : env -> Z * env
}.

(** It does not go backwards, and is far from its end. *)
Class ClockLaws (K : Clock) := {
  time : env -> Z;
  time_range e : 0 <= time e < 2 ^ 62;
  now_time e : time e <= (now e).1 <= time (now e).2
}.

Section Timer.
Context {callback : Type} `{K : !Clock}.

Record TimerNode := mkNode {
  timeout_ : Z;
  callback_ : callback
}.

(** A timer that has run: its time, its node, and the time that was read. *)
Record Shot := mkShot { due : Z; node : nat; at_ : Z }.

(** The map and the nodes, the next address; and two records of the past that
    the program does not keep: the timers that have run and those deleted. *)
Record Timer := mkTimer {
  timer_map_ : list (Z * nat);
  nodes : gmap nat TimerNode;
  brk : nat;
  fired : list Shot;
  cancelled : list nat
}.

Definition construct : Timer := mkTimer [] ∅ 0 [] [].

(** What a handler or a callback works on. *)
Definition State : Type := Timer * env.

Definition GetCurrentTime (s : State) : Z * State := let '(t, e) := now s.2 in (t, (s.1, e)).

(** [insert] of the multimap. *)
Fixpoint insert (x : Z * nat) (l : list (Z * nat)) : list (Z * nat) :=
  match l with
  | [] => [x]
  | y :: l' => if x.1 <? y.1 then x :: l else y :: insert x l'
  end.

(** The key of the last entry. *)
Definition last_key (l : list (Z * nat)) : Z := default 0 (fst <$> last l).

Definition AddTimeout (diff : Z) (cb : callback) (s : State) : nat * State :=
  let '(t, s) := GetCurrentTime s in
  let tm := s.1 in
  let p := brk tm in
  let timeout := u64 (t + diff) in
  let map :=
    if is_empty (timer_map_ tm) || (timeout <? last_key (timer_map_ tm)) then insert (timeout, p) (timer_map_ tm)
    else timer_map_ tm ++ [(timeout, p)] in
  (p, (mkTimer map (<[p := mkNode timeout cb]> (nodes tm)) (S p) (fired tm) (cancelled tm), s.2)).

(** The loop over the equal range of [t]. *)
Fixpoint erase (t : Z) (p : nat) (l : list (Z * nat)) : option (list (Z * nat)) :=
  match l with
  | [] => None
  | y :: l' => if (y.1 =? t) && (y.2 =? p)%nat then Some l' else (fun r => y :: r) <$> erase t p l'
  end.

Definition DelTimeout (p : nat) (s : State) : option State :=
  let tm := s.1 in
  n ← nodes tm !! p;
  Some (match erase (timeout_ n) p (timer_map_ tm) with
        | Some map => (mkTimer map (delete p (nodes tm)) (brk tm) (fired tm) (cancelled tm ++ [p]), s.2)
        | None => s
        end).

(** The [int] that [epoll_wait] is given. *)
Definition WaitTime (s : State) : Z * State :=
  match timer_map_ s.1 with
  | [] => (-1, s)
  | (t, _) :: _ =>
      let '(c, s) := GetCurrentTime s in
      let diff := u64 (t - c) in
      (if 0 <? diff then i32 diff else 0, s)
  end.

(** The entry at the iterator, and the iterator that [erase] returns. *)
Fixpoint key_at (p : nat) (l : list (Z * nat)) : option Z :=
  match l with [] => None | y :: l' => if (y.2 =? p)%nat then Some y.1 else key_at p l' end.

Fixpoint next_of (p : nat) (l : list (Z * nat)) : option (option nat) :=
  match l with [] => None | y :: l' => if (y.2 =? p)%nat then Some (snd <$> head l') else next_of p l' end.

(** [delete iter->second] and the erasure, after the callback has run. *)
Definition retire (t : Z) (p : nat) (c : Z) (s : State) : option State :=
  let tm := s.1 in
  map ← erase t p (timer_map_ tm);
  Some (mkTimer map (delete p (nodes tm)) (brk tm) (fired tm ++ [mkShot t p c]) (cancelled tm), s.2).

(** What the code behind a callback does. *)
Context (invoke : callback -> State -> option State).

(** The loop of [HandleTimeout] at the iterator [iter] ([None] is the end), for
    [fuel] rounds; the flag tells whether it has come to its end. *)
Fixpoint HandleLoop (fuel : nat) (iter : option nat) (s : State) : option (State * bool) :=
  match fuel with
  | O => Some (s, false)
  | S fuel =>
      match iter with
      | None => Some (s, true)
      | Some p =>
          t ← key_at p (timer_map_ s.1);
          let '(c, s) := GetCurrentTime s in
          if t <=? c then
            n ← nodes s.1 !! p;
            s ← invoke (callback_ n) s;
            next ← next_of p (timer_map_ s.1);
            s ← retire t p c s;
            HandleLoop fuel next s
          else Some (s, true)
      end
  end.

Definition HandleTimeout (fuel : nat) (s : State) : option (State * bool) := HandleLoop fuel (snd <$> head (timer_map_ s.1)) s.

End Timer.

Arguments TimerNode : clear implicits.
Arguments Timer : clear implicits.
Arguments State callback {K}.

(** ** What handlers and callbacks may do *)

Section Calls.
Context {K : Clock} {L : ClockLaws K} {callback : Type} (d : Z).

(** Any number of calls, with delays of at least [d]; [self] is the timer whose
    callback it is. *)
Inductive calls (self : option nat) : State callback -> State callback -> Prop :=
| calls_refl s : calls self s s
| calls_add diff cb s s' : d <= diff < 2 ^ 62 -> calls self (AddTimeout diff cb s).2 s' -> calls self s s'
| calls_del p s s1 s' : Some p <> self -> DelTimeout p s = Some s1 -> calls self s1 s' -> calls self s s'
| calls_env e s s' : time s.2 <= time e -> calls self (s.1, e) s' -> calls self s s'.

(** The code behind the callbacks: it comes to its end, and does not delete the
    timer it belongs to. *)
Class TimerCallbacks (invoke : callback -> State callback -> option (State callback)) : Prop :=
  invoke_calls p n s : nodes s.1 !! p = Some n -> exists s', invoke (callback_ n) s = Some s' /\ calls (Some p) s s'.

End Calls.

(** ** Lemmas *)

(** Timers run in this order: by their times, and those of the same time in the
    order in which they were made. *)
Definition before (x y : Z * nat) : Prop := x.1 < y.1 \/ (x.1 = y.1 /\ (x.2 < y.2)%nat).

#[export] Instance before_trans : Transitive before.
Proof. intros x y z. unfold before. lia. Qed.

Lemma insert_perm x l : insert x l ≡ₚ x :: l.
Proof. induction l as [|y l IH]; cbn; [done|]. destruct (_ <? _); [done|]. rewrite IH. apply Permutation_swap. Qed.

Lemma insert_sorted x l :
  StronglySorted before l -> Forall (fun y => (y.2 < x.2)%nat) l -> StronglySorted before (insert x l).
Proof.
  induction l as [|y l IH]; intros Hs Hx; [by repeat constructor|].
  apply StronglySorted_cons in Hs as [Hy Hs]. apply Forall_cons_iff in Hx as [Hxy Hx]. cbn [insert].
  destruct (Z.ltb_spec x.1 y.1) as [Hlt|Hge].
  - assert (before x y) by by left. apply StronglySorted_cons. split; [|by apply StronglySorted_cons].
    constructor; [done|]. eapply Forall_impl; [exact Hy|]. cbn. intros z Hz. by etrans.
  - apply StronglySorted_cons. split; [|by apply IH]. rewrite insert_perm. constructor; [|done]. unfold before. lia.
Qed.

Lemma insert_last x l : Forall (fun y => y.1 <= x.1) l -> insert x l = l ++ [x].
Proof.
  induction 1 as [|y l Hy _ IH]; [done|]. cbn. destruct (Z.ltb_spec x.1 y.1); [lia|]. by rewrite IH.
Qed.

Lemma last_key_max l : StronglySorted before l -> Forall (fun y => y.1 <= last_key l) l.
Proof.
  intros Hs. destruct l as [|z l _] using rev_ind; [done|]. unfold last_key. rewrite last_snoc. cbn.
  apply StronglySorted_app in Hs as (H & _ & _). apply Forall_app. split; [|by constructor].
  apply Forall_forall. intros y Hy. specialize (H y z Hy ltac:(by apply list_elem_of_singleton)). unfold before in H. lia.
Qed.

Lemma erase_elem t p l : (t, p) ∈ l -> exists r, erase t p l = Some r.
Proof.
  induction l as [|y l IH]; [by intros ?%elem_of_nil|]. intros [<-|H]%elem_of_cons; cbn.
  - rewrite Z.eqb_refl, Nat.eqb_refl. by eexists.
  - destruct (_ && _); [by eexists|]. destruct (IH H) as [r ->]. by eexists.
Qed.

Lemma erase_split t p l r : erase t p l = Some r -> exists l1 l2, l = l1 ++ (t, p) :: l2 /\ r = l1 ++ l2.
Proof.
  revert r. induction l as [|y l IH]; intros r; cbn; [done|]. destruct (_ && _) eqn:E.
  - apply andb_true_iff in E as [E1%Z.eqb_eq E2%Nat.eqb_eq]. intros [= <-]. exists [], l. destruct y. cbn in *. by subst.
  - destruct (erase t p l) as [r'|]; [|done]. intros [= <-]. destruct (IH r' eq_refl) as (l1 & l2 & -> & ->).
    by exists (y :: l1), l2.
Qed.

Section Lemmas.
Context {K : Clock} {L : ClockLaws K} {callback : Type}.
Implicit Types s : State callback.

Definition timeline (tm : Timer callback) : list (Z * nat) := ((fun h => (due h, node h)) <$> fired tm) ++ timer_map_ tm.

(** The timers that have run and those that wait are in their order; none has run
    before its time; every timer ever made has run, waits or was deleted, one of
    the three and once; the map has the nodes. *)
Record timers_ok s : Prop := {
  ok_sorted : StronglySorted before (timeline s.1);
  ok_past : Forall (fun h => due h <= at_ h <= time s.2) (fired s.1);
  ok_all : (snd <$> timeline s.1) ++ cancelled s.1 ≡ₚ seq 0 (brk s.1);
  ok_nodes t p : (t, p) ∈ timer_map_ s.1 <-> timeout_ <$> nodes s.1 !! p = Some t;
  ok_range : Forall (fun x => 0 <= x.1 < 2 ^ 63) (timer_map_ s.1)
}.

Lemma ok_map_sorted s : timers_ok s -> StronglySorted before (timer_map_ s.1).
Proof. intros [H _ _ _ _]. by apply StronglySorted_app in H as (_ & _ & ?). Qed.

Lemma ok_elem s t p : timers_ok s -> (t, p) ∈ timeline s.1 -> (p < brk s.1)%nat.
Proof.
  intros [_ _ Ha _ _] H. assert (p ∈ seq 0 (brk s.1)) as Hp; [|by apply elem_of_seq in Hp; lia].
  rewrite <- Ha. apply elem_of_app. left. apply list_elem_of_fmap. by exists (t, p).
Qed.

Lemma ok_env s e : timers_ok s -> time s.2 <= time e -> timers_ok (s.1, e).
Proof.
  intros [H1 H2 H3 H4 H5] He. split; try done. cbn. eapply Forall_impl; [exact H2|]. cbn. lia.
Qed.

Lemma ok_construct e : timers_ok (construct, e).
Proof.
  split; cbn; try done; [constructor|]. intros t p. rewrite lookup_empty. split; [by intros ?%elem_of_nil|done].
Qed.

(** [AddTimeout] puts the new entry in its place. *)
Lemma AddTimeout_map diff cb s :
  timers_ok s -> 0 <= diff < 2 ^ 62 ->
  exists t e, time s.2 + diff <= t < 2 ^ 63 /\ time s.2 <= time e /\ t <= time e + diff /\
    AddTimeout diff cb s = (brk s.1, (mkTimer (insert (t, brk s.1) (timer_map_ s.1))
      (<[brk s.1 := mkNode t cb]> (nodes s.1)) (S (brk s.1)) (fired s.1) (cancelled s.1), e)).
Proof.
  intros Hok Hd. unfold AddTimeout, GetCurrentTime. pose proof (now_time s.2) as Hn. destruct (now s.2) as [c e]. cbn in *.
  pose proof (time_range s.2). pose proof (time_range e). rewrite u64_small by lia. exists (c + diff), e. split_and!; try lia.
  do 3 f_equal. destruct (is_empty _) eqn:E1; [done|]. destruct (Z.ltb_spec (c + diff) (last_key (timer_map_ s.1))) as [|Hge]; [done|].
  cbn. symmetry. apply insert_last. eapply Forall_impl; [apply last_key_max; by apply ok_map_sorted|]. cbn. lia.
Qed.

Lemma ok_add diff cb s :
  timers_ok s -> 0 <= diff < 2 ^ 62 -> timers_ok (AddTimeout diff cb s).2.
Proof.
  intros Hok Hd. destruct (AddTimeout_map diff cb s Hok Hd) as (t & e & Ht & He & _ & ->).
  pose proof (ok_map_sorted s Hok) as Hm. pose proof (ok_elem s) as Hlt. pose proof Hok as [H1 H2 H3 H4 H5]. split; cbn [fst snd brk fired nodes cancelled timer_map_].
  - unfold timeline in *. cbn. apply StronglySorted_app in H1 as (Ha & Hb & _). apply StronglySorted_app. split_and!; [|done|].
    + intros x1 x2 Hx1. rewrite insert_perm, elem_of_cons. intros [->|Hx2]; [|by apply Ha].
      apply list_elem_of_fmap in Hx1 as (h & -> & Hh). rewrite Forall_forall in H2. specialize (H2 h Hh). unfold before. cbn.
      assert (node h < brk s.1)%nat; [|lia]. apply (Hlt (due h)); [done|]. unfold timeline. apply elem_of_app. left. apply list_elem_of_fmap. by exists h.
    + apply insert_sorted; [done|]. apply Forall_forall. intros [t' p'] Hx. cbn. apply (Hlt t'); [done|]. unfold timeline. apply elem_of_app. by right.
  - eapply Forall_impl; [exact H2|]. cbn. lia.
  - rewrite seq_S, <- H3. unfold timeline. cbn. rewrite !fmap_app, insert_perm. cbn. solve_Permutation.
  - intros t' p'. rewrite insert_perm, elem_of_cons. destruct (decide (p' = brk s.1)) as [->|Hne].
    + rewrite lookup_insert_eq. cbn. split; [|intros [= ->]; by left]. intros [[= ->]|Hx]; [done|].
      exfalso. assert (brk s.1 < brk s.1)%nat; [|lia]. apply (Hlt t'); [done|]. unfold timeline. apply elem_of_app. by right.
    + rewrite lookup_insert_ne by done. rewrite <- H4. split; [|by right]. by intros [[= ? ?]|].
  - rewrite insert_perm. constructor; [cbn; pose proof (time_range s.2); lia|done].
Qed.

(** A timer waits in one place. *)
Lemma ok_once s : timers_ok s -> NoDup (snd <$> timer_map_ s.1).
Proof.
  intros [_ _ H _ _]. assert (NoDup ((snd <$> timeline s.1) ++ cancelled s.1)) as Hn by (rewrite H; apply NoDup_seq).
  apply NoDup_app in Hn as [Hn _]. unfold timeline in Hn. rewrite fmap_app in Hn. by apply NoDup_app in Hn as (_ & _ & ?).
Qed.

(** An entry leaves the map with its node. *)
Lemma ok_leave s t p l1 l2 :
  timers_ok s -> timer_map_ s.1 = l1 ++ (t, p) :: l2 ->
  (forall t' p', (t', p') ∈ l1 ++ l2 <-> timeout_ <$> delete p (nodes s.1) !! p' = Some t') /\
  Forall (fun x => 0 <= x.1 < 2 ^ 63) (l1 ++ l2).
Proof.
  intros Hok Hl. pose proof (ok_once s Hok) as Hn. destruct Hok as [_ _ _ H4 H5]. rewrite Hl in Hn, H4, H5. split.
  - intros t' p'. rewrite fmap_app in Hn. cbn in Hn. destruct (decide (p' = p)) as [->|Hne].
    + rewrite lookup_delete_eq. cbn. split; [|done]. intros Hx. exfalso.
      assert (p ∈ (snd <$> l1) ++ (snd <$> l2)) as Hp by (rewrite <- fmap_app; apply list_elem_of_fmap; by exists (t', p)).
      rewrite <- Permutation_middle in Hn. by apply NoDup_cons in Hn as [? _].
    + rewrite lookup_delete_ne, <- H4 by done. rewrite !elem_of_app, elem_of_cons. split; [tauto|].
      intros [?|[[= _ ?]|?]]; tauto.
  - apply Forall_app in H5 as [? [_ ?]%Forall_cons_iff]. by apply Forall_app.
Qed.

(** [DelTimeout] of a timer that waits. *)
Lemma DelTimeout_map p s s1 :
  timers_ok s -> DelTimeout p s = Some s1 ->
  exists t l1 l2, timer_map_ s.1 = l1 ++ (t, p) :: l2 /\
    s1 = (mkTimer (l1 ++ l2) (delete p (nodes s.1)) (brk s.1) (fired s.1) (cancelled s.1 ++ [p]), s.2).
Proof.
  intros Hok H. unfold DelTimeout in H. destruct (nodes s.1 !! p) as [n|] eqn:En; [|done]. cbn in H.
  assert ((timeout_ n, p) ∈ timer_map_ s.1) as Hp by (apply (ok_nodes s Hok); by rewrite En).
  destruct (erase_elem _ _ _ Hp) as [r Hr]. destruct (erase_split _ _ _ _ Hr) as (l1 & l2 & Hl & ->). rewrite Hr in H. injection H as <-.
  by exists (timeout_ n), l1, l2.
Qed.

Lemma ok_del p s s1 : timers_ok s -> DelTimeout p s = Some s1 -> timers_ok s1.
Proof.
  intros Hok (t & l1 & l2 & Hl & ->)%DelTimeout_map; [|done]. destruct (ok_leave s t p l1 l2 Hok Hl) as [N1 N2].
  destruct Hok as [H1 H2 H3 H4 H5]. split; cbn [fst snd fired timer_map_ brk nodes cancelled]; try done.
  - unfold timeline in *. cbn. rewrite Hl in H1. rewrite app_assoc in *. apply StronglySorted_app in H1 as (A1 & A2 & A3).
    apply StronglySorted_cons in A3 as [_ A3]. apply StronglySorted_app. split_and!; try done. intros x1 x2 E1 E2. apply A1; [done|by right].
  - rewrite <- H3. unfold timeline. cbn. rewrite Hl, !fmap_app. cbn. solve_Permutation.
Qed.

(** The first entry is retired. *)
Lemma ok_retire s t p l c :
  timers_ok s -> timer_map_ s.1 = (t, p) :: l -> t <= c <= time s.2 ->
  exists s', retire t p c s = Some s' /\ timers_ok s' /\ s'.2 = s.2 /\ timer_map_ s'.1 = l.
Proof.
  intros Hok Hl Hc. unfold retire. rewrite Hl. cbn. rewrite Z.eqb_refl, Nat.eqb_refl. cbn. eexists. split; [done|].
  destruct (ok_leave s t p [] l Hok Hl) as [N1 N2]. destruct Hok as [H1 H2 H3 H4 H5].
  split; [|done]. split; cbn [fst snd fired timer_map_ brk nodes cancelled]; try done.
  - unfold timeline in *. cbn. rewrite Hl in H1. by rewrite fmap_app, <- app_assoc.
  - apply Forall_app. split; [done|]. by constructor.
  - rewrite <- H3. unfold timeline. cbn. rewrite Hl, !fmap_app. cbn. by rewrite <- !app_assoc.
Qed.

(** How many timers are due before [T]. *)
Definition due_before (T : Z) (l : list (Z * nat)) : nat := length (filter (fun x => x.1 < T) l).

Lemma due_before_cons T x l : x.1 < T -> due_before T (x :: l) = S (due_before T l).
Proof. intros H. unfold due_before. by rewrite filter_cons_True. Qed.

Lemma due_before_none T l : due_before (T + 1) l = O <-> Forall (fun x => T < x.1) l.
Proof.
  unfold due_before. induction l as [|x l IH]; [by split|]. rewrite filter_cons, Forall_cons_iff. case_decide; cbn.
  - split; [done|]. intros [? _]. lia.
  - rewrite IH. split; [intros; split; [lia|done]|by intros [_ ?]].
Qed.

Lemma due_before_le T l : (due_before T l <= length l)%nat.
Proof. apply length_filter. Qed.

(** What handlers and callbacks leave as it is; [self] stays the first. *)
Lemma calls_ok d self s s' :
  0 <= d -> calls d self s s' -> timers_ok s ->
  timers_ok s' /\ time s.2 <= time s'.2 /\ fired s'.1 = fired s.1 /\
  (forall T, T <= time s.2 + d -> (due_before T (timer_map_ s'.1) <= due_before T (timer_map_ s.1))%nat) /\
  (forall t p l, self = Some p -> timer_map_ s.1 = (t, p) :: l -> t <= time s.2 -> exists l', timer_map_ s'.1 = (t, p) :: l').
Proof.
  intros Hd. induction 1 as [s|diff cb s s' Hdiff _ IH|p s s1 s' Hp Hdel _ IH|e s s' He _ IH]; intros Hok.
  - split_and!; try done; eauto.
  - destruct (AddTimeout_map diff cb s Hok ltac:(lia)) as (t & e & Ht & He & _ & E).
    pose proof (ok_add diff cb s Hok ltac:(lia)) as Hok1. rewrite E in IH, Hok1. destruct (IH Hok1) as (A1 & A2 & A3 & A4 & A5).
    cbn in A2, A3, A4, A5. split_and!; try done; [lia| |].
    + intros T HT. etrans; [apply A4; lia|]. unfold due_before. cbn. rewrite insert_perm.
      rewrite filter_cons_False by (cbn; lia). done.
    + intros t0 p l Hs Hl Ht0. rewrite Hl in A5. cbn in A5.
      destruct (Z.ltb_spec t t0); [lia|]. eapply A5; [done..|lia].
  - pose proof (ok_del p s s1 Hok Hdel) as Hok1. destruct (DelTimeout_map p s s1 Hok Hdel) as (t & l1 & l2 & Hl & ->).
    destruct (IH Hok1) as (A1 & A2 & A3 & A4 & A5). cbn in A2, A3, A4, A5. split_and!; try done.
    + intros T HT. etrans; [apply A4; lia|]. rewrite Hl. unfold due_before. rewrite !filter_app, !length_app, filter_cons.
      case_decide; cbn; lia.
    + intros t0 q l -> Hl' Ht0. rewrite Hl in Hl'. destruct l1 as [|x l1]; cbn in Hl'; [by injection Hl' as _ -> _|].
      injection Hl' as -> _. by eapply A5.
  - destruct (IH (ok_env s e Hok He)) as (A1 & A2 & A3 & A4 & A5). cbn in *. split_and!; try done; [lia| |].
    + intros T HT. apply A4. lia.
    + intros t p l Hs Hl Ht. eapply A5; [done..|lia].
Qed.

End Lemmas.

#[local] Arguments due_before : simpl never.

(** ** Rounds *)

Section Rounds.
Context {K : Clock} {L : ClockLaws K} {callback : Type} (d : Z) (Hd : 0 < d).
Context (invoke : callback -> State callback -> option (State callback)) {C : TimerCallbacks d invoke}.
Implicit Types s : State callback.

(** One turn of the loop, at the first entry. *)
Lemma HandleLoop_fire fuel s t p l :
  timers_ok s -> timer_map_ s.1 = (t, p) :: l -> t <= (now s.2).1 ->
  exists s', HandleLoop invoke (S fuel) (Some p) s = HandleLoop invoke fuel (snd <$> head (timer_map_ s'.1)) s' /\
    timers_ok s' /\ (now s.2).1 <= time s'.2 /\
    exists h, fired s'.1 = fired s.1 ++ [h] /\
    forall T, t < T -> T <= (now s.2).1 + d -> (due_before T (timer_map_ s'.1) < due_before T (timer_map_ s.1))%nat.
Proof.
  intros Hok Hl Ht. cbn [HandleLoop]. rewrite Hl. cbn [key_at snd mbind option_bind]. rewrite Nat.eqb_refl. cbn [mbind option_bind].
  unfold GetCurrentTime. pose proof (now_time s.2) as Hn. destruct (now s.2) as [c e]. cbn in Ht, Hn |- *.
  destruct (Z.leb_spec t c); [|lia]. pose proof (ok_env s e Hok ltac:(lia)) as Hok1.
  destruct (nodes s.1 !! p) as [n|] eqn:En.
  2:{ exfalso. assert ((t, p) ∈ timer_map_ s.1) as Hp by (rewrite Hl; by left). apply (ok_nodes s Hok) in Hp. by rewrite En in Hp. }
  cbn [mbind option_bind]. destruct (C p n (s.1, e) En) as (s1 & -> & Hcalls). cbn [mbind option_bind].
  destruct (calls_ok d (Some p) _ _ ltac:(lia) Hcalls Hok1) as (A1 & A2 & A3 & A4 & A5). cbn in A2, A3, A4.
  destruct (A5 t p l eq_refl Hl ltac:(cbn; lia)) as [l' Hl']. rewrite Hl'. cbn [next_of snd]. rewrite Nat.eqb_refl. cbn [mbind option_bind].
  destruct (ok_retire s1 t p l' c A1 Hl' ltac:(lia)) as (s2 & E2 & B1 & B2 & B3). rewrite E2. cbn [mbind option_bind].
  exists s2. rewrite B3. split_and!; try done; [rewrite B2; lia|]. exists (mkShot t p c). split.
  { unfold retire in E2. rewrite Hl' in E2. cbn in E2. rewrite Z.eqb_refl, Nat.eqb_refl in E2. injection E2 as <-. cbn. by rewrite A3. }
  intros T HT1 HT2. specialize (A4 T ltac:(lia)). rewrite Hl', Hl in A4. rewrite !due_before_cons in A4 by done. rewrite due_before_cons by done. lia.
Qed.

(** The loop ends at the first timer that is not due. *)
Lemma HandleLoop_stop fuel s t p l :
  timer_map_ s.1 = (t, p) :: l -> (now s.2).1 < t ->
  HandleLoop invoke (S fuel) (Some p) s = Some ((s.1, (now s.2).2), true).
Proof.
  intros Hl Ht. cbn [HandleLoop]. rewrite Hl. cbn [key_at snd]. rewrite Nat.eqb_refl. cbn [mbind option_bind].
  unfold GetCurrentTime. destruct (now s.2) as [c e]. cbn in Ht |- *. by destruct (Z.leb_spec t c); [lia|].
Qed.

(** Either the loop comes to its end, with every timer run that was due at [T0],
    or it goes on until the shortest delay has passed. *)
Lemma HandleLoop_ends fuel s T0 :
  timers_ok s -> T0 <= time s.2 -> T0 + d <= time s.2 \/ (due_before (T0 + d) (timer_map_ s.1) < fuel)%nat ->
  exists s' b, HandleLoop invoke fuel (snd <$> head (timer_map_ s.1)) s = Some (s', b) /\ timers_ok s' /\ time s.2 <= time s'.2 /\
    (if b then Forall (fun x => T0 < x.1) (timer_map_ s'.1) else T0 + d <= time s'.2).
Proof.
  revert s. induction fuel as [|fuel IH]; intros s Hok HT Hf.
  { exists s, false. split_and!; try done. destruct Hf; lia. }
  pose proof (now_time s.2) as Hn. destruct (timer_map_ s.1) as [|[t p] l] eqn:Hl.
  { exists s, true. split_and!; try done. by rewrite Hl. }
  change (snd <$> head ((t, p) :: l)) with (Some p). destruct (Z.leb_spec t (now s.2).1) as [Ht|Ht].
  - destruct (HandleLoop_fire fuel s t p l Hok Hl Ht) as (s1 & -> & Hok1 & Htime & _ & _ & Hdue). rewrite Hl in Hdue.
    destruct (IH s1 Hok1) as (s' & b & E & A1 & A2 & A3); [lia| |exists s', b; split_and!; try done; lia].
    destruct (Z.leb_spec (T0 + d) (time s1.2)) as [|Hearly]; [by left|right].
    destruct Hf as [Hf|Hf]; [lia|]. specialize (Hdue (T0 + d) ltac:(lia) ltac:(lia)). lia.
  - rewrite (HandleLoop_stop fuel s t p l Hl Ht). eexists _, true. split; [done|]. cbn [fst snd].
    split; [apply ok_env; [done|lia]|]. split; [lia|]. pose proof (ok_map_sorted s Hok) as Hs. rewrite Hl in Hs |- *.
    apply StronglySorted_cons in Hs as [Hs _]. constructor; [cbn; lia|]. eapply Forall_impl; [exact Hs|]. unfold before. cbn. lia.
Qed.

(** A round, with steps for all timers that wait, and more. *)
Lemma round_ends more s :
  timers_ok s -> exists s' b, HandleTimeout invoke (more + S (length (timer_map_ s.1))) s = Some (s', b) /\ timers_ok s' /\ time s.2 <= time s'.2 /\
    (if b then Forall (fun x => time s.2 < x.1) (timer_map_ s'.1) else time s.2 + d <= time s'.2).
Proof.
  intros Hok. apply (HandleLoop_ends _ s (time s.2) Hok); [lia|]. right.
  pose proof (due_before_le (time s.2 + d) (timer_map_ s.1)). lia.
Qed.

(** Everything a process does with its timers. *)
Inductive reached : State callback -> Prop :=
| reached_new e : reached (construct, e)
| reached_calls s s' : reached s -> calls d None s s' -> reached s'
| reached_round s fuel s' b : reached s -> HandleTimeout invoke fuel s = Some (s', b) -> reached s'.

Lemma reached_env s s' : reached s -> s'.1 = s.1 -> time s.2 <= time s'.2 -> reached s'.
Proof.
  intros Hr E Ht. eapply reached_calls; [exact Hr|]. apply (calls_env _ _ s'.2); [done|]. rewrite <- E, <- surjective_pairing. apply calls_refl.
Qed.

Lemma HandleTimeout_ok fuel s s' b : timers_ok s -> HandleTimeout invoke fuel s = Some (s', b) -> timers_ok s'.
Proof.
  unfold HandleTimeout. revert s. induction fuel as [|fuel IH]; intros s Hok; [by intros [= <- _]|].
  destruct (timer_map_ s.1) as [|[t p] l] eqn:Hl; [by intros [= <- _]|].
  change (snd <$> head ((t, p) :: l)) with (Some p). destruct (Z.leb_spec t (now s.2).1) as [Ht|Ht].
  - destruct (HandleLoop_fire fuel s t p l Hok Hl Ht) as (s1 & -> & Hok1 & _). by apply IH.
  - rewrite (HandleLoop_stop fuel s t p l Hl Ht). intros [= <- _]. pose proof (now_time s.2). apply ok_env; [done|lia].
Qed.

Lemma timers_reached_ok s : reached s -> timers_ok s.
Proof.
  induction 1 as [e|s s' _ IH Hc|s fuel s' b _ IH Hr]; [apply ok_construct| |by eapply HandleTimeout_ok].
  by apply (calls_ok d None s s' ltac:(lia) Hc IH).
Qed.

End Rounds.

(** ** Properties *)

Section Properties.
Context {K : Clock} {L : ClockLaws K} {callback : Type} (d : Z).
Context (invoke : callback -> State callback -> option (State callback)).

(** C38: every timer runs once, in its turn and not before its time.  Whatever
    handlers and callbacks do with the timers -- callbacks that set new timers
    and delete others while the map is being walked included -- each timer ever
    made waits, has run or was deleted, exactly one of the three; those that have
    run did so in the order of their times, and those of the same time in the
    order in which they were made; none ran before its time.  And a round of
    [HandleTimeout] never goes wrong: within as many steps as timers wait it has
    either come to its end, with every timer run or deleted that was due when it
    began, or it has taken as long as the shortest delay that callbacks ask for. *)
Theorem timers_run (s : State callback) :
  0 < d -> TimerCallbacks d invoke -> reached d invoke s ->
  (snd <$> timeline s.1) ++ cancelled s.1 ≡ₚ seq 0 (brk s.1) /\
  StronglySorted before (timeline s.1) /\
  Forall (fun h => due h <= at_ h) (fired s.1) /\
  exists s' ended, HandleTimeout invoke (S (length (timer_map_ s.1))) s = Some (s', ended) /\
    if ended then Forall (fun x => time s.2 < x.1) (timer_map_ s'.1) else time s.2 + d <= time s'.2.
Proof.
  intros Hd C Hr. pose proof (timers_reached_ok d Hd invoke s Hr) as Hok. pose proof Hok as [H1 H2 H3 _ _]. split_and!; try done.
  - eapply Forall_impl; [exact H2|]. cbn. lia.
  - destruct (round_ends d Hd invoke 0 s Hok) as (s' & b & E & _ & _ & H). by exists s', b.
Qed.

End Properties.

(** ** Witnesses *)

(** A clock that is set by hand. *)
#[local] Instance demo_clock : Clock := {| env := Z; now e := (Z.max 0 (Z.min (2 ^ 62 - 1) e), e) |}.

#[local] Instance demo_clock_laws : ClockLaws demo_clock.
Proof. refine {| time := fun e : @env demo_clock => Z.max 0 (Z.min (2 ^ 62 - 1) e) |}; cbn; lia. Defined.

(** A callback that sets the next of [n] timers, ten milliseconds later. *)
Definition demo_invoke (n : nat) (s : State nat) : option (State nat) :=
  match n with O => Some s | S n => Some (AddTimeout 10 n s).2 end.

Lemma demo_callbacks : TimerCallbacks 10 demo_invoke.
Proof.
  intros p [t [|n]] s _; eexists; (split; [done|]); [apply calls_refl|]. eapply calls_add; [|apply calls_refl]. lia.
Qed.

(** Two timers, the second before the first; both are due. *)
Definition demo_timers : State nat := ((AddTimeout 20 0%nat (AddTimeout 30 2%nat (construct, 5)).2).2.1, 50).

Lemma demo_timers_reached : reached 10 demo_invoke demo_timers.
Proof.
  eapply reached_calls; [apply (reached_new _ _ (5 : @env demo_clock))|]. eapply (calls_add _ _ 30 2%nat); [lia|].
  eapply (calls_add _ _ 20 0%nat); [lia|]. apply (calls_env _ _ (50 : @env demo_clock)); [cbn; lia|apply calls_refl].
Qed.

Lemma timers_run_witness : exists s' ended, HandleTimeout demo_invoke 3 demo_timers = Some (s', ended) /\
  timer_map_ demo_timers.1 = [(25, 1%nat); (35, 0%nat)] /\
  if ended then Forall (fun x => 50 < x.1) (timer_map_ s'.1) else 60 <= time s'.2.
Proof.
  destruct (timers_run 10 demo_invoke demo_timers) as (_ & _ & _ & s' & b & H1 & H2).
  - lia.
  - exact demo_callbacks.
  - exact demo_timers_reached.
  - exists s', b. split; [exact H1|]. split; [vm_compute; reflexivity|exact H2].
Defined.
