(* ===== verification/EventLoop.v ===== *)
(** * EventLoop: epoll, timers and the idle callback

    Models include/vemory/net/EventLoop.h over Timer.v.  The kernel's side of
    epoll is the class [Epoll]: its state is part of [env], what is known of its
    calls is [EpollLaws].  A pointer to an [IoHandler] is a value of [handler],
    and the code behind handlers, timer callbacks and the idle callback is what
    the class [LoopCallbacks] says: it ends, and does to the timers only what a
    handler may do ([calls]). *)

From S2P Require Import Prelude.
From S2P Require Import Timer.

Definition kMaxEvents : nat := 1024.

Inductive CtlOp := CtlAdd | CtlMod | CtlDel.

(** What [epoll_wait] returns: the events of ready descriptors, or -1 and
    whether [errno] is [EINTR]. *)
Inductive Waited (handler : Type) := Ready (evs : list (Z * handler)) | WaitFailed (eintr : bool).
Arguments Ready {handler}.
Arguments WaitFailed {handler}.

(** [epoll_wait] has no result when it blocks for ever. *)
Class Epoll (K : Clock) := {
  handler : Type;
  epoll_create1 : env -> Z * env;
  epoll_ctl : Z -> CtlOp -> Z -> option (Z * handler) -> env -> bool * env;
  epoll_wait : Z -> nat -> Z -> env -> option (Waited handler * env);
  close_fd : Z -> env -> env
}.

(** epoll_wait(2): without an event it returns when the time has passed, and a
    negative time is infinite. *)
Class EpollLaws (K : Clock) (L : ClockLaws K) (E : Epoll K) := {
  quiet : env -> Prop;        (** no descriptor will be ready, and no signal come *)
  quiet_now e : quiet e -> quiet (now e).2;
  wait_time epfd n timeout e w e' : epoll_wait epfd n timeout e = Some (w, e') ->
    time e <= time e' /\ (w = Ready [] -> 0 <= timeout /\ time e + timeout <= time e');
  wait_returns epfd n timeout e : 0 <= timeout -> is_Some (epoll_wait epfd n timeout e);
  wait_quiet epfd n timeout e : quiet e -> timeout < 0 -> epoll_wait epfd n timeout e = None
}.

Section EventLoop.
Context {callback : Type} {K : Clock} {E : Epoll K}.

(** [idle] is the type of idle callbacks. *)
Context {idle : Type}.

Record EventLoop := mkLoop {
  epfd_ : Z;
  idle_ : option idle
}.

(** The constructor; [None]: the process exits. *)
Definition construct (e : env) : option (EventLoop * env) :=
  let '(fd, e) := epoll_create1 e in if fd =? -1 then None else Some (mkLoop fd None, e).

Definition destroy (lp : EventLoop) (e : env) : env := close_fd (epfd_ lp) e.

Definition SetIdleCallback (cb : option idle) (lp : EventLoop) : EventLoop := mkLoop (epfd_ lp) cb.

(** A failure is logged, and nothing else. *)
Definition AddEvent (lp : EventLoop) (fd events : Z) (ptr : handler) (e : env) : env :=
  (epoll_ctl (epfd_ lp) CtlAdd fd (Some (events, ptr)) e).2.

Definition ModEvent (lp : EventLoop) (fd events : Z) (ptr : handler) (e : env) : env :=
  (epoll_ctl (epfd_ lp) CtlMod fd (Some (events, ptr)) e).2.

Definition DelEvent (lp : EventLoop) (fd : Z) (e : env) : env := (epoll_ctl (epfd_ lp) CtlDel fd None e).2.

(** The code behind the callbacks. *)
Context (invoke : callback -> State callback -> option (State callback)).
Context (handle : handler -> Z -> State callback -> option (State callback)).
Context (on_idle : idle -> State callback -> option (State callback)).

(** The handlers of the events, in their order. *)
Fixpoint dispatch (evs : list (Z * handler)) (s : State callback) : option (State callback) :=
  match evs with
  | [] => Some s
  | (ev, h) :: evs => s ← handle h ev s; dispatch evs s
  end.

(** What a turn of [Run] comes to: the next turn, having been interrupted or not;
    the return of [Run]; [epoll_wait] blocks for ever; or it is still in the loop
    of [HandleTimeout] when the steps it was given are used up. *)
Inductive Turn := Next (s : State callback) | Interrupted (s : State callback) | Returns (s : State callback)
  | Sleeps | Busy (s : State callback).

(** One turn of the loop of [Run]; [None] is undefined behaviour.  The loop of
    [HandleTimeout], which lasts while callbacks take so long that the timers they
    set are due, is followed for as many steps as timers wait, and [more]. *)
Definition Run_turn (more : nat) (lp : EventLoop) (s : State callback) : option Turn :=
  let '(timeout, s) := WaitTime s in
  match epoll_wait (epfd_ lp) kMaxEvents timeout s.2 with
  | None => Some Sleeps
  | Some (WaitFailed true, e) => Some (Interrupted (s.1, e))
  | Some (WaitFailed false, e) => Some (Returns (s.1, e))
  | Some (Ready evs, e) =>
      s ← dispatch evs (s.1, e);
      '(s, ended) ← HandleTimeout invoke (more + S (length (timer_map_ s.1))) s;
      if ended : bool then
        match idle_ lp with
        | Some cb => Next <$> on_idle cb s
        | None => Some (Next s)
        end
      else Some (Busy s)
  end.

(** [n] turns, as far as they go on and come to their ends. *)
Fixpoint Run (more n : nat) (lp : EventLoop) (s : State callback) : option Turn :=
  match n with
  | O => Some (Next s)
  | S n =>
      t ← Run_turn more lp s;
      match t with Next s | Interrupted s => Run more n lp s | _ => Some t end
  end.

End EventLoop.

Arguments EventLoop : clear implicits.
Arguments Turn : clear implicits.
Arguments Turn callback {K}.

(** ** What the callbacks do *)

Class LoopCallbacks {K : Clock} {L : ClockLaws K} {E : Epoll K} {callback idle : Type} (d : Z)
    (invoke : callback -> State callback -> option (State callback))
    (handle : handler -> Z -> State callback -> option (State callback))
    (on_idle : idle -> State callback -> option (State callback)) : Prop := {
  loop_timers :: TimerCallbacks d invoke;
  loop_handle h ev s : exists s', handle h ev s = Some s' /\ calls d None s s';
  loop_idle cb s : exists s', on_idle cb s = Some s' /\ calls d None s s'
}.

(** ** Lemmas *)

Section Lemmas.
Context {K : Clock} {L : ClockLaws K} {E : Epoll K} {callback idle : Type} (d : Z) (Hd : 0 < d).
Context (invoke : callback -> State callback -> option (State callback)).
Context (handle : handler -> Z -> State callback -> option (State callback)).
Context (on_idle : idle -> State callback -> option (State callback)).
Context {C : LoopCallbacks d invoke handle on_idle}.
Implicit Types s : State callback.

Lemma calls_time self s s' : calls d self s s' -> timers_ok s -> time s.2 <= time s'.2.
Proof. intros H Hok. by destruct (calls_ok d self s s' ltac:(lia) H Hok) as (_ & ? & _). Qed.

Lemma dispatch_calls evs s : timers_ok s -> exists s', dispatch handle evs s = Some s' /\ timers_ok s' /\ time s.2 <= time s'.2 /\
  (reached d invoke s -> reached d invoke s').
Proof.
  revert s. induction evs as [|[ev h] evs IH]; intros s Hok; [exists s; split_and!; done|]. cbn [dispatch].
  destruct (loop_handle (LoopCallbacks := C) h ev s) as (s1 & -> & Hc). cbn [mbind option_bind].
  destruct (calls_ok d None s s1 ltac:(lia) Hc Hok) as (Hok1 & Ht & _). destruct (IH s1 Hok1) as (s' & -> & A1 & A2 & A3).
  exists s'. split_and!; try done; [lia|]. intros Hr. apply A3. by eapply reached_calls.
Qed.

(** What is known of the time that [epoll_wait] is given. *)
Lemma WaitTime_spec s :
  timers_ok s ->
  (WaitTime s).2.1 = s.1 /\ time s.2 <= time (WaitTime s).2.2 /\
  match timer_map_ s.1 with
  | [] => (WaitTime s).1 = -1
  | (t, _) :: _ => time s.2 <= (now s.2).1 <= time (WaitTime s).2.2 /\ (WaitTime s).2.2 = (now s.2).2 /\
      (0 <= t - (now s.2).1 < 2 ^ 31 -> (WaitTime s).1 = t - (now s.2).1) /\
      (- 2 ^ 31 <= t - (now s.2).1 < 0 -> (WaitTime s).1 = t - (now s.2).1)
  end.
Proof.
  intros Hok. unfold WaitTime. pose proof (ok_range s Hok) as Hr. destruct (timer_map_ s.1) as [|[t p] l]; [cbn; split_and!; done || lia|].
  apply Forall_cons_iff in Hr as [Hr _]. cbn in Hr. unfold GetCurrentTime. pose proof (now_time s.2) as Hn.
  pose proof (time_range s.2). pose proof (time_range (now s.2).2).
  destruct (now s.2) as [c e]. cbn in *. split_and!; try done; try lia.
  - intros Hc. rewrite u64_small by lia. destruct (Z.ltb_spec 0 (t - c)); [|lia]. unfold i32. rewrite Z.mod_small by lia. lia.
  - intros Hc. assert (u64 (t - c) = t - c + 2 ^ 64) as -> by (unfold u64; symmetry; apply Zmod_unique with (-1); lia).
    destruct (Z.ltb_spec 0 (t - c + 2 ^ 64)); [|lia]. unfold i32.
    replace (t - c + 2 ^ 64 + 2 ^ 31) with (t - c + 2 ^ 31 + 2 ^ 32 * 2 ^ 32) by lia. rewrite Z_mod_plus_full, Z.mod_small by lia. lia.
Qed.

End Lemmas.

Section Turns.
Context {K : Clock} {E : Epoll K} {callback idle : Type}.
Context (invoke : callback -> State callback -> option (State callback)).
Context (handle : handler -> Z -> State callback -> option (State callback)).
Context (on_idle : idle -> State callback -> option (State callback)).

Lemma Run_app more n m (lp : EventLoop idle) s s1 :
  Run invoke handle on_idle more n lp s = Some (Next s1) ->
  Run invoke handle on_idle more (n + m) lp s = Run invoke handle on_idle more m lp s1.
Proof.
  revert s. induction n as [|n IH]; intros s; cbn [Run Nat.add]; [by intros [= <-]|].
  destruct (Run_turn invoke handle on_idle more lp s) as [[]|]; cbn [mbind option_bind]; done || apply IH.
Qed.

End Turns.

Section Rounds.
Context {K : Clock} {L : ClockLaws K} {E : Epoll K} {callback idle : Type} (d : Z).
Context (invoke : callback -> State callback -> option (State callback)).
Context (handle : handler -> Z -> State callback -> option (State callback)).
Context (on_idle : idle -> State callback -> option (State callback)).
Implicit Types s : State callback.

(** The first timer, if its time lies ahead and not too far. *)
Definition ahead s : bool :=
  match timer_map_ s.1 with
  | [] => false
  | (t, _) :: _ => (0 <=? t - (now s.2).1) && (t - (now s.2).1 <? 2 ^ 31)
  end.

(** A turn of the loop. *)
Lemma Run_turn_spec more (lp : EventLoop idle) s :
  0 < d -> EpollLaws K L E -> LoopCallbacks d invoke handle on_idle -> reached d invoke s ->
  match Run_turn invoke handle on_idle more lp s with
  | None => False
  | Some Sleeps => ahead s = false
  | Some (Busy s') => reached d invoke s' /\ time s.2 + d <= time s'.2
  | Some (Interrupted s') | Some (Returns s') => reached d invoke s' /\ s'.1 = s.1
  | Some (Next s') => reached d invoke s' /\
      exists T, time s.2 <= T /\ Forall (fun x => T < x.1) (timer_map_ s'.1) /\
        forall t p l e', timer_map_ s.1 = (t, p) :: l -> ahead s = true ->
          epoll_wait (epfd_ lp) kMaxEvents (t - (now s.2).1) (now s.2).2 = Some (Ready [], e') -> t <= T
  end.
Proof.
  intros Hd EL C Hr. pose proof (timers_reached_ok d Hd invoke s Hr) as Hok. pose proof (WaitTime_spec s Hok) as (W1 & W2 & W3).
  unfold Run_turn. destruct (WaitTime s) as [timeout s0] eqn:EW. cbn [fst snd] in W1, W2, W3.
  assert (reached d invoke s0) as Hr0 by (apply (reached_env d invoke s s0); done).
  assert (ahead s = true -> exists t p l, timer_map_ s.1 = (t, p) :: l /\ timeout = t - (now s.2).1 /\ 0 <= timeout /\
    (now s.2).1 <= time s0.2 /\ s0.2 = (now s.2).2) as Ha.
  { unfold ahead. destruct (timer_map_ s.1) as [|[t p] l]; [done|]. intros [A1%Z.leb_le A2%Z.ltb_lt]%andb_true_iff.
    destruct W3 as (B1 & B2 & B3 & _). exists t, p, l. specialize (B3 ltac:(lia)). split_and!; try done; lia. }
  destruct (epoll_wait (epfd_ lp) kMaxEvents timeout s0.2) as [[w e]|] eqn:Ew.
  2:{ destruct (ahead s); [|done]. destruct (Ha eq_refl) as (t & p & l & _ & _ & Ht & _).
      destruct (wait_returns (epfd_ lp) kMaxEvents timeout s0.2 Ht) as [? Hx]. by rewrite Ew in Hx. }
  destruct (wait_time _ _ _ _ _ _ Ew) as [Wt Wr]. assert (reached d invoke (s0.1, e)) as Hr1 by (by apply (reached_env d invoke s0)).
  destruct w as [evs|[]]; [|by rewrite W1 in Hr1 |- *|by rewrite W1 in Hr1 |- *].
  pose proof (timers_reached_ok d Hd invoke _ Hr1) as Hok1.
  destruct (dispatch_calls d Hd invoke handle on_idle evs _ Hok1) as (s1 & -> & Hok2 & Ht1 & Hr2). specialize (Hr2 Hr1). cbn [mbind option_bind].
  destruct (HandleTimeout invoke _ s1) as [[s2 ended]|] eqn:EH; cbn [mbind option_bind].
  2:{ destruct (round_ends d Hd invoke more s1 Hok2) as (? & ? & Hx & _). by rewrite Hx in EH. }
  destruct (round_ends d Hd invoke more s1 Hok2) as (s2' & b & Hx & Hok3 & Ht2 & Hend). rewrite EH in Hx. injection Hx as <- <-.
  cbn in Ht1. pose proof (reached_round d invoke s1 _ s2 ended Hr2 EH) as Hr3.
  destruct ended; [|split; [done|lia]].
  assert (forall s', timers_ok s' -> due_before (time s1.2 + 1) (timer_map_ s'.1) = O -> reached d invoke s' ->
    reached d invoke s' /\ exists T, time s.2 <= T /\ Forall (fun x => T < x.1) (timer_map_ s'.1) /\
      forall t p l e', timer_map_ s.1 = (t, p) :: l -> ahead s = true ->
        epoll_wait (epfd_ lp) kMaxEvents (t - (now s.2).1) (now s.2).2 = Some (Ready [], e') -> t <= T) as Hfin.
  { intros s' _ Hz Hr'. split; [done|]. exists (time s1.2). split_and!; [lia|by apply due_before_none|].
    intros t p l e' Hl Hah He'. destruct (Ha Hah) as (t' & p' & l' & Hl' & -> & H0 & H1 & H2). rewrite Hl in Hl'. injection Hl' as <- <- <-.
    rewrite <- H2, Ew in He'. injection He' as -> ->. destruct (Wr eq_refl) as [_ H3]. lia. }
  apply due_before_none in Hend. destruct (idle_ lp) as [cb|]; [|by apply Hfin].
  destruct (loop_idle (LoopCallbacks := C) cb s2) as (s3 & -> & Hc). cbn [fmap option_fmap option_map].
  destruct (calls_ok d None s2 s3 ltac:(lia) Hc Hok3) as (Hok4 & _ & _ & Hdue & _).
  apply Hfin; [done| |by eapply reached_calls]. assert (time s1.2 + 1 <= time s2.2 + d) as HT by lia. specialize (Hdue _ HT). lia.
Qed.

Lemma Run_reached more n (lp : EventLoop idle) s s' :
  0 < d -> EpollLaws K L E -> LoopCallbacks d invoke handle on_idle -> reached d invoke s ->
  Run invoke handle on_idle more n lp s = Some (Next s') -> reached d invoke s'.
Proof.
  intros Hd EL C. revert s. induction n as [|n IH]; intros s Hr; cbn [Run]; [by intros [= <-]|].
  pose proof (Run_turn_spec more lp s Hd EL C Hr) as H.
  destruct (Run_turn invoke handle on_idle more lp s) as [[]|]; cbn [mbind option_bind]; try done; apply IH; apply H.
Qed.

End Rounds.

(** ** Properties *)

Section Properties.
Context {K : Clock} {L : ClockLaws K} {E : Epoll K} {callback idle : Type} (d : Z).
Context (invoke : callback -> State callback -> option (State callback)).
Context (handle : handler -> Z -> State callback -> option (State callback)).
Context (on_idle : idle -> State callback -> option (State callback)).
Implicit Types s : State callback.

(** C25: the loop serves the timers.  A turn of [Run] never goes wrong.  When it
    comes to its end, every timer that was due when its timers were looked at
    has run or was deleted: those due at its beginning, and the first one, unless
    an event came before its time.  When [epoll_wait] fails the timers stay as they
    are, whether [Run] goes on (it was interrupted) or returns.  A turn that is
    still in [HandleTimeout] after a step for each timer that waited, and any number
    of further ones, has lasted as long as the shortest delay that callbacks ask
    for.  [epoll_wait] blocks for ever only if there is no timer, or if the first
    one is overdue or more than 2^31 - 1 milliseconds away when the loop looks at
    it. *)
Theorem loop_serves_timers more (lp : EventLoop idle) s :
  0 < d -> EpollLaws K L E -> LoopCallbacks d invoke handle on_idle -> reached d invoke s ->
  match Run_turn invoke handle on_idle more lp s with
  | None => False
  | Some Sleeps => ahead s = false
  | Some (Busy s') => reached d invoke s' /\ time s.2 + d <= time s'.2
  | Some (Interrupted s') | Some (Returns s') => reached d invoke s' /\ s'.1 = s.1
  | Some (Next s') => reached d invoke s' /\
      exists T, time s.2 <= T /\ Forall (fun x => T < x.1) (timer_map_ s'.1) /\
        forall t p l e', timer_map_ s.1 = (t, p) :: l -> ahead s = true ->
          epoll_wait (epfd_ lp) kMaxEvents (t - (now s.2).1) (now s.2).2 = Some (Ready [], e') -> t <= T
  end.
Proof. by apply Run_turn_spec. Qed.


(** C27: an overdue timer puts the loop to sleep.  [WaitTime] subtracts the time
    from that of the first timer in [uint64_t]; when the timer is overdue, by up to
    2^31 milliseconds, the difference wraps and becomes negative as an [int], and
    for [epoll_wait] a negative time has no end.  So if in any turn the idle
    callback, or the scheduler, takes the clock past the time of the next timer
    before the loop looks at it, and no descriptor becomes ready, the timer never
    runs, and no other one. *)
Theorem overdue_timer_sleeps (EL : EpollLaws K L E) (lp : EventLoop idle) more n m s0 s t p l :
  0 < d -> LoopCallbacks d invoke handle on_idle -> reached d invoke s0 -> Run invoke handle on_idle more n lp s0 = Some (Next s) ->
  timer_map_ s.1 = (t, p) :: l -> t < (now s.2).1 <= t + 2 ^ 31 -> quiet s.2 ->
  Run invoke handle on_idle more (n + S m) lp s0 = Some Sleeps.
Proof.
  intros Hd C Hr Hrun Hl Ht Hq. pose proof (timers_reached_ok d Hd invoke s (Run_reached d invoke handle on_idle more n lp s0 s Hd EL C Hr Hrun)) as Hok. rewrite (Run_app _ _ _ _ _ _ _ _ _ Hrun). cbn [Run]. unfold Run_turn.
  destruct (WaitTime_spec s Hok) as (_ & _ & HW). rewrite Hl in HW. destruct HW as (_ & E1 & _ & E2).
  destruct (WaitTime s) as [timeout s1]. cbn [fst snd] in *. rewrite E2, E1 by lia.
  by rewrite wait_quiet by (try apply quiet_now; done || lia).
Qed.

End Properties.

(** ** Witnesses *)

#[local] Existing Instances demo_clock demo_clock_laws.

(** A kernel where nothing happens but the passing of time. *)
#[local] Instance demo_epoll : Epoll demo_clock := {|
  handler := unit;
  epoll_create1 e := (3, e);
  epoll_ctl _ _ _ _ e := (true, e);
  epoll_wait _ _ timeout e :=
    if timeout <? 0 then None
    else if 2 ^ 62 - 1 <? Z.max 0 e + timeout then Some (WaitFailed true, e) else Some (Ready [], Z.max 0 e + timeout : @env demo_clock);
  close_fd _ e := e
|}.

Lemma demo_epoll_laws : EpollLaws demo_clock demo_clock_laws demo_epoll.
Proof.
  refine {| quiet := fun _ => True |}; cbn; try done.
  - intros _ _ timeout e w e'. destruct (Z.ltb_spec timeout 0); [done|].
    destruct (Z.ltb_spec (2 ^ 62 - 1) (Z.max 0 e + timeout)); intros [= <- <-]; (split; [lia|]); [done|intros _; lia].
  - intros _ _ timeout e Ht. destruct (Z.ltb_spec timeout 0); [lia|]. destruct (_ <? _); by eexists.
  - intros _ _ timeout e _ Ht. by destruct (Z.ltb_spec timeout 0); [|lia].
Defined.

(** Callbacks that do nothing, and an idle callback that takes two milliseconds. *)
Definition demo_quick (c : unit) (s : State unit) : option (State unit) := Some s.
Definition demo_handle (h : handler) (ev : Z) (s : State unit) : option (State unit) := Some s.
Definition demo_idle (c : unit) (s : State unit) : option (State unit) := Some (s.1, Z.max 0 s.2 + 2 : @env demo_clock).

Lemma demo_loop_callbacks : @LoopCallbacks demo_clock demo_clock_laws demo_epoll unit unit 1 demo_quick demo_handle demo_idle.
Proof.
  split.
  - intros p n s _. exists s. split; [done|apply calls_refl].
  - intros h ev s. exists s. split; [done|apply calls_refl].
  - intros cb s. eexists. split; [done|]. eapply calls_env; [|apply calls_refl]. cbn. lia.
Qed.

(** Timers at 10 and 11. *)
Definition demo_start : State unit := (AddTimeout 11 tt (AddTimeout 10 tt (Timer.construct, 0)).2).2.

Lemma demo_start_reached : reached 1 demo_quick demo_start.
Proof.
  eapply reached_calls; [apply (reached_new _ _ (0 : @env demo_clock))|]. eapply (calls_add _ _ 10 tt); [lia|].
  eapply (calls_add _ _ 11 tt); [lia|apply calls_refl].
Qed.

Definition demo_loop : EventLoop unit := mkLoop 3 (Some tt).

Lemma loop_serves_timers_witness : exists s', Run_turn demo_quick demo_handle demo_idle 0 demo_loop demo_start = Some (Next s') /\
  exists T, 0 <= T /\ Forall (fun x => T < x.1) (timer_map_ s'.1) /\ 10 <= T.
Proof.
  pose proof (loop_serves_timers 1 demo_quick demo_handle demo_idle 0 demo_loop demo_start ltac:(lia) demo_epoll_laws demo_loop_callbacks
                demo_start_reached) as H.
  destruct (Run_turn demo_quick demo_handle demo_idle 0 demo_loop demo_start) as [[s'| | | |]|] eqn:E; try (exfalso; vm_compute in E; discriminate E).
  exists s'. split; [reflexivity|]. destruct H as (_ & T & H1 & H2 & H3). exists T. split; [exact H1|]. split; [exact H2|].
  eapply H3; reflexivity.
Defined.

(** The first timer runs at 10, the idle callback ends at 12. *)
Definition demo_between : State unit :=
  match Run demo_quick demo_handle demo_idle 0 1 demo_loop demo_start with Some (Next s) => s | _ => demo_start end.

Lemma overdue_timer_sleeps_witness :
  timer_map_ demo_between.1 = [(11, 1%nat)] /\ forall m, Run demo_quick demo_handle demo_idle 0 (1 + S m) demo_loop demo_start = Some Sleeps.
Proof.
  split; [vm_compute; reflexivity|]. intros m.
  apply (overdue_timer_sleeps 1 demo_quick demo_handle demo_idle demo_epoll_laws demo_loop 0 1 m demo_start demo_between 11 1%nat []).
  - lia.
  - exact demo_loop_callbacks.
  - exact demo_start_reached.
  - vm_compute. reflexivity.
  - vm_compute. reflexivity.
  - split; [reflexivity|vm_compute; discriminate].
  - exact I.
Defined.
