(* ===== verification/Sockets.v ===== *)
(** * Sockets: the listening socket and outgoing connections

    Models src/net/TcpServer.cc, include/vemory/net/TcpServer.h and
    src/net/TcpConnector.cc, include/vemory/net/TcpConnector.h.  The system's
    side is the class [Sockets]; its laws say which descriptors a call opens and
    closes and, for [accept4], what becomes of the queue of connections.  The
    name resolver's lists are counted, for they have to be freed. *)

From S2P Require Import Prelude.
From S2P Require Import Timer.
From S2P Require Import EventLoop.

(** The options that are set: SO_REUSEADDR and SO_REUSEPORT to one; SO_SNDTIMEO
    and SO_RCVTIMEO to seconds and microseconds. *)
Inductive SockOpt := ReuseAddr | ReusePort | SndTimeo (sec usec : Z) | RcvTimeo (sec usec : Z).

(** The kind of a socket: listening (IPv4, non-blocking) or the one an entry of
    the resolver asks for. *)
Inductive SockKind (addrinfo : Type) := Listener | ForEntry (ai : addrinfo).
Arguments Listener {addrinfo}.
Arguments ForEntry {addrinfo}.

(** What [accept4] returns: a descriptor, or -1 and whether [errno] is EAGAIN or
    EWOULDBLOCK. *)
Inductive Accepted := Accepts (fd : Z) | AcceptFails (again : bool).

Class Sockets (K : Clock) := {
  addrinfo : Type;
  inet_pton : bytes -> option Z;
  socket : SockKind addrinfo -> env -> Z * env;
  setsockopt : Z -> SockOpt -> env -> bool * env;
  bind : Z -> Z -> Z -> env -> bool * env;
  listen : Z -> env -> bool * env;
  accept4 : Z -> env -> Accepted * env;
  set_nonblocking : Z -> env -> env;
  getaddrinfo : bytes -> bytes -> env -> option (list addrinfo) * env;
  freeaddrinfo : list addrinfo -> env -> env;
  connect : Z -> addrinfo -> env -> bool * env;
  close : Z -> env -> env
}.

(** ** The server *)

Section TcpServer.
Context {K : Clock} {E : Epoll K} {S : Sockets K}.

(** [accept_handler] and [io_handler fd] are the addresses of the handlers of the
    server and of the connection made for [fd]. *)
Context (accept_handler : handler) (io_handler : Z -> handler).

(** [new_conn_cb_]: what it does with a connection; [connections_] is never
    used. *)
Record TcpServer := mkServer {
  listen_fd_ : Z;
  new_conn_cb_ : option (Z -> env -> env)
}.

Definition construct : TcpServer := mkServer (-1) None.

Definition EPOLLIN : Z := 1.
Definition EPOLLRDHUP : Z := 8192.
Definition EPOLLET : Z := 2 ^ 31.

Definition destroy {idle} (lp : EventLoop idle) (sv : TcpServer) (e : env) : env :=
  if negb (listen_fd_ sv =? -1) then close (listen_fd_ sv) (DelEvent lp (listen_fd_ sv) e) else e.

(** [close(listen_fd_); listen_fd_ = -1] *)
Definition close_listener (sv : TcpServer) (e : env) : TcpServer * env :=
  (mkServer (-1) (new_conn_cb_ sv), close (listen_fd_ sv) e).

Definition INADDR_ANY : Z := 0.

Definition bind_address (b : bytes) : option Z :=
  if is_empty b || beq b (bs "0.0.0.0") then Some INADDR_ANY else inet_pton b.

Definition Start {idle} (lp : EventLoop idle) (b : bytes) (port : Z) (cb : Z -> env -> env) (sv : TcpServer) (e : env) : TcpServer * env :=
  let '(fd, e) := socket Listener e in
  let sv := mkServer fd (Some cb) in
  if fd =? -1 then (sv, e)
  else
    match bind_address b with
    | None => close_listener sv e
    | Some addr =>
        let '(ok, e) := setsockopt fd ReuseAddr e in
        if negb ok then close_listener sv e else
        let '(ok, e) := setsockopt fd ReusePort e in
        if negb ok then close_listener sv e else
        let '(ok, e) := bind fd addr port e in
        if negb ok then close_listener sv e else
        let '(ok, e) := listen fd e in
        if negb ok then close_listener sv e
        else (sv, AddEvent lp fd (Z.lor EPOLLIN EPOLLET) accept_handler e)
    end.

(** The constructor of [TcpConn], as far as the system sees it. *)
Definition new_connection {idle} (lp : EventLoop idle) (fd : Z) (e : env) : env :=
  AddEvent lp fd (Z.lor (Z.lor EPOLLIN EPOLLRDHUP) EPOLLET) (io_handler fd) (set_nonblocking fd e).

(** The destructor of a connection that nobody has taken. *)
Definition drop_connection {idle} (lp : EventLoop idle) (fd : Z) (e : env) : env := close fd (DelEvent lp fd e).

(** The loop of [HandleAccept], for [fuel] connections: those it has made, and
    what [accept4] returned at the end. *)
Fixpoint HandleAccept {idle} (fuel : nat) (lp : EventLoop idle) (sv : TcpServer) (e : env) : list Z * option bool * env :=
  match fuel with
  | O => ([], None, e)
  | Datatypes.S fuel =>
      match accept4 (listen_fd_ sv) e with
      | (AcceptFails again, e) => ([], Some again, e)
      | (Accepts fd, e) =>
          let e := new_connection lp fd e in
          let e := match new_conn_cb_ sv with Some cb => cb fd e | None => drop_connection lp fd e end in
          let '(fds, r, e) := HandleAccept fuel lp sv e in
          (fd :: fds, r, e)
      end
  end.

(** ** The connector *)

(** One entry of the resolver's list, then the others. *)
Fixpoint try_entries (timeout_ms : Z) (ais : list addrinfo) (e : env) : Z * env :=
  match ais with
  | [] => (-1, e)
  | ai :: ais =>
      let '(fd, e) := socket (ForEntry ai) e in
      if fd <? 0 then try_entries timeout_ms ais e
      else
        let e := if 0 <? timeout_ms then
                   let usec := Z.rem timeout_ms 1000 * 1000 in
                   let e := (setsockopt fd (SndTimeo (Z.quot timeout_ms 1000) usec) e).2 in
                   (setsockopt fd (RcvTimeo (Z.quot timeout_ms 1000) usec) e).2
                 else e in
        let '(ok, e) := connect fd ai e in
        if ok : bool then (fd, e) else try_entries timeout_ms ais (close fd e)
  end.

Definition Connect (host : bytes) (port : Z) (timeout_ms : Z) (e : env) : Z * env :=
  if is_empty host || (port =? 0) then (-1, e)
  else
    let '(res, e) := getaddrinfo host (print_unsigned port) e in
    match res with
    | None | Some [] => (-1, e)
    | Some ais =>
        let '(fd, e) := try_entries timeout_ms ais e in
        let e := freeaddrinfo ais e in
        if fd <? 0 then (-1, e)
        else (fd, (setsockopt fd (RcvTimeo 0 0) (setsockopt fd (SndTimeo 0 0) e).2).2)
    end.

End TcpServer.

(** ** What the system does *)

Class SocketsLaws (K : Clock) (E : Epoll K) (S : Sockets K) := {
  descriptors : env -> gset Z;     (** the open ones *)
  lists : env -> nat;              (** results of [getaddrinfo] that are not freed *)
  queue : env -> nat;              (** connections that wait to be accepted *)
  ctl_keeps ep op fd x e : descriptors (epoll_ctl ep op fd x e).2 = descriptors e /\ lists (epoll_ctl ep op fd x e).2 = lists e;
  opt_keeps fd o e : descriptors (setsockopt fd o e).2 = descriptors e /\ lists (setsockopt fd o e).2 = lists e;
  bind_keeps fd a p e : descriptors (bind fd a p e).2 = descriptors e /\ lists (bind fd a p e).2 = lists e;
  listen_keeps fd e : descriptors (listen fd e).2 = descriptors e /\ lists (listen fd e).2 = lists e;
  connect_keeps fd ai e : descriptors (connect fd ai e).2 = descriptors e /\ lists (connect fd ai e).2 = lists e;
  nonblocking_keeps fd e : descriptors (set_nonblocking fd e) = descriptors e /\ lists (set_nonblocking fd e) = lists e;
  socket_opens k e : lists (socket k e).2 = lists e /\
    (((socket k e).1 = -1 /\ descriptors (socket k e).2 = descriptors e) \/
     (0 <= (socket k e).1 /\ ((socket k e).1 ∉ descriptors e) /\ descriptors (socket k e).2 = {[(socket k e).1]} ∪ descriptors e));
  accept_opens fd e : lists (accept4 fd e).2 = lists e /\
    match (accept4 fd e).1 with
    | Accepts c => 0 <= c /\ (c ∉ descriptors e) /\ descriptors (accept4 fd e).2 = {[c]} ∪ descriptors e
    | AcceptFails again => descriptors (accept4 fd e).2 = descriptors e /\ (again = true -> queue (accept4 fd e).2 = O)
    end;
  close_closes fd e : descriptors (close fd e) = descriptors e ∖ {[fd]} /\ lists (close fd e) = lists e;
  resolve_lists h p e : descriptors (getaddrinfo h p e).2 = descriptors e /\
    lists (getaddrinfo h p e).2 = (match (getaddrinfo h p e).1 with Some (_ :: _) => 1 | _ => 0 end + lists e)%nat;
  free_lists l e : descriptors (freeaddrinfo l e) = descriptors e /\ lists (freeaddrinfo l e) = Nat.pred (lists e)
}.

(** ** Lemmas *)

Section Lemmas.
Context {K : Clock} {E : Epoll K} {S : Sockets K} {SL : SocketsLaws K E S} {idle : Type}.
(** [fd] has been opened between [e] and [e'], and nothing else. *)
Definition opened (fd : Z) (e e' : env) : Prop :=
  (fd ∉ descriptors e) /\ descriptors e' = {[fd]} ∪ descriptors e /\ lists e' = lists e.

Definition same (e e' : env) : Prop := descriptors e' = descriptors e /\ lists e' = lists e.

Lemma opened_same fd e e1 e2 : opened fd e e1 -> same e1 e2 -> opened fd e e2.
Proof. intros (H1 & H2 & H3) [H4 H5]. by rewrite <- H4 in H2; rewrite <- H5 in H3. Qed.

Lemma opened_close fd e e1 : opened fd e e1 -> same e (close fd e1).
Proof.
  intros (H1 & H2 & H3). unfold same. destruct (close_closes fd e1) as [-> ->]. rewrite H2, H3. split; [set_solver|done].
Qed.

Lemma Start_opens (accept_handler : handler) (lp : EventLoop idle) b port cb sv e :
  let '(sv', e') := Start accept_handler lp b port cb sv e in
  (listen_fd_ sv' = -1 /\ same e e') \/ (0 <= listen_fd_ sv' /\ opened (listen_fd_ sv') e e').
Proof.
  unfold Start, close_listener. pose proof (socket_opens Listener e) as [Hl H]. destruct (socket Listener e) as [fd e1]. cbn in Hl, H.
  destruct (Z.eqb_spec fd (-1)) as [->|Hne]; [left; split; [done|]; destruct H as [[_ ?]|[? _]]; [done|lia]|].
  destruct H as [[? _]|(H0 & Hn & Hd)]; [done|]. assert (opened fd e e1) as Ho by done. clear Hl Hd Hn.
  destruct (bind_address b) as [addr|]; [|left; split; [done|by apply opened_close]].
  pose proof (opt_keeps fd ReuseAddr e1) as H1. destruct (setsockopt fd ReuseAddr e1) as [ok e2].
  pose proof (opened_same _ _ _ _ Ho H1) as Ho2. cbn in Ho2. destruct ok; cbn [negb]; [|left; split; [done|by apply opened_close]].
  pose proof (opt_keeps fd ReusePort e2) as H2. destruct (setsockopt fd ReusePort e2) as [ok e3].
  pose proof (opened_same _ _ _ _ Ho2 H2) as Ho3. cbn in Ho3. destruct ok; cbn [negb]; [|left; split; [done|by apply opened_close]].
  pose proof (bind_keeps fd addr port e3) as H3. destruct (bind fd addr port e3) as [ok e4].
  pose proof (opened_same _ _ _ _ Ho3 H3) as Ho4. cbn in Ho4. destruct ok; cbn [negb]; [|left; split; [done|by apply opened_close]].
  pose proof (listen_keeps fd e4) as H4. destruct (listen fd e4) as [ok e5].
  pose proof (opened_same _ _ _ _ Ho4 H4) as Ho5. cbn in Ho5. destruct ok; cbn [negb]; [|left; split; [done|by apply opened_close]].
  right. split; [done|]. eapply opened_same; [exact Ho5|]. apply ctl_keeps.
Qed.

Lemma try_entries_opens timeout ais e :
  let '(fd, e') := try_entries timeout ais e in (fd = -1 /\ same e e') \/ (0 <= fd /\ opened fd e e').
Proof.
  revert e. induction ais as [|ai ais IH]; intros e; cbn [try_entries]; [by left|].
  pose proof (socket_opens (ForEntry ai) e) as [Hl H]. destruct (socket (ForEntry ai) e) as [fd e1]. cbn in Hl, H.
  assert (forall e2, same e e2 -> let '(fd, e') := try_entries timeout ais e2 in (fd = -1 /\ same e e') \/ (0 <= fd /\ opened fd e e')) as Hnext.
  { intros e2 [A1 A2]. specialize (IH e2). destruct (try_entries timeout ais e2) as [fd2 e3]. unfold same, opened in *. rewrite A1, A2 in IH. exact IH. }
  destruct (Z.ltb_spec fd 0) as [Hlt|Hge]; [apply Hnext; destruct H as [[_ ?]|[? _]]; [done|lia]|].
  destruct H as [[? _]|(H0 & Hn & Hd)]; [lia|]. assert (opened fd e e1) as Ho by done.
  match goal with |- context [connect fd ai ?x] => assert (opened fd e x) as Ho2 end.
  { destruct (0 <? timeout); [|done]. eapply opened_same; [eapply opened_same; [exact Ho|apply opt_keeps]|apply opt_keeps]. }
  clear Hl Hd Hn Ho. match goal with |- context [connect fd ai ?x] => generalize dependent x end. intros e2 Ho2.
  pose proof (connect_keeps fd ai e2) as Hc. destruct (connect fd ai e2) as [[] e3]; pose proof (opened_same _ _ _ _ Ho2 Hc) as Ho3.
  - by right.
  - apply Hnext. by apply opened_close.
Qed.

Lemma Connect_opens host port timeout e :
  let '(fd, e') := Connect host port timeout e in (fd = -1 /\ same e e') \/ (0 <= fd /\ opened fd e e').
Proof.
  unfold Connect. destruct (_ || _); [by left|]. pose proof (resolve_lists host (print_unsigned port) e) as [R1 R2].
  destruct (getaddrinfo host _ e) as [[[|ai ais]|] e1]; cbn in R1, R2; [by left| |by left].
  pose proof (try_entries_opens timeout (ai :: ais) e1) as H. destruct (try_entries _ _ e1) as [fd e2].
  pose proof (free_lists (ai :: ais) e2) as [F1 F2]. destruct H as [[-> [H1 H2]]|[H0 (H1 & H2 & H3)]].
  - left. split; [done|]. unfold same. rewrite F1, F2, H1, H2, R2. done.
  - destruct (Z.ltb_spec fd 0); [lia|]. right. split; [done|]. eapply opened_same; [|apply opt_keeps].
    eapply opened_same; [|apply opt_keeps]. unfold opened. rewrite F1, F2, H2, H3, R2. rewrite R1 in H1 |- *. done.
Qed.

(** The callback of [main] opens and closes nothing. *)
Definition takes_over (cb : Z -> env -> env) : Prop := forall fd e, same e (cb fd e).

Lemma HandleAccept_opens (io_handler : Z -> handler) fuel (lp : EventLoop idle) sv cb e :
  new_conn_cb_ sv = Some cb -> takes_over cb ->
  let '(fds, r, e') := HandleAccept io_handler fuel lp sv e in
  NoDup fds /\ Forall (fun fd => fd ∉ descriptors e) fds /\ descriptors e' = list_to_set fds ∪ descriptors e /\
  lists e' = lists e /\ (r = None -> length fds = fuel) /\ (r = Some true -> queue e' = O).
Proof.
  intros Hcb Ht. revert e. induction fuel as [|fuel IH]; intros e; cbn [HandleAccept].
  { split_and!; try done; [constructor|set_solver]. }
  pose proof (accept_opens (listen_fd_ sv) e) as [Hl H]. destruct (accept4 (listen_fd_ sv) e) as [[fd|again] e1]; cbn in Hl, H.
  - destruct H as (H0 & Hn & Hd). rewrite Hcb. set (e2 := new_connection io_handler lp fd e1).
    assert (same e1 (cb fd e2)) as [S1 S2].
    { pose proof (Ht fd e2) as [T1 T2]. unfold same. rewrite T1, T2. unfold e2, new_connection, AddEvent.
      destruct (ctl_keeps (epfd_ lp) CtlAdd fd (Some (Z.lor (Z.lor EPOLLIN EPOLLRDHUP) EPOLLET, io_handler fd)) (set_nonblocking fd e1)) as [-> ->].
      apply nonblocking_keeps. }
    specialize (IH (cb fd e2)). destruct (HandleAccept io_handler fuel lp sv (cb fd e2)) as [[fds r] e3].
    destruct IH as (A1 & A2 & A3 & A4 & A5 & A6). rewrite S1, Hd in A2, A3. split_and!; try done.
    + constructor; [|done]. intros Hin. rewrite Forall_forall in A2. specialize (A2 fd Hin). set_solver.
    + constructor; [done|]. eapply Forall_impl; [exact A2|]. set_solver.
    + rewrite A3. cbn. set_solver.
    + by rewrite A4, S2.
    + intros ->. cbn. by rewrite A5.
  - destruct H as [Hd Hq]. split_and!; try done; [constructor|cbn; rewrite Hd; set_solver|]. intros [= ->]. by apply Hq.
Qed.

End Lemmas.

(** ** Properties *)

Section Properties.
Context {K : Clock} {E : Epoll K} {S : Sockets K} {idle : Type}.

(** C39: no descriptor is lost.  [Start] and [Connect], wherever they fail, have
    closed what they opened and freed the resolver's list, and report -1; when
    they succeed the descriptor they leave is the only one they opened, and
    destroying the server closes its own.  [HandleAccept] makes one connection,
    each time of a new descriptor, of everything [accept4] gives it, opens
    nothing else, and goes on until the queue of connections is empty, unless
    [accept4] fails in another way. *)
Theorem descriptors_kept (SL : SocketsLaws K E S) (accept_handler : handler) (io_handler : Z -> handler) (lp : EventLoop idle) (e : env) :
  (forall b port cb sv, let '(sv', e') := Start accept_handler lp b port cb sv e in
     ((listen_fd_ sv' = -1 /\ same e e') \/ (0 <= listen_fd_ sv' /\ opened (listen_fd_ sv') e e')) /\
     same e (destroy lp sv' e')) /\
  (forall host port timeout, let '(fd, e') := Connect host port timeout e in
     (fd = -1 /\ same e e') \/ (0 <= fd /\ opened fd e e')) /\
  (forall fuel sv cb, new_conn_cb_ sv = Some cb -> takes_over cb ->
     let '(fds, r, e') := HandleAccept io_handler fuel lp sv e in
     NoDup fds /\ Forall (fun fd => fd ∉ descriptors e) fds /\ descriptors e' = list_to_set fds ∪ descriptors e /\
     lists e' = lists e /\ (r = None -> length fds = fuel) /\ (r = Some true -> queue e' = O)).
Proof.
  split_and!.
  - intros b port cb sv. pose proof (Start_opens accept_handler lp b port cb sv e) as H. destruct (Start _ _ _ _ _ _ _) as [sv' e'].
    split; [done|]. unfold destroy. destruct H as [[-> H]|[H0 H]]; [done|].
    destruct (Z.eqb_spec (listen_fd_ sv') (-1)); [lia|]. cbn [negb]. apply opened_close. eapply opened_same; [exact H|]. apply ctl_keeps.
  - intros host port timeout. apply Connect_opens.
  - intros fuel sv cb. apply HandleAccept_opens.
Qed.

End Properties.

(** ** Witnesses *)

(** A system of open descriptors, lists that are not freed and a queue. *)
Record DemoSystem := mkSystem { d_fds : gset Z; d_lists : nat; d_queue : nat }.

#[local] Instance demo_system_clock : Clock := {| env := DemoSystem; now e := (0, e) |}.

#[local] Instance demo_system_epoll : Epoll demo_system_clock := {|
  handler := unit;
  epoll_create1 e := (3, e);
  epoll_ctl _ _ _ _ e := (true, e);
  epoll_wait _ _ _ e := Some (Ready [], e);
  close_fd _ e := e
|}.

(** The next descriptor. *)
Definition demo_fd (e : DemoSystem) : Z := Z.of_nat (fresh (set_map Z.to_nat (d_fds e) : gset nat)).

Lemma demo_fd_new e : (demo_fd e) ∉ d_fds e.
Proof.
  intros H. apply (is_fresh (set_map Z.to_nat (d_fds e) : gset nat)). apply elem_of_map.
  exists (demo_fd e). split; [|done]. unfold demo_fd. by rewrite Nat2Z.id.
Qed.

Definition demo_open (e : DemoSystem) : DemoSystem := mkSystem ({[demo_fd e]} ∪ d_fds e) (d_lists e) (Nat.pred (d_queue e)).

#[local] Instance demo_sockets : Sockets demo_system_clock := {|
  addrinfo := unit;
  inet_pton _ := None;
  socket _ e := (demo_fd e, demo_open e);
  setsockopt _ _ e := (true, e);
  bind _ _ _ e := (true, e);
  listen _ e := (true, e);
  accept4 _ e := match d_queue e with O => (AcceptFails true, e) | _ => (Accepts (demo_fd e), demo_open e) end;
  set_nonblocking _ e := e;
  getaddrinfo _ _ e := (Some [tt], mkSystem (d_fds e) (S (d_lists e)) (d_queue e));
  freeaddrinfo _ e := mkSystem (d_fds e) (Nat.pred (d_lists e)) (d_queue e);
  connect _ _ e := (true, e);
  close fd e := mkSystem (d_fds e ∖ {[fd]}) (d_lists e) (d_queue e)
|}.

Lemma demo_sockets_laws : SocketsLaws demo_system_clock demo_system_epoll demo_sockets.
Proof.
  refine {| descriptors := d_fds : @env demo_system_clock -> gset Z; lists := d_lists : @env demo_system_clock -> nat;
            queue := d_queue : @env demo_system_clock -> nat |}; try done.
  - intros k e. cbn. split; [done|]. right. split_and!; [unfold demo_fd; lia|apply demo_fd_new|done].
  - intros fd e. cbn. destruct (d_queue e) as [|q] eqn:Eq; cbn; [by split_and!|]. split; [done|].
    split_and!; [unfold demo_fd; lia|apply demo_fd_new|done].
Defined.

Definition demo_handler : @handler demo_system_clock demo_system_epoll := tt.

Definition demo_accepting : DemoSystem := mkSystem {[3; 4]} 0 1.

Lemma descriptors_kept_witness :
  let '(fds, r, e') := HandleAccept (fun _ => demo_handler) 2 (mkLoop 3 None : EventLoop unit) (mkServer 4 (Some (fun _ e => e))) demo_accepting in
  r = Some true /\ NoDup fds /\ length fds = 1%nat /\ d_fds e' = list_to_set fds ∪ {[3; 4]}.
Proof.
  destruct (descriptors_kept demo_sockets_laws demo_handler (fun _ => demo_handler) (mkLoop 3 None : EventLoop unit) demo_accepting) as (_ & _ & H).
  specialize (H 2%nat (mkServer 4 (Some (fun _ e => e))) (fun _ e => e) eq_refl (fun _ _ => conj eq_refl eq_refl)).
  cbn in H |- *. destruct H as (H1 & H2 & H3 & _). split; [reflexivity|]. split; [exact H1|]. split; [reflexivity|exact H3].
Defined.
