(* ===== verification/Crash.v ===== *)
(** * Crash: the log on its writer thread, from a crash to the next start

    Composes Startup.v, WalManager.v and ThreadAofWriter.v.  The server logs
    through a [ThreadAofWriter] whose flush thread is anywhere when the process
    dies; the next process starts on the file as it is then. *)

From S2P Require Import Prelude.
From S2P Require Import Stdio.
From S2P Require Import Config.
From S2P Require VNodeIndex.
From S2P Require KvStore.
From S2P Require Import Usearch.
From S2P Require Import FlatIndex.
From S2P Require CommandType.
From S2P Require Import RequestContext.
From S2P Require Import MutationApply.
From S2P Require Import WalManager.
From S2P Require Import FileSystem.
From S2P Require Import SnapshotManager.
From S2P Require CommandHandler.
From S2P Require ReplicationMaster.
From S2P Require Import Startup.
From S2P Require ThreadAofWriter.

(** ** The writer thread gets its turns *)

(** The two threads take turns, the flush thread first; the system answers as
    [answers] says. *)
Definition alternate (answers : nat -> ThreadAofWriter.Answers) (n : nat) : bool * ThreadAofWriter.Answers :=
  (Nat.even n, answers n).

Section Alternate.
Import ThreadAofWriter.
Context (answers : nat -> Answers).

Definition idle (w : Writer) : Prop := match rpc w with Returned _ => True | _ => False end.

(** What is left of the reactor's call: its steps, and what the flush thread has
    to do for them. *)
Definition potential (w : Writer) : nat := 20 * calls_left (rpc w) + weight w.

Lemma fstep_weight_le a w w' : fstep a w = Some w' -> (weight w' <= weight w + 2)%nat.
Proof.
  intros H. unfold fstep, weight, BlockingQueue.size in *. destruct (pc w) as [|b|b|n| | |n| | | |] eqn:Ep.
  - pose proof (PopWaitFor_cases (queue_ w)) as HP. destruct (BlockingQueue.PopWaitFor _) as [[f|] q]; simplify_eq; cbn.
    + destruct HP as (-> & P2 & P3). cbn. lia.
    + destruct HP as [-> P2]. case_match; lia.
  - destruct (_ <? _)%nat; [|simplify_eq; cbn; lia].
    pose proof (PopWaitFor_cases (queue_ w)) as HP. destruct (BlockingQueue.PopWaitFor _) as [[f|] q]; simplify_eq; cbn.
    + destruct HP as (-> & P2 & P3). cbn. lia.
    + destruct HP as [-> P2]. lia.
  - destruct (io_failed_ w); simplify_eq; cbn; [lia|].
    destruct (flush_batch_control a b w) as [[S1 S2 S3 S4 S5 S6] Hc]. cbv zeta in *. rewrite S2, S4.
    destruct Hc as [[-> _]|[-> _]]; lia.
  - simplify_eq. rewrite DecPendingN_spec. cbn. lia.
  - destruct (BlockingQueue.cancelled (queue_ w)) eqn:Ec; [simplify_eq; cbn; lia|].
    destruct (_ && _); [|simplify_eq; cbn; lia].
    pose proof (SyncFile_control a w) as HS. destruct (SyncFile a w) as [[] w1]; destruct HS as ([S1 S2 S3 S4 S5 S6] & _);
      simplify_eq; cbn; rewrite S2, S4; lia.
  - simplify_eq. cbn. lia.
  - simplify_eq. rewrite DecPendingN_spec. cbn. lia.
  - simplify_eq. cbn. lia.
  - unfold BlockingQueue.Pop in H. destruct (BlockingQueue.queue_ (queue_ w)) as [|f l] eqn:Eq.
    + destruct (BlockingQueue.cancelled_ (queue_ w)); simplify_eq. cbn. rewrite Eq. cbn. lia.
    + simplify_eq. cbn. lia.
  - simplify_eq. unfold DecPending. rewrite DecPendingN_spec. cbn. lia.
  - done.
Qed.

Lemma rstep_weight_le a w w' : rstep a w = Some w' -> (weight w' <= weight w + 10)%nat.
Proof.
  intros H. unfold rstep, weight, BlockingQueue.size in *. destruct (rpc w) as [f|f|f| |stop|stop|stop| | | |r] eqn:Er.
  - destruct (_ || _); simplify_eq; cbn; lia.
  - simplify_eq. cbn. destruct (pc w); try lia.
  - unfold BlockingQueue.Push in H. destruct (_ || _); [|done]. destruct (BlockingQueue.cancelled_ (queue_ w)) eqn:Ec;
      simplify_eq; cbn; [lia|]. rewrite length_app. cbn. destruct (pc w); unfold BlockingQueue.cancelled; cbn; lia.
  - simplify_eq. unfold DecPending. rewrite DecPendingN_spec. cbn. lia.
  - destruct (_ =? _)%nat; simplify_eq; cbn; lia.
  - destruct (io_failed_ w); simplify_eq; cbn; lia.
  - case_bool_decide; [simplify_eq; cbn; lia|]. pose proof (SyncFile_control a w) as HS.
    destruct (SyncFile a w) as [[] w1]; destruct HS as ([S1 S2 S3 S4 S5 S6] & P & _); cbn [negb] in H; simplify_eq; cbn; rewrite S2, S4, P; lia.
  - destruct (stopped_ w); simplify_eq; cbn; lia.
  - simplify_eq. cbn. destruct (pc w); cbn; lia.
  - destruct (pc w) eqn:Ep; simplify_eq. cbn. rewrite Ep. lia.
  - done.
Qed.

Lemma turn_control t w : control w -> control (turn t w).
Proof.
  intros H. unfold turn. destruct t.1; [destruct (fstep _ w) eqn:E|destruct (rstep _ w) eqn:E]; try done;
    [by eapply fstep_control|by eapply rstep_control].
Qed.

Lemma idle_dec w : {idle w} + {(0 < calls_left (rpc w))%nat}.
Proof. unfold idle. destruct (rpc w) as [f|f|f| |[]|[]|[]| | | |r]; (right; cbn; lia) || by left. Defined.

(** A turn of each thread brings the end of the call closer. *)
Lemma two_turns a1 a2 w : control w -> (0 < calls_left (rpc w))%nat ->
  (potential (turn (false, a2) (turn (true, a1) w)) < potential w)%nat.
Proof.
  intros Hc Hl. unfold potential. set (w1 := turn (true, a1) w).
  assert (rpc w1 = rpc w /\ (weight w1 <= weight w + 2)%nat /\ (blocked w = true -> weight w1 < weight w)%nat) as (H1 & H2 & H3).
  { unfold w1, turn. cbn [fst snd]. destruct (fstep a1 w) as [w'|] eqn:E; unfold default, id.
    - pose proof (fstep_takes _ _ _ E) as (Hr & _). pose proof (fstep_weight_le _ _ _ E). split_and!; [done|done|].
      intros Hb. destruct (fstep_weight a1 w Hc Hb) as (w'' & E' & Hw). rewrite E in E'. by injection E' as <-.
    - split_and!; [done|lia|]. intros Hb. destruct (fstep_weight a1 w Hc Hb) as (w'' & E' & _). by rewrite E in E'. }
  assert (blocked w = false -> blocked w1 = false) as H4.
  { unfold w1, turn. cbn [fst snd]. destruct (fstep a1 w) as [w'|] eqn:E; [|done]. by eapply fstep_unblocked. }
  clearbody w1. unfold turn. cbn [fst snd]. destruct (blocked w1) eqn:Hb.
  - rewrite (rstep_waits a2 w1 Hb). unfold default, id. rewrite H1. destruct (blocked w); [specialize (H3 eq_refl); lia|by specialize (H4 eq_refl)].
  - rewrite <- H1 in Hl. destruct (rstep_blocked a2 w1 Hl Hb) as (w2 & E & Hlt). rewrite E. unfold default, id.
    pose proof (rstep_weight_le _ _ _ E). rewrite H1 in Hlt. lia.
Qed.

Lemma until_idle n s i w : idle w -> until n s i w = w.
Proof. unfold idle. destruct n; cbn [until]; by destruct (rpc w). Qed.

Lemma until_S n s i w : (0 < calls_left (rpc w))%nat -> until (S n) s i w = until n s (S i) (turn (s i) w).
Proof. cbn [until]. destruct (rpc w); cbn; done || lia. Qed.

Lemma until_alternate n i w : control w -> Nat.even i = true -> (2 * potential w <= n)%nat -> idle (until n (alternate answers) i w).
Proof.
  revert i w. induction (lt_wf n) as [n _ IH]. intros i w Hc Hi Hn.
  destruct (idle_dec w) as [Hd|Hl]; [by rewrite until_idle|].
  pose proof (two_turns (answers i) (answers (S i)) w Hc Hl) as Hp. unfold potential in Hn at 1.
  destruct n as [|[|n]]; [lia|lia|].
  assert (alternate answers i = (true, answers i)) as A1 by (unfold alternate; by rewrite Hi).
  assert (alternate answers (S i) = (false, answers (S i))) as A2.
  { unfold alternate. f_equal. rewrite Nat.even_succ, <- Nat.negb_even, Hi. done. }
  rewrite until_S, A1 by done. destruct (idle_dec (turn (true, answers i) w)) as [Hd|Hl']; [by rewrite until_idle|].
  rewrite until_S, A2 by done. apply IH; [lia|by apply turn_control, turn_control|done|unfold potential in *; lia].
Qed.

(** Enough turns for a call. *)
Definition enough_turns (c : Call) (w : Writer) : nat := 2 * potential (call c w).

End Alternate.

(** ** The writer of a running server *)

Section Live.
Import ThreadAofWriter.
Context (sched : Writer -> nat -> bool * Answers) (turns : Call -> Writer -> nat).

(** A call, up to its return. *)
Definition serve (c : Call) (w : Writer) : Writer := until (turns c w) (sched w) 0 (call c w).

(** The schedule lets every call return; for a fair one there are such [turns]
    ([calls_return]), and for [alternate] they are [enough_turns]. *)
Definition serves : Prop := forall d0 c w, reached d0 w -> idle w -> idle (serve c w).

Context (Hserves : serves).

(** A writer between two calls, with what its file held when it was made. *)
Definition live : Type := { l : bytes * Writer | reached l.1 l.2 /\ idle l.2 }.

Definition base (l : live) : bytes := (`l).1.
Definition threads (l : live) : Writer := (`l).2.

Lemma until_reached d0 n s i w : reached d0 w -> reached d0 (until n s i w).
Proof.
  revert i w. induction n as [|n IH]; intros i w H; cbn [until]; destruct (rpc w); try done; by apply IH, turn_reached.
Qed.

Lemma serve_reached d0 c w : reached d0 w -> idle w -> reached d0 (serve c w).
Proof.
  intros Hr Hi. apply until_reached. unfold idle in Hi. destruct (rpc w) eqn:E; try done.
  eapply reached_step; [exact Hr|by eapply step_call].
Qed.

Definition serve_live (c : Call) (l : live) : live :=
  exist _ (base l, serve c (threads l))
    (conj (serve_reached (base l) c (threads l) (proj1 (proj2_sig l)) (proj2 (proj2_sig l)))
          (Hserves (base l) c (threads l) (proj1 (proj2_sig l)) (proj2 (proj2_sig l)))).

Definition live_writer : AofWriter := {|
  writer := live;
  aof_enqueue l f := let l := serve_live (Enqueue f) l in (result (threads l), l);
  aof_flush l := let l := serve_live Flush l in (result (threads l), l);
  aof_stop l := serve_live Stop l;
  aof_failed l := failed (threads l);
  aof_poll l := l
|}.

#[export] Instance live_writer_laws : AofWriterLaws live_writer.
Proof.
  refine {| aof_log := (fun l => base l :: accepted (threads l)) : @writer live_writer -> list bytes |}.
  intros l f. cbn [aof_enqueue live_writer].
  pose proof (until_enqueuing f (accepted (threads l)) (turns (Enqueue f) (threads l)) (sched (threads l)) 0
                (call (Enqueue f) (threads l)) (conj eq_refl eq_refl)) as H.
  change (base l :: accepted (serve (Enqueue f) (threads l)) =
    if result (serve (Enqueue f) (threads l)) then (base l :: accepted (threads l)) ++ [f] else base l :: accepted (threads l)).
  unfold serve, enqueuing, result in *. destruct (rpc (until _ _ _ _)) as [| | | | | | | | | |[]]; try done;
    by match type of H with _ /\ _ => rewrite (proj2 H) | _ => rewrite H end.
Defined.

(** A new writer for the path, with the clock at [now]. *)
Definition make_live (d0 : bytes) (now : Z) (cfg : Config) (path : bytes) : live :=
  exist _ (d0, construct path (aof_fsync cfg) d0 now) (conj (reached_new d0 path (aof_fsync cfg) now) I).

End Live.

(** Turn about, every call returns. *)
Lemma alternate_serves answers : serves (fun _ => alternate answers) enough_turns.
Proof.
  intros d0 c w Hr Hi. assert (ThreadAofWriter.reached d0 (ThreadAofWriter.call c w)) as Hr'.
  { unfold idle in Hi. destruct (ThreadAofWriter.rpc w) eqn:E; try done.
    eapply ThreadAofWriter.reached_step; [exact Hr|by eapply ThreadAofWriter.step_call]. }
  destruct (ThreadAofWriter.reached_ok _ _ Hr') as [Hc _]. by apply until_alternate.
Qed.

(** ** Starting on a torn log *)

Section Torn.
Context `{A : !AofWriter} `{AL : !AofWriterLaws A} `{U : !Usearch} `{L : !UsearchLaws U} `{OB : !IterOrder bytes} `{OZ : !IterOrder Z}.
#[local] Existing Instances ReplicationMaster.master_repl ReplicationMaster.master_psync.

(** [k] is the number of whole frames of [cs] in the first [n] bytes of the log. *)
Definition whole_frames (cs : list RequestContext) (n k : nat) : Prop :=
  (k <= length cs)%nat /\ (length (frames (take k cs)) <= n)%nat /\
  ((k < length cs)%nat -> (n < length (frames (take (S k) cs)))%nat).

Lemma replay_log_torn w wal cfg cs u n :
  enabled_ wal = true -> default [] (files (w_fs w) !! path_ wal) = take n (frames cs) -> history cfg cs u ->
  exists k v, whole_frames cs n k /\ redo (take k cs) (fresh cfg) = Some v /\
    replay_log w wal (mkStores (Some (VNodeIndex.construct (default_capacity cfg) (max_entries cfg))) (Some KvStore.empty)) =
      Some (Recovery (mkStores (t_index v) (t_kv v))).
Proof.
  intros He Hfile [Hw Hf Hr]. destruct (Replay_prefix wal cs (fresh cfg) u n (w_clock w) He) as (k & v & H1 & H2 & H3 & H4 & H5);
    try done; try by eexists.
  exists k, v. split; [done|]. split; [done|]. unfold replay_log. rewrite He. cbn [s_index s_kv]. fold (fresh cfg).
  destruct (files (w_fs w) !! path_ wal) as [data|]; cbn in Hfile.
  - by rewrite Hfile, H1.
  - assert (frames (take k cs) = []) as Hz.
    { apply nil_length_inv. rewrite <- (take_drop k cs), frames_app in Hfile.
      symmetry in Hfile. apply (f_equal length) in Hfile. rewrite length_take, length_app in Hfile. cbn in Hfile. lia. }
    apply frames_nil in Hz; [|by apply Forall_take]. rewrite Hz in H3. injection H3 as <-.
    unfold Replay. by rewrite He.
Qed.

(** [main] on a log that ends anywhere. *)
Lemma main_torn argv w a cfg cs u n :
  ParseArgs (tail argv) no_args = Parsed a -> read_config w a = Some cfg -> logs_only cfg ->
  default [] (files (w_fs w) !! log_of cfg) = take n (frames cs) -> history cfg cs u ->
  exists k v, whole_frames cs n k /\ redo (take k cs) (fresh cfg) = Some v /\ main argv w = Some (Running (started cfg w v)).
Proof.
  intros Ha Hc Hl Hfile Hh. destruct (wal_of_on cfg w Hl) as [He Hp]. rewrite <- Hp in Hfile.
  destruct (replay_log_torn w (wal_of cfg w) cfg cs u n He Hfile Hh) as (k & v & Hk & Hv & Hr).
  exists k, v. split; [done|]. split; [done|]. by apply (main_replayed argv w a).
Qed.

(** [main] on a log with a tail that is no frame. *)
Lemma main_tail argv w a cfg cs rest u :
  ParseArgs (tail argv) no_args = Parsed a -> read_config w a = Some cfg -> logs_only cfg ->
  default [] (files (w_fs w) !! log_of cfg) = frames cs ++ rest -> rest <> [] -> no_frame rest ->
  history cfg cs u -> main argv w = Some (Running (started cfg w u)).
Proof.
  intros Ha Hc Hl Hfile Hne Hd [Hw Hf Hr]. destruct (wal_of_on cfg w Hl) as [He Hp]. apply (main_replayed argv w a); try done.
  unfold replay_log. rewrite He, Hp. cbn [s_index s_kv]. fold (fresh cfg).
  destruct (files (w_fs w) !! log_of cfg) as [data|]; cbn in Hfile.
  - rewrite Hfile. rewrite (Replay_tail _ cs rest (fresh cfg) u) by (done || by eexists). done.
  - symmetry in Hfile. by apply app_nil in Hfile as [_ ?].
Qed.

End Torn.

(** ** A log with a torn frame in it *)

#[local] Existing Instance RespDecode.Status_eq_dec.

(** What the frames of a write begin with, up to the length of their first
    argument. *)
Definition frame_head (k : CommandType.CommandType) : bytes :=
  let args := match k with CommandType.kSet => 3 | CommandType.kVset => 5 | _ => 2 end in
  "*"%char :: print_unsigned args ++ CRLF ++ RespEncode.bulk_bytes (CommandType.name k) ++ ["$"%char].

Definition writes : list CommandType.CommandType := [CommandType.kSet; CommandType.kDel; CommandType.kVset; CommandType.kVdel].

(** A tail that is the start of a frame, and that no frame behind it completes:
    with the head of any next frame the decoder rejects it. *)
Definition dead_tail (t : bytes) : bool :=
  bool_decide ((RespDecode.decode t).1.1 = RespDecode.kNeedMore) && negb (is_empty t) &&
  forallb (fun k => bool_decide ((RespDecode.decode (t ++ frame_head k)).1.1 = RespDecode.kError)) writes.

Lemma frame_of_head c : frame_fits c -> exists k rest, k ∈ writes /\ frame_of c = frame_head k ++ rest.
Proof.
  unfold frame_fits, frame_of, write_tokens. destruct (cmd c) eqn:Ek; try done; intros _;
    (exists (cmd c); rewrite Ek; eexists; split; [unfold writes; rewrite !elem_of_cons; tauto|]);
    reflexivity.
Qed.

(** Nothing behind such a tail is a frame. *)
Lemma dead_tail_no_frame t cs : dead_tail t = true -> Forall frame_fits cs -> no_frame (t ++ frames cs).
Proof.
  unfold dead_tail. intros [[Ht%bool_decide_eq_true _]%andb_true_iff Hk]%andb_true_iff Hf. rewrite forallb_forall in Hk.
  destruct cs as [|c cs].
  { change (frames []) with ([] : bytes). rewrite app_nil_r. by apply no_frame_more. }
  apply Forall_cons_iff in Hf as [(k & rest & Hin & E)%frame_of_head _].
  specialize (Hk k (proj1 (list_elem_of_In _ _) Hin)). apply bool_decide_eq_true in Hk.
  change (frames (c :: cs)) with (frame_of c ++ frames cs). rewrite E, <- app_assoc, app_assoc. unfold no_frame.
  rewrite RespDecode.decode_app by by rewrite Hk. by rewrite Hk.
Qed.

(** A frame, and where a crash may cut it so that its start is a dead tail. *)
Definition a_set (k v : bytes) : RequestContext := mkCtx 7 CommandType.kSet [] [] [] [] 0 k v [] (-1) 0.

Definition dead_cuts (c : RequestContext) : list nat :=
  filter (fun n => dead_tail (take n (frame_of c)) = true) (seq 1 (length (frame_of c) - 1)).

(** Of the 30 cuts of this frame only two are not: two bytes before the end of a
    string, so that "*3" completes it, and the line end behind "*3" is taken for
    the end of the string. *)
Example dead_cuts_set : forall n, n ∈ seq 1 30 -> n ∈ dead_cuts (a_set (bs "k") (bs "value")) <-> n <> 9%nat /\ n <> 27%nat.
Proof.
  assert (forallb (fun n => Bool.eqb (bool_decide (n ∈ dead_cuts (a_set (bs "k") (bs "value")))) (negb ((n =? 9) || (n =? 27))%nat))
            (seq 1 30) = true) as H by (vm_compute; reflexivity).
  intros n Hn%list_elem_of_In. rewrite forallb_forall in H. specialize (H n Hn).
  case_bool_decide as Hd; destruct (Nat.eqb_spec n 9), (Nat.eqb_spec n 27); naive_solver.
Qed.

(** There the next frame is swallowed: the log decodes to a write that no
    client has sent. *)
Example swallowed_head :
  (RespDecode.decode (take 27 (frame_of (a_set (bs "k") (bs "value"))) ++ frame_of (a_set (bs "k2") (bs "v2")))).1 =
    (RespDecode.kOk, [bs "SET"; bs "k"; bs "val*3"]).
Proof. vm_compute. reflexivity. Qed.

(** ** Properties *)

Section Crash.
Context `{U : !Usearch} `{L : !UsearchLaws U} `{OB : !IterOrder bytes} `{OZ : !IterOrder Z}.
#[local] Existing Instances ReplicationMaster.master_repl ReplicationMaster.master_psync.

Lemma frames_mono cs k : (length (frames (take k cs)) <= length (frames cs))%nat.
Proof. rewrite <- (take_drop k cs) at 2. rewrite frames_app, length_app. lia. Qed.

(** The frames of earlier runs are whole. *)
Lemma whole_frames_app cs0 cs n k : whole_frames (cs0 ++ cs) n k -> (length (frames cs0) <= n)%nat ->
  exists j, k = (length cs0 + j)%nat /\ (j <= length cs)%nat /\ take k (cs0 ++ cs) = cs0 ++ take j cs.
Proof.
  intros (H1 & H2 & H3) Hn. rewrite length_app in H1, H3. destruct (decide (k < length cs0)%nat) as [Hlt|Hge].
  - exfalso. specialize (H3 ltac:(lia)). rewrite take_app_le in H3 by lia. pose proof (frames_mono cs0 (S k)). lia.
  - exists (k - length cs0)%nat. split_and!; [lia|lia|]. by rewrite take_app_ge by lia.
Qed.

(** Nothing is lost of a log that is whole. *)
Lemma whole_frames_all cs n k : whole_frames cs n k -> (length (frames cs) <= n)%nat -> k = length cs.
Proof.
  intros (H1 & H2 & H3) Hn. destruct (decide (k < length cs)%nat) as [Hlt|]; [|lia].
  specialize (H3 Hlt). pose proof (frames_mono cs (S k)). lia.
Qed.

Lemma started_log {A : AofWriter} {AL : AofWriterLaws A} cfg w u :
  logs_only cfg -> wal_log (p_wal (started cfg w u)) = aof_log (w_make w cfg (log_of cfg)).
Proof.
  intros (_ & H2 & H3%is_empty_false & _). unfold started. cbn [p_wal]. rewrite H2. unfold WalManager.construct. by rewrite H3.
Qed.

Context (sched : ThreadAofWriter.Writer -> nat -> bool * ThreadAofWriter.Answers) (turns : ThreadAofWriter.Call -> ThreadAofWriter.Writer -> nat)
  (Hserves : serves sched turns).
#[local] Instance the_writer : AofWriter := live_writer sched turns Hserves.
#[local] Instance the_writer_laws : AofWriterLaws the_writer := live_writer_laws sched turns Hserves.

(** C5: a crash loses at most the end of the log.  Let a master have started on a
    whole log with the commands [cs0], and have served any sequence of client
    commands through the writer thread, done or refused ([runs] leaves out the two
    refusals after which memory may differ from the log, "aof append failed" and
    "vset failed", unless they changed nothing).  The commands [cs] whose frames the
    writer has taken are known; and wherever the two threads of the writer are
    when the process dies, a process that is started on the files it leaves runs,
    with the stores after [cs0] and the first [j] commands of [cs], those whose
    frames are whole in the file.  When everything taken is in the file, as after
    a flush, it has the stores the crashed process had, up to the access order
    of the cache. *)
Theorem crash_recovers (cs0 : list RequestContext) (now : Z) (argv : list bytes) (w : World) p r u0 t2 es :
  w_make w = make_live (frames cs0) now -> main argv w = Some (Running p) -> logs_only (p_cfg p) ->
  (forall a, ParseArgs (tail argv) no_args = Parsed a -> config_path a <> log_of (p_cfg p)) ->
  default [] (files (w_fs w) !! log_of (p_cfg p)) = frames cs0 -> history (p_cfg p) cs0 u0 ->
  runs (serving p r) es t2 ->
  exists cs wal2 lw, t_wal t2 = Some wal2 /\ writer_ wal2 = Some lw /\
    base lw = frames cs0 /\ ThreadAofWriter.accepted (threads lw) = frame_of <$> cs /\
    (Forall frame_fits cs -> forall cw, ThreadAofWriter.reached (base lw) cw ->
     ThreadAofWriter.accepted cw = ThreadAofWriter.accepted (threads lw) ->
     forall w', default [] (files (w_fs w') !! log_of (p_cfg p)) = ThreadAofWriter.content cw ->
     (forall q, q <> log_of (p_cfg p) -> files (w_fs w') !! q = files (w_fs w) !! q) ->
     exists j u', whole_frames (cs0 ++ cs) (length (ThreadAofWriter.content cw)) (length cs0 + j) /\
       main argv w' = Some (Running (started (p_cfg p) w' u')) /\ history (p_cfg p) (cs0 ++ take j cs) u' /\
       (ThreadAofWriter.content cw = base lw ++ mjoin (ThreadAofWriter.accepted cw) ->
        j = length cs /\ eqv_targets u' (strip t2))).
Proof.
  intros Hmake Hm Hl Hpath Hfile Hh Hr.
  destruct (served_journal _ _ _ _ _ _ _ _ Hm Hl Hfile Hh Hr) as (a & cs & wal2 & u & Ha & Hc & Hp & Hw2 & Hlog & Hh' & Heq).
  set (cfg := p_cfg p) in *. clearbody cfg.
  rewrite Hp, (started_log cfg w u0 Hl), Hmake in Hlog. cbn [wal_log manager_wal_laws] in Hlog. destruct (writer_ wal2) as [lw|] eqn:Elw; [|done].
  injection Hlog as Hbase Hacc. change (base lw = frames cs0) in Hbase. exists cs, wal2, lw. split_and!; try done.
  intros Hf cw Hcw Hca w' Hlogfile Hfiles. specialize (Hh' Hf). rewrite Hbase in Hcw |- *.
  assert (ThreadAofWriter.accepted cw = frame_of <$> cs) as Hcs by (rewrite Hca; exact Hacc). rewrite Hcs. clear Hca.
  destruct (ThreadAofWriter.reached_ok _ _ Hcw) as [_ [(k0 & _ & Hk0) _ _ _ _ _]]. rewrite Hcs in Hk0.
  assert (ThreadAofWriter.content cw = take (length (frames cs0) + k0) (frames (cs0 ++ cs))) as Hcut.
  { rewrite frames_app, take_app, take_ge by lia. by replace (length (frames cs0) + k0 - length (frames cs0))%nat with k0 by lia. }
  assert (length (frames cs0) <= length (ThreadAofWriter.content cw))%nat as Hge by (rewrite Hk0, length_app; lia).
  destruct (main_torn argv w' a cfg (cs0 ++ cs) u (length (ThreadAofWriter.content cw)) Ha) as (k & v & Hk & Hv & Hmain); try done.
  - rewrite <- Hc. apply read_config_files. apply Hfiles. by apply Hpath.
  - rewrite Hlogfile, Hcut. rewrite length_take. by rewrite <- take_take, firstn_all.
  - destruct (whole_frames_app _ _ _ _ Hk Hge) as (j & -> & Hj & Htk). exists j, v. split_and!; [done|done| |].
    + rewrite Htk in Hv. destruct Hh' as [B1 B2 B3]. apply Forall_app in B1 as [B1 C1], B2 as [B2 C2].
      split; [apply Forall_app; split; [done|by apply Forall_take]|apply Forall_app; split; [done|by apply Forall_take]|done].
    + intros Hall. apply whole_frames_all in Hk; [|rewrite Hall, frames_app; done]. rewrite length_app in Hk.
      assert (j = length cs) as -> by lia. split; [done|]. destruct Hh' as [_ _ B3]. rewrite Htk, firstn_all, B3 in Hv. by injection Hv as <-.
Qed.

(** C15: after a crash that tore a frame the log is dead.  The file ends in a
    dead tail: the first part of a frame, as a crash leaves it, cut where the
    start of no next frame completes it (which is so for all cuts of a short
    frame but two, see [dead_cuts_set]; a cut within a long string can be
    completed by the frames behind it, with what [swallowed_head] shows).  A master
    that starts on it runs, and logs what it serves behind that part, for the
    file is never cut back to its whole frames.  At the next start the replay
    stops at the torn frame, with the status of success: whatever was served in
    between, and flushed, is lost. *)
Theorem writes_after_torn_tail_lost (cs0 : list RequestContext) (tail : bytes) (now : Z) (argv : list bytes) (w : World) a cfg u0 :
  dead_tail tail = true ->
  w_make w = make_live (frames cs0 ++ tail) now -> ParseArgs (List.tail argv) no_args = Parsed a ->
  read_config w a = Some cfg -> logs_only cfg -> config_path a <> log_of cfg ->
  default [] (files (w_fs w) !! log_of cfg) = frames cs0 ++ tail -> history cfg cs0 u0 ->
  main argv w = Some (Running (started cfg w u0)) /\
  forall r es t2, runs (serving (started cfg w u0) r) es t2 ->
  exists cs wal2 lw, t_wal t2 = Some wal2 /\ writer_ wal2 = Some lw /\
    base lw = frames cs0 ++ tail /\ ThreadAofWriter.accepted (threads lw) = frame_of <$> cs /\
    (Forall frame_fits cs -> forall w',
       default [] (files (w_fs w') !! log_of cfg) = base lw ++ mjoin (ThreadAofWriter.accepted (threads lw)) ->
       (forall q, q <> log_of cfg -> files (w_fs w') !! q = files (w_fs w) !! q) ->
       main argv w' = Some (Running (started cfg w' u0))).
Proof.
  intros Hdead Hmake Ha Hc Hl Hpath Hfile Hh. pose proof Hh as [Hw Hf Hu].
  assert (forall cs, Forall frame_fits cs -> no_frame (tail ++ frames cs) /\ tail ++ frames cs <> []) as Htail.
  { intros cs Hcs. split; [by apply dead_tail_no_frame|]. by destruct tail. }
  split.
  { destruct (Htail [] ltac:(done)) as [T1 T2]. change (frames []) with ([] : bytes) in T1, T2. rewrite app_nil_r in T1, T2.
    by apply (main_tail argv w a cfg cs0 tail u0). }
  intros r es t2 Hr.
  destruct (served_started cfg w r cs0 u0 t2 es (read_config_capacity _ _ _ Hc) Hl Hh Hr) as (cs & wal2 & u & H1 & H2 & _ & _ & _).
  rewrite (started_log cfg w u0 Hl), Hmake in H2. cbn [wal_log manager_wal_laws] in H2.
  destruct (writer_ wal2) as [lw|] eqn:Elw; [|done]. injection H2 as Hbase Hacc.
  change (base lw = frames cs0 ++ tail) in Hbase. exists cs, wal2, lw. split_and!; try done.
  intros Hfit w' Hlog Hfiles. rewrite Hbase in Hlog. assert (ThreadAofWriter.accepted (threads lw) = frame_of <$> cs) as E by exact Hacc.
  rewrite E, <- app_assoc in Hlog. destruct (Htail cs Hfit) as [T1 T2]. apply (main_tail argv w' a cfg cs0 (tail ++ frames cs) u0); try done.
  rewrite <- Hc. apply read_config_files. by apply Hfiles.
Qed.

End Crash.

(** ** Witnesses *)

Section Demo.
#[local] Existing Instances flat_usearch flat_laws.
#[local] Instance demo_orderZ : IterOrder Z := default_order Z.
#[local] Instance demo_orderB : IterOrder bytes := default_order bytes.
#[local] Existing Instances ReplicationMaster.master_repl ReplicationMaster.master_psync.

(** The system does what it is asked. *)
Definition demo_answers (n : nat) : ThreadAofWriter.Answers := ThreadAofWriter.good 2000.

#[local] Instance demo_writer : AofWriter := live_writer _ _ (alternate_serves demo_answers).
#[local] Instance demo_writer_laws : AofWriterLaws demo_writer := live_writer_laws _ _ (alternate_serves demo_answers).

Definition demo_log : Config := set_aof default_config true.

(** A configuration, a log, and a writer for it. *)
Definition demo_host (log : bytes) : World :=
  mkWorld (mkFs {[bs "v.ini" := text_of [bs "[persistence]"; bs "aof = on"]; log_of demo_log := log]} (fun _ => true) (fun _ => true)
             (fun _ => true) true true None)
    true (make_live log 0 : Config -> bytes -> @writer demo_writer) (fun _ => 0) (fun _ => 0) None.

Definition demo_target : Targets :=
  match redo [demo_set] (fresh demo_log) with Some u => u | None => fresh demo_log end.

Definition demo_first : Process := started demo_log (demo_host (frames [demo_set])) demo_target.

Lemma demo_history : history demo_log [demo_set] demo_target.
Proof.
  assert (match redo [demo_set] (fresh demo_log) with Some u => true | None => false end = true) as H by (vm_compute; reflexivity).
  split.
  - constructor; [|done]. by vm_compute.
  - constructor; [|done]. by apply frame_fits_check.
  - unfold demo_target. by destruct (redo _ _).
Qed.

Definition demo_second : RequestContext := mkCtx 7 CommandType.kSet [] [] [] [] 0 (bs "k2") (bs "v2") [] (-1) 0.

(** Serving one more write. *)
Definition demo_after (p : Process) : option Targets :=
  match ApplyMutation 4 demo_second kClient (serving p None) with Some (r, t) => if ok r then Some t else None | None => None end.

Lemma demo_served p : (nodes (serving p None) + 2 <= 4)%nat -> match demo_after p with Some _ => true | None => false end = true ->
  exists t2, demo_after p = Some t2 /\ runs (serving p None) [EWrite demo_second] t2.
Proof.
  unfold demo_after. intros Hn. destruct (ApplyMutation 4 demo_second kClient (serving p None)) as [[r t]|] eqn:E; [|done].
  destruct (ok r) eqn:Hok; [|done]. intros _. exists t. split; [done|]. eapply runs_write; [exact E|exact (ok_in_step r Hok)|exact Hn|constructor].
Qed.

Lemma demo_main_first : main demo_argv (demo_host (frames [demo_set])) = Some (Running demo_first).
Proof.
  apply (main_logs demo_argv _ (mkArgs (bs "v.ini") false 8888 false [] 0) demo_log [demo_set]).
  - reflexivity.
  - vm_compute. reflexivity.
  - by split_and!.
  - vm_compute. reflexivity.
  - exact demo_history.
Qed.

Lemma demo_first_served : exists t2, demo_after demo_first = Some t2 /\ runs (serving demo_first None) [EWrite demo_second] t2.
Proof. apply demo_served; [apply Nat.leb_le|]; vm_compute; reflexivity. Qed.

(** A frame that ends before its value. *)
Definition torn : bytes := take 23 (frame_of (a_set (bs "k") (bs "value"))).

Definition demo_torn_process : Process := started demo_log (demo_host (frames [demo_set] ++ torn)) demo_target.

Lemma demo_torn_served :
  exists t2, demo_after demo_torn_process = Some t2 /\ runs (serving demo_torn_process None) [EWrite demo_second] t2.
Proof. apply demo_served; [apply Nat.leb_le|]; vm_compute; reflexivity. Qed.

Lemma demo_host_log log : default [] (files (w_fs (demo_host log)) !! log_of demo_log) = log.
Proof.
  cbn [w_fs demo_host files]. rewrite lookup_insert_ne by discriminate. by rewrite lookup_singleton_eq.
Qed.

Lemma demo_host_files log log' q :
  q <> log_of demo_log -> files (w_fs (demo_host log')) !! q = files (w_fs (demo_host log)) !! q.
Proof.
  intros Hq. cbn [w_fs demo_host files]. destruct (decide (q = bs "v.ini")) as [->|Hne].
  - by rewrite !lookup_insert_eq.
  - by rewrite !lookup_insert_ne, !lookup_singleton_ne by congruence.
Qed.

Lemma crash_recovers_witness :
  exists t2 cs wal2 lw, demo_after demo_first = Some t2 /\ t_wal t2 = Some wal2 /\ writer_ wal2 = Some lw /\
    ThreadAofWriter.accepted (threads lw) = frame_of <$> cs /\
    (Forall frame_fits cs -> exists j u',
      main demo_argv (demo_host (ThreadAofWriter.content (threads lw))) =
        Some (Running (started demo_log (demo_host (ThreadAofWriter.content (threads lw))) u')) /\
      history demo_log ([demo_set] ++ take j cs) u').
Proof.
  destruct demo_first_served as (t2 & Ht & Hr). exists t2.
  destruct (crash_recovers _ _ (alternate_serves demo_answers) [demo_set] 0 demo_argv (demo_host (frames [demo_set])) demo_first None
              demo_target t2 [EWrite demo_second]) as (cs & wal2 & lw & H1 & H2 & _ & H3 & H4).
  - reflexivity.
  - exact demo_main_first.
  - by split_and!.
  - intros a [= <-]. discriminate.
  - apply demo_host_log.
  - exact demo_history.
  - exact Hr.
  - exists cs, wal2, lw. split; [exact Ht|]. split; [exact H1|]. split; [exact H2|]. split; [exact H3|]. intros Hf.
    destruct (H4 Hf (threads lw) (proj1 (proj2_sig lw)) eq_refl (demo_host (ThreadAofWriter.content (threads lw))))
      as (j & u' & _ & A1 & A2 & _); [apply demo_host_log|intros q; apply demo_host_files|].
    exists j, u'. split; [exact A1|exact A2].
Defined.

Lemma writes_after_torn_tail_lost_witness :
  exists t2 cs wal2 lw, demo_after demo_torn_process = Some t2 /\ t_wal t2 = Some wal2 /\ writer_ wal2 = Some lw /\
    ThreadAofWriter.accepted (threads lw) = frame_of <$> cs /\
    (Forall frame_fits cs ->
      let log := (frames [demo_set] ++ torn) ++ mjoin (frame_of <$> cs) in
      main demo_argv (demo_host log) = Some (Running (started demo_log (demo_host log) demo_target))).
Proof.
  destruct demo_torn_served as (t2 & Ht & Hr). exists t2.
  destruct (writes_after_torn_tail_lost _ _ (alternate_serves demo_answers) [demo_set] torn 0 demo_argv
              (demo_host (frames [demo_set] ++ torn)) (mkArgs (bs "v.ini") false 8888 false [] 0) demo_log demo_target) as [_ H].
  - vm_compute. reflexivity.
  - reflexivity.
  - reflexivity.
  - vm_compute. reflexivity.
  - by split_and!.
  - discriminate.
  - apply demo_host_log.
  - exact demo_history.
  - destruct (H None [EWrite demo_second] t2 Hr) as (cs & wal2 & lw & H1 & H2 & H3 & H4 & H5).
    exists cs, wal2, lw. split; [exact Ht|]. split; [exact H1|]. split; [exact H2|]. split; [exact H4|]. intros Hf log.
    apply (H5 Hf); [|intros q; apply demo_host_files]. rewrite demo_host_log, H3, H4. reflexivity.
Defined.

End Demo.
