(* ===== verification/Replication.v ===== *)
(** * Replication: a replica follows its master

    The two sides together: a master process (its stores, ReplicationMaster.v and
    SnapshotManager.v) that serves clients and replicas, from the moment a replica
    asks for a full resynchronisation, and the replica of ReplicationSlave.v that
    reads what the master's socket has taken. *)

From S2P Require Import Prelude.
From S2P Require Import Stdio.
From S2P Require Import CommandType.
From S2P Require Import RequestContext.
From S2P Require Import ReplicationBacklog.
From S2P Require KvStore.
From S2P Require Import Usearch.
From S2P Require Import FlatIndex.
From S2P Require VNodeStorage.
From S2P Require USearchEmbedIndex.
From S2P Require VNodeIndex.
From S2P Require Import MutationApply.
From S2P Require Import WalManager.
From S2P Require Import FileSystem.
From S2P Require Import SnapshotManager.
From S2P Require Import TcpConnection.
From S2P Require Import ReplicationSlave.
From S2P Require Import ReplicationSync.
From S2P Require Import ReplicationMaster.
From S2P Require Import ReplicationStream.

(** ** Lemmas: a slave that is still there *)

(** After an operation the slave [fd], if it is still there, is the one that was
    there, and it waits for a snapshot only if it did. *)
Definition descends (fd : Z) (m m' : ReplicationMaster) : Prop :=
  forall s', slaves_ m' !! fd = Some s' ->
  exists s, slaves_ m !! fd = Some s /\ backlog_start s' = backlog_start s /\
    (state s' = kWaitRdb -> state s = kWaitRdb).

(** And no save has been started or has ended. *)
Definition stays (fd : Z) (m m' : ReplicationMaster) : Prop :=
  save_started_for_fullsync_ m' = save_started_for_fullsync_ m /\ descends fd m m'.

#[export] Instance descends_preorder fd : PreOrder (descends fd).
Proof.
  split; [intros m s'; eauto|]. intros m1 m2 m3 H1 H2 s3 E3. destruct (H2 s3 E3) as (s2 & E2 & B2 & W2).
  destruct (H1 s2 E2) as (s1 & E1 & B1 & W1). exists s1. split_and!; [done|congruence|auto].
Qed.

#[export] Instance stays_preorder fd : PreOrder (stays fd).
Proof.
  split; [intros m; by split|]. intros m1 m2 m3 [F1 D1] [F2 D2]. split; [congruence|by etrans].
Qed.

(** What removes slaves or leaves them as they are. *)
Lemma stays_sub fd m m' :
  save_started_for_fullsync_ m' = save_started_for_fullsync_ m ->
  (forall s, slaves_ m' !! fd = Some s -> slaves_ m !! fd = Some s) -> stays fd m m'.
Proof. intros H1 H2. split; [done|]. intros s Hs. eauto. Qed.

Lemma stays_set_conn fd x c m : stays fd m (set_conn x c m).
Proof. by apply stays_sub. Qed.

Lemma stays_delete fd x m : stays fd m (set_slaves m (delete x (slaves_ m))).
Proof. apply stays_sub; [done|]. cbn. intros s Hs. by apply lookup_delete_Some in Hs as [_ ?]. Qed.

Lemma stays_set_fullsync fd m a b : stays fd m (set_fullsync m a b).
Proof. by apply stays_sub. Qed.

Lemma stays_RemoveSlave fd x m : stays fd m (RemoveSlave x m).
Proof.
  unfold RemoveSlave. etrans; [apply (stays_delete fd x)|]. destruct (_ && _); [|done]. apply stays_set_fullsync.
Qed.

Lemma stays_set_state fd x st m : st <> kWaitRdb -> stays fd m (set_state x st m).
Proof.
  intros Hst. split; [done|]. intros s Hs. cbn in Hs. destruct (decide (x = fd)) as [->|Hne].
  - rewrite lookup_alter_eq in Hs. destruct (slaves_ m !! fd) as [s0|]; [|done]. injection Hs as <-. by exists s0.
  - rewrite lookup_alter_ne in Hs by done. eauto.
Qed.

Lemma stays_set_conns fd m cs : stays fd m (set_conns m cs).
Proof. by apply stays_sub. Qed.

Create HintDb stays.
#[local] Hint Resolve stays_set_conn stays_delete stays_set_fullsync stays_RemoveSlave stays_set_conns : stays.

Lemma stays_closing fd x m e : stays fd m (closing_event x m e).
Proof.
  destruct e as [[]| |]; cbn; try done.
  - destruct (FindSlave x m); [apply stays_RemoveSlave|done].
  - unfold close_cb. etrans; [apply (stays_RemoveSlave fd x)|apply stays_set_conns].
Qed.

Lemma stays_events fd x evs m : stays fd m (fold_left (closing_event x) evs m).
Proof.
  revert m. induction evs as [|e evs IH]; intros m; cbn; [done|]. etrans; [apply (stays_closing fd x m e)|apply IH].
Qed.

Lemma stays_SendTo fd x data m : stays fd m (SendTo x data m).
Proof.
  unfold SendTo. destruct (Send _ _) as [[? evs] c]. etrans; [apply (stays_set_conn fd x c)|apply stays_events].
Qed.

Lemma stays_ForceClose fd x m : stays fd m (ForceClose x m).
Proof.
  unfold ForceClose. destruct (TcpConnection.Close _) as [evs c].
  etrans; [apply (stays_set_conn fd x c)|apply stays_events].
Qed.

#[local] Hint Resolve stays_closing stays_events stays_SendTo stays_ForceClose : stays.

Lemma stays_refuse fd x msg m m' : refuse x msg m = Some m' -> stays fd m m'.
Proof.
  unfold refuse, deref. destruct (slaves_ _ !! x) as [s|]; [|done]. intros [= <-].
  etrans; [apply (stays_SendTo fd x)|apply stays_RemoveSlave].
Qed.

Lemma stays_SendBacklog fd x m m' : SendBacklogToSlave x m = Some m' -> stays fd m m'.
Proof.
  intros H. unfold SendBacklogToSlave in H. destruct (slaves_ m !! x) as [s|]; [|by injection H as <-].
  destruct (closed_ _); [by injection H as <-|]. set (m1 := set_state x kSendingBacklog m) in *.
  assert (stays fd m m1) as H1 by (by apply stays_set_state).
  destruct (Contains _ _); cbn [negb] in H; [|apply (stays_refuse fd) in H; by etrans].
  destruct (CopyRange _ _ _ _) as [[[] [payload|]]|];
    [|by apply (stays_refuse fd) in H; etrans|by apply (stays_refuse fd) in H; etrans|by apply (stays_refuse fd) in H; etrans|done].
  set (m2 := SendTo _ _ m1) in *. assert (stays fd m m2) as H2 by (etrans; [exact H1|apply stays_SendTo]).
  destruct (if is_empty payload then Some m2 else _) as [m3|] eqn:E3; [|done].
  assert (stays fd m m3) as H3.
  { destruct (is_empty payload); [by injection E3 as <-|]. destruct (deref x m2) as [s2|]; [|done].
    injection E3 as <-. etrans; [exact H2|apply stays_SendTo]. }
  destruct (deref x m3); [|done]. injection H as <-.
  assert (stays fd m (set_state x kSynced m3)) as H4 by (etrans; [exact H3|by apply stays_set_state]).
  destruct (any_active _); [done|]. etrans; [exact H4|apply stays_set_fullsync].
Qed.

Lemma stays_callbacks fd x evs m m' : callbacks (on_event x) evs m = Some m' -> stays fd m m'.
Proof.
  revert m. induction evs as [|e evs IH]; intros m H; cbn in H; [by injection H as <-|].
  destruct (on_event x e m) as [m1|] eqn:E; [|done]. apply IH in H. etrans; [|exact H].
  destruct e as [[]| |]; cbn in E; try (injection E as <-; apply (stays_closing fd x m (SendFileDone false)) || done).
  - destruct (FindSlave x m); [by apply (stays_SendBacklog fd) in E|by injection E as <-].
  - injection E as <-. exact (stays_closing fd x m Closed).
Qed.

Lemma stays_HandleWrite fd x fuel m m' :
  HandleWrite (conn_of x) (set_conn x) (on_event x) fuel m = Some m' -> stays fd m m'.
Proof.
  revert m. induction fuel as [|fuel IH]; intros m H; [done|]. cbn [HandleWrite] in H.
  destruct (HandleWrite_round (conn_of x m)) as [[again evs] c].
  destruct (callbacks (on_event x) evs (set_conn x c m)) as [m1|] eqn:E; [|done]. apply (stays_callbacks fd) in E.
  assert (stays fd m m1) by (etrans; [apply (stays_set_conn fd x c)|exact E]).
  destruct again; [apply IH in H; by etrans|by injection H as <-].
Qed.

Lemma stays_OnWritable fd x m m' : OnWritable x m = Some m' -> stays fd m m'.
Proof. unfold OnWritable. destruct (closed_ _); [by intros [= <-]|apply stays_HandleWrite]. Qed.

(** A slave that gets the snapshot does not wait any more. *)
Lemma SendRdb_served fd rdb m m' s s' :
  slaves_ m !! fd = Some s -> conn s = fd -> closed_ (conn_of fd m) = false ->
  SendRdbToSlave fd rdb m = Some m' -> slaves_ m' !! fd = Some s' -> state s' <> kWaitRdb.
Proof.
  intros Hs Hc Ho H Hs'. unfold SendRdbToSlave in H. rewrite Hs, Hc, Ho in H. destruct rdb as [img|].
  - set (m1 := set_state fd kSendingRdb m) in *. set (m2 := SendTo fd _ m1) in *. unfold deref in H.
    destruct (slaves_ m2 !! fd) as [s2|] eqn:E2; [|done].
    assert (stays fd m1 m') as [_ Hd].
    { destruct (SendFile _ _ _ _) as [[] c].
      - apply (stays_HandleWrite fd) in H. etrans; [apply (stays_SendTo fd fd)|]. etrans; [apply (stays_set_conn fd (conn s2) c)|exact H].
      - injection H as <-. etrans; [apply (stays_SendTo fd fd)|]. etrans; [apply (stays_SendTo fd (conn s2))|apply stays_RemoveSlave]. }
    destruct (Hd s' Hs') as (s1 & E1 & _ & W). cbn in E1. rewrite lookup_alter_eq, Hs in E1. injection E1 as <-.
    intros Hw. by apply W in Hw.
  - unfold refuse, deref in H. destruct (slaves_ (SendTo _ _ m) !! fd) as [s1|] eqn:E1; [|done]. injection H as <-.
    apply SendTo_slave in E1. assert (s1 = s) as -> by congruence. rewrite Hc, RemoveSlave_gone in Hs'. done.
Qed.

Lemma stays_SendRdb fd x rdb m m' : SendRdbToSlave x rdb m = Some m' -> stays fd m m'.
Proof.
  intros H. unfold SendRdbToSlave in H. destruct (slaves_ m !! x) as [s|]; [|by injection H as <-].
  destruct (closed_ _); [by injection H as <-|]. destruct rdb as [img|]; [|by apply (stays_refuse fd) in H].
  set (m1 := set_state x kSendingRdb m) in *. assert (stays fd m m1) as H1 by (by apply stays_set_state).
  set (m2 := SendTo _ _ m1) in *. assert (stays fd m m2) as H2 by (etrans; [exact H1|apply stays_SendTo]).
  destruct (deref x m2) as [s2|]; [|done]. destruct (SendFile _ _ _ _) as [[] c].
  - apply (stays_HandleWrite fd) in H. etrans; [exact H2|]. etrans; [apply (stays_set_conn fd (conn s2) c)|exact H].
  - injection H as <-. etrans; [exact H2|]. etrans; [apply (stays_SendTo fd (conn s2))|apply stays_RemoveSlave].
Qed.

Section Presence.
Context `{U : !Usearch} `{OZ : !IterOrder Z}.

Lemma stays_feed_loop fd fds f m drop m' drop' : feed_loop fds f m drop = Some (m', drop') -> stays fd m m'.
Proof.
  revert m drop. induction fds as [|x fds IH]; intros m drop H; cbn [feed_loop] in H; [by injection H as <- _|].
  destruct (deref x m) as [s|]; [|done]. case_bool_decide; [|by apply IH in H].
  destruct (closed_ _); [by apply IH in H|]. destruct (deref x (SendTo _ _ _)); [|done]. apply IH in H.
  etrans; [apply (stays_SendTo fd (conn s) f)|exact H].
Qed.

Lemma stays_drop_loop fd fds m m' : drop_loop fds m = Some m' -> stays fd m m'.
Proof.
  revert m. induction fds as [|x fds IH]; intros m H; cbn [drop_loop] in H; [by injection H as <-|].
  destruct (FindSlave x m) as [s|]; [|apply IH in H; etrans; [apply (stays_delete fd x)|exact H]].
  destruct (closed_ _); [apply IH in H; etrans; [apply (stays_delete fd x)|exact H]|].
  set (m1 := if bool_decide _ then m else _) in *.
  assert (stays fd m m1) as H1 by (unfold m1; case_bool_decide; [done|apply stays_SendTo]).
  destruct (deref x m1) as [s1|]; [|done]. apply IH in H. etrans; [exact H1|].
  etrans; [apply (stays_ForceClose fd (conn s1))|exact H].
Qed.

Lemma stays_feed fd f m m' : FeedEncodedFrame f m = Some m' -> stays fd m m'.
Proof.
  unfold FeedEncodedFrame. destruct (FeedEncoded _ _) as [[[] b]|]; [|by intros [= <-]; apply stays_sub|done].
  destruct (feed_loop _ _ _ _) as [[m1 drop]|] eqn:E; [|done]. intros H. apply (stays_drop_loop fd) in H.
  apply (stays_feed_loop fd) in E. etrans; [|exact H]. etrans; [|exact E]. by apply stays_sub.
Qed.

Lemma stays_erase fd fds m : stays fd m (erase_all fds m).
Proof. apply stays_sub; [done|]. intros s. rewrite lookup_erase_all. by destruct (decide _). Qed.

Lemma stays_refuse_waiting fd fds m drop m' drop' :
  refuse_waiting fds m drop = Some (m', drop') -> stays fd m m'.
Proof.
  revert m drop. induction fds as [|x fds IH]; intros m drop H; cbn [refuse_waiting] in H; [by injection H as <- _|].
  destruct (deref x m) as [s|]; [|done]. case_bool_decide; [|by apply IH in H].
  destruct (deref x (SendTo _ _ _)); [|done]. apply IH in H. etrans; [apply (stays_SendTo fd (conn s))|exact H].
Qed.

(** Slaves that wait are on the list of those to erase. *)
Lemma refuse_waiting_drop fds m drop m' drop' fd s :
  refuse_waiting fds m drop = Some (m', drop') -> slaves_ m' !! fd = Some s -> state s = kWaitRdb ->
  fd ∈ fds \/ fd ∈ drop -> fd ∈ drop'.
Proof.
  revert m drop. induction fds as [|x fds IH]; intros m drop H Hs Hw Hin; cbn [refuse_waiting] in H.
  { injection H as -> ->. by destruct Hin as [?%not_elem_of_nil|]. }
  unfold deref in H. destruct (slaves_ m !! x) as [sx|] eqn:Ex; [|done]. case_bool_decide as Hst.
  - destruct (slaves_ (SendTo _ _ _) !! x); [|done]. apply (IH _ _ H Hs Hw). rewrite elem_of_app, list_elem_of_singleton.
    rewrite elem_of_cons in Hin. naive_solver.
  - apply (IH _ _ H Hs Hw). rewrite elem_of_cons in Hin. destruct Hin as [[->|]|]; [|by left|by right].
    destruct (stays_refuse_waiting x _ _ _ _ _ H) as [_ Hd]. destruct (Hd s Hs) as (s0 & E0 & _ & W).
    assert (s0 = sx) as -> by congruence. by apply W in Hw.
Qed.

Lemma stays_fail_fullsync fd m m' : fail_fullsync m = Some m' -> stays fd m m'.
Proof.
  unfold fail_fullsync. destruct (refuse_waiting _ _ _) as [[m1 drop]|] eqn:E; [|done]. intros [= <-].
  apply (stays_refuse_waiting fd) in E. etrans; [exact E|]. etrans; [apply (stays_erase fd drop)|apply stays_set_fullsync].
Qed.

Lemma fail_fullsync_none m m' fd s :
  fail_fullsync m = Some m' -> slaves_ m' !! fd = Some s -> state s <> kWaitRdb.
Proof.
  unfold fail_fullsync. destruct (refuse_waiting _ _ _) as [[m1 drop]|] eqn:E; [|done]. intros [= <-] Hs Hw.
  change (slaves_ (erase_all drop m1) !! fd = Some s) in Hs. rewrite lookup_erase_all in Hs.
  destruct (decide (fd ∈ drop)) as [|Hn]; [done|]. apply Hn. apply (refuse_waiting_drop _ _ _ _ _ _ _ E Hs Hw). left.
  apply slave_fds_elem. destruct (stays_refuse_waiting fd _ _ _ _ _ E) as [_ Hd]. destruct (Hd s Hs) as (s0 & E0 & _). by exists s0.
Qed.

Lemma descends_align fd m :
  (forall s, slaves_ m !! fd = Some s -> state s <> kWaitRdb) -> descends fd m (align_waiting m).
Proof.
  intros Hn s Hs. cbn in Hs. apply lookup_fmap_Some in Hs as (s0 & <- & E). exists s0.
  by rewrite bool_decide_eq_false_2 by (by apply Hn).
Qed.

(** While a save for a resynchronisation is in flight, nothing is started. *)
Lemma StartFullsync_started m sn st pid :
  save_started_for_fullsync_ m = true -> StartFullsyncIfNeeded m sn st pid = Some (m, sn).
Proof. unfold StartFullsyncIfNeeded. by intros ->. Qed.

Lemma StartFullsync_descends fd m sn st pid m' sn' :
  (forall s, slaves_ m !! fd = Some s -> state s <> kWaitRdb) ->
  StartFullsyncIfNeeded m sn st pid = Some (m', sn') -> descends fd m m'.
Proof.
  intros Hn H. unfold StartFullsyncIfNeeded in H. destruct (save_started_for_fullsync_ m); [by injection H as <- _|].
  destruct (negb _); [by injection H as <- _|]. set (m1 := if fullsync_active_ m then m else _) in *.
  assert (slaves_ m1 = slaves_ m) as E1 by (unfold m1; by destruct (fullsync_active_ m)).
  assert (descends fd m (align_waiting m1)) as H1.
  { etrans; [|apply descends_align]; [intros s Hs; rewrite E1 in Hs; eauto|by rewrite E1]. }
  set (m2 := align_waiting m1) in *. clearbody m2. destruct (0 <? _); [by injection H as <- _|].
  assert (forall (sn : SnapshotManager), match fail_fullsync m2 with Some m => Some (m, sn) | None => None end = Some (m', sn') ->
    descends fd m m') as Hf.
  { intros sn1 H2. destruct (fail_fullsync m2) eqn:E; [|done]. injection H2 as <- _. apply (stays_fail_fullsync fd) in E as [_ E].
    by etrans. }
  destruct (BackgroundSaveToPath _ _ _ _) as [[] sn1]; try (by apply Hf in H); injection H as <- _; done.
Qed.

(** What a request for a save leaves of the snapshot manager. *)
Lemma StartFullsync_supervised m sn st pid m' sn' :
  supervised sn -> pid <> 0 -> StartFullsyncIfNeeded m sn st pid = Some (m', sn') -> supervised sn'.
Proof.
  intros Hs Hp H. unfold StartFullsyncIfNeeded in H. destruct (save_started_for_fullsync_ m); [by injection H as _ <-|].
  destruct (negb _); [by injection H as _ <-|]. set (m2 := align_waiting _) in *. clearbody m2.
  destruct (0 <? _); [by injection H as _ <-|].
  pose proof (supervised_step sn (Request st kFullsyncPath pid) Hs) as HS. cbn [SnapshotManager.step] in HS.
  specialize (HS ltac:(cbn; by apply negb_true_iff, Z.eqb_neq)).
  destruct (BackgroundSaveToPath _ _ _ _) as [[] sn1]; try (by injection H as _ <-);
    (destruct (fail_fullsync m2); [injection H as _ <-; exact HS|done]).
Qed.

Lemma stays_TryPartial fd x off m ok m' : x <> fd -> TryPartialResync x off m = Some (ok, m') -> stays fd m m' /\ (ok = false -> m' = m).
Proof.
  intros Hne H. unfold TryPartialResync in H. destruct (closed_ _); [by injection H as <- <-|].
  destruct (negb _); [by injection H as <- <-|]. destruct (CopyRange _ _ _ _) as [[[] [payload|]]|];
    [|by injection H as <- <-|by injection H as <- <-|by injection H as <- <-|done].
  set (m1 := set_slaves m _) in *. assert (stays fd m m1) as H1.
  { apply stays_sub; [done|]. intros s. cbn. by rewrite lookup_insert_ne. }
  set (m2 := SendTo x _ m1) in *. assert (stays fd m m2) as H2 by (etrans; [exact H1|apply stays_SendTo]).
  injection H as <- <-. split; [|done]. destruct (is_empty payload); [done|]. etrans; [exact H2|apply stays_SendTo].
Qed.

(** PSYNC on another connection. *)
Lemma OnPsync_other fd x replid off m sn st pid reply m' sn' :
  x <> fd -> OnPsync x replid off m (Some sn) st pid = Some (reply, m', Some sn') ->
  ((forall s, slaves_ m !! fd = Some s -> state s = kWaitRdb -> save_started_for_fullsync_ m = true) -> descends fd m m') /\
  (save_started_for_fullsync_ m = true -> save_started_for_fullsync_ m' = true /\ sn' = sn) /\
  (supervised sn -> pid <> 0 -> supervised sn').
Proof.
  intros Hne H. unfold OnPsync in H. destruct (_ || _); [by injection H as _ <- <-|].
  set (Hwaits := forall s, slaves_ m !! fd = Some s -> state s = kWaitRdb -> _).
  pose proof (stays_RemoveSlave fd x m) as [F1 D1]. set (m1 := RemoveSlave x m) in *.
  assert (forall m2, m2 = set_slaves m1 (<[x := mkSlave x kWaitRdb (tip_ (backlog_ m1))]> (slaves_ m1)) ->
    match StartFullsyncIfNeeded m2 sn st pid with
      None => None | Some (m3, sn3) => Some (@nil ascii, m3, Some sn3) end = Some (reply, m', Some sn') ->
    (Hwaits -> descends fd m m') /\
    (save_started_for_fullsync_ m = true -> save_started_for_fullsync_ m' = true /\ sn' = sn) /\
    (supervised sn -> pid <> 0 -> supervised sn')) as Hfull.
  { intros m2 Em2 H2. assert (stays fd m m2) as [F2 D2].
    { etrans; [split; [exact F1|exact D1]|]. subst m2. apply stays_sub; [done|]. intros s. cbn. by rewrite lookup_insert_ne. }
    destruct (StartFullsyncIfNeeded m2 sn st pid) as [[m3 sn3]|] eqn:E; [|done]. injection H2 as _ <- <-.
    split_and!.
    - intros Hw. destruct (save_started_for_fullsync_ m2) eqn:Ef.
      + rewrite StartFullsync_started in E by done. by injection E as <- _.
      + etrans; [exact D2|]. apply (StartFullsync_descends fd) in E; [done|]. intros s Hs Hst.
        destruct (D2 s Hs) as (s0 & E0 & _ & W). specialize (Hw s0 E0 (W Hst)). congruence.
    - intros Hf. rewrite StartFullsync_started in E by congruence. injection E as <- <-. split; [congruence|done].
    - intros Hs Hp. by apply (StartFullsync_supervised _ _ _ _ _ _ Hs Hp E). }
  destruct (_ && _ && _).
  - destruct (TryPartialResync x (u64 off) m1) as [[[] m2]|] eqn:E; [| |done].
    + injection H as _ <- <-. apply (stays_TryPartial fd) in E as [[F2 D2] _]; [|done]. split_and!; [intros _; by etrans| |done].
      intros Hf. split; [congruence|done].
    + apply (stays_TryPartial fd) in E as [_ E]; [|done]. rewrite E in H by done. by apply (Hfull _ eq_refl).
  - by apply (Hfull _ eq_refl).
Qed.

Lemma OnSaveDone_supervised ok path m sn st pid fs m' sn' :
  supervised sn -> pid <> 0 -> OnSaveDone ok path m sn st pid fs = Some (m', sn') -> supervised sn'.
Proof.
  intros Hs Hp H. unfold OnSaveDone in H. destruct (_ && beq path _).
  - by destruct (if ok then _ else _); simplify_eq.
  - by apply (StartFullsync_supervised _ _ _ _ _ _ Hs Hp H).
Qed.

(** The snapshot goes to all slaves that wait. *)
Lemma stays_send_rdb_all fd fds rdb m m' : send_rdb_all fds rdb m = Some m' -> stays fd m m'.
Proof.
  revert m. induction fds as [|x fds IH]; intros m H; cbn [send_rdb_all] in H; [by injection H as <-|].
  destruct (FindSlave x m); [|by apply IH in H]. destruct (SendRdbToSlave x rdb m) as [m1|] eqn:E; [|done].
  apply (stays_SendRdb fd) in E. apply IH in H. by etrans.
Qed.

Lemma send_rdb_all_none given pic cont hs fds rdb m m' fd s :
  master_ok given pic cont hs m -> NoDup fds -> (forall x s, x ∈ fds -> slaves_ m !! x = Some s -> state s = kWaitRdb) ->
  (forall x img, x ∈ fds -> rdb = Some img -> pic x img) ->
  send_rdb_all fds rdb m = Some m' -> fd ∈ fds -> slaves_ m' !! fd = Some s -> state s <> kWaitRdb.
Proof.
  revert m. induction fds as [|x fds IH]; intros m Hm Hnd Hw Hpic H Hin Hs; [by apply not_elem_of_nil in Hin|].
  cbn [send_rdb_all] in H. apply NoDup_cons in Hnd as [Hni Hnd]. unfold FindSlave in H.
  assert (forall y img, y ∈ fds -> rdb = Some img -> pic y img) as Hpics by (intros; apply Hpic; [by right|done]).
  destruct (slaves_ m !! x) as [sx|] eqn:Ex.
  - destruct (SendRdbToSlave x rdb m) as [m1|] eqn:E; [|done].
    apply elem_of_cons in Hin as [->|Hin].
    + apply (stays_send_rdb_all x) in H as [_ Hd]. destruct (Hd s Hs) as (s1 & E1 & _ & W).
      destruct (mo_slaves _ _ _ _ _ Hm x sx Ex) as (Hc & _ & Ho & _).
      intros Hst. by apply (SendRdb_served x rdb m m1 sx s1 Ex Hc Ho E E1), W.
    + assert (kept given pic cont hs x m m1) as Hk.
      { eapply SendRdb_kept; [done|exact Ex|apply (Hw x); [by left|done]|intros; apply Hpic; [by left|done]|exact E]. }
      apply (IH m1); try done; [by apply (master_ok_kept given pic cont hs x m)|].
      intros y sy Hy Ey. assert (y <> x) by (by intros ->). destruct Hk as (Ho & _).
      rewrite (ot_slave _ _ _ Ho y) in Ey by done. apply (Hw y); [by right|done].
  - apply elem_of_cons in Hin as [->|Hin].
    + exfalso. apply (stays_send_rdb_all x) in H as [_ Hd]. destruct (Hd s Hs) as (s1 & E1 & _). congruence.
    + apply (IH m); try done. intros y sy Hy. apply Hw. by right.
Qed.

(** The end of a save: the slave [fd] does not wait any more, if the save was
    the one it waited for or if it did not wait. *)
Lemma OnSaveDone_slave fd ok path m sn st pid fs m' sn' :
  OnSaveDone ok path m sn st pid fs = Some (m', sn') ->
  (forall s, slaves_ m !! fd = Some s -> state s = kWaitRdb ->
     save_started_for_fullsync_ m = true /\ path = kFullsyncPath) ->
  descends fd m m' /\
  (forall given pic cont hs, master_ok given pic cont hs m ->
     (ok = true -> forall x img, waiting m x = true -> files fs !! kFullsyncPath = Some img -> pic x img) ->
     forall s, slaves_ m' !! fd = Some s -> state s <> kWaitRdb).
Proof.
  intros H Hw. unfold OnSaveDone in H. set (m1 := set_save_started m false) in *.
  assert (descends fd m m1) as D1 by (intros s Hs; eauto).
  destruct (_ && beq path _) eqn:Ef; [destruct ok|].
  - unfold BeginSendToWaiters in H. set (fds := filter _ _) in *.
    destruct (send_rdb_all fds _ m1) as [m2|] eqn:E; [|done]. injection H as <- <-.
    pose proof (stays_send_rdb_all fd _ _ _ _ E) as [_ D2]. split; [by etrans|].
    intros given pic cont hs Hm Hpic s Hs Hst. destruct (D2 s Hs) as (s1 & E1 & _ & W).
    assert (master_ok given pic cont hs m1) as Hm1 by (apply (master_ok_flags given pic cont hs m); try done; apply Hm).
    apply (send_rdb_all_none given pic cont hs fds (files fs !! kFullsyncPath) m1 m2 fd s); try done.
    + apply NoDup_filter, slave_fds_NoDup.
    + intros x sx [Hx _]%list_elem_of_filter Ex. unfold waiting in Hx. rewrite Ex in Hx. by apply bool_decide_eq_true in Hx.
    + by intros x img [Hx _]%list_elem_of_filter ?; apply Hpic.
    + apply list_elem_of_filter. split; [|apply slave_fds_elem; by exists s1].
      unfold waiting. rewrite E1. by apply bool_decide_eq_true, W.
  - destruct (fail_fullsync m1) as [m2|] eqn:E; [|done]. injection H as <- <-.
    pose proof (stays_fail_fullsync fd _ _ E) as [_ D2]. split; [by etrans|].
    intros _ _ _ _ _ _ s Hs. by apply (fail_fullsync_none m1 m2 fd).
  - assert (forall s, slaves_ m1 !! fd = Some s -> state s <> kWaitRdb) as Hn.
    { intros s Hs Hst. destruct (Hw s Hs Hst) as [E1 ->]. rewrite E1 in Ef. unfold beq in Ef.
      by rewrite bool_decide_eq_true_2 in Ef. }
    pose proof (StartFullsync_descends fd _ _ _ _ _ _ Hn H) as D2. split; [by etrans|].
    intros _ _ _ _ _ _ s Hs Hst. destruct (D2 s Hs) as (s1 & E1 & _ & W). by apply (Hn s1 E1), W.
Qed.

(** Streaming some frames; after undefined behaviour there is no state. *)
Lemma feeds_none fs : fold_left feed1 fs None = @None ReplicationMaster.
Proof. by induction fs. Qed.

Lemma stays_feeds fd fs m m' : fold_left feed1 fs (Some m) = Some m' -> stays fd m m'.
Proof.
  revert m. induction fs as [|f fs IH]; intros m H; cbn [fold_left] in H; [by injection H as <-|].
  unfold feed1 at 2 in H. cbn [MutationApply.has_slaves feed_frame master_repl] in H.
  destruct (has_slaves m); [|by apply IH].
  destruct (FeedEncodedFrame f m) as [m1|] eqn:E.
  - apply (stays_feed fd) in E. apply IH in H. by etrans.
  - by rewrite feeds_none in H.
Qed.

Lemma feeds_ok given pic cont hs fs fd m m' s :
  master_ok given pic cont hs m -> Forall (fun f => f <> []) fs -> size_of (mjoin (hs ++ fs)) < 2 ^ 64 ->
  fold_left feed1 fs (Some m) = Some m' -> slaves_ m' !! fd = Some s -> master_ok given pic cont (hs ++ fs) m'.
Proof.
  revert hs m. induction fs as [|f fs IH]; intros hs m Hm Hf Hsz H Hs.
  { cbn in H. injection H as <-. by rewrite app_nil_r. }
  apply Forall_cons_iff in Hf as [Hf Hfs]. pose proof (stays_feeds fd (f :: fs) m m' H) as [_ Hd].
  destruct (Hd s Hs) as (s0 & E0 & _). cbn [fold_left] in H. unfold feed1 at 2 in H.
  cbn [MutationApply.has_slaves feed_frame master_repl] in H.
  assert (has_slaves m = true) as Hh.
  { apply bool_decide_eq_true. intros He. rewrite He, lookup_empty in E0. done. }
  rewrite Hh in H. change (f :: fs) with ([f] ++ fs) in *. rewrite app_assoc in Hsz |- *.
  destruct (FeedEncodedFrame f m) as [m1|] eqn:E.
  - apply (IH (hs ++ [f]) m1); try done. apply (FeedEncodedFrame_ok given pic cont hs f m); try done.
    rewrite join_app, size_of_app, mjoin_snoc, size_of_app in Hsz. pose proof (size_of_nonneg (mjoin fs)). lia.
  - by rewrite feeds_none in H.
Qed.

End Presence.

(** ** Lemmas: the same data *)

Section Data.
Context `{U : !Usearch}.

(** The same key-value store and the same nodes under the same ids. *)
Definition same_data (i : option VNodeIndex.VNodeIndex) (k : option KvStore.KvStore)
    (i' : option VNodeIndex.VNodeIndex) (k' : option KvStore.KvStore) : Prop :=
  VNodeIndex.storage_ <$> i = VNodeIndex.storage_ <$> i' /\ k = k'.

(** What a [VSET] that succeeds and a [VDEL] make of the nodes does not depend on
    the vectors. *)
Lemma EnsureIndex_storage vi dim : VNodeIndex.storage_ (VNodeIndex.EnsureIndex vi dim).2 = VNodeIndex.storage_ vi.
Proof.
  unfold VNodeIndex.EnsureIndex. destruct (VNodeIndex.index_ vi); [done|].
  by destruct (USearchEmbedIndex.Search _ _ _ _ _) as [[] ?].
Qed.

Lemma Set_storage vi blob k q ans :
  (VNodeIndex.Set_ vi blob k q ans).1 = VNodeIndex.kOk ->
  VNodeIndex.storage_ (VNodeIndex.Set_ vi blob k q ans).2 =
    (VNodeStorage.Put (VNodeIndex.storage_ vi) (VNodeStorage.mkNode 0 k q ans) (Some 0)).2.
Proof.
  unfold VNodeIndex.Set_. destruct (is_empty k); [done|].
  destruct (VNodeIndex.ParseFloatBlob _ _ _) as [[[] ?] [dim|]]; try done.
  pose proof (EnsureIndex_storage vi dim) as HE. destruct (VNodeIndex.EnsureIndex vi dim) as [[] vi1]; cbn in HE; try done.
  rewrite HE. destruct (VNodeStorage.Put _ _ _) as [[[] [i|]] st]; try done.
  cbn [VNodeIndex.index_ VNodeIndex.with_storage]. destruct (VNodeIndex.index_ vi1); [|done].
  by destruct (USearchEmbedIndex.Add _ _ _ _) as [[] ?].
Qed.

Lemma Del_storage a b k :
  VNodeIndex.storage_ a = VNodeIndex.storage_ b ->
  VNodeIndex.storage_ (VNodeIndex.Del a k).2 = VNodeIndex.storage_ (VNodeIndex.Del b k).2.
Proof.
  intros E. unfold VNodeIndex.Del. destruct (is_empty k); [done|]. rewrite E.
  destruct (VNodeStorage.GetByUserKey _ _ _) as [[] [n|]]; try done.
  cbn [VNodeIndex.index_ VNodeIndex.with_lru].
  destruct (VNodeIndex.index_ a), (VNodeIndex.index_ b); cbn; rewrite E;
    by destruct (VNodeStorage.DelByUserKey _ _) as [[] ?].
Qed.

(** Replays of the same commands on the same data, under any log and feed, give
    the same data, if both succeed. *)
Section Instances.
Context {W1 W2 : Wal} {R1 R2 : Repl}.

Notation alike t1 t2 := (same_data (t_index (R := R1) t1) (t_kv t1) (t_index (R := R2) t2) (t_kv t2)).

Lemma redo1_data (t1 t1' : @Targets _ W1 R1) (t2 t2' : @Targets _ W2 R2) c :
  alike t1 t2 -> redo1 t1 c = Some t1' -> redo1 t2 c = Some t2' -> alike t1' t2'.
Proof.
  intros [Hi Hk] H1 H2. unfold redo1 in *. cbn [ApplyMutation] in *. destruct (cmd c); try done.
  - unfold apply_vset in *. destruct (t_index t1) as [a|] eqn:E1; [|done]. destruct (t_index t2) as [b|] eqn:E2; [|done].
    rewrite ?E1, ?E2 in H1, H2. cbn in Hi. injection Hi as Hi. unfold apply_vset_set in *.
    pose proof (Set_storage a (vector_blob c) (user_key c) (question c) (answer c)) as Sa.
    pose proof (Set_storage b (vector_blob c) (user_key c) (question c) (answer c)) as Sb.
    destruct (VNodeIndex.Set_ a _ _ _ _) as [[] a']; try done. destruct (VNodeIndex.Set_ b _ _ _ _) as [[] b']; try done.
    cbn in *. simplify_eq. split; cbn; [|done]. by rewrite Sa, Sb, Hi.
  - unfold apply_vdel in *. destruct (t_index t1) as [a|] eqn:E1; [|done]. destruct (t_index t2) as [b|] eqn:E2; [|done].
    cbn in Hi. injection Hi as Hi. pose proof (Del_storage a b (user_key c) Hi) as Sd.
    destruct (VNodeIndex.Del a _) as [[] a']; try done; (destruct (VNodeIndex.Del b _) as [[] b']; try done);
      cbn in *; simplify_eq; (split; cbn; [by rewrite Sd|done]).
  - unfold apply_set in *. rewrite Hk in H1. destruct (t_kv t2) as [kv|]; [|done]. destruct (is_empty (key c)); [done|].
    destruct (KvStore.Set_ kv _ _) as [[] kv']; try done. cbn in *. simplify_eq. by split.
  - unfold apply_del in *. rewrite Hk in H1. destruct (t_kv t2) as [kv|]; [|done]. destruct (is_empty (key c)); [done|].
    destruct (KvStore.Del kv _) as [[] kv']; try done; cbn in *; simplify_eq; by split.
Qed.

Lemma redo_data cs (t1 t1' : @Targets _ W1 R1) (t2 t2' : @Targets _ W2 R2) :
  alike t1 t2 -> redo cs t1 = Some t1' -> redo cs t2 = Some t2' -> alike t1' t2'.
Proof.
  revert t1 t2. induction cs as [|c cs IH]; intros t1 t2 H H1 H2; cbn in H1, H2; [by simplify_eq|].
  destruct (redo1 t1 c) as [u1|] eqn:E1; [|done]. destruct (redo1 t2 c) as [u2|] eqn:E2; [|done].
  apply (IH u1 u2); try done. by apply (redo1_data t1 u1 t2 u2 c).
Qed.

End Instances.

Lemma redo_stores_data `{W : !Wal} `{R : !Repl} cs (t t' : Targets) (st st' : Stores) :
  same_data (s_index st) (s_kv st) (t_index t) (t_kv t) -> redo_stores cs st = Some st' -> redo cs t = Some t' ->
  same_data (s_index st') (s_kv st') (t_index t') (t_kv t').
Proof.
  intros H H1 H2. unfold redo_stores in H1. apply fmap_Some in H1 as (u & H1 & ->).
  by apply (redo_data cs (targets_of st) u t t').
Qed.

End Data.

(** ** The master process *)

Section Master.
Context `{U : !Usearch} `{UL : !UsearchLaws U} `{OB : !IterOrder bytes} `{OZ : !IterOrder Z} `{W : !Wal} `{WL : !WalLaws W}.

(** The stores, the log and the master of a process, and its snapshots. *)
Record Node := mkNode { n_targets : Targets; n_snap : SnapshotManager }.

Definition n_stores (n : Node) : Stores := mkStores (t_index (n_targets n)) (t_kv (n_targets n)).

(** The master; there is none after undefined behaviour. *)
Definition master (n : Node) : option ReplicationMaster := default None (t_repl (n_targets n)).

Definition with_master (n : Node) (m : ReplicationMaster) : Node :=
  mkNode (MutationApply.with_repl (n_targets n) (Some m)) (n_snap n).

(** What the process does while it serves the replica on [fd]: clients write (with
    the evictions), done or refused with any answer but "aof append failed" and
    "vset failed" (after which stores and stream may differ, see
    [MutationApply.write_journal]; such a refusal is a step if it changed nothing),
    or look something up; connections are accepted,
    answered, written to and closed; other replicas ask for a resynchronisation;
    a save is requested; the reap timer finds the child running, or gone -- it
    has then saved its copy of the stores on a disk with room, or has failed in
    any way. *)
Inductive serves (fd : Z) : Node -> Node -> Prop :=
| sv_write n ctx fuel r t' :
    ApplyMutation fuel ctx kClient (n_targets n) = Some (r, t') -> in_step r = true ->
    (nodes (n_targets n) + 2 <= fuel)%nat -> serves fd n (mkNode t' (n_snap n))
| sv_refused n ctx fuel r t' :
    ApplyMutation fuel ctx kClient (n_targets n) = Some (r, t') -> ok r = false ->
    strip t' = strip (n_targets n) -> t_repl t' = t_repl (n_targets n) -> serves fd n (mkNode t' (n_snap n))
| sv_get n vi q thr :
    t_index (n_targets n) = Some vi ->
    serves fd n (mkNode (MutationApply.with_index (n_targets n) (VNodeIndex.Get vi q thr (Some [])).2) (n_snap n))
| sv_accept n m x sock :
    master n = Some m -> x ∉ conns_ m ->
    serves fd n (with_master n (OnConnection x (ReplicationMaster.set_conn x (TcpConnection.construct sock) m)))
| sv_reply n m x data :
    master n = Some m -> slaves_ m !! x = None -> serves fd n (with_master n (SendTo x data m))
| sv_writable n m x m' : master n = Some m -> OnWritable x m = Some m' -> serves fd n (with_master n m')
| sv_hangup n m x : master n = Some m -> serves fd n (with_master n (ReplicationMaster.ForceClose x m))
| sv_psync n m x replid offset pid reply m' sn' :
    master n = Some m -> x <> fd -> sendfile_fd_ (conn_of x m) = None -> pid <> 0 ->
    OnPsync x replid offset m (Some (n_snap n)) (n_stores n) pid = Some (reply, m', Some sn') ->
    serves fd n (mkNode (MutationApply.with_repl (n_targets n) (Some m')) sn')
| sv_save n pid : pid <> 0 -> serves fd n (mkNode (n_targets n) (BackgroundSave (n_snap n) (n_stores n) pid).2)
| sv_poll n fs : serves fd n (mkNode (n_targets n) (OnReapTimer (n_snap n) StillRunning fs).1.2)
| sv_reap n m c exit fs fs1 path sn1 fs2 pid m' sn' :
    master n = Some m -> child (n_snap n) = Some c -> pid <> 0 ->
    (exit = true -> disk_room fs = None /\ RunChild c fs = (Exited true, fs1)) ->
    OnReapTimer (n_snap n) (Exited exit) fs1 = (Some (exit, path), sn1, fs2) ->
    OnSaveDone exit path m sn1 (n_stores n) pid fs2 = Some (m', sn') ->
    serves fd n (mkNode (MutationApply.with_repl (n_targets n) (Some m')) sn').

(** ** Lemmas: the save *)

Lemma kOk_healthy vi kv path fs fs' :
  SaveToPath (mkStores (Some vi) (Some kv)) path fs = (SnapshotManager.kOk, fs') -> disk_room fs = None ->
  healthy path fs /\ is_empty path = false.
Proof.
  unfold SaveToPath. cbn [s_index s_kv]. intros H Hr. destruct (is_empty path); [done|].
  destruct (match parent_path path with Some dir => negb (create_directories dir fs) | None => false end) eqn:Ed; [done|].
  unfold fopen_wb in H. destruct (can_create fs _) eqn:Ec; [|done]. destruct (fseek _ _) as [[] fp]; [|done]. cbn [negb] in H.
  destruct (SaveSegments vi kv fp) as [[h|] fp1]; [|done]. destruct (RdbFormat.WriteHeader _ _) as [[] f]; try done.
  destruct (FsyncFile _) eqn:Es; [|done]. cbn [negb] in H. unfold rename in H.
  destruct (can_rename _) eqn:En; [|done]. split; [|done]. split; try done.
  destruct (parent_path path); [|done]. by apply negb_false_iff in Ed.
Qed.

Lemma RunChild_image vi kv path fs fs' :
  portable vi kv -> disk_room fs = None ->
  RunChild (mkChild (mkStores (Some vi) (Some kv)) path) fs = (Exited true, fs') ->
  files fs' !! path = Some (rdb_image vi kv).
Proof.
  intros (Hs & Hf & _) Hr H. unfold RunChild in H. cbn [c_stores c_path] in H.
  destruct (SaveToPath _ _ _) as [st fs1] eqn:E. injection H as Hok <-. apply bool_decide_eq_true in Hok as ->.
  destruct (kOk_healthy _ _ _ _ _ E Hr) as [Hh Hp].
  destruct (SaveToPath_image vi kv path fs Hs Hf Hp Hh) as (fs2 & E2 & Hfile & _). congruence.
Qed.

Lemma join_path_inj dir a b : join_path dir a = join_path dir b -> a = b.
Proof.
  unfold join_path. destruct (last dir) as [c|]; [|done]. case_bool_decide as Hc; intros E; repeat apply app_inv_head in E; done.
Qed.

(** The clean-up of older files leaves the saved file alone. *)
Lemma legacy_kept sn fs name :
  name ∉ kLegacy -> files (RemoveLegacyDumpFiles sn fs) !! join_path (dir_ sn) name = files fs !! join_path (dir_ sn) name.
Proof.
  intros Hn. unfold RemoveLegacyDumpFiles. destruct (is_empty (dir_ sn)); [done|]. cbn [files with_files].
  generalize (files fs). revert Hn. induction kLegacy as [|x l IH]; intros Hn fm; cbn; [done|].
  rewrite IH by (intros H; by apply Hn; right). rewrite lookup_delete_ne; [done|]. intros ->%join_path_inj. apply Hn. by left.
Qed.

Lemma OnReapTimer_exit sn c exit fs cb sn' fs' :
  supervised sn -> child sn = Some c -> OnReapTimer sn (Exited exit) fs = (cb, sn', fs') ->
  cb = Some (exit, c_path c) /\ supervised sn' /\ (exit = true -> files fs' !! c_path c = files fs !! c_path c).
Proof.
  unfold supervised. intros Hs Hc H. rewrite Hc in Hs. destruct Hs as (H1 & H2 & H3 & H4).
  unfold OnReapTimer, ReapSaveChild in H. cbn in H. rewrite (proj2 (Z.leb_gt _ _) H1) in H. cbn in H. rewrite H3 in H.
  injection H as <- <- <-. split_and!; [done|cbn; lia|]. intros ->. cbn [andb]. destruct (is_empty (dir_ sn)); [done|]. cbn [negb andb].
  unfold beq. case_bool_decide as Hp; [|done]. rewrite Hp.
  match goal with |- files (RemoveLegacyDumpFiles ?s _) !! _ = _ => apply (legacy_kept s) end. apply (bool_decide_unpack _). by vm_compute.
Qed.

(** ** Lemmas: the session *)

Definition nonempty_frames (fs : list bytes) : Prop := Forall (fun f => f <> []) fs.

Lemma write_frames_nonempty cs : Forall write_ok cs -> nonempty_frames (frame_of <$> cs).
Proof.
  intros Ho. apply Forall_fmap, (Forall_impl _ _ _ Ho). intros c Hc.
  unfold compose, frame_of, write_ok, write_tokens in *. by destruct (cmd c).
Qed.

Section Session.
Context (fd : Z) (hs0 : list bytes) (vi : VNodeIndex.VNodeIndex) (kv : KvStore.KvStore) (t0 : Targets).

(** The snapshot for [fd] is one of the stores at the fork, and it is not told to
    continue. *)
Definition pic (x : Z) (img : bytes) : Prop := x = fd -> portable vi kv -> img = rdb_image vi kv.
Definition others_may (x : Z) : Prop := x <> fd.

Definition forked (m : ReplicationMaster) (sn : SnapshotManager) : Prop :=
  save_started_for_fullsync_ m = true /\ child sn = Some (mkChild (mkStores (Some vi) (Some kv)) kFullsyncPath).

(** With the writes [cs] since the fork: what holds of the slave [fd]. *)
Definition tracked (cs : list RequestContext) (m : ReplicationMaster) (sn : SnapshotManager) : Prop :=
  forall s, slaves_ m !! fd = Some s -> size_of (mjoin (hs0 ++ (frame_of <$> cs))) < 2 ^ 64 ->
  (exists g, master_ok g pic others_may (hs0 ++ (frame_of <$> cs)) m /\ g fd = []) /\
  backlog_start s = size_of (mjoin hs0) /\ (state s = kWaitRdb -> forked m sn).

Record session (n : Node) (cs : list RequestContext) : Prop := {
  ss_wf : targets_wf (n_targets n);
  ss_snap : supervised (n_snap n);
  ss_ok : Forall write_ok cs;
  ss_redo : exists u, redo cs t0 = Some u /\ eqv_targets u (strip (n_targets n));
  ss_slave : forall m, master n = Some m -> tracked cs m (n_snap n)
}.

(** An operation of the master, which leaves the snapshot manager alone. *)
Lemma tracked_step cs m m' sn :
  tracked cs m sn -> stays fd m m' ->
  (forall g, master_ok g pic others_may (hs0 ++ (frame_of <$> cs)) m -> master_ok g pic others_may (hs0 ++ (frame_of <$> cs)) m') ->
  tracked cs m' sn.
Proof.
  intros Ht [Hf Hd] Hok s' Hs' Hsz. destruct (Hd s' Hs') as (s & Hs & Hb & Hw).
  destruct (Ht s Hs Hsz) as ((g & Hm & Hg) & Hb0 & Hw0). split_and!; [by exists g; auto|congruence|].
  intros Hst. destruct (Hw0 (Hw Hst)) as [H1 H2]. split; [congruence|done].
Qed.

Lemma session_master n m m' cs :
  session n cs -> master n = Some m -> stays fd m m' ->
  (forall g, master_ok g pic others_may (hs0 ++ (frame_of <$> cs)) m -> master_ok g pic others_may (hs0 ++ (frame_of <$> cs)) m') ->
  session (with_master n m') cs.
Proof.
  intros [H1 H2 H3 H4 H5] Hm Hs Hok. split; try done. intros m1 [= <-]. by apply (tracked_step cs m); [apply H5|..].
Qed.

(** A change of the stores that replays as [cs'], and of which the replicas have
    been fed the frames. *)
Lemma session_write n t' cs cs' :
  session n cs -> targets_wf t' -> Forall write_ok cs' ->
  (exists u, redo cs' (strip (n_targets n)) = Some u /\ eqv_targets u (strip t')) ->
  fed (n_targets n) t' (frame_of <$> cs') -> session (mkNode t' (n_snap n)) (cs ++ cs').
Proof.
  intros [H1 H2 H3 (u & Hu & He) H5] Hwf Ho (v & Hv & Hve) Hf.
  pose proof (write_frames_nonempty cs' Ho) as Hne.
  split; [done|done|by apply Forall_app| |].
  - destruct (redo_eqv cs' (strip (n_targets n)) u v) as (u' & Hu' & He'); [by symmetry|done|].
    exists u'. rewrite redo_app, Hu. split; [done|]. etrans; [|exact Hve]. by symmetry.
  - intros m' Hm'. unfold fed, master in *. cbn [n_targets n_snap] in *. rewrite Hf in Hm'.
    destruct (t_repl (n_targets n)) as [[m|]|] eqn:Er; cbn in Hm'; [|by rewrite feeds_none in Hm'|done].
    intros s' Hs' Hsz. rewrite fmap_app, app_assoc in Hsz |- *.
    pose proof (stays_feeds fd _ _ _ Hm') as [Hfl Hd]. destruct (Hd s' Hs') as (s & Hs & Hb & Hw).
    assert (size_of (mjoin (hs0 ++ (frame_of <$> cs))) < 2 ^ 64) as Hsz0.
    { rewrite join_app, size_of_app in Hsz. pose proof (size_of_nonneg (mjoin (frame_of <$> cs'))). lia. }
    destruct (H5 m eq_refl s Hs Hsz0) as ((g & Hm & Hg) & Hb0 & Hw0). split_and!; [exists g; split; [|done]|congruence|].
    + by apply (feeds_ok g pic others_may _ (frame_of <$> cs') fd m m' s').
    + intros Hst. destruct (Hw0 (Hw Hst)) as [A1 A2]. split; [congruence|done].
Qed.

Lemma session_replay n t' cs :
  session n cs -> targets_wf t' -> eqv_targets (strip (n_targets n)) (strip t') -> t_repl t' = t_repl (n_targets n) ->
  session (mkNode t' (n_snap n)) cs.
Proof.
  intros H Hwf He Hr. rewrite <- (app_nil_r cs). apply session_write; try done.
  - by exists (strip (n_targets n)).
  - unfold fed. rewrite Hr. by destruct (t_repl (n_targets n)).
Qed.

(** A change of the master and its snapshots. *)
Lemma session_with n m m' sn' cs :
  session n cs -> master n = Some m -> supervised sn' -> (tracked cs m (n_snap n) -> tracked cs m' sn') ->
  session (mkNode (MutationApply.with_repl (n_targets n) (Some m')) sn') cs.
Proof. intros [H1 H2 H3 H4 H5] Hm Hs Ht. split; try done. intros m1 [= <-]. by apply Ht, H5. Qed.

(** A change of the snapshots that keeps a child. *)
Lemma session_snap n sn' cs :
  session n cs -> supervised sn' -> (forall c, child (n_snap n) = Some c -> child sn' = Some c) ->
  session (mkNode (n_targets n) sn') cs.
Proof.
  intros [H1 H2 H3 H4 H5] Hs Hc. split; try done. intros m Hm s E Hsz.
  destruct (H5 m Hm s E Hsz) as (A & B & C). split_and!; [done|done|]. intros Hst. destruct (C Hst) as [D1 D2].
  split; [done|]. by apply Hc.
Qed.

Lemma BackgroundSave_kept sn st pid :
  supervised sn -> pid <> 0 ->
  supervised (BackgroundSave sn st pid).2 /\ forall c, child sn = Some c -> (BackgroundSave sn st pid).2 = sn.
Proof.
  intros Hs Hp. unfold BackgroundSave. destruct (is_empty (dir_ sn)); [done|]. split.
  - apply (supervised_step sn (Request st _ pid) Hs). cbn. by apply negb_true_iff, Z.eqb_neq.
  - intros c Hc. unfold supervised in Hs. rewrite Hc in Hs. destruct Hs as (Hp0 & _). unfold BackgroundSaveToPath.
    destruct (s_index st), (s_kv st); try done. destruct (is_empty _); [done|].
    by rewrite (proj2 (Z.ltb_lt _ _) Hp0).
Qed.

(** The child is gone. *)
Lemma session_reap n m c exit fs fs1 path sn1 fs2 pid m' sn' cs :
  session n cs -> master n = Some m -> child (n_snap n) = Some c -> pid <> 0 ->
  (exit = true -> disk_room fs = None /\ RunChild c fs = (Exited true, fs1)) ->
  OnReapTimer (n_snap n) (Exited exit) fs1 = (Some (exit, path), sn1, fs2) ->
  OnSaveDone exit path m sn1 (n_stores n) pid fs2 = Some (m', sn') ->
  session (mkNode (MutationApply.with_repl (n_targets n) (Some m')) sn') cs.
Proof.
  intros Hn Hm Hc Hpid Hrun HT HD. pose proof (ss_snap _ _ Hn) as Hsn.
  destruct (OnReapTimer_exit _ _ _ _ _ _ _ Hsn Hc HT) as ([= ->] & Hsn1 & Hfile).
  apply (session_with n m m' sn' cs Hn Hm); [by eapply OnSaveDone_supervised|]. intros Ht s' Hs' Hsz.
  assert (forall s, slaves_ m !! fd = Some s -> state s = kWaitRdb ->
    save_started_for_fullsync_ m = true /\ c = mkChild (mkStores (Some vi) (Some kv)) kFullsyncPath) as Hw.
  { intros s Hs Hst. destruct (Ht s Hs Hsz) as (_ & _ & Hf). destruct (Hf Hst) as [A1 A2]. split; [done|congruence]. }
  destruct (OnSaveDone_slave fd _ _ _ _ _ _ _ _ _ HD) as [D1 D2].
  { intros s Hs Hst. by destruct (Hw s Hs Hst) as [? ->]. }
  destruct (D1 s' Hs') as (s & Hs & Hb & _). destruct (Ht s Hs Hsz) as ((g & Hg & Hg0) & Hb0 & _).
  assert (exit = true -> forall x img, waiting m x = true -> files fs2 !! kFullsyncPath = Some img -> pic x img) as Hpic.
  { intros He x img Hx Himg -> Hp. unfold waiting in Hx. rewrite Hs in Hx. apply bool_decide_eq_true in Hx.
    destruct (Hw s Hs Hx) as [_ ->]. destruct (Hrun He) as [Hr HR]. apply RunChild_image in HR; [|done..].
    specialize (Hfile He). cbn [c_path] in Hfile. congruence. }
  split_and!; [|congruence|].
  + exists g. split; [by eapply OnSaveDone_ok|done].
  + intros Hst. by destruct (D2 g pic others_may _ Hg Hpic s' Hs').
Qed.

Lemma serves_session n n' cs : session n cs -> serves fd n n' -> exists cs', session n' cs'.
Proof.
  intros Hn H. pose proof Hn as [Hwf Hsn Hok _ Hsl].
  destruct H as [n ctx fuel r t' HA Hr Hfuel|n ctx fuel r t' HA Hr Hst Hrp|n vi1 q thr Hi|n m x sock Hm Hx
    |n m x data Hm Hx|n m x m' Hm HW|n m x Hm|n m x replid offset pid reply m' sn' Hm Hx Hfile Hpid HP
    |n pid Hpid|n fs|n m c exit fs fs1 path sn1 fs2 pid m' sn' Hm Hc Hpid Hrun HT HD].
  - destruct (ApplyMutation_effect fuel ctx _ Hwf Hfuel) as (r' & t1 & HA' & Hwf' & HJ). rewrite HA in HA'. simplify_eq.
    destruct (HJ Hr) as (vs & cs' & _ & _ & [J1 J2 _ J4]). eexists.
    apply (session_write n t1 cs _ Hn Hwf' J1); [|exact J4]. by eexists.
  - exists cs. apply session_replay; [done| |by rewrite Hst|done]. by apply (strip_wf (n_targets n)).
  - destruct (get_step (n_targets n) vi1 q thr Hi Hwf) as [Hwf' He]. exists cs.
    apply session_replay; [done|done|by symmetry|done].
  - exists cs. apply (session_master n m _ cs Hn Hm).
    + etrans; [apply (stays_set_conn fd x)|apply stays_set_conns].
    + intros g Hg. by apply OnConnection_ok.
  - exists cs. apply (session_master n m _ cs Hn Hm); [apply stays_SendTo|]. intros g Hg.
    apply (master_ok_others g pic others_may _ m _ x Hg); [apply others_SendTo|apply SendTo_conn_ok, Hg|].
    by apply slave_ok_gone, SendTo_gone.
  - exists cs. apply (session_master n m _ cs Hn Hm); [by apply (stays_OnWritable fd) in HW|]. intros g Hg.
    by eapply OnWritable_ok.
  - exists cs. apply (session_master n m _ cs Hn Hm); [apply stays_ForceClose|]. intros g Hg. by apply ForceClose_ok.
  - exists cs. destruct (OnPsync_other fd x _ _ _ _ _ _ _ _ _ Hx HP) as (H1 & H2 & H3).
    apply (session_with n m m' sn' cs Hn Hm); [by apply H3|]. intros Ht s' Hs' Hsz.
    destruct (H1 ltac:(intros s Hs Hst; by apply (Ht s Hs Hsz))) with (1 := Hs') as (s & Hs & Hb & Hw).
    destruct (Ht s Hs Hsz) as ((g & Hg & Hg0) & Hb0 & Hw0). split_and!; [|congruence|].
    + eexists. split; [by eapply OnPsync_ok|]. unfold at_psync. by rewrite decide_False by (by intros ->).
    + intros Hst. destruct (Hw0 (Hw Hst)) as [A1 A2]. destruct (H2 A1) as [B1 ->]. by split.
  - exists cs. destruct (BackgroundSave_kept (n_snap n) (n_stores n) pid Hsn Hpid) as [H1 H2].
    apply (session_snap n _ cs Hn H1). intros c Hc. by rewrite (H2 c Hc).
  - exists cs. apply (session_snap n _ cs Hn); [|intros c]; unfold OnReapTimer, ReapSaveChild, supervised in *; cbn.
    + destruct (child_pid_ (n_snap n) <=? 0), (0 <? child_pid_ (n_snap n)) eqn:E; cbn; rewrite ?E; cbn;
        destruct (child (n_snap n)); try done; bool_facts; naive_solver lia.
    + by destruct (child_pid_ (n_snap n) <=? 0), (0 <? child_pid_ (n_snap n)) eqn:E; cbn; rewrite ?E.
  - exists cs. by apply (session_reap n m c exit fs fs1 path sn1 fs2 pid m' sn' cs).
Qed.

Lemma serve_session n n' cs : session n cs -> rtc (serves fd) n n' -> exists cs', session n' cs'.
Proof.
  intros Hn H. revert cs Hn. induction H as [n|n1 n2 n3 H _ IH]; intros cs Hn; [by exists cs|].
  destruct (serves_session n1 n2 cs Hn H) as [cs2 H2]. by apply (IH cs2).
Qed.

(** While [fd] waits, nothing has been said about its snapshot. *)
Lemma master_ok_pic g P hs m :
  master_ok g P anyone hs m -> (forall s, slaves_ m !! fd = Some s -> state s = kWaitRdb) -> master_ok g pic others_may hs m.
Proof.
  intros [H1 H2 H3 H4 H5] Hw. split; try done. intros x s Hs. destruct (H4 x s Hs) as (A1 & A2 & A3 & A4).
  split_and!; [done|done|done|]. unfold told in *. destruct (decide (x = fd)) as [->|Hne]; [by rewrite (Hw s Hs) in A4 |- *|].
  assert (forall img, pic x img) as Hp by (by intros img ?).
  destruct (state s); naive_solver.
Qed.

(** A full resynchronisation starts a save, if there is none. *)
Lemma StartFullsync_starts m sn st pid :
  slaves_ m !! fd = Some (mkSlave fd kWaitRdb (tip_ (backlog_ m))) -> fullsync_active_ m = false ->
  save_started_for_fullsync_ m = false -> supervised sn -> child sn = None -> 0 < pid ->
  s_index st = Some vi -> s_kv st = Some kv ->
  exists m' sn', StartFullsyncIfNeeded m sn st pid = Some (m', sn') /\
    slaves_ m' !! fd = Some (mkSlave fd kWaitRdb (tip_ (backlog_ m))) /\ save_started_for_fullsync_ m' = true /\
    child sn' = Some (mkChild st kFullsyncPath) /\ supervised sn'.
Proof.
  intros Hs Hact Hsv Hsn Hch Hpid Hi Hk. pose proof Hsn as Hc. unfold supervised in Hc. rewrite Hch in Hc.
  unfold StartFullsyncIfNeeded. rewrite Hsv, Hact.
  assert (existsb (waiting m) (slave_fds m) = true) as ->.
  { apply existsb_exists. exists fd. split; [apply list_elem_of_In, slave_fds_elem; by eexists|].
    unfold waiting. rewrite Hs. by apply bool_decide_eq_true. }
  cbn [negb]. rewrite (proj2 (Z.ltb_ge _ _) Hc). unfold BackgroundSaveToPath. rewrite Hi, Hk.
  change (is_empty kFullsyncPath) with false. rewrite (proj2 (Z.ltb_ge _ _) Hc), (proj2 (Z.ltb_ge _ _)) by lia.
  eexists _, _. split; [done|]. split_and!; [|done|done|].
  - cbn. by rewrite lookup_fmap, Hs.
  - unfold supervised. cbn. split_and!; done || lia.
Qed.

(** PSYNC for a full resynchronisation, when there is none and no save. *)
Lemma OnPsync_session P g m0 n0 replid offset pid reply m1 sn1 :
  mrun P hs0 g m0 -> t_repl (n_targets n0) = Some (Some m0) -> targets_wf (n_targets n0) -> supervised (n_snap n0) ->
  n_stores n0 = mkStores (Some vi) (Some kv) -> t0 = strip (n_targets n0) ->
  fd ∈ conns_ m0 -> closed_ (conn_of fd m0) = false -> sent (conn_of fd m0) = [] -> sendfile_fd_ (conn_of fd m0) = None ->
  fullsync_active_ m0 = false -> save_started_for_fullsync_ m0 = false -> child (n_snap n0) = None ->
  WantsFullsync replid offset = true -> 0 < pid ->
  OnPsync fd replid offset m0 (Some (n_snap n0)) (n_stores n0) pid = Some (reply, m1, Some sn1) ->
  session (mkNode (MutationApply.with_repl (n_targets n0) (Some m1)) sn1) [].
Proof.
  intros Hr Hm0 Hwf Hsn Hst Ht0 Hin Hc Hsent Hfile Hact Hsv Hch Hfs Hpid HP.
  pose proof (OnPsync_ok P g anyone hs0 fd _ _ _ _ _ _ _ _ _ (mrun_ok _ _ _ _ Hr) Hfile I HP) as Hok. rewrite Hsent in Hok.
  unfold OnPsync in HP. rewrite bool_decide_eq_true_2, Hc in HP by done. cbn [negb orb] in HP. rewrite Hfs in HP. cbn [negb andb] in HP.
  set (m2 := RemoveSlave fd m0) in *.
  assert (fullsync_active_ m2 = false /\ save_started_for_fullsync_ m2 = false /\ backlog_ m2 = backlog_ m0) as (F1 & F2 & F3).
  { unfold m2, RemoveSlave. by destruct (_ && _). }
  rewrite F3 in HP. set (m3 := set_slaves m2 _) in *.
  destruct (StartFullsync_starts m3 (n_snap n0) (n_stores n0) pid) as (m4 & sn4 & E & S1 & S2 & S3 & S4); try done.
  { cbn. rewrite lookup_insert_eq. by rewrite F3. }
  { by rewrite Hst. }
  { by rewrite Hst. }
  rewrite E in HP. injection HP as _ <- <-. change (backlog_ m3) with (backlog_ m2) in S1. rewrite F3 in S1.
  pose proof (holds_tip _ _ (mo_backlog _ _ _ _ _ (mrun_ok _ _ _ _ Hr))) as Htip.
  split; [done|done|done| |].
  - exists t0. split; [done|]. by rewrite Ht0.
  - intros m' [= <-] s Hs _. cbn [fmap list_fmap]. rewrite app_nil_r. assert (s = mkSlave fd kWaitRdb (tip_ (backlog_ m0))) as -> by congruence.
    split_and!; [|done|].
    + eexists. split; [apply (master_ok_pic _ P _ _ Hok)|unfold at_psync; by rewrite decide_True].
      intros s Hs'. by assert (s = mkSlave fd kWaitRdb (tip_ (backlog_ m0))) as -> by congruence.
    + intros _. split; [done|]. etrans; [exact S3|by rewrite Hst].
Qed.


End Session.

(** ** Lemmas: the end of a session *)

Lemma mrun_frames P hs g m : mrun P hs g m -> nonempty_frames hs.
Proof. induction 1; try done; [by constructor|]. apply Forall_app. split; [done|]. by constructor. Qed.

Lemma size_of_frames_0 fs : nonempty_frames fs -> size_of (mjoin fs) = 0 -> fs = [].
Proof.
  intros Hf H. destruct Hf as [|f fs Hf _]; [done|]. change (mjoin (f :: fs)) with (f ++ mjoin fs) in H.
  rewrite size_of_app in H. pose proof (size_of_nonneg (mjoin fs)). destruct f; [done|]. unfold size_of in *. cbn in *. lia.
Qed.

(** Where a history of frames is cut is determined by the offset. *)
Lemma same_cut (a b c d : list bytes) :
  nonempty_frames (a ++ b) -> a ++ b = c ++ d -> size_of (mjoin a) = size_of (mjoin c) -> a = c /\ b = d.
Proof.
  intros Hf Heq Hsz. pose proof Heq as Heq'. apply app_eq_inv in Heq as [(k & -> & Hk)|(k & Hk & ->)].
  - rewrite join_app, size_of_app in Hsz. assert (k = []) as ->; [|by rewrite app_nil_r].
    apply size_of_frames_0; [|lia]. unfold nonempty_frames in *. rewrite !Forall_app in Hf. by destruct Hf as [[_ ?] _].
  - subst c. rewrite join_app, size_of_app in Hsz. assert (k = []) as ->; [|by rewrite app_nil_r].
    apply size_of_frames_0; [|lia]. unfold nonempty_frames in *. rewrite Heq', !Forall_app in Hf. by destruct Hf as [[_ ?] _].
Qed.

(** What a replica in sync has been sent in all. *)
Lemma session_transcript fd hs0 vi kv t0 n cs m s :
  session fd hs0 vi kv t0 n cs -> nonempty_frames hs0 -> master n = Some m -> slaves_ m !! fd = Some s ->
  state s = kSynced -> pending (conn_of fd m) = [] -> portable vi kv ->
  size_of (mjoin hs0) + size_of (frames cs) < 2 ^ 64 ->
  exists cs1 cs2, cs = cs1 ++ cs2 /\ replid_ok (replid_ m) /\
    wire (conn_of fd m) = transcript (replid_ m) (size_of (mjoin hs0)) (rdb_image vi kv) (frames cs1) (frames cs2) /\
    tip_ (backlog_ m) = size_of (mjoin hs0) + size_of (frames cs).
Proof.
  intros [_ _ Hok _ Hsl] Hne Hm Hs Hst Hp Hpo Hsz. rewrite <- size_of_app in Hsz. unfold frames in *.
  assert (mjoin (hs0 ++ (frame_of <$> cs)) = mjoin hs0 ++ mjoin (frame_of <$> cs)) as Hj by apply join_app.
  destruct (Hsl m Hm s Hs ltac:(by rewrite Hj)) as ((g & Hg & Hg0) & Hb & _).
  pose proof (holds_tip _ _ (mo_backlog _ _ _ _ _ Hg)) as Htip. rewrite Hj, size_of_app in Htip.
  destruct (mo_slaves _ _ _ _ _ Hg fd s Hs) as (_ & _ & _ & Ht). unfold told in Ht. rewrite Hst, Hg0 in Ht.
  destruct Ht as (_ & [(pre & mid & live & img & Heq & Hbs & Hpic & Hsent)|[Hc _]]); [|done].
  destruct (same_cut hs0 (frame_of <$> cs) pre (mid ++ live)) as [-> Hcs]; [|done|congruence|].
  { apply Forall_app. split; [done|by apply write_frames_nonempty]. }
  apply fmap_app_inv in Hcs as (cs1 & cs2 & -> & -> & ->). exists cs1, cs2.
  split_and!; [done|by apply replid_good_ok, (mo_replid _ _ _ _ _ Hg)| |done].
  unfold sent in Hsent. rewrite Hp, app_nil_r in Hsent. rewrite Hsent, Hbs, (Hpic eq_refl Hpo). done.
Qed.

(** ** Properties *)

(** A replica on [fd] asks for a full resynchronisation: its connection is open
    and has been sent nothing, there is no other resynchronisation and no save.
    [hs0] are the frames the master has streamed so far, and [vi] and [kv] the
    stores of which the child takes its copy. *)
Definition resync_begins (fd : Z) (hs0 : list bytes) (vi : VNodeIndex.VNodeIndex) (kv : KvStore.KvStore) (n0 n1 : Node) : Prop :=
  exists P g m0 replid offset pid reply m1 sn1,
    mrun P hs0 g m0 /\ t_repl (n_targets n0) = Some (Some m0) /\ targets_wf (n_targets n0) /\ supervised (n_snap n0) /\
    n_stores n0 = mkStores (Some vi) (Some kv) /\
    fd ∈ conns_ m0 /\ closed_ (conn_of fd m0) = false /\ sent (conn_of fd m0) = [] /\ sendfile_fd_ (conn_of fd m0) = None /\
    fullsync_active_ m0 = false /\ save_started_for_fullsync_ m0 = false /\ child (n_snap n0) = None /\
    WantsFullsync replid offset = true /\ 0 < pid /\
    OnPsync fd replid offset m0 (Some (n_snap n0)) (n_stores n0) pid = Some (reply, m1, Some sn1) /\
    n1 = mkNode (MutationApply.with_repl (n_targets n0) (Some m1)) sn1.

(** C1: a replica follows its master.  A replica asks a master for a full
    resynchronisation while no other one and no save is under way
    ([resync_begins]), and the master goes on serving ([serves]): clients write and
    look things up, connections come and go, sockets take as much as they want,
    other replicas ask, saves are made, and the child saves the copy it has.  Left
    out are the two refusals after which the master's own stores may differ from
    its stream: "aof append failed" and "vset failed" (unless they changed
    nothing).  Whenever the master counts the replica as in sync and all its output
    is sent, there are commands [cs], the writes since, such that replaying them on
    the stores as they were at the start gives the stores of the master (up to the
    access order).  A replica that reads what it was sent, in whatever pieces, from
    any stores it had before, loads the snapshot.  If its own stores then take
    [cs] ([redo_stores] is [Some st]: its vector index refuses none of the vectors,
    as the index of the default build does after a mapped snapshot, see
    [ReplicaView.viewed_replica_stuck]), it goes on streaming, and holds the same
    key-value store and the same nodes under the same ids as the master, at the
    offset and with the id from which the master lets it continue. *)
Theorem replica_follows_master (mmap_build view : bool) (clock : nat -> Z) (fd : Z) (hs0 : list bytes)
    (vi vi0 : VNodeIndex.VNodeIndex) (kv kv0 : KvStore.KvStore) (n0 n1 n : Node) (m : ReplicationMaster) (s : Slave)
    (fs : Fs) (host : bytes) (port : Z) (sock : list SendResult) (ds : list bytes) :
  resync_begins fd hs0 vi kv n0 n1 -> rtc (serves fd) n1 n ->
  master n = Some m -> slaves_ m !! fd = Some s -> state s = kSynced -> pending (conn_of fd m) = [] ->
  portable vi kv -> can_start fs host port sock -> Forall (fun d => d <> []) ds -> mjoin ds = wire (conn_of fd m) ->
  exists cs um, redo cs (strip (n_targets n0)) = Some um /\ eqv_targets um (strip (n_targets n)) /\
    (Forall frame_fits cs -> size_of (mjoin hs0) + size_of (frames cs) < 2 ^ 63 -> size_of (frames cs) <= kMaxString ->
     exists s0 vi',
       Start (ReplicationSlave.construct true true (mkStores (Some vi0) (Some kv0)) fs) host port (Some sock) = (true, s0) /\
       restored vi vi0 vi' /\
       forall st, redo_stores cs (mkStores (Some vi') (Some kv)) = Some st ->
         exists sl, run mmap_build view clock s0 (piece <$> ds) = Some sl /\ watched sl /\ state_ sl = kStreaming /\
           stores sl = st /\ same_data (s_index st) (s_kv st) (t_index (n_targets n)) (t_kv (n_targets n)) /\
           master_replid_ sl = replid_ m /\ have_offset_ sl = true /\ repl_offset_ sl = tip_ (backlog_ m)).
Proof.
  intros (P & g & m0 & replid & offset & pid & reply & m1 & sn1 & Hr & Hm0 & Hwf & Hsn & Hst0 & Hin & Hc & Hsent & Hfile & Hact
    & Hsv & Hch & Hfs & Hpid & HP & ->) Hserve Hm Hs Hst Hp Hpo Hcan Hds Hjoin.
  pose proof (OnPsync_session fd hs0 vi kv _ P g m0 n0 _ _ _ _ _ _ Hr Hm0 Hwf Hsn Hst0 eq_refl Hin Hc Hsent Hfile Hact Hsv
    Hch Hfs Hpid HP) as H0.
  destruct (serve_session _ _ _ _ _ _ _ _ H0 Hserve) as (cs & Hcs). destruct (ss_redo _ _ _ _ _ _ _ Hcs) as (um & Hum & He).
  exists cs, um. split_and!; [done|done|]. intros Hff Hsz Hmax.
  destruct (session_transcript _ _ _ _ _ _ _ _ _ Hcs (mrun_frames _ _ _ _ Hr) Hm Hs Hst Hp Hpo ltac:(lia))
    as (cs1 & cs2 & -> & Hid & Hwire & Htip).
  pose proof (size_of_nonneg (mjoin hs0)). pose proof (frames_app cs1 cs2) as Hfa. rewrite Hfa, size_of_app in Hsz, Hmax.
  pose proof (size_of_nonneg (frames cs2)).
  destruct (resync_converges mmap_build view clock (replid_ m) (size_of (mjoin hs0)) vi vi0 kv kv0 cs1 cs2 fs host port sock ds)
    as (s0 & vi' & HS & Hres & Hrun); try done; [lia|lia|split; [apply Hcs|done]|congruence|].
  exists s0, vi'. split_and!; [done|done|]. intros st Hredo. pose proof Hredo as Hredo'.
  unfold redo_stores in Hredo. apply fmap_Some in Hredo as (u & Hu & ->).
  destruct (Hrun u Hu) as (sl & R1 & R2 & R3 & R4 & R5 & R6 & R7). exists sl. split_and!; try done.
  - injection Hst0 as Hi Hk.
    assert (same_data (t_index u) (t_kv u) (t_index um) (t_kv um)) as [D1 D2].
    { apply (redo_stores_data (cs1 ++ cs2) (strip (n_targets n0)) um (mkStores (Some vi') (Some kv)) (stores_of u)); try done.
      split; cbn; [rewrite Hi; cbn; by rewrite (rs_storage _ _ _ Hres)|by rewrite Hk]. }
    destruct He as [E1 E2]. split; cbn; [|by rewrite D2, E2]. rewrite D1.
    cbn in E1. destruct E1 as [a b E1|]; [|done]. cbn. by rewrite (eqv_storage _ _ E1).
  - by rewrite R7, Htip, <- Hfa.
Qed.

End Master.

Section Resume.
Context `{U : !Usearch} `{UL : !UsearchLaws U} `{OB : !IterOrder bytes} `{OZ : !IterOrder Z} `{W : !Wal} `{R : !Repl}.

(** What the master has sent to a replica that it told to continue. *)
Lemma continue_transcript P pre cs g m fd s :
  mrun P (pre ++ (frame_of <$> cs)) g m -> slaves_ m !! fd = Some s -> state s = kSynced ->
  g fd = [] -> pending (conn_of fd m) = [] -> starts_with (bs "+CONTINUE") (wire (conn_of fd m)) = true ->
  backlog_start s = size_of (mjoin pre) ->
  wire (conn_of fd m) = continue_line ++ frames cs /\ tip_ (backlog_ m) = size_of (mjoin pre) + size_of (frames cs).
Proof.
  intros Hr Hs Hst Hg Hp Hcont Hb. pose proof (mrun_ok _ _ _ _ Hr) as Hm.
  pose proof (holds_tip _ _ (mo_backlog _ _ _ _ _ Hm)) as Htip. rewrite join_app, size_of_app in Htip. split; [|exact Htip].
  destruct (mo_slaves _ _ _ _ _ Hm fd s Hs) as (_ & _ & _ & Ht). unfold told in Ht. rewrite Hst, Hg in Ht.
  unfold sent in Ht. rewrite Hp, app_nil_r in Ht. destruct Ht as (_ & [(x & mid & live & img & _ & _ & _ & Hw)|(_ & _ & Hw)]).
  - exfalso. rewrite Hw in Hcont. unfold transcript, reply_line, simple_string, reply_text in Hcont. cbn in Hcont. done.
  - rewrite Hw, Hb. unfold size_of at 1. rewrite Nat2Z.id, join_app, drop_app_length. done.
Qed.

(** C3: a replica that comes back catches up.  A replica has lost its link at some
    offset of the master's history, which is made of the writes the master has fed
    to its backlog (it feeds none while it has no replica, see
    [ReplicationStream.unreplicated_writes_lost]); the writes [cs] are those fed
    since.  When it has connected again, and the master has told it to continue
    from there and counts it as in sync, with all its output sent, and when its
    stores take [cs] ([redo_stores] is [Some st]; an index that refuses a vector
    stops it, see [ReplicaView.viewed_replica_stuck]): the replica that reads all
    it was sent, in whatever pieces, applies exactly [cs], each command once and in
    order, and ends up streaming at the master's offset.  So if it held the data of
    some stores [t] when it lost the link -- the master's, if the master has fed
    every write since -- it holds the data of [t] after [cs]. *)
Theorem replica_resumes (mmap_build view : bool) (clock : nat -> Z) (P : Z -> bytes -> Prop) (pre : list bytes)
    (cs : list RequestContext) (g : Z -> bytes) (m : ReplicationMaster) (fd : Z) (s : Slave)
    (sl : ReplicationSlave) (sock : list SendResult) (ds : list bytes) (st : Stores) :
  mrun P (pre ++ (frame_of <$> cs)) g m -> slaves_ m !! fd = Some s -> state s = kSynced ->
  g fd = [] -> pending (conn_of fd m) = [] -> starts_with (bs "+CONTINUE") (wire (conn_of fd m)) = true ->
  backlog_start s = size_of (mjoin pre) ->
  core sl -> have_offset_ sl = true -> repl_offset_ sl = size_of (mjoin pre) -> accepts sock = true ->
  replayable cs -> size_of (mjoin pre) + size_of (frames cs) < 2 ^ 63 -> redo_stores cs (stores sl) = Some st ->
  Forall (fun d => d <> []) ds -> mjoin ds = wire (conn_of fd m) ->
  exists sl', run mmap_build view clock (OnReconnectTimer sl (Some sock)) (piece <$> ds) = Some sl' /\ watched sl' /\
    state_ sl' = kStreaming /\ stores sl' = st /\ master_replid_ sl' = master_replid_ sl /\ have_offset_ sl' = true /\
    repl_offset_ sl' = tip_ (backlog_ m) /\
    forall t t' : Targets, redo cs t = Some t' ->
      same_data (s_index (stores sl)) (s_kv (stores sl)) (t_index t) (t_kv t) ->
      same_data (s_index st) (s_kv st) (t_index t') (t_kv t').
Proof.
  intros Hr Hs Hst Hg Hp Hcont Hb Hc Hh Hoff Hsock Hcs Hbig Hredo Hds Hjoin.
  destruct (continue_transcript _ _ _ _ _ _ _ Hr Hs Hst Hg Hp Hcont Hb) as [Hw Htip]. rewrite Hw in Hjoin.
  destruct (resume_converges mmap_build view clock cs sl sock ds st) as (sl' & H1 & H2 & H3 & H4 & H5 & H6 & H7); try done.
  { rewrite Hoff. apply size_of_nonneg. }
  { by rewrite Hoff. }
  exists sl'. split_and!; try done; [by rewrite H7, Hoff, Htip|]. intros t t' Ht Hd.
  by apply (redo_stores_data cs t t' (stores sl) st).
Qed.

End Resume.

(** ** Witnesses *)

#[local] Existing Instances flat_usearch flat_laws list_wal list_wal_laws.
#[local] Instance demo_orderZ : IterOrder Z := default_order Z.
#[local] Instance demo_orderB : IterOrder bytes := default_order bytes.

Definition demo_node : Node :=
  mkNode (mkTargets (Some VNodeIndex.demo) (Some KvStore.demo) None
            (Some (Some (demo_accept 5 (replicate 12 (Sent 999)) demo_master))))
         (SnapshotManager.construct (bs "d")).

(** The steps of the example; [None] if one is not possible. *)
Definition do_psync (n : Node) : option Node :=
  match master n with
  | Some m =>
      match OnPsync 5 (bs "?") (-1) m (Some (n_snap n)) (n_stores n) 77 with
      | Some (_, m', Some sn') => Some (mkNode (MutationApply.with_repl (n_targets n) (Some m')) sn')
      | _ => None
      end
  | None => None
  end.

Definition do_write (ctx : RequestContext) (n : Node) : option Node :=
  match ApplyMutation 20 ctx kClient (n_targets n) with
  | Some (r, t') => if ok r && bool_decide (nodes (n_targets n) <= 18)%nat then Some (mkNode t' (n_snap n)) else None
  | None => None
  end.

Definition do_reap (n : Node) : option Node :=
  match master n, child (n_snap n) with
  | Some m, Some c =>
      match RunChild c SnapshotManager.demo_fs with
      | (Exited true, fs1) =>
          match OnReapTimer (n_snap n) (Exited true) fs1 with
          | (Some (true, path), sn1, fs2) =>
              match OnSaveDone true path m sn1 (n_stores n) 78 fs2 with
              | Some (m', sn') => Some (mkNode (MutationApply.with_repl (n_targets n) (Some m')) sn')
              | None => None
              end
          | _ => None
          end
      | _ => None
      end
  | _, _ => None
  end.

Lemma do_write_serves ctx n n' : do_write ctx n = Some n' -> serves 5 n n'.
Proof.
  unfold do_write. destruct (ApplyMutation _ _ _ _) as [[r t']|] eqn:E; [|done].
  destruct (ok r) eqn:Hr; [|done]. case_bool_decide; [|done]. intros [= <-]. by apply (sv_write 5 n ctx 20 r t' E (ok_in_step _ Hr)); lia.
Qed.

Lemma do_reap_serves n n' : do_reap n = Some n' -> serves 5 n n'.
Proof.
  unfold do_reap. destruct (master n) as [m|] eqn:Em; [|done]. destruct (child (n_snap n)) as [c|] eqn:Ec; [|done].
  destruct (RunChild c _) as [[| |[]] fs1] eqn:ER; try done.
  destruct (OnReapTimer _ _ _) as [[[[[] path]|] sn1] fs2] eqn:ET; try done.
  destruct (OnSaveDone _ _ _ _ _ _ _) as [[m' sn']|] eqn:ED; [|done]. intros [= <-].
  by apply (sv_reap 5 n m c true SnapshotManager.demo_fs fs1 path sn1 fs2 78 m' sn').
Qed.

(** One write before the child has saved, one after. *)
Definition demo_set2 : RequestContext := mkCtx 7 kSet [] [] [] [] 0 (bs "name") (bs "vemory") [] (-1) 0.

Definition demo_begun : option Node := do_psync demo_node.
Definition demo_ended (n : Node) : option Node :=
  match do_write demo_set n with
  | Some n => match do_reap n with Some n => do_write demo_set2 n | None => None end
  | None => None
  end.

Definition demo_after : option Node := match demo_begun with Some n => demo_ended n | None => None end.

(** What the master has: the replica's state, whether all is sent, and the bytes. *)
Definition demo_view (n : Node) : option (option Slave * bool * bytes) :=
  (fun m => (slaves_ m !! 5, is_empty (pending (conn_of 5 m)), wire (conn_of 5 m))) <$> master n.

Definition demo_start (st : Stores) : bool * ReplicationSlave :=
  Start (ReplicationSlave.construct true true st SnapshotManager.demo_fs) (bs "master") 6379 (Some [Sent 100]).

Lemma demo_begins n1 :
  demo_begun = Some n1 -> resync_begins 5 [] VNodeIndex.demo KvStore.demo demo_node n1.
Proof.
  intros H. unfold demo_begun, do_psync in H. destruct (master demo_node) as [m0|] eqn:Em; [|done].
  destruct (OnPsync _ _ _ _ _ _ _) as [[[reply m1] [sn1|]]|] eqn:EP; try done. injection H as <-.
  exists no_pic, (fun _ => []), m0, (bs "?"), (-1), 77, reply, m1, sn1.
  injection Em as <-. split_and!;
    [apply demo_accept_run|reflexivity| |done|reflexivity|apply (bool_decide_unpack _); vm_compute; exact I
    |reflexivity|reflexivity|reflexivity|reflexivity|reflexivity|reflexivity|reflexivity|reflexivity|exact EP|reflexivity].
  split_and!; [apply VNodeIndex.demo_ok|apply VNodeIndex.demo_ok|vm_compute; discriminate].
Qed.

Lemma replica_follows_master_witness :
  exists n m cs um, demo_after = Some n /\ master n = Some m /\
    redo cs (strip (n_targets demo_node)) = Some um /\ eqv_targets um (strip (n_targets n)) /\
    (Forall frame_fits cs -> size_of (frames cs) <= kMaxString ->
     exists s0 vi', demo_start demo_stores = (true, s0) /\
       forall st, redo_stores cs (mkStores (Some vi') (Some KvStore.demo)) = Some st ->
         exists sl, run true true (fun _ => 0) s0 (piece <$> [take 70 (wire (conn_of 5 m)); drop 70 (wire (conn_of 5 m))]) = Some sl /\
           state_ sl = kStreaming /\ stores sl = st /\ repl_offset_ sl = tip_ (backlog_ m)).
Proof.
  assert (option_map (fun p => p.1) (demo_after ≫= demo_view) = Some (Some (mkSlave 5 kSynced 0), true)) as HV
    by (vm_compute; reflexivity).
  assert (option_map (fun p => bool_decide (take 70 p.2 <> [] /\ drop 70 p.2 <> [])) (demo_after ≫= demo_view) = Some true) as HW
    by (vm_compute; reflexivity).
  unfold demo_after in *. destruct demo_begun as [n1|] eqn:E1; [|discriminate HV]. unfold demo_ended in *.
  destruct (do_write demo_set n1) as [n2|] eqn:E2; [|discriminate]. destruct (do_reap n2) as [n3|] eqn:E3; [|discriminate].
  destruct (do_write demo_set2 n3) as [n|] eqn:E4; [|discriminate]. cbn [mbind option_bind] in HV, HW.
  unfold demo_view in HV, HW. destruct (master n) as [m|] eqn:Em; [|discriminate]. cbn in HV, HW.
  injection HV as Hs Hp. injection HW as HW. apply bool_decide_eq_true in HW as [W1 W2].
  destruct (replica_follows_master true true (fun _ => 0) 5 [] VNodeIndex.demo (VNodeIndex.construct 8 5) KvStore.demo KvStore.empty
    demo_node n1 n m (mkSlave 5 kSynced 0) SnapshotManager.demo_fs (bs "master") 6379 [Sent 100]
    [take 70 (wire (conn_of 5 m)); drop 70 (wire (conn_of 5 m))]) as (cs & um & H1 & H2 & H3).
  - by apply demo_begins.
  - eapply rtc_l; [by eapply do_write_serves|]. eapply rtc_l; [by apply do_reap_serves|].
    eapply rtc_l; [by eapply do_write_serves|]. apply rtc_refl.
  - done.
  - done.
  - done.
  - by apply is_empty_true.
  - split_and!; [apply demo_savable|vm_compute; reflexivity|]. split; [vm_compute; discriminate|]. intros _. vm_compute. eauto.
  - split_and!; try reflexivity. discriminate.
  - by repeat constructor.
  - cbn. by rewrite app_nil_r, take_drop.
  - exists n, m, cs, um. split_and!; [done|done|done|done|]. intros Hf Hsz.
    destruct (H3 Hf ltac:(unfold kMaxString in Hsz; change (size_of (mjoin [])) with 0; lia) Hsz) as (s0 & vi' & S1 & _ & S2). exists s0, vi'. split; [exact S1|]. intros st Hst.
    destruct (S2 st Hst) as (sl & R1 & _ & R2 & R3 & _ & _ & _ & R4). by exists sl.
Defined.

(** The replica of the example, evaluated: it has the master's data. *)
Example demo_followed :
  (n ← demo_after; v ← demo_view n;
   let '(_, s0) := demo_start demo_stores in
   sl ← run true true (fun _ => 0) s0 (piece <$> [take 70 v.2; drop 70 v.2]);
   let name := fun kv => (KvStore.Get kv (bs "name") (Some [])).2 in
   Some (bool_decide (state_ sl = kStreaming), name <$> s_kv (stores sl), name <$> t_kv (n_targets n))) =
  Some (true, Some (Some (bs "vemory")), Some (Some (bs "vemory"))).
Proof. vm_compute. reflexivity. Qed.

(** A replica that lost its link at offset 4, and what the master tells it. *)
Definition demo_lost : ReplicationSlave := set_offset (demo_start demo_stores).2 (bs "id") 4 true.

Lemma demo_lost_core : core demo_lost.
Proof.
  assert ((loop_ demo_lost, snapshot_ demo_lost, closing_ demo_lost, stopping_ demo_lost, backoff_ms_ demo_lost) =
    (true, true, false, false, kMinBackoffMs)) as HV by (vm_compute; reflexivity).
  apply pair_equal_spec in HV as [HV H5]. apply pair_equal_spec in HV as [HV H4].
  apply pair_equal_spec in HV as [HV H3]. apply pair_equal_spec in HV as [H1 H2].
  split; [exact H1|exact H2|exact H3|exact H4|]. rewrite H5. split; vm_compute; discriminate.
Qed.

Definition demo_more : option ReplicationMaster :=
  match demo_synced (replicate 9 (Sent 999)) with
  | Some m => FeedEncodedFrame (frame_of demo_set2) m
  | None => None
  end.

Definition demo_back : option ReplicationMaster :=
  match demo_more with
  | Some m =>
      match OnPsync 7 (replid_ m) 4 (demo_accept 7 (replicate 9 (Sent 999)) m) (Some (SnapshotManager.construct (bs "d")))
              demo_stores 79 with
      | Some (_, m, Some _) => Some m
      | _ => None
      end
  | None => None
  end.

Lemma demo_back_run m :
  demo_back = Some m -> exists g, mrun no_pic ([bs "SET1"] ++ (frame_of <$> [demo_set2])) g m /\ g 7 = [].
Proof.
  intros H. assert (option_map (fun m => bool_decide (7 ∉ conns_ m)) demo_more = Some true) as HN by (vm_compute; reflexivity).
  unfold demo_back, demo_more in *.
  destruct (demo_synced _) as [m1|] eqn:E1; [|discriminate H].
  destruct (FeedEncodedFrame _ m1) as [m2|] eqn:E2; [|discriminate H]. injection HN as HN. apply bool_decide_eq_true in HN.
  destruct (OnPsync _ _ _ _ _ _ _) as [[[reply m3] [sn|]]|] eqn:E3; [|discriminate H..]. injection H as <-.
  assert (mrun no_pic ([bs "SET1"] ++ [frame_of demo_set2]) (at_psync 5 [] (fun _ => [])) m2) as H2.
  { apply (run_feed no_pic [bs "SET1"] _ m1 (frame_of demo_set2) m2 (demo_synced_run _ _ E1)); [|vm_compute; reflexivity|exact E2].
    apply is_empty_false. vm_compute. reflexivity. }
  pose proof (run_accept _ _ _ _ 7 (replicate 9 (Sent 999)) H2 HN) as H3.
  eexists. split; [eapply (run_psync no_pic _ _ _ 7); [exact H3| |exact E3]|]; unfold OnConnection.
  - change (sendfile_fd_ (conn_of 7 (ReplicationMaster.set_conn 7 (TcpConnection.construct (replicate 9 (Sent 999))) m2)) = None).
    by rewrite conn_of_set_conn.
  - unfold at_psync. rewrite decide_True by done.
    change (sent (conn_of 7 (ReplicationMaster.set_conn 7 (TcpConnection.construct (replicate 9 (Sent 999))) m2)) = []).
    by rewrite conn_of_set_conn.
Qed.

Lemma replica_resumes_witness :
  exists m sl', demo_back = Some m /\
    run true true (fun _ => 0) (OnReconnectTimer demo_lost (Some [Sent 999]))
      (piece <$> [take 15 (wire (conn_of 7 m)); drop 15 (wire (conn_of 7 m))]) = Some sl' /\
    state_ sl' = kStreaming /\ repl_offset_ sl' = tip_ (backlog_ m) /\
    (fun kv => (KvStore.Get kv (bs "name") (Some [])).2) <$> s_kv (stores sl') = Some (Some (bs "vemory")).
Proof.
  assert ((fun m => (slaves_ m !! 7, is_empty (pending (conn_of 7 m)),
      starts_with (bs "+CONTINUE") (wire (conn_of 7 m)), bool_decide (take 15 (wire (conn_of 7 m)) <> [] /\ drop 15 (wire (conn_of 7 m)) <> [])))
    <$> demo_back = Some (Some (mkSlave 7 kSynced 4), true, true, true)) as HV by (vm_compute; reflexivity).
  destruct demo_back as [m|] eqn:E; [|discriminate HV]. cbn [fmap option_fmap option_map] in HV. injection HV as Hs Hp Hc HW.
  apply bool_decide_eq_true in HW as [W1 W2]. destruct (demo_back_run m E) as (g & Hr & Hg).
  assert ((fun st => (fun kv => (KvStore.Get kv (bs "name") (Some [])).2) <$> s_kv st) <$> redo_stores [demo_set2] (stores demo_lost) =
    Some (Some (Some (bs "vemory")))) as HK by (vm_compute; reflexivity).
  destruct (redo_stores [demo_set2] (stores demo_lost)) as [st|] eqn:Hst; [|discriminate HK]. injection HK as HK.
  destruct (replica_resumes true true (fun _ => 0) no_pic [bs "SET1"] [demo_set2] g m 7 (mkSlave 7 kSynced 4) demo_lost [Sent 999]
    [take 15 (wire (conn_of 7 m)); drop 15 (wire (conn_of 7 m))] st) as (sl' & R1 & _ & R2 & R3 & _ & _ & R4 & _).
  - exact Hr.
  - exact Hs.
  - reflexivity.
  - exact Hg.
  - by apply is_empty_true.
  - exact Hc.
  - reflexivity.
  - exact demo_lost_core.
  - vm_compute; reflexivity.
  - vm_compute; reflexivity.
  - reflexivity.
  - split; (constructor; [|constructor]); [done|]. apply frame_fits_check. vm_compute. reflexivity.
  - vm_compute. reflexivity.
  - exact Hst.
  - by repeat constructor.
  - cbn. by rewrite app_nil_r, take_drop.
  - exists m, sl'. split_and!; [done|exact R1|exact R2|exact R4|by rewrite R3].
Defined.
